(* ===== verification/_CoqProject ===== *)
-Q . S2P
Prelude.v
Endian.v
Varint.v
Double.v
ByteArray.v
ByteArraySpec.v
Codec.v
FileIO.v
ByteArrayTheorems.v
OrderedSet.v
Timer.v
TimerTheorems.v
Fiber.v
FiberTheorems.v
Scheduler.v
SchedulerTheorems.v
IOManager.v
IOManagerTheorems.v
FdManager.v
Hook.v
HookTheorems.v
Http.v
HttpTheorems.v
Log.v
LogTheorems.v
Ragel.v
CString.v
Http11Machine.v
Http11Parser.v
HttpClientMachine.v
HttpClientParser.v
HttpParser.v
Http11Run.v
Http11Safety.v
Decimal.v
RequestRun.v
HttpParserTheorems.v
ResponseSafety.v
ResponseRun.v
HttpResponseTheorems.v
Address.v
AddressTheorems.v
Config.v
ConfigTheorems.v
Socket.v
SocketTheorems.v
SocketEvents.v
Stream.v
StreamTheorems.v
HttpSession.v
HttpSessionTheorems.v
TcpServer.v
TcpServerTheorems.v
ByteArrayText.v
Echo.v
LogConfig.v
LogConfigTheorems.v
Mutex.v
MutexTheorems.v
Thread.v
ThreadTheorems.v
Util.v
Lifetime.v
HookInit.v
