(* ===== verification/Prelude.v ===== *)
(** A verification of apexstorm, a C++ library of fibers, scheduling,
    epoll-driven I/O and the pieces of an HTTP server built on it.

    * The program and its parts

    The library (under lib/) is layered.  A [Fiber] is a coroutine with a stack
    of its own; a [Scheduler] runs fibers and callbacks on several threads from
    one queue; a [TimerManager] keeps timers in order of time; an [IOManager]
    is both, and waits in epoll for descriptors and for the next timer.  The
    hooks (hook.cpp) replace blocking system calls by calls that suspend the
    fiber in the IOManager, with the descriptor table of [FdManager].
    [ByteArray] is the serializer, with the byte orders of endian.h.  Above
    them are HTTP messages, the logger, the configuration, addresses, sockets,
    streams and servers; below them locks, threads and utilities.  An example
    server is under examples/.

    * The files

    Prelude           outcomes of a C++ call, the state monad of the mutating
                      operations, std::function, machine integers, lists.
    Endian            endian.h: byte order, memory images, byteswap.
    Varint            bytearray.cpp: zigzag and base-128 compression.
    Double            bytearray.cpp: the double arithmetic of addCapacity.
    ByteArray         bytearray.cpp, bytearray.h: the chain of nodes, write,
                      read, setPosition, addCapacity, clear, iovecs, toString.
    ByteArraySpec     the invariant [Inv] and the flat [Buffer] the chain
                      refines.
    Codec             the typed readers and writers; class [Codec] is their
                      contract, with an instance for each pair.
    FileIO            writeToFile and readFromFile.
    ByteArrayTheorems properties of the serializer.
    OrderedSet        std::set with a comparator.
    Timer             timer.cpp, timer.h: [Timer] objects in a heap, the
                      ordered set of the manager.
    TimerTheorems     properties of the timers.
    Fiber             fiber.cpp, fiber.h: fibers in a heap, contexts as resume
                      points, the thread-local pointers.
    FiberTheorems     properties of fiber switching in one thread.
    Scheduler         scheduler.cpp, scheduler.h: the loop of run as a machine
                      whose steps are the atomic actions of the code, for any
                      number of workers.
    SchedulerTheorems properties over all interleavings.
    IOManager         iomanager.cpp, iomanager.h: events, epoll, idle.
    IOManagerTheorems properties of registration and delivery.
    FdManager         fdmanager.cpp, fdmanager.h, with the class [Kernel] of
                      the system calls, its laws and a concrete kernel.
    Hook              hook.cpp: the hooked calls as programs that ask the rest
                      of the system for answers.
    HookTheorems      properties of the table and of the hooked calls.
    Http              http.cpp, http/http.h: tables, maps, requests, responses.
    HttpTheorems      properties of the messages.
    Log               log.cpp, log.h: patterns, loggers, appenders, reloading.
    LogTheorems       properties of the logger.
    Ragel             what the generated machines use of C++.
    CString           strncmp, strtol, std::string and memmove on memory.
    Http11Machine     packages/http11/http11_parser.rl.cpp: each state and
                      transition of the request machine.
    Http11Parser      http11_parser.rl, .h: its actions, init and execute.
    HttpClientMachine, HttpClientParser
                      the same for the response machine.
    HttpParser        http_parser.cpp, http/http_parser.h: the callbacks and
                      [HttpRequestParer], [HttpResponseParer].
    Http11Run, Http11Safety, Decimal, RequestRun
                      lemmas: walks through the machine, a check of all its
                      transitions, the runs over each part of a request.
    HttpParserTheorems
                      properties of the request parser.
    ResponseSafety, ResponseRun
                      the same lemmas for the response machine.
    HttpResponseTheorems
                      properties of the response parser.
    Address           address.cpp, address.h: all classes of addresses over the
                      bytes of their sockaddr, masks, lookup, interfaces.
    AddressTheorems   properties of the addresses.
    Config            config.cpp, config.h: variables, conversions, listeners,
                      the registry, loading; the libraries are class [Libs].
    ConfigTheorems    properties of the configuration.
    Socket            socket.cpp, socket.h, with the class [NetKernel].
    SocketTheorems    properties of sockets.
    SocketEvents      socket.cpp: the calls that cancel events.
    Stream            stream.cpp, socket_stream.cpp: class [Stream], the loops,
                      [SocketStream] as its instance.
    StreamTheorems    transfers over a connection, class [TcpConn].
    HttpSession       http_session.cpp, http_server.cpp.
    HttpSessionTheorems
                      properties of sessions and of the handler.
    TcpServer         tcp_server.cpp, tcp_server.h: shared sockets in a store,
                      the callbacks given to the workers.
    TcpServerTheorems properties of the server.
    ByteArrayText     bytearray.cpp: toHexString and the destructor.
    Echo              examples/echo_server.cpp and its properties.
    LogConfig         log.cpp, log.h: the YAML of loggers and definitions, the
                      events and the macros that write them.
    LogConfigTheorems properties of the two.
    Mutex             mutex.h, mutex.cpp: the locks as instances of class
                      [Lockable], the guards written against it, threads that
                      use them, the semaphore.
    MutexTheorems     class [ExclusiveLock], what a lock promises, with an
                      instance for each that keeps it, and properties of
                      guarded threads over all interleavings.
    Thread            thread.h, thread.cpp: the life of a Thread object.
    ThreadTheorems    properties of it.
    Util              util.h, util.cpp, macro.h, singleton.h.
    Lifetime          scheduler.cpp, iomanager.cpp: the scheduler of a thread,
                      stop with its join, construction and destruction.
    HookInit          hook.cpp: the start of the hooks.

    Definitions keep the names of the source; where C++ overloads a name, the
    variants have a suffix (read_at, addTimer_ptr, setFormatter_ptr).

    * What is shown

    Across the components: a message of any sequence of fields, written on one
    host, sent and received over a connection that splits the bytes as it
    likes, reads back on any other host, as long as no call needs more than
    IOV_MAX iovecs (C1); a short request printed by a client is received by a
    session, and answered and closed by the server (C8, C13); a dump
    of the loggers is a configuration that gives them back (C19).

    Serializer: write and read refine a flat buffer on every branch (C3, C4),
    every reachable array is well formed (C14), messages read back (C15), the
    varint array is large enough (C40).  Theorems without a number: receiving
    through iovecs is writing, files, portable integers, zigzag, the
    hexadecimal text, and two calls that are wrong outside the states they are
    used in.

    Locks: threads that keep to the guards compute what they would if every
    critical section were one step (C6), locked guards exclude each other (C29),
    and no schedule deadlocks (C28), for one of the locks and one guard at a
    time in each thread.  The other models take
    a critical section as one step on this ground.  Threads: started once, with
    the object alive as long as it is used, if it does not rename itself after
    its deletion (C16).

    Scheduling: every callback is started exactly once, in a fiber that then
    runs it, and the counters are exact, for any interleaving (C5, C22); stopping an idle scheduler does not
    join its threads (C34).  Fibers: no assertion fails and GetThis is the
    running fiber (C11, C26).  Timers: exactly the due timers expire (C10), the
    operations return (C33).

    I/O: the registrations and their count are exact in every history in which
    no resize of the table makes it smaller (C9; addEvent is taken apart into
    its steps, and a race of two resizes is shown to lose registrations);
    what idle, addEvent, delEvent, cancelEvent and cancelAll deliver (C30,
    C31, C36).  Hooks: a hooked call behaves as the blocking one, with
    the timer's callback as a step that may come at any time (C32).

    HTTP: on any bytes the two parsers return, from their start or between two
    reads (for requests outside a query), and no pointer they keep leaves the
    buffer (C12, C27); printed requests and responses are parsed back
    (C2, C7).

    Configuration: values keep the types they were registered with (C17),
    loading applies exactly the settings of the file (C18), values read back
    (C35).  Addresses: masks and broadcast addresses bit by bit (C20), the text
    of IPv6 addresses (C21).

    Sockets and servers: connected sockets are valid and closed ones are inert
    (C25); binding is all or nothing (C24), listening sockets and clients never
    mix (C23).  The example server logs what it receives and prints nothing
    (C39).

    Logging: patterns parse to what they mean and reloading applies the
    definitions (C37, C38).

    * Conventions and bounds

    An operation that may throw or meet undefined behaviour returns an
    [outcome]; [M S A] keeps the mutations made before an exception.  Integers
    are in Z at their width, with the wrap-around written out.  Recursion that
    is not structural has fuel: the loops of read, write, seek and the iovecs
    take as much as the number of bytes or nodes, the pattern parser one more
    than the length of the pattern, the loops of the streams and sessions as
    many rounds as there are bytes.  IOV_MAX is the 1024 of Linux: 1023 nodes
    hold what a call may pass, wherever in a node it starts.  The theorems about these loops state their
    results, never only "if it returns", so the fuel is enough.  The calls of
    libraries (yaml-cpp, boost::lexical_cast, inet_pton, getaddrinfo) are
    arguments or a class whose laws are their documented behaviour, with an
    instance that has them.  A theorem that needs more than the documented
    preconditions of the code says so, with a lemma that shows what happens
    outside.  Clocks, addresses of new objects, contents of new
    memory, and the answers of the kernel are arguments.

    * What is not modelled

    The texts of the library's own log lines, except where they are what a
    component does; the contents of fiber stacks; memory orders weaker than
    sequential consistency (the locks are what orders accesses); the tests
    and the program under src/ that prints one line.  pthreads, epoll, the
    socket calls, yaml-cpp and getaddrinfo are outside: arguments or classes. *)

From Stdlib Require Export ZArith Lia Bool.
From stdpp Require Export base list option numbers gmap strings.

#[global] Set Default Goal Selector "!".
#[global] Set Warnings "-clear-no-such-hyp,-register-all".
#[global] Open Scope Z_scope.

(** * Outcomes of a C++ call *)

(** The exceptions the code throws. *)
Inductive exn :=
| std_out_of_range
| std_invalid_argument
| std_logic_error
| std_length_error
| std_bad_function_call.

(** What stops a run without an exception: a failed assertion of macro.h, or
    an operation whose behaviour C++ does not define. [OutOfFuel] is a bound
    of the model, and no theorem accepts it as a result. *)
Inductive fault :=
| NullDeref
| OutOfBounds
| DivByZero
| EndIterator
| BadShift
| SignedOverflow
| AssertFailed
| StackOverflow
| BadUnlock
| UseAfterFree
| OutOfFuel.

Inductive outcome (A : Type) :=
| Ret (a : A)
| Throw (e : exn)
| Fault (f : fault).
Arguments Ret {A} a.
Arguments Throw {A} e.
Arguments Fault {A} f.

#[export] Instance exn_eq_dec : EqDecision exn.
Proof. solve_decision. Defined.

#[export] Instance fault_eq_dec : EqDecision fault.
Proof. solve_decision. Defined.

#[export] Instance outcome_eq_dec `{EqDecision A} : EqDecision (outcome A).
Proof. solve_decision. Defined.

Definition obind {A B} (c : outcome A) (k : A → outcome B) : outcome B :=
  match c with
  | Ret a => k a
  | Throw e => Throw e
  | Fault f => Fault f
  end.

(** A computation that mutates an object of type [S]: the mutations made
    before an exception stay made. *)
Definition M (S A : Type) : Type := S → outcome A * S.

Definition ret {S A} (a : A) : M S A := λ s, (Ret a, s).
Definition throw {S A} (e : exn) : M S A := λ s, (Throw e, s).
Definition fail {S A} (f : fault) : M S A := λ s, (Fault f, s).
Definition get {S} : M S S := λ s, (Ret s, s).
Definition put {S} (s : S) : M S unit := λ _, (Ret tt, s).
Definition mbnd {S A B} (c : M S A) (k : A → M S B) : M S B :=
  λ s, match c s with
       | (Ret a, s') => k a s'
       | (Throw e, s') => (Throw e, s')
       | (Fault f, s') => (Fault f, s')
       end.

Declare Scope cpp_scope.
Delimit Scope cpp_scope with cpp.
Notation "'let!' x := c 'in' k" := (obind c (λ x, k))
  (at level 10, x pattern, c at level 100, k at level 200) : cpp_scope.
Notation "'do!' x := c 'in' k" := (mbnd c (λ x, k))
  (at level 10, x pattern, c at level 100, k at level 200) : cpp_scope.
#[global] Open Scope cpp_scope.

Lemma mbnd_Ret {S A B} (c : M S A) (k : A → M S B) s a s' :
  c s = (Ret a, s') → mbnd c k s = k a s'.
Proof. unfold mbnd. by intros ->. Qed.

(** * std::function *)

(** A [std::function<void()>]: empty, one given by the user, or the one
    [TimerManager::addConditionTimer] binds to a weak reference. *)
Inductive callback :=
| nullptr
| UserCb (id : nat)
| OnTimer (weak_cond : nat) (cb : callback).

#[export] Instance callback_eq_dec : EqDecision callback.
Proof. solve_decision. Defined.

(** [if (cb)]. *)
Definition engaged (cb : callback) : bool :=
  match cb with nullptr => false | _ => true end.

(** * Machine integers *)

Definition wrapU (w z : Z) : Z := z mod 2 ^ w.
Definition wrapS (w z : Z) : Z := (z + 2 ^ (w - 1)) mod 2 ^ w - 2 ^ (w - 1).

Definition u8 := wrapU 8.
Definition u16 := wrapU 16.
Definition u32 := wrapU 32.
Definition u64 := wrapU 64.
Definition i8 := wrapS 8.
Definition i16 := wrapS 16.
Definition i32 := wrapS 32.
Definition i64 := wrapS 64.

(** The largest [uint64_t], written [~0ull] or [(uint64_t)-1] in the code. *)
Definition u64_max : Z := 2 ^ 64 - 1.

Definition in_u (w z : Z) : Prop := 0 ≤ z < 2 ^ w.
Definition in_s (w z : Z) : Prop := - 2 ^ (w - 1) ≤ z < 2 ^ (w - 1).

Lemma wrapU_range w z : 0 ≤ w → in_u w (wrapU w z).
Proof. intros. apply Z.mod_pos_bound. by apply Z.pow_pos_nonneg. Qed.

Lemma wrapU_id w z : in_u w z → wrapU w z = z.
Proof. apply Z.mod_small. Qed.

Lemma pow2_half w : 0 < w → 2 ^ w = 2 * 2 ^ (w - 1).
Proof. intros. rewrite <- Z.pow_succ_r by lia. f_equal. lia. Qed.

Lemma wrapS_id w z : 0 < w → in_s w z → wrapS w z = z.
Proof.
  unfold wrapS, in_s. intros Hw Hz. pose proof (pow2_half w Hw).
  rewrite Z.mod_small; lia.
Qed.

Lemma wrapS_wrapU w z : 0 < w → wrapS w (wrapU w z) = wrapS w z.
Proof. intros. unfold wrapS, wrapU. by rewrite Zplus_mod_idemp_l. Qed.

Lemma wrapU_wrapS w z : 0 < w → wrapU w (wrapS w z) = wrapU w z.
Proof.
  intros. unfold wrapS, wrapU. rewrite Zminus_mod_idemp_l. f_equal. lia.
Qed.

Lemma u64_small z : 0 ≤ z < 2 ^ 64 → u64 z = z.
Proof. apply wrapU_id. Qed.

Create HintDb cpp.
Create Rewrite HintDb cpp.
#[export] Hint Resolve wrapU_range : cpp.
#[export] Hint Rewrite @wrapS_wrapU @wrapU_wrapS using lia : cpp.

(** * Lists *)

Definition Zlen {A} (l : list A) : Z := Z.of_nat (length l).

Lemma Zlen_nonneg {A} (l : list A) : 0 ≤ Zlen l.
Proof. unfold Zlen. lia. Qed.

Lemma Zlen_app {A} (l k : list A) : Zlen (l ++ k) = Zlen l + Zlen k.
Proof. unfold Zlen. rewrite length_app. lia. Qed.

#[export] Hint Resolve Zlen_nonneg : cpp.

(** [overlay l p bs] is [l] with the bytes [bs] copied over it from index
    [p] on: what [memcpy (l + p, bs, n)] leaves. *)
Definition overlay {A} (l : list A) (p : nat) (bs : list A) : list A :=
  take p l ++ bs ++ drop (p + length bs) l.

Section overlay.
Context {A : Type}.
Implicit Types l k bs : list A.

Lemma length_overlay l p bs :
  (p + length bs ≤ length l)%nat → length (overlay l p bs) = length l.
Proof.
  intros. unfold overlay. rewrite !length_app, length_take, length_drop. lia.
Qed.

Lemma overlay_nil l p : overlay l p [] = l.
Proof. unfold overlay. simpl. rewrite Nat.add_0_r. apply take_drop. Qed.

Lemma overlay_app_l l k p bs :
  (p + length bs ≤ length l)%nat → overlay (l ++ k) p bs = overlay l p bs ++ k.
Proof.
  intros. unfold overlay.
  rewrite take_app_le, drop_app_le by lia. by rewrite <- !(assoc_L (++)).
Qed.

Lemma overlay_app_r l k p bs :
  overlay (l ++ k) (length l + p) bs = l ++ overlay k p bs.
Proof.
  unfold overlay. rewrite take_app_add.
  replace (length l + p + length bs)%nat
    with (length l + (p + length bs))%nat by lia.
  rewrite drop_app_add. by rewrite <- !(assoc_L (++)).
Qed.

(** Copying [b1] and then [b2] right after it copies [b1 ++ b2]. *)
Lemma overlay_overlay l p b1 b2 :
  (p + length b1 + length b2 ≤ length l)%nat →
  overlay (overlay l p b1) (p + length b1) b2 = overlay l p (b1 ++ b2).
Proof.
  intros. unfold overlay at 2. rewrite (assoc_L (++) (take p l)).
  assert (length (take p l ++ b1) = (p + length b1)%nat) as Hl.
  { rewrite length_app, length_take. lia. }
  rewrite <- Hl, <- (Nat.add_0_r (length (take p l ++ b1))), overlay_app_r.
  unfold overlay. simpl. rewrite drop_drop, <- !(assoc_L (++)).
  do 3 f_equal. rewrite !length_app in *. f_equal. lia.
Qed.

Lemma take_overlay l p bs n :
  (p + length bs ≤ length l)%nat → (p + length bs ≤ n)%nat →
  take n (overlay l p bs) = overlay (take n l) p bs.
Proof.
  intros. unfold overlay.
  rewrite take_app_ge by (rewrite length_take; lia).
  rewrite take_app_ge by (rewrite length_take; lia).
  rewrite take_take, length_take, skipn_firstn_comm.
  by replace (p `min` length l)%nat with p by lia;
    replace (p `min` n)%nat with p by lia;
    replace (n - p - length bs)%nat with (n - (p + length bs))%nat by lia.
Qed.

(** Copying over a list that was extended, seen up to the larger of the old
    size [n] and the end of the copy. *)
Lemma take_overlay_grow l k p bs n m :
  (p ≤ n ≤ length l)%nat → (p + length bs ≤ length (l ++ k))%nat →
  m = (n `max` (p + length bs))%nat →
  take m (overlay (l ++ k) p bs) = overlay (take n l) p bs.
Proof.
  intros Hp Hl ->. rewrite take_overlay by lia. unfold overlay. f_equal.
  - rewrite !take_take, take_app_le by lia. f_equal. lia.
  - f_equal. rewrite !skipn_firstn_comm. destruct (decide (n < p + length bs)%nat).
    + rewrite Nat.max_r, Nat.sub_diag by lia.
      by replace (n - (p + length bs))%nat with 0%nat by lia.
    + rewrite Nat.max_l, drop_app_le by lia. rewrite take_app_le; [done|].
      rewrite length_drop. lia.
Qed.

(** The bytes just written read back. *)
Lemma take_drop_overlay l p bs :
  (p ≤ length l)%nat → take (length bs) (drop p (overlay l p bs)) = bs.
Proof.
  intros. unfold overlay.
  rewrite drop_app_length' by (rewrite length_take; lia).
  by rewrite take_app_length.
Qed.
End overlay.

(** A piece of [concat ls], when every list of [ls] has length [n]. *)
Section uniform.
Context {A : Type} (n : nat).
Implicit Types (ls : list (list A)) (l bs : list A).

Definition uniform ls : Prop := Forall (λ l, length l = n) ls.

Lemma uniform_lookup ls i l : uniform ls → ls !! i = Some l → length l = n.
Proof. intros H Hi. by apply (Forall_lookup_1 _ _ _ _ H Hi). Qed.

Lemma length_concat_uniform ls :
  uniform ls → length (concat ls) = (length ls * n)%nat.
Proof. induction 1; simpl; [done|]. rewrite length_app. lia. Qed.

Lemma concat_overlay ls i l p bs :
  uniform ls → ls !! i = Some l → (p + length bs ≤ n)%nat →
  concat (<[i := overlay l p bs]> ls) = overlay (concat ls) (i * n + p) bs.
Proof.
  intros Hu. revert i. induction Hu as [|k ls Hk Hu IH]; intros [|i] Hi Hp;
    simplify_eq/=; try done.
  - by rewrite overlay_app_l by lia.
  - rewrite IH by done. rewrite <- overlay_app_r. f_equal. lia.
Qed.

Lemma take_drop_concat ls i l p k :
  uniform ls → ls !! i = Some l → (p + k ≤ n)%nat →
  take k (drop (i * n + p) (concat ls)) = take k (drop p l).
Proof.
  intros Hu. revert i. induction Hu as [|l0 ls Hk Hu IH]; intros [|i] Hi Hp;
    simplify_eq/=; try done.
  - rewrite drop_app_le by lia. rewrite take_app_le; [done|].
    rewrite length_drop. lia.
  - replace (length l0 + i * length l0 + p)%nat
      with (length l0 + (i * length l0 + p))%nat by lia.
    rewrite drop_app_add. by apply IH.
Qed.
End uniform.

(** The number of elements with a property, and how an update changes it. *)
Section count.
Context {A : Type} (P : A → bool).
Implicit Types (l : list A) (a b : A).

Definition count l : Z := Zlen (filter (λ a, P a = true) l).

Lemma count_nil : count [] = 0.
Proof. done. Qed.

Lemma count_cons a l : count (a :: l) = Z.b2z (P a) + count l.
Proof.
  unfold count, Zlen. destruct (P a) eqn:E.
  - rewrite filter_cons_True by done. simpl. lia.
  - rewrite filter_cons_False by (rewrite E; done). done.
Qed.

Lemma count_app l k : count (l ++ k) = count l + count k.
Proof. unfold count. by rewrite filter_app, Zlen_app. Qed.

Lemma count_insert l i a b :
  l !! i = Some a → count (<[i := b]> l) = count l - Z.b2z (P a) + Z.b2z (P b).
Proof.
  revert i. induction l as [|x l IH]; intros [|i] Hi; simplify_eq/=;
    rewrite ?count_cons; [lia|]. rewrite (IH i) by done. lia.
Qed.

Lemma count_bound l : 0 ≤ count l ≤ Zlen l.
Proof.
  unfold count, Zlen. pose proof (length_filter (λ a, P a = true) l). lia.
Qed.

Lemma count_zero l a : count l = 0 → a ∈ l → P a = false.
Proof.
  induction l as [|x l IH]; [by intros _ ?%not_elem_of_nil|].
  rewrite count_cons. pose proof (count_bound l).
  intros Hz [->|?]%elem_of_cons; [by destruct (P x); simpl in Hz; [lia|]|].
  apply IH; [|done]. destruct (P x); simpl in Hz; lia.
Qed.

Lemma count_pos l i a : l !! i = Some a → P a = true → 0 < count l.
Proof.
  intros Hi Hp. destruct (count_bound l). destruct (decide (count l = 0)) as [E|]; [|lia].
  rewrite (count_zero l a E) in Hp; [done|]. by eapply list_elem_of_lookup_2.
Qed.
End count.
