(* ===== verification/Endian.v ===== *)
(** Integer types and byte order: endian.h.

    The C++ integer types the serializer handles ([ity]), the bytes a value
    occupies in memory on a host of either byte order, and the [byteswap]
    templates.  The host's byte order is an argument ([Platform]), fixed at
    compile time in the source by [__BYTE_ORDER__]. *)

From S2P Require Import Prelude.

(** [APEXSTORM_LITTLE_ENDIAN] (1) and [APEXSTORM_BIG_ENDIAN] (2). *)
Inductive endian := APEXSTORM_LITTLE_ENDIAN | APEXSTORM_BIG_ENDIAN.

#[export] Instance endian_eq_dec : EqDecision endian.
Proof. solve_decision. Defined.

(** The host the library is compiled for. *)
Class Platform := { APEXSTORM_BYTE_ORDER : endian }.

Definition x86_64 : Platform := {| APEXSTORM_BYTE_ORDER := APEXSTORM_LITTLE_ENDIAN |}.
Definition s390x : Platform := {| APEXSTORM_BYTE_ORDER := APEXSTORM_BIG_ENDIAN |}.

(** * Integer types *)

Inductive ity :=
| int8_t | uint8_t | int16_t | uint16_t | int32_t | uint32_t | int64_t | uint64_t.

Definition sizeof (t : ity) : nat :=
  match t with
  | int8_t | uint8_t => 1
  | int16_t | uint16_t => 2
  | int32_t | uint32_t => 4
  | int64_t | uint64_t => 8
  end.

Definition is_signed (t : ity) : bool :=
  match t with int8_t | int16_t | int32_t | int64_t => true | _ => false end.

Definition bits (t : ity) : Z := 8 * Z.of_nat (sizeof t).

(** Conversion to type [t], two's complement for the signed types. *)
Definition conv (t : ity) (z : Z) : Z :=
  if is_signed t then wrapS (bits t) z else wrapU (bits t) z.

(** The values of type [t]. *)
Definition has_type (t : ity) (z : Z) : Prop :=
  if is_signed t then in_s (bits t) z else in_u (bits t) z.

Lemma bits_pos t : 0 < bits t.
Proof. by destruct t. Qed.

#[export] Hint Resolve bits_pos : cpp.

Lemma conv_id t z : has_type t z → conv t z = z.
Proof.
  unfold has_type, conv. destruct (is_signed t).
  - apply wrapS_id, bits_pos.
  - apply wrapU_id.
Qed.

Lemma conv_wrapU t z : conv t (wrapU (bits t) z) = conv t z.
Proof.
  unfold conv. destruct (is_signed t).
  - apply wrapS_wrapU, bits_pos.
  - unfold wrapU. by rewrite Zmod_mod.
Qed.

Lemma wrapU_conv t z : wrapU (bits t) (conv t z) = wrapU (bits t) z.
Proof.
  unfold conv. destruct (is_signed t).
  - apply wrapU_wrapS, bits_pos.
  - unfold wrapU. by rewrite Zmod_mod.
Qed.

(** * Bytes in memory *)

Fixpoint le_split (n : nat) (z : Z) : list Z :=
  match n with
  | O => []
  | S n => z mod 256 :: le_split n (z / 256)
  end.

Fixpoint le_combine (bs : list Z) : Z :=
  match bs with
  | [] => 0
  | b :: bs => b + 256 * le_combine bs
  end.

Definition is_byte (b : Z) : Prop := 0 ≤ b < 256.

Lemma length_le_split n z : length (le_split n z) = n.
Proof. revert z. induction n; intros; simpl; auto. Qed.

Lemma le_split_bytes n z : Forall is_byte (le_split n z).
Proof.
  revert z. induction n; intros; simpl; constructor; [|done].
  apply Z.mod_pos_bound. lia.
Qed.

Lemma pow256_succ n : 256 ^ Z.of_nat (S n) = 256 * 256 ^ Z.of_nat n.
Proof. rewrite Nat2Z.inj_succ, Z.pow_succ_r; lia. Qed.

Lemma le_combine_split n z : le_combine (le_split n z) = z mod 256 ^ Z.of_nat n.
Proof.
  revert z. induction n as [|n IH]; intros z; cbn [le_split le_combine].
  - by rewrite Z.mod_1_r.
  - rewrite IH, pow256_succ. rewrite Z.rem_mul_r by lia. done.
Qed.

Lemma le_split_mod n z : le_split n (z mod 256 ^ Z.of_nat n) = le_split n z.
Proof.
  revert z. induction n as [|n IH]; intros z; [done|]. cbn [le_split].
  rewrite pow256_succ. f_equal.
  - rewrite Z.rem_mul_r, (Z.mul_comm 256), Z.mod_add by lia.
    by rewrite Zmod_mod.
  - rewrite Z.rem_mul_r, (Z.mul_comm 256), Z.div_add by lia.
    rewrite (Z.div_small (z mod 256)) by (apply Z.mod_pos_bound; lia).
    apply IH.
Qed.

Lemma pow256_bits t : 256 ^ Z.of_nat (sizeof t) = 2 ^ bits t.
Proof. by destruct t. Qed.

Section memory.
Context `{P : Platform}.

(** The bytes of a value of type [t] at increasing addresses, and the value
    of such bytes: what [write(&value, sizeof(value))] and
    [read(&v, sizeof(v))] copy. *)
Definition mem_bytes (t : ity) (z : Z) : list Z :=
  match APEXSTORM_BYTE_ORDER with
  | APEXSTORM_LITTLE_ENDIAN => le_split (sizeof t) z
  | APEXSTORM_BIG_ENDIAN => rev (le_split (sizeof t) z)
  end.

Definition mem_value (t : ity) (bs : list Z) : Z :=
  match APEXSTORM_BYTE_ORDER with
  | APEXSTORM_LITTLE_ENDIAN => conv t (le_combine bs)
  | APEXSTORM_BIG_ENDIAN => conv t (le_combine (rev bs))
  end.

Lemma length_mem_bytes t z : length (mem_bytes t z) = sizeof t.
Proof.
  unfold mem_bytes. destruct APEXSTORM_BYTE_ORDER;
    rewrite ?length_rev; apply length_le_split.
Qed.

Lemma mem_bytes_bytes t z : Forall is_byte (mem_bytes t z).
Proof.
  unfold mem_bytes. destruct APEXSTORM_BYTE_ORDER;
    [|apply List.Forall_rev]; apply le_split_bytes.
Qed.

Lemma mem_value_bytes t z : mem_value t (mem_bytes t z) = conv t z.
Proof.
  unfold mem_value, mem_bytes. destruct APEXSTORM_BYTE_ORDER;
    rewrite ?rev_involutive, le_combine_split, pow256_bits; apply conv_wrapU.
Qed.

Lemma mem_bytes_conv t z : mem_bytes t (conv t z) = mem_bytes t z.
Proof.
  assert (le_split (sizeof t) (conv t z) = le_split (sizeof t) z) as E.
  { rewrite <- (le_split_mod _ (conv t z)), pow256_bits.
    change (?a mod 2 ^ bits t) with (wrapU (bits t) a).
    rewrite wrapU_conv. unfold wrapU. rewrite <- pow256_bits. apply le_split_mod. }
  unfold mem_bytes. by rewrite E.
Qed.
End memory.

(** * byteswap *)

(** The macros of <byteswap.h>. *)
Definition bswap_16 (x : Z) : Z :=
  Z.lor (Z.land (Z.shiftr x 8) 0xff) (Z.shiftl (Z.land x 0xff) 8).

Definition bswap_32 (x : Z) : Z :=
  Z.lor (Z.lor (Z.shiftr (Z.land x 0xff000000) 24)
               (Z.shiftr (Z.land x 0x00ff0000) 8))
        (Z.lor (Z.shiftl (Z.land x 0x0000ff00) 8)
               (Z.shiftl (Z.land x 0x000000ff) 24)).

Definition bswap_64 (x : Z) : Z :=
  Z.lor
    (Z.lor (Z.lor (Z.shiftr (Z.land x 0xff00000000000000) 56)
                  (Z.shiftr (Z.land x 0x00ff000000000000) 40))
           (Z.lor (Z.shiftr (Z.land x 0x0000ff0000000000) 24)
                  (Z.shiftr (Z.land x 0x000000ff00000000) 8)))
    (Z.lor (Z.lor (Z.shiftl (Z.land x 0x00000000ff000000) 8)
                  (Z.shiftl (Z.land x 0x0000000000ff0000) 24))
           (Z.lor (Z.shiftl (Z.land x 0x000000000000ff00) 40)
                  (Z.shiftl (Z.land x 0x00000000000000ff) 56))).

(** The three [byteswap] templates, selected by [sizeof(T)]. There is none
    for one-byte types. *)
Definition byteswap (t : ity) (value : Z) : Z :=
  match sizeof t with
  | 8%nat => conv t (bswap_64 (wrapU 64 value))
  | 4%nat => conv t (bswap_32 (wrapU 32 value))
  | 2%nat => conv t (bswap_16 (wrapU 16 value))
  | _ => value
  end.

(** [byteswapOnLittleEndian] and [byteswapOnBigEndian]. *)
Definition byteswapOnLittleEndian `{Platform} (t : ity) (v : Z) : Z :=
  match APEXSTORM_BYTE_ORDER with
  | APEXSTORM_LITTLE_ENDIAN => byteswap t v
  | APEXSTORM_BIG_ENDIAN => v
  end.

Definition byteswapOnBigEndian `{Platform} (t : ity) (v : Z) : Z :=
  match APEXSTORM_BYTE_ORDER with
  | APEXSTORM_LITTLE_ENDIAN => v
  | APEXSTORM_BIG_ENDIAN => byteswap t v
  end.

(** One byte of an integer, as a bit field. *)
Lemma nth_byte z i : 0 ≤ i → (z / 2 ^ i) mod 256 = Z.land (Z.shiftr z i) 255.
Proof.
  intros. rewrite Z.shiftr_div_pow2 by done. change 255 with (Z.ones 8).
  by rewrite Z.land_ones.
Qed.

(** Two bit fields of eight bits agree when their eight bits do. *)
Lemma byte_eq a b :
  (∀ k, k ∈ [0;1;2;3;4;5;6;7] → Z.testbit a k = Z.testbit b k) →
  Z.land a 255 = Z.land b 255.
Proof.
  intros Hk. apply Z.bits_inj'. intros k Hk0. rewrite !Z.land_spec.
  destruct (decide (k < 8)).
  - rewrite Hk; [done|]. rewrite !elem_of_cons, elem_of_nil. lia.
  - change 255 with (Z.ones 8). rewrite Z.ones_spec_high by lia.
    by rewrite !andb_false_r.
Qed.

(** Evaluate the bit [k] of an expression of shifts and masks. *)
Ltac bit_case :=
  repeat first
    [ rewrite Z.lor_spec | rewrite Z.land_spec
    | rewrite Z.shiftr_spec by lia | rewrite Z.shiftl_spec by lia ];
  repeat match goal with
  | |- context [Z.testbit (Zpos ?p) ?k] =>
      let b := eval vm_compute in (Z.testbit (Zpos p) k) in
      change (Z.testbit (Zpos p) k) with b
  | |- context [Z.testbit ?z (?a + ?b)] =>
      let c := eval vm_compute in (a + b) in change (a + b) with c
  | |- context [Z.testbit ?z (?a - ?b)] =>
      let c := eval vm_compute in (a - b) in change (a - b) with c
  | |- context [Z.testbit ?z (Zneg ?p)] => rewrite (Z.testbit_neg_r z (Zneg p)) by done
  end;
  rewrite ?andb_true_r, ?andb_false_r, ?orb_false_r, ?orb_false_l; reflexivity.

Ltac byte_case :=
  apply byte_eq; intros k Hk; repeat (apply elem_of_cons in Hk as [->|Hk]; [bit_case|]);
  by inversion Hk.

Lemma le_split_2 z :
  le_split 2 z = [Z.land (Z.shiftr z 0) 255; Z.land (Z.shiftr z 8) 255].
Proof.
  cbn [le_split]. rewrite <- !nth_byte by lia. by rewrite Z.div_1_r.
Qed.

Lemma le_split_4 z :
  le_split 4 z = (λ i, Z.land (Z.shiftr z i) 255) <$> [0; 8; 16; 24].
Proof.
  cbn [le_split fmap list_fmap]. rewrite <- !nth_byte by lia.
  rewrite !Z.div_div by lia. by rewrite Z.div_1_r.
Qed.

Lemma le_split_8 z :
  le_split 8 z = (λ i, Z.land (Z.shiftr z i) 255) <$> [0; 8; 16; 24; 32; 40; 48; 56].
Proof.
  cbn [le_split fmap list_fmap]. rewrite <- !nth_byte by lia.
  rewrite !Z.div_div by lia. by rewrite Z.div_1_r.
Qed.

Lemma le_split_bswap_16 z : le_split 2 (bswap_16 z) = rev (le_split 2 z).
Proof.
  rewrite !le_split_2. simpl. unfold bswap_16. repeat (apply f_equal2; [byte_case|]). done.
Qed.

Lemma le_split_bswap_32 z : le_split 4 (bswap_32 z) = rev (le_split 4 z).
Proof.
  rewrite !le_split_4. simpl. unfold bswap_32. repeat (apply f_equal2; [byte_case|]). done.
Qed.

Lemma le_split_bswap_64 z : le_split 8 (bswap_64 z) = rev (le_split 8 z).
Proof.
  rewrite !le_split_8. simpl. unfold bswap_64. repeat (apply f_equal2; [byte_case|]). done.
Qed.

(** [byteswap] reverses the bytes of the value. *)
Lemma le_split_byteswap t z :
  (1 < sizeof t)%nat → le_split (sizeof t) (byteswap t z) = rev (le_split (sizeof t) z).
Proof.
  intros Ht.
  assert (∀ a, le_split (sizeof t) (conv t a) = le_split (sizeof t) a) as Hconv
    by (intros a; exact (mem_bytes_conv (P := x86_64) t a)).
  assert (le_split (sizeof t) (wrapU (bits t) z) = le_split (sizeof t) z) as Hw.
  { unfold wrapU. rewrite <- pow256_bits. apply le_split_mod. }
  destruct t; simpl in Ht; try lia; unfold byteswap; simpl sizeof in *; cbv iota;
    rewrite Hconv, ?le_split_bswap_16, ?le_split_bswap_32, ?le_split_bswap_64;
    f_equal; exact Hw.
Qed.

Section byteswap.
Context `{P : Platform}.

Lemma mem_bytes_byteswap t z :
  (1 < sizeof t)%nat → mem_bytes t (byteswap t z) = rev (mem_bytes t z).
Proof.
  intros Ht. unfold mem_bytes.
  destruct APEXSTORM_BYTE_ORDER; by rewrite le_split_byteswap.
Qed.

Lemma byteswap_type t z : (1 < sizeof t)%nat → conv t (byteswap t z) = byteswap t z.
Proof.
  intros Ht. rewrite <- (conv_wrapU t).
  destruct t; simpl in Ht; try lia; unfold byteswap; simpl; rewrite wrapU_conv;
    by rewrite conv_wrapU.
Qed.

(** Swapping twice gives the value back. *)
Lemma byteswap_involutive t z :
  (1 < sizeof t)%nat → has_type t z → byteswap t (byteswap t z) = z.
Proof.
  intros Ht Hz. rewrite <- byteswap_type by done.
  rewrite <- mem_value_bytes, !mem_bytes_byteswap by done.
  rewrite rev_involutive, mem_value_bytes. by apply conv_id.
Qed.
End byteswap.
