(* ===== verification/Varint.v ===== *)
(** The integer compression of bytearray.cpp: zigzag and base-128 varints.

    [EncodeZigzag] and [DecodeZigzag] are the two templates at a width [w] of
    32 or 64 bits.  Signed arithmetic is modelled as two's complement, which
    is what the supported compilers emit; [zigzag_overflows] marks the inputs
    on which the C++ expression overflows a signed type.  [compress] is the
    loop of [writeUint32] and [writeUint64] that fills [tmp], with the array
    bound checked at every store. *)

From S2P Require Import Prelude.

(** * Zigzag *)

Definition EncodeZigzag (w : Z) (v : Z) : Z :=
  if v <? 0
  then wrapU w (wrapU w (wrapS w (- v)) * 2 - 1)
  else wrapU w (wrapS w (v * 2)).

Definition DecodeZigzag (w : Z) (v : Z) : Z :=
  wrapS w (Z.lxor (Z.shiftr v 1) (wrapU w (- Z.land v 1))).

(** [-v] or [v * 2] does not fit the signed type [I]. *)
Definition zigzag_overflows (w v : Z) : bool :=
  if v <? 0 then 2 ^ (w - 1) <=? - v else 2 ^ (w - 1) <=? v * 2.

Lemma zigzag_overflow_range w v :
  2 ≤ w → in_s w v → zigzag_overflows w v = true ↔ v = - 2 ^ (w - 1) ∨ 2 ^ (w - 2) ≤ v.
Proof.
  intros Hw Hv. unfold zigzag_overflows, in_s in *.
  assert (2 ^ (w - 1) = 2 * 2 ^ (w - 2)) as E
    by (replace (w - 1) with (Z.succ (w - 2)) by lia; apply Z.pow_succ_r; lia).
  assert (0 < 2 ^ (w - 2)) by (apply Z.pow_pos_nonneg; lia).
  destruct (Z.ltb_spec v 0); rewrite Z.leb_le; lia.
Qed.

(** The mathematical zigzag order: 0, -1, 1, -2, 2, ... *)
Definition zigzag (v : Z) : Z := if v <? 0 then - v * 2 - 1 else v * 2.

Lemma zigzag_range w v : 0 < w → in_s w v → in_u w (zigzag v).
Proof.
  unfold in_s, in_u, zigzag. intros Hw Hv. pose proof (pow2_half w Hw).
  case_match; lia.
Qed.

Lemma EncodeZigzag_zigzag w v : 0 < w → in_s w v → EncodeZigzag w v = zigzag v.
Proof.
  intros Hw Hv. pose proof (zigzag_range w v Hw Hv) as Hz.
  unfold EncodeZigzag, zigzag in *. pose proof (pow2_half w Hw).
  unfold in_s, in_u in *. case_match.
  - rewrite wrapU_wrapS, (wrapU_id w (- v)), wrapU_id; unfold in_u; lia.
  - rewrite wrapU_wrapS, wrapU_id; unfold in_u; lia.
Qed.

Lemma lxor_ones w a : 0 ≤ w → in_u w a → Z.lxor a (Z.ones w) = Z.ones w - a.
Proof.
  intros Hw Ha. rewrite Z.sub_nocarry_ldiff.
  - apply Z.bits_inj'. intros k Hk. rewrite Z.lxor_spec, Z.ldiff_spec.
    destruct (decide (k < w)).
    + rewrite Z.ones_spec_low by lia. by destruct (Z.testbit a k).
    + rewrite Z.ones_spec_high by lia.
      destruct (decide (a = 0)) as [->|]; [by rewrite Z.bits_0|].
      rewrite Z.bits_above_log2; [done| |]; unfold in_u in Ha; [lia|].
      apply Z.log2_lt_pow2; [lia|].
      pose proof (Z.pow_le_mono_r 2 w k). lia.
  - apply Z.bits_inj'. intros k Hk. rewrite Z.ldiff_spec, Z.bits_0.
    destruct (decide (k < w)).
    + rewrite Z.ones_spec_low by lia. by rewrite andb_false_r.
    + rewrite Z.ones_spec_high by lia.
      destruct (decide (a = 0)) as [->|]; [by rewrite Z.bits_0|].
      rewrite Z.bits_above_log2; [done| |]; unfold in_u in Ha; [lia|].
      apply Z.log2_lt_pow2; [lia|].
      pose proof (Z.pow_le_mono_r 2 w k). lia.
Qed.

Lemma DecodeZigzag_even w a :
  1 < w → 0 ≤ a < 2 ^ (w - 1) → DecodeZigzag w (a * 2) = a.
Proof.
  intros Hw Ha. unfold DecodeZigzag.
  assert (Z.land (a * 2) 1 = 0) as ->.
  { change 1 with (Z.ones 1). rewrite Z.land_ones by lia. apply Z.mod_mul. lia. }
  rewrite Z.shiftr_div_pow2, Z.div_mul by lia.
  unfold wrapU. rewrite Z.mod_0_l, Z.lxor_0_r by lia.
  apply wrapS_id; [|unfold in_s]; lia.
Qed.

Lemma DecodeZigzag_odd w a :
  1 < w → 0 ≤ a < 2 ^ (w - 1) → DecodeZigzag w (a * 2 + 1) = - a - 1.
Proof.
  intros Hw Ha. unfold DecodeZigzag. pose proof (pow2_half w ltac:(lia)).
  assert (Z.land (a * 2 + 1) 1 = 1) as ->.
  { change 1 with (Z.ones 1) at 2. rewrite Z.land_ones by lia.
    rewrite Z.add_comm, Z.mod_add by lia. done. }
  assert (Z.shiftr (a * 2 + 1) 1 = a) as ->.
  { rewrite Z.shiftr_div_pow2, Z.add_comm, Z.div_add by lia. done. }
  assert (wrapU w (- (1)) = Z.ones w) as ->.
  { unfold wrapU. change (- (1)) with (-1). rewrite <- (Z.mod_add (-1) 1) by lia.
    rewrite Z.mod_small by lia. rewrite Z.ones_equiv. lia. }
  rewrite lxor_ones by (unfold in_u; lia). rewrite Z.ones_equiv.
  rewrite <- (wrapS_wrapU w) by lia. unfold wrapU.
  replace (Z.pred (2 ^ w) - a) with (- a - 1 + 1 * 2 ^ w) by lia.
  rewrite Z.mod_add by lia. change (wrapS w (wrapU w (- a - 1)) = - a - 1).
  rewrite wrapS_wrapU by lia. apply wrapS_id; [|unfold in_s]; lia.
Qed.

Lemma DecodeZigzag_zigzag w v : 1 < w → in_s w v → DecodeZigzag w (zigzag v) = v.
Proof.
  intros Hw Hv. unfold in_s in Hv. unfold zigzag. case_match.
  - replace (- v * 2 - 1) with ((- v - 1) * 2 + 1) by lia.
    rewrite DecodeZigzag_odd; lia.
  - apply DecodeZigzag_even; lia.
Qed.

Lemma zigzag_surj w u :
  1 < w → in_u w u → in_s w (DecodeZigzag w u) ∧ zigzag (DecodeZigzag w u) = u.
Proof.
  intros Hw Hu. unfold in_u in Hu. pose proof (pow2_half w ltac:(lia)).
  pose proof (Z.div_mod u 2 ltac:(lia)) as Hd.
  pose proof (Z.mod_pos_bound u 2 ltac:(lia)).
  assert (u mod 2 = 0 ∨ u mod 2 = 1) as [E|E] by lia; rewrite E in Hd.
  - replace u with (u / 2 * 2) by lia. rewrite DecodeZigzag_even by lia.
    unfold in_s, zigzag. rewrite Z.mul_comm. split; [lia|]. case_match; lia.
  - replace u with (u / 2 * 2 + 1) by lia. rewrite DecodeZigzag_odd by lia.
    unfold in_s, zigzag. split; [lia|]. case_match; lia.
Qed.

(** * Base-128 varints *)

(** [tmp[i++] = b] in an array of [cap] bytes; [i] is the length of [tmp]. *)
Definition store (cap : nat) (tmp : list Z) (b : Z) : outcome (list Z) :=
  if (length tmp <? cap)%nat then Ret (tmp ++ [u8 b]) else Fault OutOfBounds.

Fixpoint compress (fuel cap : nat) (tmp : list Z) (value : Z) : outcome (list Z) :=
  match fuel with
  | O => Fault OutOfFuel
  | S fuel =>
      if 0x80 <=? value then
        let! tmp := store cap tmp (Z.lor (Z.land value 0x7F) 0x80) in
        compress fuel cap tmp (Z.shiftr value 7)
      else store cap tmp value
  end.

(** The varint encoding of a non-negative number, least significant group
    first, as a relation. *)
Inductive is_varint : Z → list Z → Prop :=
| varint_last v : 0 ≤ v < 128 → is_varint v [v]
| varint_more v bs :
    128 ≤ v → is_varint (v / 128) bs → is_varint v (v mod 128 + 128 :: bs).

Lemma varint_head v :
  0 ≤ v → u8 (Z.lor (Z.land v 0x7F) 0x80) = v mod 128 + 128.
Proof.
  intros Hv. change 0x7F with (Z.ones 7). rewrite Z.land_ones by lia.
  change (2 ^ 7) with 128. pose proof (Z.mod_pos_bound v 128 ltac:(lia)).
  assert (Z.land (v mod 128) 128 = 0) as Hz.
  { apply Z.bits_inj'. intros k Hk. rewrite Z.land_spec, Z.bits_0.
    destruct (decide (k = 7)) as [->|].
    - change 128 with (2 ^ 7) at 1. rewrite Z.mod_pow2_bits_high by lia. done.
    - change 128 with (2 ^ 7) at 2. rewrite Z.pow2_bits_false by lia.
      apply andb_false_r. }
  rewrite <- Z.lxor_lor by done. rewrite <- Z.add_nocarry_lxor by done.
  apply wrapU_id. unfold in_u. lia.
Qed.

(** The loop fits in [cap] bytes when the value has at most [7 * cap] bits,
    and stores the varint. *)
Lemma compress_spec cap : ∀ n fuel tmp v,
  (n < fuel)%nat → (length tmp + n < cap)%nat → 0 ≤ v < 128 ^ Z.of_nat (S n) →
  ∃ bs, compress fuel cap tmp v = Ret (tmp ++ bs) ∧ is_varint v bs ∧
        (length bs ≤ S n)%nat.
Proof.
  assert (∀ tmp b, (length tmp < cap)%nat → store cap tmp b = Ret (tmp ++ [u8 b]))
    as Hstore.
  { intros tmp b Hl. unfold store. by rewrite (proj2 (Nat.ltb_lt _ _)). }
  intros n. induction n as [|n IH]; intros fuel tmp v Hf Hc Hv;
    (destruct fuel as [|fuel]; [lia|]); cbn [compress];
    destruct (Z.leb_spec 0x80 v) as [Hb|Hb].
  - change (128 ^ Z.of_nat 1) with 128 in Hv. lia.
  - rewrite Hstore by lia. exists [v]. unfold u8. rewrite wrapU_id by (unfold in_u; lia).
    split_and!; [done|apply varint_last; lia|done].
  - rewrite Hstore by lia. cbn [obind]. rewrite varint_head by lia.
    rewrite Z.shiftr_div_pow2 by lia. change (2 ^ 7) with 128.
    destruct (IH fuel (tmp ++ [v mod 128 + 128]) (v / 128)) as (bs & -> & Hbs & Hlen).
    + lia.
    + rewrite length_app. simpl. lia.
    + rewrite (Nat2Z.inj_succ (S n)), Z.pow_succ_r in Hv by lia.
      split; [apply Z.div_pos; lia|]. apply Z.div_lt_upper_bound; lia.
    + exists (v mod 128 + 128 :: bs). rewrite <- (assoc_L (++)).
      split_and!; [done|by constructor|simpl; lia].
  - rewrite Hstore by lia. exists [v]. unfold u8. rewrite wrapU_id by (unfold in_u; lia).
    split_and!; [done|apply varint_last; lia|simpl; lia].
Qed.

Lemma is_varint_bytes v bs : is_varint v bs → Forall (λ b, 0 ≤ b < 256) bs.
Proof.
  induction 1; constructor; try done; try lia.
  pose proof (Z.mod_pos_bound v 128 ltac:(lia)). lia.
Qed.

Lemma is_varint_fun v bs1 bs2 : is_varint v bs1 → is_varint v bs2 → bs1 = bs2.
Proof.
  intros H. revert bs2. induction H; inversion 1; subst; try lia; try done.
  f_equal. auto.
Qed.
