(* ===== verification/Double.v ===== *)
(** The double arithmetic of [std::ceil(1.0 * size / m_baseSize)].

    [ByteArray::addCapacity] computes the number of nodes to add in double
    precision.  The three roundings are written out on integers (round to
    nearest, ties to even, 53-bit significands), and [ceil_div_double_exact]
    shows that the result is the exact ceiling while the operands are below
    [2 ^ 53]. *)

From S2P Require Import Prelude.

(** [n / d] rounded to the nearest integer, ties to even. *)
Definition div_round_even (n d : Z) : Z :=
  let q := n / d in
  let r := n mod d in
  if 2 * r <? d then q
  else if d <? 2 * r then q + 1
  else if Z.even q then q else q + 1.

(** The double nearest to a [size_t]; it is an integer. *)
Definition double_of (n : Z) : Z :=
  let e := Z.max 0 (Z.log2 n - 52) in
  div_round_even n (2 ^ e) * 2 ^ e.

(** The ceiling of the rational [n / d]. *)
Definition ceilZ (n d : Z) : Z := - ((- n) / d).

(** The number of binary digits to shift [a] by so that the quotient by [b]
    has a 53-bit integer part. *)
Definition quot_shift (a b : Z) : Z :=
  let k := Z.log2 a - Z.log2 b in
  if b * 2 ^ Z.max 0 k <=? a * 2 ^ Z.max 0 (- k) then 52 - k else 53 - k.

(** [std::ceil(a / b)] for two positive integer doubles. *)
Definition ceil_quot (a b : Z) : Z :=
  let s := quot_shift a b in
  if 0 <=? s then ceilZ (div_round_even (a * 2 ^ s) b) (2 ^ s)
  else div_round_even a (b * 2 ^ (- s)) * 2 ^ (- s).

(** [std::ceil(1.0 * size / m_baseSize)], for [m_baseSize] not zero. *)
Definition ceil_div_double (size base : Z) : Z :=
  if size =? 0 then 0 else ceil_quot (double_of size) (double_of base).

Lemma div_round_even_le n d c :
  0 < d → n ≤ c * d → div_round_even n d ≤ c.
Proof.
  intros Hd Hn. unfold div_round_even.
  pose proof (Z.div_mod n d ltac:(lia)). pose proof (Z.mod_pos_bound n d Hd).
  assert (n / d ≤ c) by (apply Z.div_le_upper_bound; lia).
  repeat case_match; try lia; assert (n / d ≠ c) by nia; lia.
Qed.

Lemma div_round_even_gt n d c :
  0 < d → 2 * c * d + d < 2 * n → c < div_round_even n d.
Proof.
  intros Hd Hn. unfold div_round_even.
  pose proof (Z.div_mod n d ltac:(lia)). pose proof (Z.mod_pos_bound n d Hd).
  repeat case_match; nia.
Qed.

Lemma div_round_even_1 n : div_round_even n 1 = n.
Proof. unfold div_round_even. by rewrite Z.mod_1_r, Z.div_1_r. Qed.

Lemma double_of_small n : 0 ≤ n < 2 ^ 53 → double_of n = n.
Proof.
  intros Hn. unfold double_of.
  assert (Z.log2 n < 53).
  { destruct (decide (n = 0)) as [->|]; [done|]. apply Z.log2_lt_pow2; lia. }
  rewrite Z.max_l by lia. rewrite Z.pow_0_r, div_round_even_1. lia.
Qed.

Lemma ceilZ_bounds n d : 0 < d → (ceilZ n d - 1) * d < n ≤ ceilZ n d * d.
Proof.
  intros Hd. unfold ceilZ.
  pose proof (Z.div_mod (- n) d ltac:(lia)). pose proof (Z.mod_pos_bound (- n) d Hd). nia.
Qed.

Lemma ceilZ_unique n d c : 0 < d → (c - 1) * d < n ≤ c * d → ceilZ n d = c.
Proof. intros Hd Hc. pose proof (ceilZ_bounds n d Hd). nia. Qed.

Lemma quot_shift_spec a b :
  0 < a < 2 ^ 53 → 0 < b →
  0 ≤ quot_shift a b ∧ b * 2 ^ 52 ≤ a * 2 ^ quot_shift a b.
Proof.
  intros Ha Hb. unfold quot_shift.
  pose proof (Z.log2_spec a ltac:(lia)) as [La _].
  pose proof (Z.log2_spec b ltac:(lia)) as [_ Lb].
  pose proof (Z.log2_nonneg a). pose proof (Z.log2_nonneg b).
  assert (Z.log2 a < 53) by (apply Z.log2_lt_pow2; lia).
  set (la := Z.log2 a) in *. set (lb := Z.log2 b) in *.
  destruct (Z.leb_spec (b * 2 ^ Z.max 0 (la - lb)) (a * 2 ^ Z.max 0 (- (la - lb))))
    as [Hc|_]; (split; [lia|]).
  - destruct (decide (0 ≤ la - lb)).
    + rewrite Z.max_r in Hc by lia. rewrite Z.max_l, Z.mul_1_r in Hc by lia.
      replace 52 with (la - lb + (52 - (la - lb))) at 1 by lia.
      rewrite Z.pow_add_r by lia.
      pose proof (Z.pow_pos_nonneg 2 (52 - (la - lb))). nia.
    + rewrite Z.max_l in Hc by lia. rewrite Z.max_r in Hc by lia.
      replace (52 - (la - lb)) with (- (la - lb) + 52) by lia.
      rewrite Z.pow_add_r by lia. lia.
  - rewrite Z.pow_succ_r in Lb by lia.
    apply Z.le_trans with (2 ^ la * 2 ^ (53 - (la - lb))).
    + rewrite <- Z.pow_add_r by lia.
      replace (la + (53 - (la - lb))) with (lb + 53) by lia.
      rewrite Z.pow_add_r by lia. lia.
    + apply Z.mul_le_mono_nonneg_r; [apply Z.pow_nonneg|]; lia.
Qed.

Lemma ceil_quot_exact a b :
  0 < a < 2 ^ 53 → 0 < b → ceil_quot a b = ceilZ a b.
Proof.
  intros Ha Hb. unfold ceil_quot.
  destruct (quot_shift_spec a b Ha Hb) as [Hs Hq].
  set (s := quot_shift a b) in *. clearbody s.
  rewrite (proj2 (Z.leb_le _ _)) by done.
  pose proof (Z.pow_pos_nonneg 2 s ltac:(lia) Hs) as Hp.
  pose proof (ceilZ_bounds a b Hb) as [Hl Hu].
  set (c := ceilZ a b) in *. clearbody c. set (p := 2 ^ s) in *. clearbody p.
  apply ceilZ_unique; [done|]. split.
  - apply div_round_even_gt; [done|]. nia.
  - apply div_round_even_le; [done|]. nia.
Qed.

(** Below [2 ^ 53] the rounded computation is the exact ceiling. *)
Lemma ceil_div_double_exact size base :
  0 < size < 2 ^ 53 → 0 < base < 2 ^ 53 → ceil_div_double size base = ceilZ size base.
Proof.
  intros Hs Hb. unfold ceil_div_double.
  rewrite !double_of_small by lia. rewrite (proj2 (Z.eqb_neq _ _)) by lia.
  apply ceil_quot_exact; lia.
Qed.
