(* ===== verification/ByteArray.v ===== *)
(** The byte-level serializer: bytearray.h and bytearray.cpp.

    A [ByteArray] is a chain of nodes of [m_baseSize] bytes.  The chain from
    [m_root] is the list [m_nodes], a node pointer is an index into it and
    [None] is the null pointer, so [node->next] is the next index if there is
    one.  The bytes of a node just allocated are indeterminate: they are an
    argument [junk] of the operations that allocate. *)

From S2P Require Import Prelude Endian Varint Double.

Record ByteArray := mkByteArray {
  m_baseSize : Z;
  m_position : Z;
  m_capacity : Z;
  m_size : Z;
  m_endian : endian;
  m_nodes : list (list Z);
  m_cur : option nat;
}.

(** [Node::size]: the length the array of the node was allocated with. *)
Definition node_size (nd : list Z) : Z := Zlen nd.

(** [node->next] of the node at index [i]. *)
Definition next (nodes : list (list Z)) (i : nat) : option nat :=
  if (S i <? length nodes)%nat then Some (S i) else None.

(** The node a pointer refers to; [None] for the null pointer. *)
Definition deref (nodes : list (list Z)) (p : option nat) : option (nat * list Z) :=
  match p with
  | None => None
  | Some i => match nodes !! i with None => None | Some nd => Some (i, nd) end
  end.

(** The new position, size, chain and current node of an array. *)
Definition moved (ba : ByteArray) (pos size : Z) (nodes : list (list Z))
    (cur : option nat) : ByteArray :=
  mkByteArray (m_baseSize ba) pos (m_capacity ba) size (m_endian ba) nodes cur.

Definition getReadSize (ba : ByteArray) : Z := u64 (m_size ba - m_position ba).
Definition getCapacity (ba : ByteArray) : Z := u64 (m_capacity ba - m_position ba).

Definition isLittleEndian (ba : ByteArray) : bool :=
  bool_decide (m_endian ba = APEXSTORM_LITTLE_ENDIAN).

Definition setIsLittleEndian (value : bool) (ba : ByteArray) : ByteArray :=
  mkByteArray (m_baseSize ba) (m_position ba) (m_capacity ba) (m_size ba)
    (if value then APEXSTORM_LITTLE_ENDIAN else APEXSTORM_BIG_ENDIAN)
    (m_nodes ba) (m_cur ba).

(** * Copying bytes out of the chain *)

(** The loop of both [read]s: from offset [npos] of node [cur], with [ncap]
    bytes left in that node, append [size] bytes to [acc].  The result has
    the node the loop ends on. *)
Fixpoint read_loop (fuel : nat) (nodes : list (list Z)) (cur : option nat)
    (npos ncap size : Z) (acc : list Z) : outcome (list Z * option nat) :=
  match fuel with
  | O => Fault OutOfFuel
  | S fuel =>
      if 0 <? size then
        match deref nodes cur with
        | None => Fault NullDeref
        | Some (i, nd) =>
            if size <=? ncap then
              let acc := acc ++ take (Z.to_nat size) (drop (Z.to_nat npos) nd) in
              let cur := if node_size nd =? npos + size then next nodes i else Some i in
              Ret (acc, cur)
            else
              let acc := acc ++ take (Z.to_nat ncap) (drop (Z.to_nat npos) nd) in
              match deref nodes (next nodes i) with
              | None => Fault NullDeref
              | Some (j, nd') =>
                  read_loop fuel nodes (Some j) 0 (node_size nd') (size - ncap) acc
              end
        end
      else Ret (acc, cur)
  end.

(** [ByteArray::read(void *buf, size_t size)]: the bytes stored in [buf]. *)
Definition read (size : Z) : M ByteArray (list Z) := λ ba,
  if getReadSize ba <? size then (Throw std_out_of_range, ba) else
  if m_baseSize ba =? 0 then (Fault DivByZero, ba) else
  let npos := m_position ba mod m_baseSize ba in
  match deref (m_nodes ba) (m_cur ba) with
  | None => (Fault NullDeref, ba)
  | Some (_, nd) =>
      match read_loop (S (Z.to_nat size)) (m_nodes ba) (m_cur ba) npos
              (u64 (node_size nd - npos)) size [] with
      | Ret (bs, cur) =>
          (Ret bs, moved ba (u64 (m_position ba + size)) (m_size ba) (m_nodes ba) cur)
      | Throw e => (Throw e, ba)
      | Fault f => (Fault f, ba)
      end
  end.

(** [ByteArray::read(void *buf, size_t size, size_t position) const]. *)
Definition read_at (size position : Z) (ba : ByteArray) : outcome (list Z) :=
  if u64 (m_size ba - position) <? size then Throw std_out_of_range else
  if m_baseSize ba =? 0 then Fault DivByZero else
  let npos := position mod m_baseSize ba in
  match deref (m_nodes ba) (m_cur ba) with
  | None => Fault NullDeref
  | Some (_, nd) =>
      let! (bs, _) := read_loop (S (Z.to_nat size)) (m_nodes ba) (m_cur ba) npos
                        (u64 (node_size nd - npos)) size [] in
      Ret bs
  end.

(** * Copying bytes into the chain *)

Section alloc.
(** The indeterminate byte at an offset of the node allocated at an index. *)
Variable junk : nat → nat → Z.

(** [new Node(s)] for the node at index [i]. *)
Definition new_node (s : Z) (i : nat) : list Z := junk i <$> seq 0 (Z.to_nat s).

(** [ByteArray::ByteArray(size_t base_size)]. *)
Definition ByteArray_new (base_size : Z) : ByteArray :=
  mkByteArray base_size 0 base_size 0 APEXSTORM_BIG_ENDIAN
    [new_node base_size 0] (Some O).

(** The loop of [addCapacity] that appends [count] nodes. *)
Fixpoint append_nodes (count : nat) (base : Z) (nodes : list (list Z)) (cap : Z)
    : list (list Z) * Z :=
  match count with
  | O => (nodes, cap)
  | S count =>
      append_nodes count base (nodes ++ [new_node base (length nodes)]) (u64 (cap + base))
  end.

Definition addCapacity (size : Z) (ba : ByteArray) : outcome ByteArray :=
  if size =? 0 then Ret ba else
  let old_cap := getCapacity ba in
  if size <=? old_cap then Ret ba else
  if m_baseSize ba =? 0 then Fault DivByZero else
  let count := ceil_div_double (size - old_cap) (m_baseSize ba) in
  let '(nodes, cap) :=
    append_nodes (Z.to_nat count) (m_baseSize ba) (m_nodes ba) (m_capacity ba) in
  let first := if count =? 0 then None else Some (length (m_nodes ba)) in
  Ret (mkByteArray (m_baseSize ba) (m_position ba) cap (m_size ba) (m_endian ba) nodes
         (if old_cap =? 0 then first else m_cur ba)).

(** The loop of [write]. *)
Fixpoint write_loop (fuel : nat) (npos ncap : Z) (buf : list Z) (ba : ByteArray)
    : outcome ByteArray :=
  match fuel with
  | O => Fault OutOfFuel
  | S fuel =>
      let size := Zlen buf in
      if 0 <? size then
        match deref (m_nodes ba) (m_cur ba) with
        | None => Fault NullDeref
        | Some (i, nd) =>
            if size <=? ncap then
              let nodes := <[i := overlay nd (Z.to_nat npos) buf]> (m_nodes ba) in
              let cur := if node_size nd =? npos + size then next nodes i else Some i in
              Ret (moved ba (u64 (m_position ba + size)) (m_size ba) nodes cur)
            else
              let head := take (Z.to_nat ncap) buf in
              let nodes := <[i := overlay nd (Z.to_nat npos) head]> (m_nodes ba) in
              match deref nodes (next nodes i) with
              | None => Fault NullDeref
              | Some (j, nd') =>
                  write_loop fuel 0 (node_size nd') (drop (Z.to_nat ncap) buf)
                    (moved ba (u64 (m_position ba + ncap)) (m_size ba) nodes (Some j))
              end
        end
      else Ret ba
  end.

(** [ByteArray::write(const void *buf, size_t size)]; [buf] is the [size]
    bytes the pointer refers to. *)
Definition write_bytes (buf : list Z) (ba : ByteArray) : outcome ByteArray :=
  let size := Zlen buf in
  if size =? 0 then Ret ba else
  let! ba := addCapacity size ba in
  if m_baseSize ba =? 0 then Fault DivByZero else
  let npos := m_position ba mod m_baseSize ba in
  match deref (m_nodes ba) (m_cur ba) with
  | None => Fault NullDeref
  | Some (_, nd) =>
      let! ba := write_loop (S (length buf)) npos (u64 (node_size nd - npos)) buf ba in
      Ret (if m_size ba <? m_position ba
           then moved ba (m_position ba) (m_position ba) (m_nodes ba) (m_cur ba)
           else ba)
  end.

Definition write (buf : list Z) : M ByteArray unit := λ ba,
  match write_bytes buf ba with
  | Ret ba' => (Ret tt, ba')
  | Throw e => (Throw e, ba)
  | Fault f => (Fault f, ba)
  end.
End alloc.

(** * Position *)

(** The loop of [setPosition] that finds the node of offset [v]. *)
Fixpoint seek (fuel : nat) (nodes : list (list Z)) (cur : option nat) (v : Z)
    : outcome (option nat) :=
  match fuel with
  | O => Fault OutOfFuel
  | S fuel =>
      match deref nodes cur with
      | None => Fault NullDeref
      | Some (i, nd) =>
          if node_size nd <? v then seek fuel nodes (next nodes i) (v - node_size nd)
          else Ret (if v =? node_size nd then next nodes i else Some i)
      end
  end.

Definition setPosition (v : Z) : M ByteArray unit := λ ba,
  if m_capacity ba <? v then (Throw std_out_of_range, ba) else
  let size := if m_size ba <? v then v else m_size ba in
  match seek (S (length (m_nodes ba))) (m_nodes ba) (Some O) v with
  | Ret cur => (Ret tt, moved ba v size (m_nodes ba) cur)
  | Throw e => (Throw e, moved ba v size (m_nodes ba) (m_cur ba))
  | Fault f => (Fault f, moved ba v size (m_nodes ba) (m_cur ba))
  end.

(** [ByteArray::clear]: the nodes after the root are deleted. *)
Definition clear (ba : ByteArray) : outcome ByteArray :=
  match m_nodes ba with
  | [] => Fault NullDeref
  | root :: _ =>
      Ret (mkByteArray (m_baseSize ba) 0 (m_baseSize ba) 0 (m_endian ba) [root] (Some O))
  end.

(** [ByteArray::toString]. *)
Definition toString (ba : ByteArray) : outcome (list Z) :=
  if getReadSize ba =? 0 then Ret [] else read_at (getReadSize ba) (m_position ba) ba.

(** * Scatter-gather views *)

(** An [iovec]: the node, the offset in it and the length. *)
Record iovec := mkIovec { iov_node : nat; iov_off : Z; iov_len : Z }.

(** The loop of the three functions that fill an iovec array. *)
Fixpoint iov_loop (fuel : nat) (nodes : list (list Z)) (cur : option nat)
    (npos ncap len : Z) (buffers : list iovec) : outcome (list iovec) :=
  match fuel with
  | O => Fault OutOfFuel
  | S fuel =>
      if 0 <? len then
        match deref nodes cur with
        | None => Fault NullDeref
        | Some (i, _) =>
            if len <=? ncap then Ret (buffers ++ [mkIovec i npos len])
            else
              match deref nodes (next nodes i) with
              | None => Fault NullDeref
              | Some (j, nd') =>
                  iov_loop fuel nodes (Some j) 0 (node_size nd') (len - ncap)
                    (buffers ++ [mkIovec i npos ncap])
              end
        end
      else Ret buffers
  end.

(** [getReadBuffers(buffers, len)]: the iovecs pushed and the size returned. *)
Definition getReadBuffers (len : Z) (ba : ByteArray) : outcome (list iovec * Z) :=
  let len := Z.min (getReadSize ba) len in
  if len =? 0 then Ret ([], 0) else
  if m_baseSize ba =? 0 then Fault DivByZero else
  let npos := m_position ba mod m_baseSize ba in
  match deref (m_nodes ba) (m_cur ba) with
  | None => Fault NullDeref
  | Some (_, nd) =>
      let! iovs := iov_loop (S (Z.to_nat len)) (m_nodes ba) (m_cur ba) npos
                     (u64 (node_size nd - npos)) len [] in
      Ret (iovs, len)
  end.

(** [cur] after following [next] [count] times. *)
Fixpoint advance (count : nat) (nodes : list (list Z)) (cur : option nat)
    : outcome (option nat) :=
  match count with
  | O => Ret cur
  | S count =>
      match deref nodes cur with
      | None => Fault NullDeref
      | Some (i, _) => advance count nodes (next nodes i)
      end
  end.

(** [getReadBuffers(buffers, len, position)]. *)
Definition getReadBuffers_at (len position : Z) (ba : ByteArray)
    : outcome (list iovec * Z) :=
  let len := Z.min (getReadSize ba) len in
  if len =? 0 then Ret ([], 0) else
  if m_baseSize ba =? 0 then Fault DivByZero else
  let npos := position mod m_baseSize ba in
  let count := position / m_baseSize ba in
  let! cur := advance (Z.to_nat count) (m_nodes ba) (Some O) in
  match deref (m_nodes ba) (m_cur ba) with
  | None => Fault NullDeref
  | Some (_, nd) =>
      let! iovs := iov_loop (S (Z.to_nat len)) (m_nodes ba) cur npos
                     (u64 (node_size nd - npos)) len [] in
      Ret (iovs, len)
  end.

(** [getWriteBuffers(buffers, len)]: also the array, whose capacity grew. *)
Definition getWriteBuffers (junk : nat → nat → Z) (len : Z) (ba : ByteArray)
    : outcome (list iovec * Z * ByteArray) :=
  if len =? 0 then Ret ([], 0, ba) else
  let! ba := addCapacity junk len ba in
  if m_baseSize ba =? 0 then Fault DivByZero else
  let npos := m_position ba mod m_baseSize ba in
  match deref (m_nodes ba) (m_cur ba) with
  | None => Fault NullDeref
  | Some (_, nd) =>
      let! iovs := iov_loop (S (Z.to_nat len)) (m_nodes ba) (m_cur ba) npos
                     (u64 (node_size nd - npos)) len [] in
      Ret (iovs, len, ba)
  end.
