(* ===== verification/ByteArraySpec.v ===== *)
(** What a [ByteArray] promises: the invariant of the chain of nodes and the
    refinement of a flat buffer.

    [Inv] relates the position, the capacity, the chain and the current node.
    [abs] forgets the chain: a buffer is the bytes written and a position in
    them.  Every operation of ByteArray.v keeps [Inv] and acts on [abs] as the
    corresponding operation of [Buffer], which knows nothing of nodes. *)

From S2P Require Import Prelude Endian Varint Double ByteArray.

(** * The abstract buffer *)

Record Buffer := mkBuffer { b_data : list Z; b_pos : nat }.

Definition spec_write (bs : list Z) (b : Buffer) : Buffer :=
  mkBuffer (overlay (b_data b) (b_pos b) bs) (b_pos b + length bs).

Definition spec_read (n : nat) (b : Buffer) : option (list Z * Buffer) :=
  if (n <=? length (b_data b) - b_pos b)%nat
  then Some (take n (drop (b_pos b) (b_data b)), mkBuffer (b_data b) (b_pos b + n))
  else None.

(** * The invariant *)

(** The bytes of the whole chain, and those below [m_size]. *)
Definition flat (ba : ByteArray) : list Z := concat (m_nodes ba).
Definition data (ba : ByteArray) : list Z := take (Z.to_nat (m_size ba)) (flat ba).
Definition abs (ba : ByteArray) : Buffer :=
  mkBuffer (data ba) (Z.to_nat (m_position ba)).

(** The bytes [read] can still return. *)
Definition avail (ba : ByteArray) : list Z :=
  drop (Z.to_nat (m_position ba)) (data ba).

(** [m_cur] is the node that contains [m_position]; it is null when the
    position is at the end of the chain. *)
Definition cur_of (base pos cap : nat) : option nat :=
  if (pos <? cap)%nat then Some (pos / base)%nat else None.

Definition base (ba : ByteArray) : nat := Z.to_nat (m_baseSize ba).

(** Sizes up to [2 ^ 53] keep the node count of [addCapacity] exact. *)
Definition max_capacity : Z := 2 ^ 53 - 1.

Record Inv (ba : ByteArray) : Prop := {
  inv_base : 0 < m_baseSize ba;
  inv_root : m_nodes ba ≠ [];
  inv_nodes : uniform (base ba) (m_nodes ba);
  inv_capacity : m_capacity ba = Zlen (m_nodes ba) * m_baseSize ba;
  inv_max : m_capacity ba ≤ max_capacity;
  inv_position : 0 ≤ m_position ba ≤ m_size ba;
  inv_size : m_size ba ≤ m_capacity ba;
  inv_cur : m_cur ba = cur_of (base ba) (Z.to_nat (m_position ba))
                         (length (m_nodes ba) * base ba);
}.

(** There is room for [n] more bytes at the position: the chain stays within
    [max_capacity] when they are written. *)
Definition room (n : Z) (ba : ByteArray) : Prop :=
  m_position ba + n + m_baseSize ba ≤ max_capacity.

(** Compute the fields of an array that an operation returns. *)
Ltac ba_simpl :=
  cbn [moved m_position m_size m_endian m_baseSize m_nodes m_capacity m_cur] in *.

(** * Node arithmetic *)

Section nodes.
Context (n : nat) (nodes : list (list Z)).
Hypothesis n_pos : (0 < n)%nat.
Hypothesis nodes_uniform : uniform n nodes.

Lemma next_Some i : (S i < length nodes)%nat → next nodes i = Some (S i).
Proof. intros. unfold next. by rewrite (proj2 (Nat.ltb_lt _ _)). Qed.

Lemma next_None i : (length nodes ≤ S i)%nat → next nodes i = None.
Proof. intros. unfold next. by rewrite (proj2 (Nat.ltb_ge _ _)). Qed.

Lemma deref_lt i :
  (i < length nodes)%nat →
  ∃ nd, nodes !! i = Some nd ∧ deref nodes (Some i) = Some (i, nd) ∧
        length nd = n.
Proof.
  intros Hi. apply lookup_lt_is_Some in Hi as [nd Hnd].
  exists nd. simpl. rewrite Hnd. split_and!; [done..|]. by eapply uniform_lookup.
Qed.

(** The node after the bytes up to [k] of node [i]. *)
Lemma cur_of_advance i k :
  (i < length nodes)%nat → (0 < k ≤ n)%nat →
  (if (n =? k)%nat then next nodes i else Some i) =
  cur_of n (i * n + k) (length nodes * n).
Proof.
  intros Hi Hk. unfold cur_of.
  destruct (Nat.eqb_spec n k) as [->|Hne].
  - destruct (decide (S i < length nodes)%nat).
    + rewrite next_Some by done. rewrite (proj2 (Nat.ltb_lt _ _)) by nia.
      f_equal. replace (i * k + k)%nat with (S i * k)%nat by lia.
      by rewrite Nat.div_mul by lia.
    + rewrite next_None by lia. rewrite (proj2 (Nat.ltb_ge _ _)) by nia. done.
  - rewrite (proj2 (Nat.ltb_lt _ _)) by nia. f_equal.
    rewrite Nat.add_comm, Nat.div_add, Nat.div_small by lia. done.
Qed.

Lemma room_next i k :
  (i * n + n + k ≤ length nodes * n)%nat → (0 < k)%nat → (S i < length nodes)%nat.
Proof. nia. Qed.

(** The read loop returns the next [size] bytes of the chain. *)
Lemma read_loop_spec fuel i p size acc :
  (size < fuel)%nat → (i < length nodes)%nat → (p < n)%nat →
  (0 < size)%nat → (i * n + p + size ≤ length nodes * n)%nat →
  read_loop fuel nodes (Some i) (Z.of_nat p) (Z.of_nat (n - p)) (Z.of_nat size) acc =
  Ret (acc ++ take size (drop (i * n + p) (concat nodes)),
       cur_of n (i * n + p + size) (length nodes * n)).
Proof.
  revert i p size acc.
  induction fuel as [|fuel IH]; intros i p size acc Hf Hi Hp Hs Hr; [lia|].
  destruct (deref_lt i Hi) as (nd & Hnd & Hd & Hlen). simpl read_loop.
  rewrite (proj2 (Z.ltb_lt _ _)) by lia. cbn [deref] in Hd. rewrite Hd.
  destruct (Z.leb_spec (Z.of_nat size) (Z.of_nat (n - p))) as [Hle|Hgt].
  - rewrite !Nat2Z.id. f_equal. f_equal.
    + f_equal. symmetry. eapply take_drop_concat; [done..|lia].
    + rewrite <- Nat.add_assoc, <- cur_of_advance by lia.
      unfold node_size, Zlen. rewrite Hlen.
      destruct (Z.eqb_spec (Z.of_nat n) (Z.of_nat p + Z.of_nat size));
        destruct (Nat.eqb_spec n (p + size)); try lia; done.
  - assert (S i < length nodes)%nat as Hi' by (apply (room_next i (size - (n - p))); lia).
    rewrite next_Some by done. destruct (deref_lt (S i) Hi') as (nd' & _ & -> & Hlen').
    unfold node_size, Zlen. rewrite Hlen'.
    replace (Z.of_nat size - Z.of_nat (n - p)) with (Z.of_nat (size - (n - p))) by lia.
    change 0 with (Z.of_nat 0). rewrite <- (Nat.sub_0_r n) at 1.
    rewrite IH by lia. rewrite !Nat2Z.id, <- (assoc_L (++)).
    replace (S i * n + 0)%nat with (i * n + p + (n - p))%nat by lia.
    f_equal. f_equal.
    + f_equal. replace size with (n - p + (size - (n - p)))%nat at 2 by lia.
      rewrite <- take_take_drop, drop_drop. f_equal. symmetry.
      eapply take_drop_concat; [done..|lia].
    + f_equal. lia.
Qed.
End nodes.

Lemma uniform_insert {A} n (nodes : list (list A)) i nd :
  uniform n nodes → length nd = n → uniform n (<[i := nd]> nodes).
Proof. intros. by apply Forall_insert. Qed.

(** The write loop copies the buffer over the chain. *)
Lemma write_loop_spec n fuel : ∀ ba i p buf,
  (0 < n)%nat → uniform n (m_nodes ba) → m_cur ba = Some i →
  (length buf < fuel)%nat → (i < length (m_nodes ba))%nat → (p < n)%nat →
  buf ≠ [] → (i * n + p + length buf ≤ length (m_nodes ba) * n)%nat →
  0 ≤ m_position ba → m_position ba + Zlen buf < 2 ^ 64 →
  ∃ nodes,
    write_loop fuel (Z.of_nat p) (Z.of_nat (n - p)) buf ba =
      Ret (moved ba (m_position ba + Zlen buf) (m_size ba) nodes
             (cur_of n (i * n + p + length buf) (length nodes * n))) ∧
    uniform n nodes ∧ length nodes = length (m_nodes ba) ∧
    concat nodes = overlay (concat (m_nodes ba)) (i * n + p) buf.
Proof.
  induction fuel as [|fuel IH];
    intros ba i p buf Hn Hu Hcur Hf Hi Hp Hne Hr Hpos0 Hpos; [lia|].
  assert (0 < length buf)%nat by (destruct buf; simpl; [done|lia]).
  destruct (deref_lt n (m_nodes ba) Hu i Hi) as (nd & Hnd & Hd & Hlen).
  cbn [write_loop]. rewrite Hcur, Hd. rewrite (proj2 (Z.ltb_lt _ _)) by (unfold Zlen; lia).
  rewrite Nat2Z.id. destruct (Z.leb_spec (Zlen buf) (Z.of_nat (n - p))) as [Hle|Hgt].
  - unfold u64. rewrite wrapU_id by (unfold in_u, Zlen in *; lia).
    assert (uniform n (<[i:=overlay nd p buf]> (m_nodes ba))) as Hu'.
    { apply uniform_insert; [done|]. rewrite length_overlay; unfold Zlen in *; lia. }
    exists (<[i:=overlay nd p buf]> (m_nodes ba)).
    split_and!; [|done|apply length_insert|].
    + rewrite <- Nat.add_assoc, <- cur_of_advance; [|done|done|rewrite length_insert|];
        unfold Zlen in *; try lia.
      unfold node_size, Zlen. rewrite Hlen. do 2 f_equal.
      destruct (Z.eqb_spec (Z.of_nat n) (Z.of_nat p + Z.of_nat (length buf)));
        destruct (Nat.eqb_spec n (p + length buf)); try lia; done.
    + eapply concat_overlay; [done..|unfold Zlen in *; lia].
  - unfold Zlen in Hgt. rewrite Nat2Z.id. set (hd := take (n - p) buf).
    assert (length hd = n - p)%nat as Hhd by (subst hd; rewrite length_take; lia).
    set (nodes1 := <[i:=overlay nd p hd]> (m_nodes ba)).
    assert (uniform n nodes1) as Hu1.
    { apply uniform_insert; [done|]. rewrite length_overlay; lia. }
    assert (length nodes1 = length (m_nodes ba)) as Hl1 by apply length_insert.
    assert (S i < length nodes1)%nat as Hi'.
    { apply (room_next n nodes1 Hn i (length buf - (n - p))); lia. }
    rewrite next_Some by done. destruct (deref_lt n nodes1 Hu1 (S i) Hi') as (nd' & _ & -> & Hl').
    unfold u64. rewrite wrapU_id by (unfold in_u, Zlen in *; lia).
    unfold node_size, Zlen. rewrite Hl'.
    destruct (IH (moved ba (m_position ba + Z.of_nat (n - p)) (m_size ba) nodes1 (Some (S i)))
                (S i) 0%nat (drop (n - p) buf)) as (nodes & Hw & Hu2 & Hl2 & Hc);
      ba_simpl; try done;
      unfold Zlen in *; rewrite ?length_drop; try lia.
    { intros E. apply (f_equal length) in E. rewrite length_drop in E. simpl in E. lia. }
    exists nodes. rewrite Nat.sub_0_r in Hw. change (Z.of_nat 0) with 0 in Hw. rewrite Hw.
    split_and!; [|done|lia|].
    + rewrite length_drop. unfold moved. simpl. do 2 f_equal; [lia|].
      f_equal. lia.
    + rewrite Hc. subst nodes1. erewrite concat_overlay by (done || lia).
      replace (S i * n + 0)%nat with (i * n + p + length hd)%nat by lia.
      rewrite overlay_overlay.
      * subst hd. by rewrite take_drop.
      * rewrite (length_concat_uniform n), length_drop by done. lia.
Qed.

(** The nodes [addCapacity] appends. *)
Lemma append_nodes_spec junk n count : ∀ nodes cap,
  (0 < n)%nat → uniform n nodes → 0 ≤ cap → cap + Z.of_nat count * Z.of_nat n < 2 ^ 64 →
  ∃ new, append_nodes junk count (Z.of_nat n) nodes cap =
           (nodes ++ new, cap + Z.of_nat count * Z.of_nat n) ∧
         uniform n new ∧ length new = count.
Proof.
  induction count as [|count IH]; intros nodes cap Hn Hu Hc Hcap; simpl.
  - exists []. rewrite app_nil_r. split_and!; [f_equal; lia|constructor|done].
  - assert (uniform n [new_node junk (Z.of_nat n) (length nodes)]) as Hnew.
    { constructor; [|done]. unfold new_node. by rewrite length_fmap, length_seq, Nat2Z.id. }
    unfold u64. rewrite wrapU_id by (unfold in_u; lia).
    destruct (IH (nodes ++ [new_node junk (Z.of_nat n) (length nodes)]) (cap + Z.of_nat n))
      as (new & -> & Hun & Hl); [done|by apply Forall_app|lia..|].
    eexists (_ :: new). rewrite <- (assoc_L (++)). simpl.
    split_and!; [f_equal; lia|by apply (Forall_app _ [_])|lia].
Qed.

(** * Consequences of the invariant *)

Lemma Inv_base_nat ba : Inv ba → Z.of_nat (base ba) = m_baseSize ba.
Proof. intros [Hb]. unfold base. lia. Qed.

Lemma Inv_cap_nat ba :
  Inv ba → Z.of_nat (length (m_nodes ba) * base ba) = m_capacity ba.
Proof.
  intros Hi. rewrite (inv_capacity ba Hi), <- (Inv_base_nat ba Hi). unfold Zlen. lia.
Qed.

Lemma Inv_length_flat ba : Inv ba → length (flat ba) = (length (m_nodes ba) * base ba)%nat.
Proof. intros Hi. apply length_concat_uniform, inv_nodes, Hi. Qed.

Lemma Inv_length_data ba : Inv ba → length (data ba) = Z.to_nat (m_size ba).
Proof.
  intros Hi. unfold data. rewrite length_take, Inv_length_flat by done.
  pose proof (Inv_cap_nat ba Hi). pose proof (inv_size ba Hi). lia.
Qed.

Lemma Inv_getReadSize ba : Inv ba → getReadSize ba = m_size ba - m_position ba.
Proof.
  intros [? ? ? ? Hm Hp Hs]. unfold max_capacity in Hm.
  apply wrapU_id. unfold in_u. lia.
Qed.

Lemma Inv_getCapacity ba : Inv ba → getCapacity ba = m_capacity ba - m_position ba.
Proof.
  intros [? ? ? ? Hm Hp Hs]. unfold max_capacity in Hm.
  apply wrapU_id. unfold in_u. lia.
Qed.

Lemma Inv_length_avail ba :
  Inv ba → Z.of_nat (length (avail ba)) = m_size ba - m_position ba.
Proof.
  intros Hi. unfold avail. rewrite length_drop, Inv_length_data by done.
  pose proof (inv_position ba Hi). lia.
Qed.

(** The node and offset of the position, when it is below the capacity. *)
Lemma Inv_locate ba :
  Inv ba → m_position ba < m_capacity ba →
  ∃ i p, m_cur ba = Some i ∧ (i < length (m_nodes ba))%nat ∧ (p < base ba)%nat ∧
    (i * base ba + p = Z.to_nat (m_position ba))%nat ∧
    m_position ba mod m_baseSize ba = Z.of_nat p ∧
    ∃ nd, deref (m_nodes ba) (m_cur ba) = Some (i, nd) ∧
          u64 (node_size nd - Z.of_nat p) = Z.of_nat (base ba - p).
Proof.
  intros Hi Hlt. pose proof (Inv_base_nat ba Hi) as Hb. pose proof (Inv_cap_nat ba Hi) as Hc.
  pose proof (inv_base ba Hi). pose proof (inv_position ba Hi).
  pose proof (inv_max ba Hi) as Hm. unfold max_capacity in Hm.
  set (P := Z.to_nat (m_position ba)). set (n := base ba) in *.
  assert (P < length (m_nodes ba) * n)%nat as HP by (subst P; lia).
  assert (P / n < length (m_nodes ba))%nat as Hi' by (apply Nat.Div0.div_lt_upper_bound; lia).
  assert (P mod n < n)%nat as Hmod by (apply Nat.mod_upper_bound; lia).
  assert (m_cur ba = Some (P / n)%nat) as Hcur.
  { rewrite (inv_cur ba Hi). unfold cur_of. fold P n. by rewrite (proj2 (Nat.ltb_lt _ _)). }
  destruct (deref_lt n (m_nodes ba) (inv_nodes ba Hi) (P / n) Hi') as (nd & _ & Hd & Hl).
  exists (P / n)%nat, (P mod n)%nat. split_and!; [done..| | |].
  - rewrite Nat.mul_comm. symmetry. apply Nat.div_mod_eq.
  - rewrite Nat2Z.inj_mod, <- Hb. f_equal. subst P. lia.
  - exists nd. rewrite Hcur. split; [done|]. unfold node_size, Zlen. rewrite Hl.
    unfold u64. rewrite wrapU_id by (unfold in_u; nia). lia.
Qed.

Lemma Inv_cur_null ba : Inv ba → m_position ba = m_capacity ba → m_cur ba = None.
Proof.
  intros Hi Hp. rewrite (inv_cur ba Hi). unfold cur_of. pose proof (Inv_cap_nat ba Hi).
  rewrite (proj2 (Nat.ltb_ge _ _)); [done|lia].
Qed.

(** * The operations *)

Lemma Inv_new junk size : 0 < size ≤ max_capacity → Inv (ByteArray_new junk size).
Proof.
  intros Hs. unfold max_capacity in *. unfold ByteArray_new.
  constructor; ba_simpl; unfold base; ba_simpl; unfold max_capacity, Zlen; try done;
    try (simpl; lia).
  - constructor; [|done]. unfold new_node. by rewrite length_fmap, length_seq.
  - unfold cur_of. rewrite (proj2 (Nat.ltb_lt _ _)) by (simpl; lia).
    by rewrite Nat.Div0.div_0_l.
Qed.

(** [addCapacity] makes room without touching the bytes. *)
Lemma addCapacity_spec junk size ba :
  Inv ba → 0 ≤ size → room size ba →
  ∃ ba', addCapacity junk size ba = Ret ba' ∧ Inv ba' ∧
    m_position ba' = m_position ba ∧ m_size ba' = m_size ba ∧
    m_endian ba' = m_endian ba ∧ m_baseSize ba' = m_baseSize ba ∧
    (∃ extra, m_nodes ba' = m_nodes ba ++ extra) ∧
    m_position ba + size ≤ m_capacity ba'.
Proof.
  intros Hi Hs Hroom. pose proof (inv_position ba Hi). pose proof (inv_size ba Hi).
  unfold addCapacity. rewrite Inv_getCapacity by done.
  destruct (Z.eqb_spec size 0) as [->|Hs0].
  { exists ba. split_and!; try done; try lia. exists []. by rewrite app_nil_r. }
  destruct (Z.leb_spec size (m_capacity ba - m_position ba)) as [Hle|Hgt].
  { exists ba. split_and!; try done; try lia. exists []. by rewrite app_nil_r. }
  pose proof (inv_base ba Hi). rewrite (proj2 (Z.eqb_neq _ _)) by lia.
  unfold room, max_capacity in Hroom.
  rewrite ceil_div_double_exact by lia.
  pose proof (ceilZ_bounds (size - (m_capacity ba - m_position ba)) (m_baseSize ba)
                ltac:(lia)) as Hceil.
  set (count := ceilZ _ _) in *. assert (0 < count) as Hc0 by nia.
  pose proof (Inv_base_nat ba Hi) as Hb.
  destruct (append_nodes_spec junk (base ba) (Z.to_nat count) (m_nodes ba) (m_capacity ba))
    as (new & Hnew & Hun & Hln); [lia|apply Hi|lia|rewrite Z2Nat.id by lia; nia|].
  rewrite Hb in Hnew. rewrite Hnew. rewrite Z2Nat.id in * by lia.
  rewrite (proj2 (Z.eqb_neq count 0)) by lia.
  eexists. split; [reflexivity|]. ba_simpl.
  split_and!; [|done..|by exists new|nia].
  assert (Z.of_nat (length (m_nodes ba ++ new) * base ba) = m_capacity ba + count * m_baseSize ba).
  { rewrite length_app, Hln. pose proof (Inv_cap_nat ba Hi). nia. }
  constructor; ba_simpl; unfold base; ba_simpl; fold (base ba); try done; try lia.
  - intros E. apply (f_equal length) in E. rewrite length_app in E. simpl in E. lia.
  - apply Forall_app. split; [apply Hi|done].
  - unfold Zlen. nia.
  - unfold max_capacity. nia.
  - unfold cur_of. rewrite (proj2 (Nat.ltb_lt _ _)) by nia.
    destruct (Z.eqb_spec (m_capacity ba - m_position ba) 0) as [E|E].
    + pose proof (Inv_cap_nat ba Hi).
      replace (Z.to_nat (m_position ba)) with (length (m_nodes ba) * base ba)%nat by lia.
      by rewrite Nat.div_mul by lia.
    + destruct (Inv_locate ba Hi) as (i & p & Hcur & _ & Hp & Heq & _); [lia|].
      rewrite Hcur, <- Heq. rewrite Nat.add_comm, Nat.div_add, Nat.div_small by lia. done.
Qed.

(** [write] never faults and acts as [spec_write] on the abstract buffer. *)
Lemma write_bytes_spec junk bs ba :
  Inv ba → room (Zlen bs) ba →
  ∃ ba', write_bytes junk bs ba = Ret ba' ∧ Inv ba' ∧
    abs ba' = spec_write bs (abs ba) ∧
    m_position ba' = m_position ba + Zlen bs ∧
    m_endian ba' = m_endian ba ∧ m_baseSize ba' = m_baseSize ba ∧
    m_size ba' = Z.max (m_size ba) (m_position ba + Zlen bs).
Proof.
  intros Hi Hroom. unfold write_bytes. pose proof (inv_position ba Hi) as Hpos.
  destruct (Z.eqb_spec (Zlen bs) 0) as [Hz|Hz].
  { destruct bs; [|unfold Zlen in Hz; simpl in Hz; lia]. exists ba.
    change (Zlen []) with 0. unfold spec_write, abs. cbn [b_data b_pos].
    rewrite overlay_nil, Nat.add_0_r. split_and!; try done; lia. }
  destruct (addCapacity_spec junk (Zlen bs) ba Hi (Zlen_nonneg bs) Hroom)
    as (b1 & -> & Hi1 & Hp1 & Hs1 & He1 & Hb1 & (extra & Hex) & Hcap).
  cbn [obind]. rewrite (proj2 (Z.eqb_neq _ _)) by (pose proof (inv_base b1 Hi1); lia).
  assert (0 < Zlen bs) as Hlen by (pose proof (Zlen_nonneg bs); lia).
  destruct (Inv_locate b1 Hi1) as (i & p & Hcur & Hil & Hp & Hloc & Hmod & nd & Hd & Hncap);
    [lia|].
  rewrite Hmod, Hd, Hncap. pose proof (Inv_cap_nat b1 Hi1) as Hc1.
  pose proof (Inv_base_nat b1 Hi1). pose proof (inv_base b1 Hi1).
  pose proof (inv_max b1 Hi1) as Hmax. unfold max_capacity in Hmax.
  destruct (write_loop_spec (base b1) (S (length bs)) b1 i p bs)
    as (nodes & -> & Hu & Hln & Hconc); unfold Zlen in *; try lia; try done;
    [apply Hi1|by intros ->|].
  cbn [obind]. ba_simpl.
  assert (∀ sz, sz = Z.max (m_size b1) (m_position b1 + Z.of_nat (length bs)) →
    let ba' := moved b1 (m_position b1 + Z.of_nat (length bs)) sz nodes
                 (cur_of (base b1) (i * base b1 + p + length bs) (length nodes * base b1)) in
    Inv ba' ∧ abs ba' = spec_write bs (abs ba)) as Hgoal.
  { intros sz -> ba'. split.
    - subst ba'. constructor; ba_simpl; unfold base; ba_simpl; fold (base b1); try done;
        try apply Hi1; try lia.
      + intros ->. simpl in Hln. apply (inv_root b1 Hi1). by destruct (m_nodes b1).
      + rewrite (inv_capacity b1 Hi1). unfold Zlen. by rewrite Hln.
      + pose proof (inv_size b1 Hi1). lia.
      + rewrite Hloc. f_equal. lia.
    - unfold abs, spec_write, data, flat. subst ba'. ba_simpl. cbn [b_data b_pos].
      rewrite Hconc, Hloc, Hp1, Hs1. pose proof (inv_size ba Hi).
      assert (length (concat (m_nodes ba)) = (length (m_nodes ba) * base ba)%nat) as Hlf
        by (apply length_concat_uniform, Hi).
      pose proof (Inv_cap_nat ba Hi).
      assert (length (concat (m_nodes b1)) = (length (m_nodes b1) * base b1)%nat) as Hlf1
        by (apply length_concat_uniform, Hi1).
      f_equal; [|lia]. rewrite Hex, concat_app in *.
      apply take_overlay_grow; rewrite ?Hlf, ?Hlf1; lia. }
  rewrite Hp1, Hs1 in *.
  destruct (Z.ltb_spec (m_size ba) (m_position ba + Z.of_nat (length bs))).
  - eexists. split; [reflexivity|].
    destruct (Hgoal (m_position ba + Z.of_nat (length bs)) ltac:(lia)) as [HI HA].
    split_and!; [exact HI|exact HA|ba_simpl; first [done|lia]..].
  - eexists. split; [reflexivity|].
    destruct (Hgoal (m_size ba) ltac:(lia)) as [HI HA].
    split_and!; [exact HI|exact HA|ba_simpl; first [done|lia]..].
Qed.

Lemma write_spec junk bs ba :
  Inv ba → room (Zlen bs) ba →
  ∃ ba', write junk bs ba = (Ret tt, ba') ∧ Inv ba' ∧
    abs ba' = spec_write bs (abs ba) ∧
    m_position ba' = m_position ba + Zlen bs ∧
    m_endian ba' = m_endian ba ∧ m_baseSize ba' = m_baseSize ba ∧
    m_size ba' = Z.max (m_size ba) (m_position ba + Zlen bs).
Proof.
  intros Hi Hr. unfold write.
  destruct (write_bytes_spec junk bs ba Hi Hr) as (ba' & -> & H). by exists ba'.
Qed.

(** Bytes of the chain from the position on are the available bytes. *)
Lemma Inv_take_avail ba n :
  Inv ba → (n ≤ length (avail ba))%nat →
  take n (drop (Z.to_nat (m_position ba)) (concat (m_nodes ba))) = take n (avail ba).
Proof.
  intros Hi Hn. unfold avail, data, flat in *. rewrite skipn_firstn_comm, take_take in *.
  f_equal. rewrite length_take in Hn. lia.
Qed.

(** Reading [n > 0] bytes that are available returns them and advances. *)
Lemma read_spec n ba :
  Inv ba → (0 < n ≤ length (avail ba))%nat →
  ∃ ba', read (Z.of_nat n) ba = (Ret (take n (avail ba)), ba') ∧ Inv ba' ∧
    data ba' = data ba ∧ avail ba' = drop n (avail ba) ∧
    m_position ba' = m_position ba + Z.of_nat n ∧
    m_endian ba' = m_endian ba ∧ m_baseSize ba' = m_baseSize ba ∧
    m_size ba' = m_size ba.
Proof.
  intros Hi Hn. pose proof (Inv_length_avail ba Hi) as Hla.
  pose proof (inv_position ba Hi). pose proof (inv_size ba Hi). pose proof (inv_base ba Hi).
  pose proof (inv_max ba Hi) as Hmax. unfold max_capacity in Hmax.
  unfold read. rewrite Inv_getReadSize by done.
  rewrite (proj2 (Z.ltb_ge _ _)) by lia. rewrite (proj2 (Z.eqb_neq _ _)) by lia.
  destruct (Inv_locate ba Hi) as (i & p & Hcur & Hil & Hp & Hloc & Hmod & nd & Hd & Hncap);
    [lia|].
  rewrite Hmod, Hd, Hncap, Hcur. pose proof (Inv_cap_nat ba Hi).
  rewrite (read_loop_spec (base ba)); [|lia|apply Hi|lia..]. simpl app.
  rewrite Hloc, Inv_take_avail by (done || lia).
  unfold u64. rewrite wrapU_id by (unfold in_u; lia).
  eexists. split; [reflexivity|]. unfold avail, data, flat. ba_simpl.
  split_and!; try done.
  - constructor; ba_simpl; unfold base; ba_simpl; fold (base ba); try apply Hi; try lia.
    f_equal. lia.
  - rewrite drop_drop. f_equal. lia.
Qed.

(** Reading more than is available throws and changes nothing. *)
Lemma read_throws size ba :
  Inv ba → Z.of_nat (length (avail ba)) < size →
  read size ba = (Throw std_out_of_range, ba).
Proof.
  intros Hi Hs. rewrite Inv_length_avail in Hs by done.
  unfold read. rewrite Inv_getReadSize by done. by rewrite (proj2 (Z.ltb_lt _ _)).
Qed.

Lemma seek_spec n nodes fuel : ∀ i v,
  (0 < n)%nat → uniform n nodes → (length nodes - i < fuel)%nat →
  (i < length nodes)%nat → (i * n + v ≤ length nodes * n)%nat →
  seek fuel nodes (Some i) (Z.of_nat v) = Ret (cur_of n (i * n + v) (length nodes * n)).
Proof.
  induction fuel as [|fuel IH]; intros i v Hn Hu Hf Hi Hv; [lia|].
  destruct (deref_lt n nodes Hu i Hi) as (nd & _ & Hd & Hl). cbn [seek]. rewrite Hd.
  unfold node_size, Zlen. rewrite Hl.
  destruct (Z.ltb_spec (Z.of_nat n) (Z.of_nat v)) as [Hlt|Hge].
  - assert (S i < length nodes)%nat by nia. rewrite next_Some by done.
    replace (Z.of_nat v - Z.of_nat n) with (Z.of_nat (v - n)) by lia.
    rewrite IH by (done || lia). do 2 f_equal. lia.
  - f_equal. destruct v as [|v].
    + rewrite (proj2 (Z.eqb_neq _ _)) by lia. unfold cur_of.
      rewrite Nat.add_0_r, (proj2 (Nat.ltb_lt _ _)), Nat.div_mul by nia. done.
    + rewrite <- cur_of_advance by (done || lia).
      destruct (Z.eqb_spec (Z.of_nat (S v)) (Z.of_nat n));
        destruct (Nat.eqb_spec n (S v)); try lia; done.
Qed.

(** [setPosition] moves within the capacity; past [m_size] it extends the
    size over the bytes that are already in the chain. *)
Lemma setPosition_spec v ba :
  Inv ba → 0 ≤ v ≤ m_capacity ba →
  ∃ ba', setPosition v ba = (Ret tt, ba') ∧ Inv ba' ∧ m_position ba' = v ∧
    m_size ba' = Z.max (m_size ba) v ∧ m_nodes ba' = m_nodes ba ∧
    m_endian ba' = m_endian ba ∧ m_baseSize ba' = m_baseSize ba.
Proof.
  intros Hi Hv. unfold setPosition. rewrite (proj2 (Z.ltb_ge _ _)) by lia.
  pose proof (Inv_cap_nat ba Hi) as Hc. pose proof (Inv_base_nat ba Hi).
  pose proof (inv_base ba Hi). pose proof (inv_size ba Hi). pose proof (inv_position ba Hi).
  assert (0 < length (m_nodes ba))%nat.
  { pose proof (inv_root ba Hi). destruct (m_nodes ba); simpl; [done|lia]. }
  pose proof (seek_spec (base ba) (m_nodes ba) (S (length (m_nodes ba))) 0 (Z.to_nat v))
    as Hseek.
  rewrite Z2Nat.id in Hseek by lia. rewrite Hseek by (try apply Hi; lia). simpl Nat.add.
  destruct (Z.ltb_spec (m_size ba) v); (eexists; split; [reflexivity|]); ba_simpl;
    (split_and!; [|lia..|done|done|done]);
    constructor; ba_simpl; unfold base; ba_simpl; fold (base ba);
    try apply Hi; try lia; f_equal; lia.
Qed.

Lemma setPosition_throws v ba :
  m_capacity ba < v → setPosition v ba = (Throw std_out_of_range, ba).
Proof. intros. unfold setPosition. by rewrite (proj2 (Z.ltb_lt _ _)). Qed.

(** Within the bytes written, [setPosition] only moves the abstract position. *)
Lemma setPosition_abs v ba ba' :
  Inv ba → 0 ≤ v ≤ m_size ba → setPosition v ba = (Ret tt, ba') →
  abs ba' = mkBuffer (data ba) (Z.to_nat v).
Proof.
  intros Hi Hv H. pose proof (inv_size ba Hi).
  destruct (setPosition_spec v ba Hi) as (b & Hb & _ & Hp & Hs & Hn & _); [lia|].
  rewrite Hb in H. injection H as <-. unfold abs, data, flat.
  rewrite Hp, Hs, Hn. do 2 f_equal. lia.
Qed.

Lemma clear_spec ba :
  Inv ba → ∃ ba', clear ba = Ret ba' ∧ Inv ba' ∧ abs ba' = mkBuffer [] 0 ∧
    m_endian ba' = m_endian ba ∧ m_baseSize ba' = m_baseSize ba.
Proof.
  intros Hi. unfold clear. pose proof (inv_nodes ba Hi) as Hu. pose proof (inv_base ba Hi).
  pose proof (inv_capacity ba Hi) as Hc. pose proof (inv_max ba Hi).
  pose proof (inv_root ba Hi) as Hr.
  destruct (m_nodes ba) as [|root nodes]; [done|]. eexists. split; [reflexivity|].
  split_and!; try done. inversion Hu as [|? ? Hl _]; subst.
  unfold Zlen in Hc. simpl in Hc.
  constructor; ba_simpl; unfold base; ba_simpl; fold (base ba); unfold Zlen; try done;
    try (simpl; lia); try nia.
  - by constructor.
  - unfold cur_of. rewrite (proj2 (Nat.ltb_lt _ _)) by (unfold base; simpl; lia).
    by rewrite Nat.Div0.div_0_l.
Qed.

(** The positional [read] returns the bytes at [position] when that position
    lies in the current node. *)
Lemma read_at_spec n position ba :
  Inv ba → (0 < n)%nat → 0 ≤ position → position + Z.of_nat n ≤ m_size ba →
  m_position ba < m_capacity ba →
  position / m_baseSize ba = m_position ba / m_baseSize ba →
  read_at (Z.of_nat n) position ba =
    Ret (take n (drop (Z.to_nat position) (data ba))).
Proof.
  intros Hi Hn Hp0 Hpn Hlt Hq. pose proof (inv_size ba Hi).
  pose proof (inv_base ba Hi). pose proof (inv_position ba Hi).
  pose proof (inv_max ba Hi) as Hmax. unfold max_capacity in Hmax.
  unfold read_at. unfold u64 at 1. rewrite wrapU_id by (unfold in_u; lia).
  rewrite (proj2 (Z.ltb_ge _ _)) by lia. rewrite (proj2 (Z.eqb_neq _ _)) by lia.
  destruct (Inv_locate ba Hi) as (i & p & Hcur & Hil & Hp & Hloc & Hmod & nd & Hd & _);
    [lia|]. rewrite Hd.
  destruct (deref_lt (base ba) (m_nodes ba) (inv_nodes ba Hi) i Hil) as (nd' & _ & Hd' & Hl).
  rewrite Hcur in Hd. rewrite Hd in Hd'. simplify_eq. rewrite Hcur.
  pose proof (Inv_base_nat ba Hi) as Hb. pose proof (Inv_cap_nat ba Hi).
  assert (m_position ba / m_baseSize ba = Z.of_nat i) as Hqi.
  { rewrite <- Hb. symmetry. apply Z.div_unique with (Z.of_nat p); lia. }
  pose proof (Z.div_mod position (m_baseSize ba) ltac:(lia)) as Hdm.
  pose proof (Z.mod_pos_bound position (m_baseSize ba) ltac:(lia)).
  set (q := Z.to_nat (position mod m_baseSize ba)).
  replace (position mod m_baseSize ba) with (Z.of_nat q) by lia.
  unfold node_size, Zlen. rewrite Hl. unfold u64. rewrite wrapU_id by (unfold in_u; nia).
  replace (Z.of_nat (base ba) - Z.of_nat q) with (Z.of_nat (base ba - q)) by lia.
  assert (i * base ba + q = Z.to_nat position)%nat as Hpos by nia.
  rewrite (read_loop_spec (base ba)); [|lia|apply Hi|lia..]. simpl. rewrite Hpos.
  unfold data, flat. rewrite skipn_firstn_comm, take_take. do 2 f_equal. lia.
Qed.

(** [toString] is the readable part of the buffer, at any position. *)
Lemma toString_spec ba : Inv ba → toString ba = Ret (avail ba).
Proof.
  intros Hi. unfold toString. rewrite Inv_getReadSize by done.
  pose proof (Inv_length_avail ba Hi) as Hl. pose proof (inv_size ba Hi).
  destruct (Z.eqb_spec (m_size ba - m_position ba) 0) as [E|E].
  - destruct (avail ba); [done|]. simpl in Hl. lia.
  - pose proof (inv_position ba Hi).
    replace (m_size ba - m_position ba) with (Z.of_nat (length (avail ba))) by lia.
    rewrite read_at_spec by (done || lia). by rewrite take_ge.
Qed.

(** * Scatter-gather *)

(** The buffers an iovec array refers to, and their bytes. *)
Definition buffers_of (nodes : list (list Z)) (iovs : list iovec) : list (list Z) :=
  (λ v, take (Z.to_nat (iov_len v)) (drop (Z.to_nat (iov_off v)) (nodes !!! iov_node v))) <$> iovs.
Definition gather (nodes : list (list Z)) (iovs : list iovec) : list Z :=
  concat (buffers_of nodes iovs).

(** What [recvmsg] leaves in the chain when it stores [bs] through the
    iovecs: each is filled before the next. *)
Fixpoint scatter (nodes : list (list Z)) (iovs : list iovec) (bs : list Z)
    : list (list Z) :=
  match iovs with
  | [] => nodes
  | v :: iovs =>
      let k := Z.to_nat (iov_len v) in
      scatter (<[iov_node v := overlay (nodes !!! iov_node v) (Z.to_nat (iov_off v)) (take k bs)]>
                 nodes) iovs (drop k bs)
  end.

Lemma iov_loop_spec n nodes fuel : ∀ i p len acc,
  (0 < n)%nat → uniform n nodes → (len < fuel)%nat → (i < length nodes)%nat →
  (p < n)%nat → (0 < len)%nat → (i * n + p + len ≤ length nodes * n)%nat →
  ∃ iovs,
    iov_loop fuel nodes (Some i) (Z.of_nat p) (Z.of_nat (n - p)) (Z.of_nat len) acc =
      Ret (acc ++ iovs) ∧
    (∀ nodes2, uniform n nodes2 → length nodes2 = length nodes →
       gather nodes2 iovs = take len (drop (i * n + p) (concat nodes2))) ∧
    (∀ nodes2 bs, uniform n nodes2 → length nodes2 = length nodes →
       (length bs ≤ len)%nat →
       uniform n (scatter nodes2 iovs bs) ∧
       length (scatter nodes2 iovs bs) = length nodes2 ∧
       concat (scatter nodes2 iovs bs) = overlay (concat nodes2) (i * n + p) bs).
Proof.
  induction fuel as [|fuel IH]; intros i p len acc Hn Hu Hf Hi Hp Hl Hr; [lia|].
  destruct (deref_lt n nodes Hu i Hi) as (nd & _ & Hd & _). cbn [iov_loop]. rewrite Hd.
  rewrite (proj2 (Z.ltb_lt _ _)) by lia.
  destruct (Z.leb_spec (Z.of_nat len) (Z.of_nat (n - p))) as [Hle|Hgt].
  - exists [mkIovec i (Z.of_nat p) (Z.of_nat len)]. split; [done|]. split.
    + intros nodes2 Hu2 Hl2. unfold gather. simpl. rewrite !Nat2Z.id, app_nil_r.
      destruct (deref_lt n nodes2 Hu2 i) as (nd2 & Hnd & _ & Hlen); [lia|].
      rewrite (list_lookup_total_correct _ _ _ Hnd). symmetry.
      eapply take_drop_concat; [done..|lia].
    + intros nodes2 bs Hu2 Hl2 Hbs. simpl. rewrite !Nat2Z.id, (take_ge bs) by lia.
      destruct (deref_lt n nodes2 Hu2 i) as (nd2 & Hnd & _ & Hlen); [lia|].
      rewrite (list_lookup_total_correct _ _ _ Hnd). split_and!.
      * apply uniform_insert; [done|]. rewrite length_overlay; lia.
      * apply length_insert.
      * eapply concat_overlay; [done..|lia].
  - assert (S i < length nodes)%nat as Hi' by nia. rewrite next_Some by done.
    destruct (deref_lt n nodes Hu (S i) Hi') as (nd' & _ & -> & Hlen').
    unfold node_size, Zlen. rewrite Hlen'.
    replace (Z.of_nat len - Z.of_nat (n - p)) with (Z.of_nat (len - (n - p))) by lia.
    destruct (IH (S i) 0%nat (len - (n - p))%nat
                (acc ++ [mkIovec i (Z.of_nat p) (Z.of_nat (n - p))]))
      as (iovs & Hiov & Hg & Hsc); [lia|done|lia..|].
    rewrite Nat.sub_0_r in Hiov. change (Z.of_nat 0) with 0 in Hiov. rewrite Hiov.
    replace (S i * n + 0)%nat with (i * n + p + (n - p))%nat in Hg, Hsc by lia.
    exists (mkIovec i (Z.of_nat p) (Z.of_nat (n - p)) :: iovs).
    rewrite <- (assoc_L (++)). split; [done|]. split.
    + intros nodes2 Hu2 Hl2. unfold gather, buffers_of. cbn [fmap list_fmap concat].
      fold (buffers_of nodes2 iovs). fold (gather nodes2 iovs). rewrite Hg by done. cbn [iov_node iov_off iov_len].
      rewrite !Nat2Z.id. destruct (deref_lt n nodes2 Hu2 i) as (nd2 & Hnd & _ & Hlen); [lia|].
      rewrite (list_lookup_total_correct _ _ _ Hnd).
      replace len with (n - p + (len - (n - p)))%nat at 2 by lia.
      rewrite <- take_take_drop, drop_drop. f_equal. symmetry.
      eapply take_drop_concat; [done..|lia].
    + intros nodes2 bs Hu2 Hl2 Hbs. cbn [scatter iov_node iov_off iov_len]. rewrite !Nat2Z.id.
      destruct (deref_lt n nodes2 Hu2 i) as (nd2 & Hnd & _ & Hlen); [lia|].
      rewrite (list_lookup_total_correct _ _ _ Hnd).
      pose proof (length_take bs (n - p)) as Hlt.
      set (nodes3 := <[i:=overlay nd2 p (take (n - p) bs)]> nodes2).
      assert (uniform n nodes3) as Hu3
        by (apply uniform_insert; [done|rewrite length_overlay; lia]).
      assert (length nodes3 = length nodes2) as Hl3 by apply length_insert.
      destruct (Hsc nodes3 (drop (n - p) bs)) as (Hs1 & Hs2 & Hs3);
        [done|lia|rewrite length_drop; lia|].
      split_and!; [done|lia|]. rewrite Hs3. subst nodes3.
      erewrite concat_overlay; [|done..|lia].
      destruct (decide (length bs ≤ n - p)%nat) as [Hshort|Hlong].
      * rewrite drop_ge, overlay_nil, take_ge by lia. done.
      * replace (i * n + p + (n - p))%nat
          with (i * n + p + length (take (n - p) bs))%nat by lia.
        rewrite overlay_overlay; [by rewrite take_drop|].
        rewrite (length_concat_uniform n), length_drop by done. lia.
Qed.

(** How many iovecs there are, and how much they hold. *)
Definition iov_total (iovs : list iovec) : Z := foldr Z.add 0 (iov_len <$> iovs).

Lemma iov_loop_shape n nodes fuel : ∀ i p len acc r,
  (0 < n)%nat → uniform n nodes → (p ≤ n)%nat → 0 < len →
  iov_loop fuel nodes (Some i) (Z.of_nat p) (Z.of_nat (n - p)) len acc = Ret r →
  ∃ iovs, r = acc ++ iovs ∧ iov_total iovs = len ∧
    len ≤ Zlen iovs * Z.of_nat n - Z.of_nat p ∧
    Zlen iovs * Z.of_nat n < Z.of_nat p + len + Z.of_nat n.
Proof.
  induction fuel as [|fuel IH]; intros i p len acc r Hn Hu Hp Hl; cbn [iov_loop]; [done|].
  rewrite (proj2 (Z.ltb_lt _ _)) by lia. unfold deref at 1. destruct (nodes !! i) as [nd|]; [|done].
  destruct (Z.leb_spec len (Z.of_nat (n - p))) as [Hle|Hgt].
  - intros [= <-]. exists [mkIovec i (Z.of_nat p) len]. unfold iov_total, Zlen. simpl. split; [done|lia].
  - unfold deref. destruct (next nodes i) as [j|]; [|done].
    destruct (nodes !! j) as [nd'|] eqn:Ej; [|done].
    assert (node_size nd' = Z.of_nat (n - 0)) as ->.
    { unfold node_size, Zlen. rewrite (Forall_lookup_1 _ _ _ _ Hu Ej). lia. }
    intros (iovs & -> & Ht & H1 & H2)%(IH j 0%nat (len - Z.of_nat (n - p))); [|lia|done|lia|lia].
    exists (mkIovec i (Z.of_nat p) (Z.of_nat (n - p)) :: iovs).
    split; [by rewrite <- (assoc_L (++))|]. unfold iov_total, Zlen in *. cbn [fmap list_fmap foldr iov_len length].
    split; [lia|]. nia.
Qed.

(** [getReadBuffers] exposes exactly the next [len] readable bytes. *)
Lemma getReadBuffers_spec len ba :
  Inv ba → 0 ≤ len →
  ∃ iovs, getReadBuffers len ba =
            Ret (iovs, Z.min len (Z.of_nat (length (avail ba)))) ∧
          gather (m_nodes ba) iovs = take (Z.to_nat len) (avail ba).
Proof.
  intros Hi Hlen. unfold getReadBuffers. rewrite Inv_getReadSize by done.
  pose proof (Inv_length_avail ba Hi) as Hla. pose proof (inv_size ba Hi).
  pose proof (inv_position ba Hi). pose proof (inv_base ba Hi).
  rewrite Z.min_comm, Hla. set (k := Z.min len (m_size ba - m_position ba)).
  destruct (Z.eqb_spec k 0) as [E|E].
  - exists []. rewrite E. split; [done|]. unfold gather. simpl. symmetry.
    destruct (decide (len = 0)) as [->|]; [done|].
    destruct (avail ba); [by rewrite take_nil|]. simpl in Hla. lia.
  - rewrite (proj2 (Z.eqb_neq _ _)) by lia.
    destruct (Inv_locate ba Hi) as (i & p & Hcur & Hil & Hp & Hloc & Hmod & nd & Hd & Hncap);
      [lia|].
    rewrite Hmod, Hd, Hncap, Hcur. pose proof (Inv_cap_nat ba Hi).
    destruct (iov_loop_spec (base ba) (m_nodes ba) (S (Z.to_nat k)) i p (Z.to_nat k) [])
      as (iovs & Hiov & Hg & _); [lia|apply Hi|lia..|].
    rewrite Z2Nat.id in Hiov by lia. rewrite Hiov. simpl. exists iovs.
    split; [done|]. rewrite Hg by (done || apply Hi). rewrite Hloc.
    rewrite Inv_take_avail by (done || lia).
    destruct (decide (len ≤ m_size ba - m_position ba)).
    + f_equal. lia.
    + rewrite !take_ge by lia. done.
Qed.

(** Storing through the iovecs of [getWriteBuffers] and advancing by the
    number of bytes stored is the same as writing them. *)
Lemma getWriteBuffers_spec junk len ba :
  Inv ba → 0 < len → room len ba →
  ∃ iovs ba', getWriteBuffers junk len ba = Ret (iovs, len, ba') ∧ Inv ba' ∧
    abs ba' = abs ba ∧ m_endian ba' = m_endian ba ∧ m_baseSize ba' = m_baseSize ba ∧
    (∃ extra, m_nodes ba' = m_nodes ba ++ extra) ∧
    m_position ba + len ≤ m_capacity ba' ∧
    ∀ bs, (Z.of_nat (length bs) ≤ len) →
      let filled := moved ba' (m_position ba') (m_size ba')
                      (scatter (m_nodes ba') iovs bs) (m_cur ba') in
      Inv filled ∧ flat filled = overlay (flat ba') (Z.to_nat (m_position ba)) bs.
Proof.
  intros Hi Hlen Hroom. unfold getWriteBuffers. rewrite (proj2 (Z.eqb_neq _ _)) by lia.
  destruct (addCapacity_spec junk len ba Hi ltac:(lia) Hroom)
    as (b1 & -> & Hi1 & Hp1 & Hs1 & He1 & Hb1 & (extra & Hex) & Hcap).
  cbn [obind]. rewrite (proj2 (Z.eqb_neq _ _)) by (pose proof (inv_base b1 Hi1); lia).
  destruct (Inv_locate b1 Hi1) as (i & p & Hcur & Hil & Hp & Hloc & Hmod & nd & Hd & Hncap);
    [lia|].
  rewrite Hmod, Hd, Hncap, Hcur. pose proof (Inv_cap_nat b1 Hi1).
  pose proof (inv_position ba Hi). pose proof (inv_size ba Hi). pose proof (inv_base b1 Hi1).
  pose proof (Inv_base_nat b1 Hi1).
  destruct (iov_loop_spec (base b1) (m_nodes b1) (S (Z.to_nat len)) i p (Z.to_nat len) [])
    as (iovs & Hiov & _ & Hsc); [lia|apply Hi1|lia..|].
  rewrite Z2Nat.id in Hiov by lia. rewrite Hiov. cbn [obind]. exists iovs, b1.
  split_and!; try done; [|by exists extra|].
  - unfold abs, data, flat. rewrite Hp1, Hs1, Hex, concat_app. f_equal.
    rewrite take_app_le; [done|].
    pose proof (Inv_length_flat ba Hi) as Hf. unfold flat in Hf. rewrite Hf.
    pose proof (Inv_cap_nat ba Hi). lia.
  - intros bs Hbs.
    destruct (Hsc (m_nodes b1) bs) as (Hu & Hl & Hc); [apply Hi1|done|lia|].
    split.
    + constructor; ba_simpl; unfold base; ba_simpl; fold (base b1); rewrite ?Hl; try apply Hi1; try done.
      * intros E. rewrite E in Hl. apply (inv_root b1 Hi1). by destruct (m_nodes b1).
      * rewrite (inv_capacity b1 Hi1). unfold Zlen. by rewrite Hl.
    + unfold flat. ba_simpl. rewrite Hc, Hloc, Hp1. done.
Qed.

(** The iovecs of both functions: one for each node the bytes touch. *)
Lemma getReadBuffers_shape len ba iovs k :
  Inv ba → 0 < k → getReadBuffers len ba = Ret (iovs, k) →
  k ≤ Zlen iovs * m_baseSize ba < k + 2 * m_baseSize ba.
Proof.
  intros Hi Hk. unfold getReadBuffers. rewrite Inv_getReadSize by done.
  pose proof (inv_size ba Hi). pose proof (inv_position ba Hi). pose proof (inv_base ba Hi).
  destruct (Z.eqb_spec (Z.min (m_size ba - m_position ba) len) 0) as [E|E]; [intros [= <- <-]; lia|].
  rewrite (proj2 (Z.eqb_neq _ _)) by lia.
  destruct (decide (m_size ba - m_position ba ≤ 0)).
  { destruct (deref _ _) as [[? ?]|]; [|done]. destruct (iov_loop _ _ _ _ _ _ _); [|done..]. intros [= <- <-]. lia. }
  destruct (Inv_locate ba Hi) as (i & p & Hcur & Hil & Hp & Hloc & Hmod & nd & Hd & Hncap); [lia|].
  rewrite Hmod, Hd, Hncap, Hcur.
  destruct (iov_loop _ _ _ _ _ _ _) as [r| |] eqn:El; [|done..]. intros [= <- <-].
  pose proof (Inv_base_nat ba Hi).
  apply (iov_loop_shape (base ba)) in El as (iovs & -> & _ & Hlo & Hhi); [|lia|apply Hi|lia|lia].
  cbn [app]. lia.
Qed.

Lemma getWriteBuffers_shape junk len ba iovs k ba' :
  Inv ba → 0 < len → room len ba → getWriteBuffers junk len ba = Ret (iovs, k, ba') →
  iov_total iovs = len ∧ Zlen iovs * m_baseSize ba < len + 2 * m_baseSize ba.
Proof.
  intros Hi Hlen Hroom. unfold getWriteBuffers. rewrite (proj2 (Z.eqb_neq _ _)) by lia.
  destruct (addCapacity_spec junk len ba Hi ltac:(lia) Hroom)
    as (b1 & -> & Hi1 & Hp1 & Hs1 & He1 & Hb1 & _ & Hcap).
  cbn [obind]. rewrite (proj2 (Z.eqb_neq _ _)) by (pose proof (inv_base b1 Hi1); lia).
  destruct (Inv_locate b1 Hi1) as (i & p & Hcur & Hil & Hp & Hloc & Hmod & nd & Hd & Hncap); [lia|].
  rewrite Hmod, Hd, Hncap, Hcur.
  destruct (iov_loop _ _ _ _ _ _ _) as [r| |] eqn:El; [|done..]. intros [= <- <- <-].
  pose proof (Inv_base_nat b1 Hi1).
  apply (iov_loop_shape (base b1)) in El as (iovs & -> & Ht & Hlo & Hhi); [|lia|apply Hi1|lia|lia].
  cbn [app]. rewrite <- Hb1. lia.
Qed.
