(* ===== verification/Codec.v ===== *)
(** The typed readers and writers of [ByteArray]: bytearray.cpp.

    The definitions follow the source: fixed-width integers in the byte order
    [m_endian], zigzag and varint integers, floating-point values by their
    bits, strings with a length in front.  [Codec] is the contract a pair of a
    writer and a reader satisfies; every pair of the source is an instance,
    and sequences of values are written and read back through it. *)

From S2P Require Import Prelude Endian Varint Double ByteArray ByteArraySpec.

Section ops.
Context `{P : Platform} (junk : nat → nat → Z).

Abbreviation write := (write junk).

(** ** Writers *)

Definition writeFint8 (value : Z) : M ByteArray unit := write (mem_bytes int8_t value).
Definition writeFuint8 (value : Z) : M ByteArray unit := write (mem_bytes uint8_t value).

(** The body of [writeFint16] to [writeFuint64]. *)
Definition writeF (t : ity) (value : Z) : M ByteArray unit := λ ba,
  let value := if decide (m_endian ba = APEXSTORM_BYTE_ORDER) then value
               else byteswap t value in
  write (mem_bytes t value) ba.

Definition writeFint16 := writeF int16_t.
Definition writeFuint16 := writeF uint16_t.
Definition writeFint32 := writeF int32_t.
Definition writeFuint32 := writeF uint32_t.
Definition writeFint64 := writeF int64_t.
Definition writeFuint64 := writeF uint64_t.

(** [tmp] has 5 bytes for 32 bits and 10 for 64. *)
Definition writeUint32 (value : Z) : M ByteArray unit := λ ba,
  match compress 33 5 [] value with
  | Ret tmp => write tmp ba
  | Throw e => (Throw e, ba)
  | Fault f => (Fault f, ba)
  end.

Definition writeInt32 (value : Z) : M ByteArray unit :=
  writeUint32 (EncodeZigzag 32 value).

Definition writeUint64 (value : Z) : M ByteArray unit := λ ba,
  match compress 65 10 [] value with
  | Ret tmp => write tmp ba
  | Throw e => (Throw e, ba)
  | Fault f => (Fault f, ba)
  end.

Definition writeInt64 (value : Z) : M ByteArray unit :=
  writeUint64 (EncodeZigzag 64 value).

(** A [float] or [double] is its bit pattern, which [memcpy] copies. *)
Definition writeFloat (v : Z) : M ByteArray unit := writeFuint32 v.
Definition writeDouble (v : Z) : M ByteArray unit := writeFuint64 v.

(** [value.size()] is converted to the type of the length. *)
Definition writeStringF16 (value : list Z) : M ByteArray unit :=
  do! _ := writeFuint16 (u16 (Zlen value)) in write value.
Definition writeStringF32 (value : list Z) : M ByteArray unit :=
  do! _ := writeFuint32 (u32 (Zlen value)) in write value.
Definition writeStringF64 (value : list Z) : M ByteArray unit :=
  do! _ := writeFuint64 (u64 (Zlen value)) in write value.
Definition writeStringVint (value : list Z) : M ByteArray unit :=
  do! _ := writeFuint64 (u64 (Zlen value)) in write value.
Definition writeStringWithoutLength (value : list Z) : M ByteArray unit := write value.

(** ** Readers *)

Definition readFint8 : M ByteArray Z :=
  do! bs := read 1 in ret (mem_value int8_t bs).
Definition readFuint8 : M ByteArray Z :=
  do! bs := read 1 in ret (mem_value uint8_t bs).

(** The macro [XX(type)]. *)
Definition readF (t : ity) : M ByteArray Z :=
  do! bs := read (Z.of_nat (sizeof t)) in
  do! ba := get in
  let v := mem_value t bs in
  ret (if decide (m_endian ba = APEXSTORM_BYTE_ORDER) then v else byteswap t v).

Definition readFint16 := readF int16_t.
Definition readFuint16 := readF uint16_t.
Definition readFint32 := readF int32_t.
Definition readFuint32 := readF uint32_t.
Definition readFint64 := readF int64_t.
Definition readFuint64 := readF uint64_t.

(** The loop [for (uint8_t i = 0; i < w; i += 7)]. *)
Fixpoint decompress (fuel : nat) (w i result : Z) : M ByteArray Z :=
  match fuel with
  | O => fail OutOfFuel
  | S fuel =>
      if i <? w then
        do! b := readFuint8 in
        if b <? 0x80 then ret (Z.lor result (wrapU w (Z.shiftl b i)))
        else decompress fuel w (u8 (i + 7))
               (Z.lor result (wrapU w (Z.shiftl (Z.land b 0x7f) i)))
      else ret result
  end.

Definition readUint32 : M ByteArray Z := decompress 6 32 0 0.
Definition readUint64 : M ByteArray Z := decompress 11 64 0 0.

Definition readInt32 : M ByteArray Z :=
  do! v := readUint32 in ret (DecodeZigzag 32 v).
Definition readInt64 : M ByteArray Z :=
  do! v := readUint64 in ret (DecodeZigzag 64 v).

Definition readFloat : M ByteArray Z := readFuint32.
Definition readDouble : M ByteArray Z := readFuint64.

(** [buff.resize(len)] and [read(&buff[0], len)] when [buff] is not empty;
    a length above [max_size()] throws. *)
Definition read_string (len : Z) : M ByteArray (list Z) :=
  if 2 ^ 63 - 1 <? len then throw std_length_error else
  if 0 <? len then read len else ret [].

Definition readStringF16 : M ByteArray (list Z) :=
  do! len := readFuint16 in read_string len.
Definition readStringF32 : M ByteArray (list Z) :=
  do! len := readFuint32 in read_string len.
Definition readStringF64 : M ByteArray (list Z) :=
  do! len := readFuint64 in read_string len.
Definition readStringVint : M ByteArray (list Z) :=
  do! len := readFuint64 in read_string len.
End ops.

(** * What a write and a read do to the buffer *)

Record Wrote (bs : list Z) (ba ba' : ByteArray) : Prop := {
  wrote_inv : Inv ba';
  wrote_abs : abs ba' = spec_write bs (abs ba);
  wrote_position : m_position ba' = m_position ba + Zlen bs;
  wrote_endian : m_endian ba' = m_endian ba;
  wrote_base : m_baseSize ba' = m_baseSize ba;
  wrote_size : m_size ba' = Z.max (m_size ba) (m_position ba + Zlen bs);
}.

Record Consumed (bs : list Z) (ba ba' : ByteArray) : Prop := {
  consumed_inv : Inv ba';
  consumed_avail : avail ba = bs ++ avail ba';
  consumed_data : data ba' = data ba;
  consumed_position : m_position ba' = m_position ba + Zlen bs;
  consumed_endian : m_endian ba' = m_endian ba;
  consumed_base : m_baseSize ba' = m_baseSize ba;
  consumed_size : m_size ba' = m_size ba;
}.

Lemma Wrote_app b1 b2 ba ba1 ba2 :
  Inv ba → Wrote b1 ba ba1 → Wrote b2 ba1 ba2 → Wrote (b1 ++ b2) ba ba2.
Proof.
  intros Hi [I1 A1 P1 E1 B1 S1] [I2 A2 P2 E2 B2 S2].
  pose proof (inv_position ba Hi). pose proof (Zlen_nonneg b1). pose proof (Zlen_nonneg b2).
  constructor; [done| | |congruence|congruence|]; rewrite ?Zlen_app; try lia.
  rewrite A2, A1. unfold spec_write. cbn [b_data b_pos]. rewrite length_app.
  pose proof (Inv_length_data ba Hi) as Hl. unfold abs. cbn [b_data b_pos].
  f_equal; [|lia]. unfold overlay at 2.
  assert (length (take (Z.to_nat (m_position ba)) (data ba) ++ b1) =
          Z.to_nat (m_position ba) + length b1)%nat as Hlen
    by (rewrite length_app, length_take; lia).
  rewrite (assoc_L (++)). rewrite <- Hlen at 2.
  rewrite <- (Nat.add_0_r (length (_ ++ b1))), overlay_app_r. unfold overlay.
  rewrite take_0, drop_drop, <- !(assoc_L (++)). cbn [app]. do 3 f_equal.
  rewrite length_app. f_equal. lia.
Qed.

Lemma Consumed_app b1 b2 ba ba1 ba2 :
  Consumed b1 ba ba1 → Consumed b2 ba1 ba2 → Consumed (b1 ++ b2) ba ba2.
Proof.
  intros [] []. constructor; try done; try congruence.
  - rewrite <- (assoc_L (++)). congruence.
  - rewrite Zlen_app. lia.
Qed.

Lemma Consumed_nil ba : Inv ba → Consumed [] ba ba.
Proof. intros. constructor; try done. change (Zlen []) with 0. lia. Qed.

Lemma Wrote_nil ba : Inv ba → Wrote [] ba ba.
Proof.
  intros Hi. pose proof (inv_position ba Hi).
  constructor; try done; change (Zlen []) with 0; try lia.
  unfold spec_write. rewrite overlay_nil. simpl. by rewrite Nat.add_0_r.
Qed.

Lemma write_Wrote junk bs ba :
  Inv ba → room (Zlen bs) ba → ∃ ba', write junk bs ba = (Ret tt, ba') ∧ Wrote bs ba ba'.
Proof.
  intros Hi Hr. destruct (write_spec junk bs ba Hi Hr) as (ba' & Hw & ? & ? & ? & ? & ? & ?).
  exists ba'. split; [done|]. by constructor.
Qed.

Lemma read_Consumed bs rest ba :
  Inv ba → bs ≠ [] → avail ba = bs ++ rest →
  ∃ ba', read (Zlen bs) ba = (Ret bs, ba') ∧ Consumed bs ba ba' ∧ avail ba' = rest.
Proof.
  intros Hi Hne Ha. assert (0 < length bs)%nat by (destruct bs; simpl; [done|lia]).
  destruct (read_spec (length bs) ba Hi) as (ba' & Hr & ? & ? & Hav & ? & ? & ? & ?).
  { rewrite Ha, length_app. lia. }
  rewrite Ha, take_app_length in Hr. rewrite Ha, drop_app_length in Hav.
  exists ba'. split_and!; [done| |done]. constructor; try done. by rewrite Hav.
Qed.

Lemma room_app b1 b2 ba ba1 :
  Wrote b1 ba ba1 → room (Zlen (b1 ++ b2)) ba → room (Zlen b2) ba1.
Proof. unfold room. rewrite Zlen_app. intros [] ?. lia. Qed.

(** * The contract of a writer and its reader *)

(** [wire e a] is the encoding of [a] in an array of byte order [e].  The
    writer writes it, and the reader, when the encoding of a valid [a] is next
    in the array, consumes exactly it and returns [a]. *)
Class Codec {A} (wr : A → M ByteArray unit) (rd : M ByteArray A)
    (wire : endian → A → list Z) (ok : A → Prop) : Prop := {
  codec_write a ba :
    ok a → Inv ba → room (Zlen (wire (m_endian ba) a)) ba →
    ∃ ba', wr a ba = (Ret tt, ba') ∧ Wrote (wire (m_endian ba) a) ba ba';
  codec_read a ba rest :
    ok a → Inv ba → avail ba = wire (m_endian ba) a ++ rest →
    ∃ ba', rd ba = (Ret a, ba') ∧ Consumed (wire (m_endian ba) a) ba ba' ∧
           avail ba' = rest;
}.

(** The bytes of an integer in byte order [e]. *)
Definition wire_int (e : endian) (t : ity) (v : Z) : list Z :=
  match e with
  | APEXSTORM_LITTLE_ENDIAN => le_split (sizeof t) v
  | APEXSTORM_BIG_ENDIAN => rev (le_split (sizeof t) v)
  end.

Lemma length_wire_int e t v : length (wire_int e t v) = sizeof t.
Proof. destruct e; simpl; rewrite ?length_rev; apply length_le_split. Qed.

Lemma wire_int_ne e t v : wire_int e t v ≠ [].
Proof. intros H. apply (f_equal length) in H. rewrite length_wire_int in H. by destruct t. Qed.

Section fixed.
Context `{P : Platform} (junk : nat → nat → Z).

(** On every host, [writeF] stores the value in the order [m_endian]. *)
Lemma writeF_wire t v ba :
  (1 < sizeof t)%nat → writeF junk t v ba = write junk (wire_int (m_endian ba) t v) ba.
Proof.
  intros Ht. unfold writeF. f_equal. case_decide as Hd.
  - unfold mem_bytes, wire_int. by rewrite Hd.
  - rewrite mem_bytes_byteswap by done. unfold mem_bytes, wire_int.
    destruct (m_endian ba), APEXSTORM_BYTE_ORDER; try done. by rewrite rev_involutive.
Qed.

Lemma readF_value e t v :
  (1 < sizeof t)%nat → has_type t v →
  (if decide (e = APEXSTORM_BYTE_ORDER) then mem_value t (wire_int e t v)
   else byteswap t (mem_value t (wire_int e t v))) = v.
Proof.
  intros Ht Hv. case_decide as Hd.
  - replace (wire_int e t v) with (mem_bytes t v).
    + rewrite mem_value_bytes. by apply conv_id.
    + unfold mem_bytes, wire_int. by rewrite Hd.
  - replace (wire_int e t v) with (mem_bytes t (byteswap t v)).
    + rewrite mem_value_bytes, byteswap_type by done. by apply byteswap_involutive.
    + rewrite mem_bytes_byteswap by done. unfold mem_bytes, wire_int.
      destruct e, APEXSTORM_BYTE_ORDER; try done. by rewrite rev_involutive.
Qed.

Lemma codec_fixed t :
  (1 < sizeof t)%nat →
  Codec (writeF junk t) (readF t) (λ e v, wire_int e t v) (has_type t).
Proof.
  intros Ht. constructor.
  - intros v ba _ Hi Hr. rewrite writeF_wire by done. by apply write_Wrote.
  - intros v ba rest Hv Hi Ha.
    destruct (read_Consumed _ _ _ Hi (wire_int_ne _ _ _) Ha) as (ba' & Hr & Hc & Hav).
    exists ba'. split; [|done]. unfold Zlen in Hr. rewrite length_wire_int in Hr.
    unfold readF. rewrite (mbnd_Ret _ _ _ _ _ Hr). unfold get, mbnd, ret.
    rewrite (consumed_endian _ _ _ Hc). by rewrite readF_value.
Qed.

Lemma wire_byte e t v : sizeof t = 1%nat → wire_int e t v = mem_bytes t v.
Proof.
  intros Ht. unfold wire_int, mem_bytes. rewrite Ht. simpl.
  by destruct e, APEXSTORM_BYTE_ORDER.
Qed.

Lemma codec_byte t :
  sizeof t = 1%nat →
  Codec (λ v, write junk (mem_bytes t v)) (do! bs := read 1 in ret (mem_value t bs))
    (λ e v, wire_int e t v) (has_type t).
Proof.
  intros Ht. constructor.
  - intros v ba _ Hi Hr. rewrite <- (wire_byte (m_endian ba)) by done. by apply write_Wrote.
  - intros v ba rest Hv Hi Ha.
    destruct (read_Consumed _ _ _ Hi (wire_int_ne _ _ _) Ha) as (ba' & Hr & Hc & Hav).
    exists ba'. split; [|done]. unfold Zlen in Hr. rewrite length_wire_int, Ht in Hr.
    rewrite (mbnd_Ret _ _ _ _ _ Hr). unfold ret. do 2 f_equal.
    rewrite wire_byte, mem_value_bytes by done. by apply conv_id.
Qed.

(** ** The instances of the fixed-width integers *)

#[export] Instance codec_int8 :
  Codec (writeFint8 junk) readFint8 (λ e v, wire_int e int8_t v) (has_type int8_t).
Proof. by apply codec_byte. Qed.

#[export] Instance codec_uint8 :
  Codec (writeFuint8 junk) readFuint8 (λ e v, wire_int e uint8_t v) (has_type uint8_t).
Proof. by apply codec_byte. Qed.

Lemma readFuint8_spec b rest ba :
  Inv ba → 0 ≤ b < 256 → avail ba = b :: rest →
  ∃ ba', readFuint8 ba = (Ret b, ba') ∧ Consumed [b] ba ba' ∧ avail ba' = rest.
Proof.
  intros Hi Hb Ha.
  assert (∀ e, wire_int e uint8_t b = [b]) as Hw.
  { intros e. unfold wire_int. simpl. rewrite Z.mod_small by done. by destruct e. }
  destruct (codec_read (Codec := codec_uint8) b ba rest) as (ba' & H);
    rewrite ?Hw in *; [done|done|done|]. by exists ba'.
Qed.
End fixed.

(** * Varints *)

Section varint.
Context `{P : Platform} (junk : nat → nat → Z).

Lemma lor_shiftl result b i :
  0 ≤ i → 0 ≤ result < 2 ^ i → 0 ≤ b →
  Z.lor result (Z.shiftl b i) = result + b * 2 ^ i.
Proof.
  intros Hi Hr Hb. rewrite <- Z.shiftl_mul_pow2 by done.
  assert (Z.land result (Z.shiftl b i) = 0) as Hz.
  { apply Z.bits_inj'. intros k Hk. rewrite Z.land_spec, Z.bits_0.
    destruct (decide (k < i)).
    - rewrite Z.shiftl_spec_low by lia. apply andb_false_r.
    - destruct (decide (result = 0)) as [->|]; [by rewrite Z.bits_0|].
      rewrite Z.bits_above_log2; [done|lia|].
      apply Z.log2_lt_pow2; [lia|]. pose proof (Z.pow_le_mono_r 2 i k). lia. }
  rewrite <- Z.lxor_lor by done. by rewrite <- Z.add_nocarry_lxor.
Qed.

(** Reading the varint of [v] from bit [i] on adds [v * 2 ^ i]. *)
Lemma decompress_spec v bs :
  is_varint v bs → ∀ fuel w i result ba rest,
  (length bs ≤ fuel)%nat → 0 ≤ i < w → w ≤ 64 → 0 ≤ result < 2 ^ i →
  v * 2 ^ i < 2 ^ w → Inv ba → avail ba = bs ++ rest →
  ∃ ba', decompress fuel w i result ba = (Ret (result + v * 2 ^ i), ba') ∧
         Consumed bs ba ba' ∧ avail ba' = rest.
Proof.
  induction 1 as [v Hv|v bs Hv Hbs IH];
    intros fuel w i result ba rest Hf Hi Hw Hres Hmax HI Hav;
    (destruct fuel as [|fuel]; [simpl in Hf; lia|]); cbn [decompress];
    rewrite (proj2 (Z.ltb_lt i w)) by lia;
    pose proof (Z.pow_pos_nonneg 2 i ltac:(lia) ltac:(lia)) as Hpi.
  - destruct (readFuint8_spec junk v rest ba HI) as (ba1 & Hr & Hc & Ha1); [lia|done|].
    rewrite (mbnd_Ret _ _ _ _ _ Hr). rewrite (proj2 (Z.ltb_lt _ _)) by lia.
    exists ba1. split; [|done]. unfold ret. do 2 f_equal.
    rewrite wrapU_id by (unfold in_u; rewrite Z.shiftl_mul_pow2; lia).
    apply lor_shiftl; lia.
  - pose proof (Z.mod_pos_bound v 128 ltac:(lia)) as Hm.
    pose proof (Z.div_mod v 128 ltac:(lia)) as Hd.
    destruct (readFuint8_spec junk (v mod 128 + 128) (bs ++ rest) ba HI)
      as (ba1 & Hr & Hc & Ha1); [lia|done|].
    rewrite (mbnd_Ret _ _ _ _ _ Hr). rewrite (proj2 (Z.ltb_ge _ _)) by lia.
    assert (Z.land (v mod 128 + 128) 0x7f = v mod 128) as ->.
    { change 0x7f with (Z.ones 7). rewrite Z.land_ones by lia. change (2 ^ 7) with 128.
      replace (v mod 128 + 128) with (v mod 128 + 1 * 128) by lia.
      rewrite Z.mod_add by lia. apply Z.mod_mod. lia. }
    assert (1 ≤ v / 128) by (apply Z.div_le_lower_bound; lia).
    assert (2 ^ (i + 7) = 128 * 2 ^ i) as Hpow by (rewrite Z.pow_add_r by lia; lia).
    rewrite wrapU_id by (unfold in_u; rewrite Z.shiftl_mul_pow2 by lia; nia).
    rewrite lor_shiftl by lia. unfold u8. rewrite wrapU_id by (unfold in_u; lia).
    destruct (IH fuel w (i + 7) (result + v mod 128 * 2 ^ i) ba1 rest)
      as (ba2 & Hr2 & Hc2 & Ha2); try done.
    + simpl in Hf. lia.
    + split; [lia|]. apply (Z.pow_lt_mono_r_iff 2); nia.
    + rewrite Hpow. nia.
    + rewrite Hpow. nia.
    + apply Hc.
    + exists ba2. rewrite Hr2. split_and!; [|by apply (Consumed_app [_] bs _ ba1)|done].
      do 2 f_equal. rewrite Hpow. nia.
Qed.

(** The varint of a value of [7 * S n] bits. *)
Definition wire_varint (n : nat) (v : Z) : list Z :=
  match compress (S (S n)) (S n) [] v with Ret bs => bs | _ => [] end.

Lemma wire_varint_spec n v :
  0 ≤ v < 128 ^ Z.of_nat (S n) →
  is_varint v (wire_varint n v) ∧ (length (wire_varint n v) ≤ S n)%nat.
Proof.
  intros Hv. unfold wire_varint.
  destruct (compress_spec (S n) n (S (S n)) [] v) as (bs & -> & Hb & Hl);
    [lia|simpl; lia|done|]. done.
Qed.

Lemma compress_wire n fuel v :
  (n < fuel)%nat → 0 ≤ v < 128 ^ Z.of_nat (S n) →
  compress fuel (S n) [] v = Ret (wire_varint n v).
Proof.
  intros Hf Hv. destruct (compress_spec (S n) n fuel [] v) as (bs & -> & Hb & Hl);
    [lia|simpl; lia|done|]. simpl. f_equal.
  eapply is_varint_fun; [done|]. by apply wire_varint_spec.
Qed.

#[export] Instance codec_vu32 :
  Codec (writeUint32 junk) readUint32 (λ _ v, wire_varint 4 v) (in_u 32).
Proof.
  assert (∀ v, in_u 32 v → 0 ≤ v < 128 ^ Z.of_nat 5) as Hr by (unfold in_u; simpl; lia).
  constructor.
  - intros v ba Hv Hi Hroom. unfold writeUint32.
    rewrite (compress_wire 4) by (lia || auto). by apply write_Wrote.
  - intros v ba rest Hv Hi Ha. destruct (wire_varint_spec 4 v (Hr v Hv)) as [Hb Hl].
    destruct (decompress_spec v _ Hb 6 32 0 0 ba rest) as (ba' & Hd & H); try done;
      unfold in_u in Hv; [lia..|].
    exists ba'. split; [|done]. unfold readUint32. rewrite Hd. do 2 f_equal. lia.
Qed.

#[export] Instance codec_vu64 :
  Codec (writeUint64 junk) readUint64 (λ _ v, wire_varint 9 v) (in_u 64).
Proof.
  assert (∀ v, in_u 64 v → 0 ≤ v < 128 ^ Z.of_nat 10) as Hr by (unfold in_u; simpl; lia).
  constructor.
  - intros v ba Hv Hi Hroom. unfold writeUint64.
    rewrite (compress_wire 9) by (lia || auto). by apply write_Wrote.
  - intros v ba rest Hv Hi Ha. destruct (wire_varint_spec 9 v (Hr v Hv)) as [Hb Hl].
    destruct (decompress_spec v _ Hb 11 64 0 0 ba rest) as (ba' & Hd & H); try done;
      unfold in_u in Hv; [lia..|].
    exists ba'. split; [|done]. unfold readUint64. rewrite Hd. do 2 f_equal. lia.
Qed.

#[export] Instance codec_vi32 :
  Codec (writeInt32 junk) readInt32 (λ _ v, wire_varint 4 (zigzag v)) (in_s 32).
Proof.
  constructor.
  - intros v ba Hv Hi Hroom. unfold writeInt32. rewrite EncodeZigzag_zigzag by done.
    apply (codec_write (Codec := codec_vu32)); [by apply zigzag_range|done..].
  - intros v ba rest Hv Hi Ha.
    destruct (codec_read (Codec := codec_vu32) (zigzag v) ba rest) as (ba' & Hr & H);
      [by apply zigzag_range|done..|].
    exists ba'. split; [|done]. unfold readInt32. rewrite (mbnd_Ret _ _ _ _ _ Hr).
    unfold ret. by rewrite DecodeZigzag_zigzag.
Qed.

#[export] Instance codec_vi64 :
  Codec (writeInt64 junk) readInt64 (λ _ v, wire_varint 9 (zigzag v)) (in_s 64).
Proof.
  constructor.
  - intros v ba Hv Hi Hroom. unfold writeInt64. rewrite EncodeZigzag_zigzag by done.
    apply (codec_write (Codec := codec_vu64)); [by apply zigzag_range|done..].
  - intros v ba rest Hv Hi Ha.
    destruct (codec_read (Codec := codec_vu64) (zigzag v) ba rest) as (ba' & Hr & H);
      [by apply zigzag_range|done..|].
    exists ba'. split; [|done]. unfold readInt64. rewrite (mbnd_Ret _ _ _ _ _ Hr).
    unfold ret. by rewrite DecodeZigzag_zigzag.
Qed.
End varint.

(** * Strings *)

Section strings.
Context `{P : Platform} (junk : nat → nat → Z).

(** A string whose length fits the type [t] of the length in front of it. *)
Definition string_ok (t : ity) (s : list Z) : Prop :=
  in_u (bits t) (Zlen s) ∧ Zlen s ≤ 2 ^ 63 - 1.

Definition wire_string (t : ity) (e : endian) (s : list Z) : list Z :=
  wire_int e t (Zlen s) ++ s.

Lemma codec_string t :
  (1 < sizeof t)%nat → is_signed t = false →
  Codec (λ s, do! _ := writeF junk t (wrapU (bits t) (Zlen s)) in write junk s)
        (do! len := readF t in read_string len) (wire_string t) (string_ok t).
Proof.
  intros Ht Hu. pose proof (codec_fixed junk t Ht) as HC.
  assert (∀ s, string_ok t s → has_type t (Zlen s)) as Hty
    by (intros s []; unfold has_type; by rewrite Hu).
  constructor.
  - intros s ba Hs Hi Hroom. rewrite wrapU_id by apply Hs. unfold wire_string in *.
    destruct (codec_write (Codec := HC) (Zlen s) ba) as (ba1 & Hw & HW); [auto|done| |].
    { unfold room in *. rewrite Zlen_app in Hroom. pose proof (Zlen_nonneg s). lia. }
    rewrite (mbnd_Ret _ _ _ _ _ Hw).
    destruct (write_Wrote junk s ba1) as (ba2 & Hw2 & HW2);
      [apply HW|by eapply room_app|].
    exists ba2. split; [done|]. by apply (Wrote_app _ _ _ ba1).
  - intros s ba rest Hs Hi Ha. unfold wire_string in *. rewrite <- (assoc_L (++)) in Ha.
    destruct (codec_read (Codec := HC) (Zlen s) ba (s ++ rest)) as (ba1 & Hr & Hc & Ha1);
      [auto|done..|].
    rewrite (mbnd_Ret _ _ _ _ _ Hr). unfold read_string.
    destruct Hs as [_ Hs]. rewrite (proj2 (Z.ltb_ge _ _)) by lia.
    destruct s as [|c s].
    + exists ba1. split; [done|]. rewrite app_nil_r. done.
    + rewrite (proj2 (Z.ltb_lt _ _)) by (unfold Zlen; simpl; lia).
      destruct (read_Consumed (c :: s) rest ba1) as (ba2 & Hr2 & Hc2 & Ha2);
        [apply Hc|done..|].
      exists ba2. split_and!; [done| |done]. by apply (Consumed_app _ _ _ ba1).
Qed.

#[export] Instance codec_stringF16 :
  Codec (writeStringF16 junk) readStringF16 (wire_string uint16_t) (string_ok uint16_t).
Proof. apply codec_string; [simpl; lia|done]. Qed.

#[export] Instance codec_stringF32 :
  Codec (writeStringF32 junk) readStringF32 (wire_string uint32_t) (string_ok uint32_t).
Proof. apply codec_string; [simpl; lia|done]. Qed.

#[export] Instance codec_stringF64 :
  Codec (writeStringF64 junk) readStringF64 (wire_string uint64_t) (string_ok uint64_t).
Proof. apply codec_string; [simpl; lia|done]. Qed.

#[export] Instance codec_stringVint :
  Codec (writeStringVint junk) readStringVint (wire_string uint64_t) (string_ok uint64_t).
Proof. apply codec_string; [simpl; lia|done]. Qed.
End strings.

(** * Messages *)

(** The formats a program can choose for a field. *)
Inductive format :=
| Fint8 | Fuint8 | Fint16 | Fuint16 | Fint32 | Fuint32 | Fint64 | Fuint64
| Int32 | Uint32 | Int64 | Uint64 | Float | Double
| StringF16 | StringF32 | StringF64 | StringVint.

Definition payload (f : format) : Type :=
  match f with
  | StringF16 | StringF32 | StringF64 | StringVint => list Z
  | _ => Z
  end.

Record field := mkField { f_format : format; f_payload : payload f_format }.

Section messages.
Context `{P : Platform} (junk : nat → nat → Z).

(** The pair of methods for each format. *)
Definition writer (f : format) : payload f → M ByteArray unit :=
  match f with
  | Fint8 => writeFint8 junk | Fuint8 => writeFuint8 junk
  | Fint16 => writeFint16 junk | Fuint16 => writeFuint16 junk
  | Fint32 => writeFint32 junk | Fuint32 => writeFuint32 junk
  | Fint64 => writeFint64 junk | Fuint64 => writeFuint64 junk
  | Int32 => writeInt32 junk | Uint32 => writeUint32 junk
  | Int64 => writeInt64 junk | Uint64 => writeUint64 junk
  | Float => writeFloat junk | Double => writeDouble junk
  | StringF16 => writeStringF16 junk | StringF32 => writeStringF32 junk
  | StringF64 => writeStringF64 junk | StringVint => writeStringVint junk
  end.

Definition reader (f : format) : M ByteArray (payload f) :=
  match f with
  | Fint8 => readFint8 | Fuint8 => readFuint8
  | Fint16 => readFint16 | Fuint16 => readFuint16
  | Fint32 => readFint32 | Fuint32 => readFuint32
  | Fint64 => readFint64 | Fuint64 => readFuint64
  | Int32 => readInt32 | Uint32 => readUint32
  | Int64 => readInt64 | Uint64 => readUint64
  | Float => readFloat | Double => readDouble
  | StringF16 => readStringF16 | StringF32 => readStringF32
  | StringF64 => readStringF64 | StringVint => readStringVint
  end.

(** The values a format represents. *)
Definition valid (f : format) : payload f → Prop :=
  match f with
  | Fint8 => has_type int8_t | Fuint8 => has_type uint8_t
  | Fint16 => has_type int16_t | Fuint16 => has_type uint16_t
  | Fint32 => has_type int32_t | Fuint32 => has_type uint32_t
  | Fint64 => has_type int64_t | Fuint64 => has_type uint64_t
  | Int32 => in_s 32 | Uint32 => in_u 32 | Int64 => in_s 64 | Uint64 => in_u 64
  | Float => has_type uint32_t | Double => has_type uint64_t
  | StringF16 => string_ok uint16_t | StringF32 => string_ok uint32_t
  | StringF64 => string_ok uint64_t | StringVint => string_ok uint64_t
  end.

Definition encoding (e : endian) (f : format) : payload f → list Z :=
  match f with
  | Fint8 => wire_int e int8_t | Fuint8 => wire_int e uint8_t
  | Fint16 => wire_int e int16_t | Fuint16 => wire_int e uint16_t
  | Fint32 => wire_int e int32_t | Fuint32 => wire_int e uint32_t
  | Fint64 => wire_int e int64_t | Fuint64 => wire_int e uint64_t
  | Int32 => λ v, wire_varint 4 (zigzag v) | Uint32 => wire_varint 4
  | Int64 => λ v, wire_varint 9 (zigzag v) | Uint64 => wire_varint 9
  | Float => wire_int e uint32_t | Double => wire_int e uint64_t
  | StringF16 => wire_string uint16_t e | StringF32 => wire_string uint32_t e
  | StringF64 => wire_string uint64_t e | StringVint => wire_string uint64_t e
  end.

#[export] Instance codec_format f : Codec (writer f) (reader f) (λ e, encoding e f) (valid f).
Proof.
  destruct f; simpl; try apply _; apply codec_fixed; simpl; lia.
Qed.

(** Writing the fields of a message in order, and reading them in order. *)
Fixpoint write_message (m : list field) : M ByteArray unit :=
  match m with
  | [] => ret tt
  | x :: m => do! _ := writer (f_format x) (f_payload x) in write_message m
  end.

Fixpoint read_message (fs : list format) : M ByteArray (list field) :=
  match fs with
  | [] => ret []
  | f :: fs =>
      do! a := reader f in
      do! m := read_message fs in
      ret (mkField f a :: m)
  end.

Definition message_ok (m : list field) : Prop :=
  Forall (λ x, valid (f_format x) (f_payload x)) m.

Definition message_wire (e : endian) (m : list field) : list Z :=
  concat ((λ x, encoding e (f_format x) (f_payload x)) <$> m).

Lemma write_message_spec m : ∀ ba,
  message_ok m → Inv ba → room (Zlen (message_wire (m_endian ba) m)) ba →
  ∃ ba', write_message m ba = (Ret tt, ba') ∧
         Wrote (message_wire (m_endian ba) m) ba ba'.
Proof.
  induction m as [|x m IH]; intros ba Hok Hi Hr; simpl.
  - exists ba. split; [done|by apply Wrote_nil].
  - inversion Hok as [|? ? Hx Hm]; subst. unfold message_wire in *. simpl in *.
    destruct (codec_write (Codec := codec_format (f_format x)) (f_payload x) ba)
      as (ba1 & Hw & HW); [done..| |].
    { unfold room in *. rewrite Zlen_app in Hr.
      match type of Hr with context [Zlen ?a + Zlen ?b] => pose proof (Zlen_nonneg b) end.
      lia. }
    rewrite (mbnd_Ret _ _ _ _ _ Hw). pose proof (room_app _ _ _ _ HW Hr) as Hr1.
    destruct (IH ba1) as (ba2 & Hw2 & HW2); [done|apply HW| |];
      rewrite ?(wrote_endian _ _ _ HW) in *; [done|].
    exists ba2. split; [done|]. by apply (Wrote_app _ _ _ ba1).
Qed.

Lemma read_message_spec m : ∀ ba rest,
  message_ok m → Inv ba → avail ba = message_wire (m_endian ba) m ++ rest →
  ∃ ba', read_message (f_format <$> m) ba = (Ret m, ba') ∧ Inv ba' ∧ avail ba' = rest.
Proof.
  induction m as [|x m IH]; intros ba rest Hok Hi Ha; simpl.
  - by exists ba.
  - inversion Hok as [|? ? Hx Hm]; subst. unfold message_wire in *. simpl in Ha.
    rewrite <- (assoc_L (++)) in Ha.
    destruct (codec_read (Codec := codec_format (f_format x)) _ _ _ Hx Hi Ha)
      as (ba1 & Hr & Hc & Ha1).
    rewrite (mbnd_Ret _ _ _ _ _ Hr).
    destruct (IH ba1 rest) as (ba2 & Hr2 & Hi2 & Ha2); [done|apply Hc| |].
    { by rewrite (consumed_endian _ _ _ Hc). }
    rewrite (mbnd_Ret _ _ _ _ _ Hr2). exists ba2. destruct x. done.
Qed.
End messages.

(** The bytes written are the next available ones after going back. *)
Lemma Wrote_back bs ba ba1 :
  Inv ba → Wrote bs ba ba1 →
  ∃ ba2, setPosition (m_position ba) ba1 = (Ret tt, ba2) ∧ Inv ba2 ∧
    m_endian ba2 = m_endian ba ∧
    avail ba2 = bs ++ drop (Z.to_nat (m_position ba) + length bs) (data ba).
Proof.
  intros Hi [I A Hp He Hb Hs]. pose proof (inv_position ba Hi). pose proof (inv_position ba1 I).
  pose proof (inv_size ba1 I). pose proof (Zlen_nonneg bs).
  destruct (setPosition_spec (m_position ba) ba1 I) as (ba2 & Hset & I2 & _ & _ & _ & E2 & _);
    [lia|].
  pose proof (setPosition_abs (m_position ba) ba1 ba2 I ltac:(lia) Hset) as Habs.
  exists ba2. split_and!; [done..|congruence|].
  unfold avail. change (data ba2) with (b_data (abs ba2)).
  change (Z.to_nat (m_position ba2)) with (b_pos (abs ba2)). rewrite Habs. cbn [b_data b_pos].
  change (data ba1) with (b_data (abs ba1)). rewrite A. cbn [spec_write b_data b_pos abs].
  unfold overlay. rewrite drop_app_length'; [done|].
  rewrite length_take, Inv_length_data by done. lia.
Qed.
