(* ===== verification/FileIO.v ===== *)
(** Saving and loading a [ByteArray]: [writeToFile] and [readFromFile] of
    bytearray.cpp.

    A file is the list of its bytes; the stream operations that can fail when
    the file is opened are an argument. *)

From S2P Require Import Prelude Endian Varint Double ByteArray ByteArraySpec Codec.

(** The loop of [writeToFile]; [acc] is what the stream received.
    [ofs.write] with a count that is not positive writes nothing. *)
Fixpoint write_file_loop (fuel : nat) (base : Z) (nodes : list (list Z))
    (cur : option nat) (pos read_size : Z) (acc : list Z) : outcome (list Z) :=
  match fuel with
  | O => Fault OutOfFuel
  | S fuel =>
      if 0 <? read_size then
        let diff := i32 (pos mod base) in
        let len := (if base <? read_size then base else read_size) - diff in
        match deref nodes cur with
        | None => Fault NullDeref
        | Some (i, nd) =>
            write_file_loop fuel base nodes (next nodes i) (pos + len) (read_size - len)
              (acc ++ take (Z.to_nat len) (drop (Z.to_nat diff) nd))
        end
      else Ret acc
  end.

(** The result and the content of the file; [opened] is whether
    [ofs.open] succeeded. *)
Definition writeToFile (opened : bool) (ba : ByteArray) : outcome (bool * list Z) :=
  if negb opened then Ret (false, []) else
  let read_size := i64 (getReadSize ba) in
  if (0 <? read_size) && (m_baseSize ba =? 0) then Fault DivByZero else
  let! content := write_file_loop (S (Z.to_nat read_size + length (m_nodes ba)))
                    (m_baseSize ba) (m_nodes ba) (m_cur ba) (m_position ba) read_size [] in
  Ret (true, content).

Section load.
Variable junk : nat → nat → Z.

(** The loop [while (!ifs.eof())] of [readFromFile]: [file] is what is left
    of the stream, and a read that comes short sets [eof]. *)
Fixpoint read_file_loop (fuel : nat) (base : Z) (file : list Z) : M ByteArray unit :=
  match fuel with
  | O => fail OutOfFuel
  | S fuel =>
      let chunk := take (Z.to_nat base) file in
      do! _ := write junk chunk in
      if Zlen chunk <? base then ret tt
      else read_file_loop fuel base (drop (Z.to_nat base) file)
  end.

(** [None] is a file that cannot be opened. *)
Definition readFromFile (file : option (list Z)) : M ByteArray bool :=
  match file with
  | None => ret false
  | Some file =>
      do! ba := get in
      do! _ := read_file_loop (S (length file)) (m_baseSize ba) file in
      ret true
  end.

Lemma read_file_loop_spec fuel : ∀ file ba,
  (length file < fuel)%nat → Inv ba → room (Zlen file) ba →
  ∃ ba', read_file_loop fuel (m_baseSize ba) file ba = (Ret tt, ba') ∧ Wrote file ba ba'.
Proof.
  induction fuel as [|fuel IH]; intros file ba Hf Hi Hr; [lia|]. cbn [read_file_loop].
  pose proof (inv_base ba Hi). pose proof (Inv_base_nat ba Hi) as Hb. unfold base in Hb.
  set (n := Z.to_nat (m_baseSize ba)) in *.
  pose proof (take_drop n file) as Hsplit.
  assert (room (Zlen (take n file)) ba) as Hr1.
  { rewrite <- Hsplit in Hr. unfold room in *. rewrite Zlen_app in Hr.
    pose proof (Zlen_nonneg (drop n file)). lia. }
  destruct (write_Wrote junk (take n file) ba Hi Hr1) as (ba1 & Hw & HW).
  rewrite (mbnd_Ret _ _ _ _ _ Hw).
  destruct (Z.ltb_spec (Zlen (take n file)) (m_baseSize ba)) as [Hlt|Hge].
  - exists ba1. split; [done|]. unfold Zlen in Hlt. rewrite length_take in Hlt.
    by rewrite take_ge in HW by lia.
  - unfold Zlen in Hge. rewrite length_take in Hge.
    rewrite <- (wrote_base _ _ _ HW).
    destruct (IH (drop n file) ba1) as (ba2 & Hw2 & HW2).
    + rewrite length_drop. lia.
    + apply HW.
    + eapply room_app; [done|]. by rewrite Hsplit.
    + exists ba2. split; [done|]. rewrite <- Hsplit. by apply (Wrote_app _ _ _ ba1).
Qed.

(** Loading a file writes its bytes at the position. *)
Lemma readFromFile_spec file ba :
  Inv ba → room (Zlen file) ba →
  ∃ ba', readFromFile (Some file) ba = (Ret true, ba') ∧ Wrote file ba ba'.
Proof.
  intros Hi Hr. unfold readFromFile, get, mbnd at 1. cbn.
  destruct (read_file_loop_spec (S (length file)) file ba) as (ba' & Hl & HW); [lia|done..|].
  exists ba'. by rewrite (mbnd_Ret _ _ _ _ _ Hl).
Qed.
End load.

Lemma write_file_loop_spec n nodes fuel : ∀ i k acc,
  (0 < n)%nat → Z.of_nat n < 2 ^ 53 → uniform n nodes → (length nodes - i < fuel)%nat →
  (i * n + k ≤ length nodes * n)%nat →
  write_file_loop fuel (Z.of_nat n) nodes
    (cur_of n (i * n) (length nodes * n)) (Z.of_nat (i * n)) (Z.of_nat k) acc =
  Ret (acc ++ take k (drop (i * n) (concat nodes))).
Proof.
  induction fuel as [|fuel IH]; intros i k acc Hn Hmax Hu Hf Hk; [lia|]. cbn [write_file_loop].
  destruct (Z.ltb_spec 0 (Z.of_nat k)) as [Hk0|Hk0].
  2: { replace k with 0%nat by lia. rewrite take_0, app_nil_r. done. }
  assert (i < length nodes)%nat as Hi by nia.
  rewrite Nat2Z.inj_mul, Z.mod_mul by lia. change (i32 0) with 0. rewrite !Z.sub_0_r.
  destruct (deref_lt n nodes Hu i Hi) as (nd & Hnd & Hd & Hl).
  assert (cur_of n (i * n) (length nodes * n) = Some i) as ->.
  { unfold cur_of. rewrite (proj2 (Nat.ltb_lt _ _)) by nia. by rewrite Nat.div_mul by lia. }
  rewrite Hd.
  assert (next nodes i = cur_of n (S i * n) (length nodes * n)) as ->.
  { replace (S i * n)%nat with (i * n + n)%nat by lia.
    rewrite <- cur_of_advance by (done || lia). by rewrite Nat.eqb_refl. }
  change (Z.to_nat 0) with 0%nat. rewrite drop_0.
  destruct (Z.ltb_spec (Z.of_nat n) (Z.of_nat k)).
  - replace (Z.of_nat i * Z.of_nat n + Z.of_nat n) with (Z.of_nat (S i * n)) by lia.
    replace (Z.of_nat k - Z.of_nat n) with (Z.of_nat (k - n)) by lia.
    rewrite IH by (done || lia). rewrite <- (assoc_L (++)), Nat2Z.id. do 2 f_equal.
    replace k with (n + (k - n))%nat at 2 by lia. rewrite <- take_take_drop, drop_drop.
    f_equal; [|f_equal; f_equal; lia].
    rewrite <- (Nat.add_0_r (i * n)). symmetry.
    rewrite (take_drop_concat n nodes i nd) by (done || lia). done.
  - rewrite Z.sub_diag. destruct fuel as [|fuel]; [lia|]. cbn [write_file_loop].
    simpl (0 <? 0). cbv iota. do 2 f_equal. rewrite Nat2Z.id.
    rewrite <- (Nat.add_0_r (i * n)). symmetry.
    rewrite (take_drop_concat n nodes i nd) by (done || lia). done.
Qed.

(** At the start of a node, [writeToFile] saves exactly the readable bytes. *)
Lemma writeToFile_spec ba :
  Inv ba → m_position ba mod m_baseSize ba = 0 →
  writeToFile true ba = Ret (true, avail ba).
Proof.
  intros Hi Hal. unfold writeToFile. simpl negb. cbv iota.
  rewrite Inv_getReadSize by done. pose proof (Inv_length_avail ba Hi) as Hla.
  pose proof (inv_position ba Hi). pose proof (inv_size ba Hi). pose proof (inv_base ba Hi).
  pose proof (inv_max ba Hi) as Hm. unfold max_capacity in Hm.
  unfold i64. rewrite wrapS_id by (unfold in_s; lia).
  rewrite (proj2 (Z.eqb_neq (m_baseSize ba) 0)), andb_false_r by lia.
  pose proof (Inv_base_nat ba Hi) as Hb. pose proof (Inv_cap_nat ba Hi) as Hc.
  apply Z.div_exact in Hal; [|lia].
  set (q := Z.to_nat (m_position ba / m_baseSize ba)).
  assert (0 ≤ m_position ba / m_baseSize ba) by (apply Z.div_pos; lia).
  assert (q * base ba = Z.to_nat (m_position ba))%nat as Hq by (subst q; nia).
  assert (0 < length (m_nodes ba))%nat.
  { pose proof (inv_root ba Hi). destruct (m_nodes ba); simpl; [done|lia]. }
  pose proof (write_file_loop_spec (base ba) (m_nodes ba)
    (S (Z.to_nat (m_size ba - m_position ba) + length (m_nodes ba)))
    q (length (avail ba)) []) as Hspec.
  rewrite Hq, Hb, Hla, Z2Nat.id, <- (inv_cur ba Hi) in Hspec by (done || lia).
  rewrite Hspec; [|lia|nia|apply Hi|lia|lia]. simpl. do 2 f_equal.
  rewrite Inv_take_avail by (done || lia). by rewrite take_ge.
Qed.
