(* ===== verification/ByteArrayTheorems.v ===== *)
(** The properties of the serializer, with a witness for each that has
    hypotheses: round trips, refinement of the flat buffer, bounds and the
    reachable states of a [ByteArray]. *)

From S2P Require Import Prelude Endian Varint Double ByteArray ByteArraySpec Codec FileIO.

Definition zeros : nat → nat → Z := λ _ _, 0.

(** C15. A message written field by field on one host reads back field by
    field on any host: after [write_message] and going back to the position
    it started from, [read_message] with the same formats returns the very
    same fields, whatever the byte orders of the two hosts, the byte order of
    the array, the node size and the position. *)
Theorem message_roundtrip (P Q : Platform) junk m ba :
  message_ok m → Inv ba → room (Zlen (message_wire (m_endian ba) m)) ba →
  ∃ ba1 ba2 ba3,
    write_message (P := P) junk m ba = (Ret tt, ba1) ∧
    setPosition (m_position ba) ba1 = (Ret tt, ba2) ∧
    read_message (P := Q) (f_format <$> m) ba2 = (Ret m, ba3) ∧
    m_position ba1 = m_position ba + Zlen (message_wire (m_endian ba) m).
Proof.
  intros Hok Hi Hr.
  destruct (write_message_spec (P := P) junk m ba Hok Hi Hr) as (ba1 & Hw & HW).
  destruct (Wrote_back _ _ _ Hi HW) as (ba2 & Hs & Hi2 & He & Ha). rewrite <- He in Ha.
  destruct (read_message_spec (P := Q) junk m ba2 _ Hok Hi2 Ha) as (ba3 & Hrd & _).
  exists ba1, ba2, ba3. split_and!; [done..|]. apply HW.
Qed.

Definition sample_message : list field :=
  [mkField Fint16 (-2); mkField Uint32 300; mkField Int64 (-5);
   mkField StringF16 [104; 105]; mkField StringVint []].

Lemma message_roundtrip_witness :
  ∃ ba1 ba2 ba3,
    write_message (P := x86_64) zeros sample_message (ByteArray_new zeros 3) = (Ret tt, ba1) ∧
    setPosition 0 ba1 = (Ret tt, ba2) ∧
    read_message (P := s390x) [Fint16; Uint32; Int64; StringF16; StringVint] ba2 =
      (Ret sample_message, ba3) ∧
    m_position ba1 = 17.
Proof.
  apply (message_roundtrip x86_64 s390x zeros sample_message (ByteArray_new zeros 3)).
  - unfold message_ok, sample_message. rewrite !Forall_cons, Forall_nil. simpl.
    unfold has_type, string_ok, in_s, in_u, Zlen, bits. simpl. lia.
  - apply Inv_new. unfold max_capacity. lia.
  - unfold room, max_capacity. vm_compute. discriminate.
Defined.

(** C3. [write] refines the flat buffer: from a well-formed array it returns
    normally, keeps the array well formed, overlays the bytes at the position
    and advances past them, and grows the size only when the write ends past
    it, whatever nodes it has to allocate. *)
Theorem write_refines_buffer junk bs ba :
  Inv ba → room (Zlen bs) ba →
  ∃ ba', write junk bs ba = (Ret tt, ba') ∧ Inv ba' ∧
    abs ba' = spec_write bs (abs ba) ∧
    m_size ba' = Z.max (m_size ba) (m_position ba + Zlen bs).
Proof.
  intros Hi Hr. destruct (write_spec junk bs ba Hi Hr) as (ba' & ? & ? & ? & _ & _ & _ & ?).
  by exists ba'.
Qed.

Lemma write_refines_buffer_witness :
  ∃ ba', write zeros [1; 2; 3; 4; 5] (ByteArray_new zeros 2) = (Ret tt, ba') ∧ Inv ba' ∧
    abs ba' = mkBuffer [1; 2; 3; 4; 5] 5 ∧ m_size ba' = 5.
Proof.
  destruct (write_refines_buffer zeros [1; 2; 3; 4; 5] (ByteArray_new zeros 2))
    as (ba' & Hw & Hi & Ha & Hs).
  - apply Inv_new. unfold max_capacity. lia.
  - unfold room, max_capacity. vm_compute. discriminate.
  - exists ba'. split_and!; [exact Hw|exact Hi|exact Ha|exact Hs].
Defined.

(** C4. [read] refines the flat buffer, on every branch: asking for more
    than is readable throws and leaves the array as it was; asking for
    nothing at the very end of the chain dereferences the null current node;
    every other call returns the next bytes, as [spec_read] does, and keeps
    the array well formed. *)
Theorem read_refines_buffer n ba :
  Inv ba →
  match spec_read n (abs ba) with
  | None => read (Z.of_nat n) ba = (Throw std_out_of_range, ba)
  | Some (bs, b') =>
      if (n =? 0)%nat && (m_position ba =? m_capacity ba)
      then read (Z.of_nat n) ba = (Fault NullDeref, ba)
      else ∃ ba', read (Z.of_nat n) ba = (Ret bs, ba') ∧ Inv ba' ∧ abs ba' = b'
  end.
Proof.
  intros Hi. unfold spec_read. cbn [abs b_data b_pos].
  pose proof (Inv_length_avail ba Hi) as Hla. pose proof (Inv_length_data ba Hi) as Hld.
  pose proof (inv_position ba Hi). pose proof (inv_size ba Hi). pose proof (inv_base ba Hi).
  destruct (Nat.leb_spec n (length (data ba) - Z.to_nat (m_position ba))) as [Hle|Hgt].
  2: { apply read_throws; [done|]. lia. }
  destruct (Nat.eqb_spec n 0) as [->|Hn].
  - unfold read. rewrite Inv_getReadSize by done. rewrite (proj2 (Z.ltb_ge _ _)) by lia.
    rewrite (proj2 (Z.eqb_neq (m_baseSize ba) 0)) by lia.
    destruct (Z.eqb_spec (m_position ba) (m_capacity ba)) as [Hend|Hend]; simpl andb; cbv iota.
    + by rewrite (Inv_cur_null ba Hi Hend).
    + destruct (Inv_locate ba Hi) as (i & p & Hcur & _ & _ & _ & _ & nd & Hd & _); [lia|].
      rewrite Hd. cbn [read_loop]. simpl (0 <? Z.of_nat 0). cbv iota.
      exists ba. split_and!; [|done|unfold abs; f_equal; lia].
      change (Z.of_nat 0) with 0. rewrite take_0. f_equal.
      pose proof (inv_max ba Hi) as Hm. unfold max_capacity in Hm.
      unfold u64. rewrite wrapU_id by (unfold in_u; lia). rewrite Z.add_0_r. by destruct ba.
  - simpl andb. cbv iota. destruct (read_spec n ba Hi) as (ba' & Hr & Hi' & Hdat & _ & Hp & _);
      [lia|].
    exists ba'. split_and!; [exact Hr|done|]. unfold abs. rewrite Hdat, Hp. f_equal. lia.
Qed.

Lemma read_refines_buffer_witness :
  ∃ ba', read (Z.of_nat 0) (ByteArray_new zeros 2) = (Ret [], ba') ∧ Inv ba' ∧
    abs ba' = mkBuffer [] 0.
Proof.
  apply (read_refines_buffer 0 (ByteArray_new zeros 2)).
  apply Inv_new. unfold max_capacity. lia.
Defined.

(** The integers stored by the fixed-width writers are in the byte order
    of the array on every host: two hosts write the same bytes, those of
    [wire_int]. *)
Theorem fixed_integers_portable (P Q : Platform) junk t v ba :
  (1 < sizeof t)%nat →
  writeF (P := P) junk t v ba = writeF (P := Q) junk t v ba ∧
  writeF (P := P) junk t v ba = write junk (wire_int (m_endian ba) t v) ba.
Proof. intros Ht. by rewrite !writeF_wire. Qed.

Lemma fixed_integers_portable_witness :
  writeF (P := x86_64) zeros uint32_t 0x01020304 (ByteArray_new zeros 4) =
  writeF (P := s390x) zeros uint32_t 0x01020304 (ByteArray_new zeros 4) ∧
  writeF (P := x86_64) zeros uint32_t 0x01020304 (ByteArray_new zeros 4) =
  write zeros [1; 2; 3; 4] (ByteArray_new zeros 4).
Proof.
  apply (fixed_integers_portable x86_64 s390x zeros uint32_t 0x01020304 (ByteArray_new zeros 4)).
  simpl. lia.
Defined.

(** C40. The array [tmp] of [writeUint32] (5 bytes) and of [writeUint64] (10
    bytes) is never overrun, and the encoding is the shortest one: it has at
    most [n + 1] bytes exactly when the value is below [128 ^ (n + 1)]. *)
Theorem varint_fits (v : Z) (n : nat) :
  (in_u 32 v → ∃ bs, compress 33 5 [] v = Ret bs ∧ (1 ≤ length bs ≤ 5)%nat ∧
     ((length bs ≤ S n)%nat ↔ v < 128 ^ Z.of_nat (S n))) ∧
  (in_u 64 v → ∃ bs, compress 65 10 [] v = Ret bs ∧ (1 ≤ length bs ≤ 10)%nat ∧
     ((length bs ≤ S n)%nat ↔ v < 128 ^ Z.of_nat (S n))).
Proof.
  assert (∀ v bs, is_varint v bs → 0 ≤ v ∧ (1 ≤ length bs)%nat ∧
            128 ^ (Zlen bs - 1) ≤ Z.max 1 v ∧ v < 128 ^ Zlen bs) as Hlen.
  { induction 1 as [u Hu|u bs Hu Hb IH]; unfold Zlen in *; simpl length in *.
    - simpl. lia.
    - destruct IH as (? & ? & Hlo & Hhi). split_and!; [lia|lia| |].
      + rewrite Nat2Z.inj_succ. replace (Z.succ _ - 1) with (Z.succ (Z.of_nat (length bs) - 1)) by lia.
        rewrite Z.pow_succ_r by lia. pose proof (Z.mul_div_le u 128 ltac:(lia)).
        assert (1 ≤ u / 128) by (apply Z.div_le_lower_bound; lia). lia.
      + rewrite Nat2Z.inj_succ, Z.pow_succ_r by lia.
        pose proof (Z.mul_succ_div_gt u 128 ltac:(lia)). nia. }
  assert (∀ bs, is_varint v bs → (length bs ≤ S n)%nat ↔ v < 128 ^ Z.of_nat (S n)) as Hmin.
  { intros bs Hb. destruct (Hlen v bs Hb) as (? & ? & Hlo & Hhi). unfold Zlen in *. split.
    - intros Hl. eapply Z.lt_le_trans; [done|]. apply Z.pow_le_mono_r; lia.
    - intros Hv. destruct (decide (length bs ≤ S n)%nat); [done|].
      pose proof (Z.pow_le_mono_r 128 (Z.of_nat (S n)) (Z.of_nat (length bs) - 1)).
      assert (1 < 128 ^ Z.of_nat (S n)) by (apply Z.pow_gt_1; lia). lia. }
  unfold in_u. split; intros Hv.
  - destruct (compress_spec 5 4 33 [] v) as (bs & Hc & Hb & Hl); [lia|simpl; lia|simpl; lia|].
    exists bs. split_and!; [done|apply (Hlen v bs Hb)|done|by apply Hmin..].
  - destruct (compress_spec 10 9 65 [] v) as (bs & Hc & Hb & Hl); [lia|simpl; lia|simpl; lia|].
    exists bs. split_and!; [done|apply (Hlen v bs Hb)|done|by apply Hmin..].
Qed.

(** Zigzag is a bijection between the signed and the unsigned integers of
    32 and of 64 bits, [DecodeZigzag] undoes [EncodeZigzag], and small
    magnitudes get small codes. *)
Theorem zigzag_bijection (w v u : Z) :
  w = 32 ∨ w = 64 →
  (in_s w v → in_u w (EncodeZigzag w v) ∧ DecodeZigzag w (EncodeZigzag w v) = v ∧
              EncodeZigzag w v ≤ 2 * Z.abs v) ∧
  (in_u w u → in_s w (DecodeZigzag w u) ∧ EncodeZigzag w (DecodeZigzag w u) = u).
Proof.
  intros Hw. assert (1 < w) by lia. split.
  - intros Hv. rewrite EncodeZigzag_zigzag by (done || lia).
    split_and!; [apply zigzag_range; (done || lia)|by apply DecodeZigzag_zigzag|].
    unfold zigzag. case_match; lia.
  - intros Hu. destruct (zigzag_surj w u) as [Hs Hz]; [lia|done|].
    split; [done|]. rewrite EncodeZigzag_zigzag by (done || lia). done.
Qed.

Lemma zigzag_bijection_witness :
  in_u 32 (EncodeZigzag 32 (- 2 ^ 31)) ∧
  DecodeZigzag 32 (EncodeZigzag 32 (- 2 ^ 31)) = - 2 ^ 31 ∧
  EncodeZigzag 32 (- 2 ^ 31) ≤ 2 * Z.abs (- 2 ^ 31).
Proof.
  apply (zigzag_bijection 32 (- 2 ^ 31) 0); [by left|]. unfold in_s. lia.
Defined.

(** Receiving through [getWriteBuffers] is writing: when the kernel
    stores [bs] through the iovecs of a [getWriteBuffers] of at least as many
    bytes, moving the position past them leaves the array as [write] would,
    and the call itself changes nothing that can be read. *)
Lemma receive_is_write junk len ba bs :
  Inv ba → 0 < len → room len ba → Zlen bs ≤ len →
  ∃ iovs ba1 ba2,
    getWriteBuffers junk len ba = Ret (iovs, len, ba1) ∧ abs ba1 = abs ba ∧
    m_position ba1 = m_position ba ∧
    setPosition (m_position ba + Zlen bs)
      (moved ba1 (m_position ba1) (m_size ba1) (scatter (m_nodes ba1) iovs bs) (m_cur ba1)) =
      (Ret tt, ba2) ∧
    Wrote bs ba ba2.
Proof.
  intros Hi Hlen Hroom Hbs.
  destruct (getWriteBuffers_spec junk len ba Hi Hlen Hroom)
    as (iovs & ba1 & Hg & Hi1 & Habs & He & Hb & (extra & Hex) & Hcap & Hfill).
  destruct (Hfill bs Hbs) as [HiF HF]. cbv zeta in HiF, HF.
  set (filled := moved _ _ _ _ _) in *.
  pose proof (Zlen_nonneg bs). pose proof (inv_position ba Hi). pose proof (inv_size ba Hi).
  destruct (setPosition_spec (m_position ba + Zlen bs) filled HiF)
    as (ba2 & Hs & Hi2 & Hp2 & Hs2 & Hn2 & He2 & Hb2).
  { subst filled. ba_simpl. lia. }
  assert (m_size filled = m_size ba ∧ m_position ba1 = m_position ba) as [Hsz Hps].
  { subst filled. ba_simpl. pose proof (Inv_length_data ba Hi).
    pose proof (Inv_length_data ba1 Hi1). injection Habs as Hdat Hpos.
    rewrite Hdat in *. pose proof (inv_position ba1 Hi1). lia. }
  exists iovs, ba1, ba2. split_and!; [done..|].
  assert (m_endian ba2 = m_endian ba ∧ m_baseSize ba2 = m_baseSize ba) as [He' Hb']
    by (subst filled; ba_simpl; split; congruence).
  split; [done| |done|done|done|by rewrite Hs2, Hsz].
  unfold abs, spec_write, data. cbn [b_data b_pos].
  change (flat ba2) with (concat (m_nodes ba2)). rewrite Hn2.
  change (concat (m_nodes filled)) with (flat filled). rewrite HF, Hp2, Hs2.
  rewrite Hsz. unfold flat. rewrite Hex, concat_app. unfold Zlen in *.
  pose proof (Inv_length_flat ba Hi) as Hf0. pose proof (Inv_length_flat ba1 Hi1) as Hf1.
  pose proof (Inv_cap_nat ba Hi). pose proof (Inv_cap_nat ba1 Hi1).
  unfold flat in Hf0, Hf1. rewrite Hex, concat_app in Hf1.
  f_equal; [|lia]. apply take_overlay_grow; rewrite ?Hf0, ?Hf1; rewrite ?Hex in *; lia.
Qed.

(** [getReadBuffers] and [toString] both expose exactly the readable
    bytes: the iovecs hold the first [len] of them in order without copying,
    and [toString] is all of them. *)
Lemma readable_bytes len ba :
  Inv ba → 0 ≤ len →
  toString ba = Ret (avail ba) ∧
  ∃ iovs, getReadBuffers len ba = Ret (iovs, Z.min len (Zlen (avail ba))) ∧
          gather (m_nodes ba) iovs = take (Z.to_nat len) (avail ba).
Proof.
  intros Hi Hl. split; [by apply toString_spec|]. by apply getReadBuffers_spec.
Qed.

Definition three_bytes : ByteArray := mkByteArray 2 1 4 4 APEXSTORM_BIG_ENDIAN [[10; 11]; [12; 13]] (Some O).

Lemma three_bytes_inv : Inv three_bytes.
Proof.
  constructor; simpl; unfold max_capacity, Zlen, cur_of, base; simpl; try lia; try done.
  by repeat constructor.
Qed.

(** A file written from the start of a node holds exactly the readable
    bytes, and loading it into any well-formed array writes them at its
    position; so saving and loading is a copy. *)
Theorem file_roundtrip junk src dst :
  Inv src → m_position src mod m_baseSize src = 0 →
  Inv dst → room (Zlen (avail src)) dst →
  ∃ content dst', writeToFile true src = Ret (true, content) ∧ content = avail src ∧
    readFromFile junk (Some content) dst = (Ret true, dst') ∧
    Inv dst' ∧ abs dst' = spec_write (avail src) (abs dst).
Proof.
  intros Hs Hal Hd Hr. exists (avail src).
  destruct (readFromFile_spec junk (avail src) dst Hd Hr) as (dst' & Hl & HW).
  exists dst'. split_and!; [by apply writeToFile_spec|done..|apply HW|apply HW].
Qed.

Definition four_bytes : ByteArray := mkByteArray 2 0 4 3 APEXSTORM_BIG_ENDIAN [[10; 11]; [12; 13]] (Some O).

Lemma file_roundtrip_witness :
  ∃ content dst', writeToFile true four_bytes = Ret (true, content) ∧
    content = [10; 11; 12] ∧
    readFromFile zeros (Some content) (ByteArray_new zeros 2) = (Ret true, dst') ∧
    Inv dst' ∧ abs dst' = mkBuffer [10; 11; 12] 3.
Proof.
  apply (file_roundtrip zeros four_bytes (ByteArray_new zeros 2)).
  - constructor; simpl; unfold max_capacity, Zlen, cur_of, base; simpl; try lia; try done.
    by repeat constructor.
  - done.
  - apply Inv_new. unfold max_capacity. lia.
  - unfold room, max_capacity. simpl. unfold Zlen. simpl. lia.
Defined.

(** Away from the start of a node [writeToFile] does not save the
    readable bytes: from offset 1 of a node of 4 bytes with one byte left to
    save, the loop computes a length of 0, follows the chain past its end and
    dereferences the null node. *)
Theorem writeToFile_unaligned_faults :
  ∃ ba, Inv ba ∧ avail ba = [11] ∧ writeToFile true ba = Fault NullDeref.
Proof.
  exists (mkByteArray 4 1 4 2 APEXSTORM_BIG_ENDIAN [[10; 11; 0; 0]] (Some O)).
  split_and!; [|done|vm_compute; reflexivity].
  constructor; simpl; unfold max_capacity, Zlen, cur_of, base; simpl; try lia; try done.
  by repeat constructor.
Qed.

(** The positional [read] is right only inside the current node: it
    returns the bytes at [position] when that position is in the node of the
    current position, and starting in another node it returns other bytes. *)
Theorem read_at_current_node_only :
  (∀ n position ba,
     Inv ba → (0 < n)%nat → 0 ≤ position → position + Z.of_nat n ≤ m_size ba →
     m_position ba < m_capacity ba →
     position / m_baseSize ba = m_position ba / m_baseSize ba →
     read_at (Z.of_nat n) position ba =
       Ret (take n (drop (Z.to_nat position) (data ba)))) ∧
  (∃ ba, Inv ba ∧ data ba = [10; 11; 12; 13] ∧ read_at 1 2 ba = Ret [10]).
Proof.
  split; [exact read_at_spec|]. exists three_bytes.
  split_and!; [exact three_bytes_inv|done|vm_compute; reflexivity].
Qed.

(** The arrays a program can obtain by calling the public operations, as
    long as it stays below [max_capacity] and reads at least one byte. *)
Inductive reachable (junk : nat → nat → Z) : ByteArray → Prop :=
| reach_new size : 0 < size ≤ max_capacity → reachable junk (ByteArray_new junk size)
| reach_write bs ba o ba' :
    reachable junk ba → room (Zlen bs) ba → write junk bs ba = (o, ba') → reachable junk ba'
| reach_read n ba o ba' :
    reachable junk ba → 0 < n → read n ba = (o, ba') → reachable junk ba'
| reach_setPosition v ba o ba' :
    reachable junk ba → 0 ≤ v → setPosition v ba = (o, ba') → reachable junk ba'
| reach_clear ba ba' : reachable junk ba → clear ba = Ret ba' → reachable junk ba'
| reach_endian b ba : reachable junk ba → reachable junk (setIsLittleEndian b ba)
| reach_buffers len iovs k ba ba' :
    reachable junk ba → 0 ≤ len → room len ba →
    getWriteBuffers junk len ba = Ret (iovs, k, ba') → reachable junk ba'.

(** C14. Every reachable array is well formed: the position is at most the
    size, the size at most the capacity, the capacity is the size of the
    chain, and the current node is the one that holds the position. *)
Theorem reachable_well_formed junk ba : reachable junk ba → Inv ba.
Proof.
  induction 1 as [size Hs|bs ba o ba' _ IH Hr Hw|n ba o ba' _ IH Hn Hr
                 |v ba o ba' _ IH Hv Hs|ba ba' _ IH Hc|b ba _ IH
                 |len iovs k ba ba' _ IH Hl Hr Hg].
  - by apply Inv_new.
  - destruct (write_spec junk bs ba IH Hr) as (ba2 & Hw2 & Hi & _). congruence.
  - destruct (decide (Z.of_nat (length (avail ba)) < n)).
    + rewrite read_throws in Hr by done. congruence.
    + destruct (read_spec (Z.to_nat n) ba IH) as (ba2 & Hr2 & Hi & _); [lia|].
      rewrite Z2Nat.id in Hr2 by lia. congruence.
  - destruct (decide (m_capacity ba < v)).
    + rewrite setPosition_throws in Hs by done. congruence.
    + destruct (setPosition_spec v ba IH) as (ba2 & Hs2 & Hi & _); [lia|]. congruence.
  - destruct (clear_spec ba IH) as (ba2 & Hc2 & Hi & _). congruence.
  - destruct IH. by constructor.
  - destruct (decide (len = 0)) as [->|].
    + unfold getWriteBuffers in Hg. simpl in Hg. congruence.
    + destruct (getWriteBuffers_spec junk len ba IH) as (iovs2 & ba2 & Hg2 & Hi & _); [lia|done|].
      congruence.
Qed.

Lemma reachable_well_formed_witness : Inv (snd (write zeros [1; 2; 3] (ByteArray_new zeros 2))).
Proof.
  apply (reachable_well_formed zeros).
  eapply (reach_write zeros [1; 2; 3] (ByteArray_new zeros 2)).
  - apply reach_new. unfold max_capacity. lia.
  - unfold room, max_capacity, Zlen. simpl. lia.
  - vm_compute. reflexivity.
Defined.
