(* ===== verification/OrderedSet.v ===== *)
(** std::set with a comparator, as the sorted list of its elements.

    The operations the code uses, by the comparator only: two elements are
    the same for the set when neither is less than the other.  An iterator is
    a split of the list: the elements before it and those from it on. *)

From S2P Require Import Prelude.
From Stdlib Require Import Sorted.

Section ops.
Context {A : Type} (less : A → A → bool).
Implicit Types (a b : A) (l : list A).

(** [insert(a)]: nothing happens when an equivalent element is there. *)
Fixpoint set_insert a l : list A :=
  match l with
  | [] => [a]
  | b :: l' =>
      if less a b then a :: l
      else if less b a then b :: set_insert a l'
      else l
  end.

(** [lower_bound(a)]: the first element that is not less than [a]. *)
Fixpoint lower_bound a l : list A * list A :=
  match l with
  | [] => ([], [])
  | b :: l' =>
      if less b a then let '(p, s) := lower_bound a l' in (b :: p, s) else ([], l)
  end.

(** [find(a)]: the split at the element equivalent to [a]; [None] is [end()]. *)
Definition set_find a l : option (list A * list A) :=
  match lower_bound a l with
  | (p, b :: s) => if less a b then None else Some (p, b :: s)
  | (_, []) => None
  end.

(** [erase(it)] of an iterator that is not [end()]. *)
Definition set_erase (it : list A * list A) : list A := fst it ++ tail (snd it).
End ops.

(** What std::set asks of a comparator under which no two elements are
    equivalent: a strict total order. *)
Class StrictTotal {A} (less : A → A → bool) : Prop := {
  less_irrefl a : less a a = false;
  less_trans a b c : less a b = true → less b c = true → less a c = true;
  less_total a b : less a b = false → less b a = false → a = b;
}.

Section laws.
Context {A : Type} (less : A → A → bool) `{!StrictTotal less}.
Implicit Types (a b : A) (l : list A).

Definition sorted l : Prop := StronglySorted (λ a b, less a b = true) l.

Lemma less_asym a b : less a b = true → less b a = false.
Proof.
  intros H. destruct (less b a) eqn:E; [|done].
  pose proof (less_trans _ _ _ H E) as C. by rewrite less_irrefl in C.
Qed.

Lemma set_insert_elem a l x : x ∈ set_insert less a l ↔ x = a ∨ x ∈ l.
Proof.
  induction l as [|b l IH]; simpl; [set_solver|].
  destruct (less a b) eqn:E1; [set_solver|].
  destruct (less b a) eqn:E2; [set_solver|].
  pose proof (less_total _ _ E1 E2) as ->. set_solver.
Qed.

Lemma set_insert_sorted a l : sorted l → sorted (set_insert less a l).
Proof.
  induction 1 as [|b l Hs IH Hb]; simpl; [by repeat constructor|].
  destruct (less a b) eqn:E1.
  { constructor; [by constructor|]. constructor; [done|].
    eapply Forall_impl; [exact Hb|]. intros c Hc. by eapply less_trans. }
  destruct (less b a) eqn:E2; [|by constructor].
  constructor; [done|]. apply Forall_forall. intros x Hx.
  apply set_insert_elem in Hx as [->|Hx]; [done|]. by eapply Forall_forall in Hb.
Qed.

Lemma lower_bound_app a l p s : lower_bound less a l = (p, s) → l = p ++ s.
Proof.
  revert p s. induction l as [|b l IH]; intros p s; simpl; [by intros [= <- <-]|].
  destruct (less b a).
  - destruct (lower_bound less a l) as [p' s'] eqn:E. intros [= <- <-].
    simpl. f_equal. by apply IH.
  - by intros [= <- <-].
Qed.

(** The elements before the bound are less, those from it on are not. *)
Lemma lower_bound_spec a l p s :
  sorted l → lower_bound less a l = (p, s) →
  (∀ x, x ∈ p → less x a = true) ∧ (∀ x, x ∈ s → less x a = false).
Proof.
  intros Hs. revert p s. induction Hs as [|b l Hs IH Hb]; intros p s; simpl.
  { intros [= <- <-]. set_solver. }
  destruct (less b a) eqn:E.
  - destruct (lower_bound less a l) as [p' s'] eqn:E'. intros [= <- <-].
    destruct (IH _ _ eq_refl). set_solver.
  - intros [= <- <-]. split; [set_solver|]. intros x Hx.
    apply elem_of_cons in Hx as [->|Hx]; [done|].
    eapply Forall_forall in Hb; [|done]. destruct (less x a) eqn:E2; [|done].
    pose proof (less_trans _ _ _ Hb E2). congruence.
Qed.

(** An element of the set is found, and erasing it removes only it. *)
Lemma set_find_elem a l :
  sorted l → a ∈ l →
  ∃ p s, set_find less a l = Some (p, a :: s) ∧ l = p ++ a :: s.
Proof.
  intros Hs Ha. unfold set_find. destruct (lower_bound less a l) as [p s] eqn:E.
  pose proof (lower_bound_app _ _ _ _ E) as Hl.
  destruct (lower_bound_spec _ _ _ _ Hs E) as [Hp Hsuf].
  assert (a ∈ s) as Has.
  { rewrite Hl in Ha. apply elem_of_app in Ha as [Ha|Ha]; [|done].
    apply Hp in Ha. by rewrite less_irrefl in Ha. }
  destruct s as [|b s]; [set_solver|].
  apply elem_of_cons in Has as [<-|Has].
  - rewrite less_irrefl. eauto.
  - assert (less b a = true) as Hba; [|pose proof (Hsuf b ltac:(set_solver)); congruence].
    rewrite Hl in Hs. clear - Hs Has. induction p as [|c p IH]; simpl in Hs;
      inversion Hs as [|? ? Hs' Hf]; subst; [by eapply Forall_forall in Hf|auto].
Qed.

Lemma set_find_None a l : a ∉ l → set_find less a l = None.
Proof.
  intros Ha. unfold set_find. destruct (lower_bound less a l) as [p s] eqn:E.
  pose proof (lower_bound_app _ _ _ _ E) as Hl. destruct s as [|b s]; [done|].
  destruct (less a b) eqn:Eab; [done|]. exfalso. apply Ha.
  assert (less b a = false) as Eba.
  { clear - E. revert p E. induction l as [|c l IH]; intros p; simpl; [done|].
    destruct (less c a) eqn:Ec.
    - destruct (lower_bound less a l) as [p' s']. intros [= <- ->]. by eapply IH.
    - by intros [= <- <- <-]. }
  rewrite (less_total _ _ Eab Eba), Hl. set_solver.
Qed.

Lemma sorted_nodup l : sorted l → NoDup l.
Proof.
  induction 1 as [|b l Hs IH Hb]; constructor; [|done].
  intros Hin. eapply Forall_forall in Hb; [|done]. by rewrite less_irrefl in Hb.
Qed.

Lemma sorted_app_inv p s :
  sorted (p ++ s) → sorted p ∧ sorted s ∧ (∀ x y, x ∈ p → y ∈ s → less x y = true).
Proof.
  induction p as [|c p IH]; simpl; intros H.
  - split_and!; [constructor|done|set_solver].
  - inversion H as [|? ? Hs Hf]; subst. destruct (IH Hs) as (Hp & Hs' & Hps).
    apply Forall_app in Hf as [Hf1 Hf2]. split_and!; [by constructor|done|].
    intros x y Hx Hy. apply elem_of_cons in Hx as [->|Hx]; [|auto].
    by eapply Forall_forall in Hf2.
Qed.

Lemma sorted_app p s :
  sorted p → sorted s → (∀ x y, x ∈ p → y ∈ s → less x y = true) → sorted (p ++ s).
Proof.
  induction 1 as [|c p Hp IH Hc]; simpl; intros Hs Hps; [done|].
  constructor.
  - apply IH; [done|]. set_solver.
  - apply Forall_app. split; [done|]. apply Forall_forall. set_solver.
Qed.

Lemma set_erase_sorted a p s :
  sorted (p ++ a :: s) → sorted (set_erase (p, a :: s)).
Proof.
  intros H. apply sorted_app_inv in H as (Hp & Hs & Hps). inversion Hs; subst.
  apply sorted_app; [done..|]. set_solver.
Qed.

Lemma set_erase_elem a p s x :
  sorted (p ++ a :: s) → x ∈ set_erase (p, a :: s) ↔ x ∈ p ++ a :: s ∧ x ≠ a.
Proof.
  intros H. apply sorted_nodup in H. apply NoDup_app in H as (Hp & Hps & Hs).
  inversion Hs; subst. unfold set_erase. simpl.
  rewrite !elem_of_app, elem_of_cons. split.
  - intros [Hx|Hx]; (split; [tauto|]); intros ->; [|done].
    apply (Hps a); [done|]. set_solver.
  - intros [[|[->|]] Hne]; tauto.
Qed.
End laws.

(** Order by another comparator that agrees on the elements. *)
Lemma sorted_agree {A} (f g : A → A → bool) l :
  (∀ a b, a ∈ l → b ∈ l → f a b = g a b) → sorted f l → sorted g l.
Proof.
  intros Hfg Hs. induction Hs as [|b l Hs IH Hb]; constructor.
  - apply IH. intros x y Hx Hy. apply Hfg; set_solver.
  - apply Forall_forall. intros x Hx. rewrite <- Hfg by set_solver.
    by eapply Forall_forall in Hb.
Qed.
