(* ===== verification/Timer.v ===== *)
(** Timers: timer.h and timer.cpp.

    The timer objects live in a heap keyed by their address, because a timer
    is shared between the manager and its owner and its fields change while
    both hold it.  [m_timers] is the std::set of timer pointers in the order
    of [Comparator].  The clock ([GetCurrentMS()]) and the address of an
    object just allocated are arguments of the operations that use them; each
    operation runs under the manager's lock and is one atomic step, but
    [getNextTimer], which drops the lock before it uses what it found, and is
    given in its two parts as well. *)

From S2P Require Import Prelude OrderedSet.

Record Timer := mkTimer {
  m_recurring : bool;
  m_ms : Z;
  m_next : Z;
  m_cb : callback;
}.

Record TimerManager := mkTimerManager {
  heap : gmap Z Timer;
  m_timers : list Z;
  m_tickled : bool;
  m_previousTime : Z;
}.

(** [TimerManager::TimerManager]. *)
Definition TimerManager_new (now : Z) : TimerManager := mkTimerManager ∅ [] false now.

Definition next_of (h : gmap Z Timer) (a : Z) : Z :=
  match h !! a with Some t => m_next t | None => 0 end.

(** [Timer::Comparator]; [None] is a null pointer. *)
Definition Comparator (h : gmap Z Timer) (lhs rhs : option Z) : bool :=
  match lhs, rhs with
  | None, None => false
  | None, Some _ => true
  | Some _, None => false
  | Some l, Some r =>
      if next_of h l <? next_of h r then true
      else if next_of h r <? next_of h l then false
      else l <? r
  end.

Definition less (h : gmap Z Timer) (a b : Z) : bool := Comparator h (Some a) (Some b).

Definition with_heap (h : gmap Z Timer) (m : TimerManager) : TimerManager :=
  mkTimerManager h (m_timers m) (m_tickled m) (m_previousTime m).
Definition with_timers (l : list Z) (m : TimerManager) : TimerManager :=
  mkTimerManager (heap m) l (m_tickled m) (m_previousTime m).

(** * Adding timers *)

(** [addTimer(Timer::ptr timer, WriteLock &lock)]; the result is whether
    [onTimerInsertedAtFront] is called. *)
Definition addTimer_ptr (timer : Z) (m : TimerManager) : bool * TimerManager :=
  let timers := set_insert (less (heap m)) timer (m_timers m) in
  let at_front := bool_decide (head timers = Some timer) && negb (m_tickled m) in
  (at_front,
   mkTimerManager (heap m) timers (if at_front then true else m_tickled m)
     (m_previousTime m)).

(** [addTimer(ms, cb, recurring)] with the new timer at the address [a]. *)
Definition addTimer (now a ms : Z) (cb : callback) (recurring : bool)
    (m : TimerManager) : bool * TimerManager :=
  let t := mkTimer recurring ms (u64 (now + ms)) cb in
  addTimer_ptr a (with_heap (<[a := t]> (heap m)) m).

Definition addConditionTimer (now a ms : Z) (cb : callback) (weak_cond : nat)
    (recurring : bool) (m : TimerManager) : bool * TimerManager :=
  addTimer now a ms (OnTimer weak_cond cb) recurring m.

(** Running a callback: the user callbacks it reaches, given which weak
    references still lock; an empty function throws. *)
Fixpoint run_cb (alive : nat → bool) (cb : callback) : outcome (list nat) :=
  match cb with
  | nullptr => Throw std_bad_function_call
  | UserCb id => Ret [id]
  | OnTimer w c => if alive w then run_cb alive c else Ret []
  end.

(** * Timer::cancel, refresh and reset *)

Definition set_cb (cb : callback) (t : Timer) : Timer :=
  mkTimer (m_recurring t) (m_ms t) (m_next t) cb.
Definition set_next (next : Z) (t : Timer) : Timer :=
  mkTimer (m_recurring t) (m_ms t) next (m_cb t).
Definition set_ms_next (ms next : Z) (t : Timer) : Timer :=
  mkTimer (m_recurring t) ms next (m_cb t).

Definition cancel (this : Z) (m : TimerManager) : outcome (bool * TimerManager) :=
  match heap m !! this with
  | None => Fault NullDeref
  | Some t =>
      match engaged (m_cb t) with
      | false => Ret (false, m)
      | true =>
          let m := with_heap (<[this := set_cb nullptr t]> (heap m)) m in
          match set_find (less (heap m)) this (m_timers m) with
          | None => Fault EndIterator
          | Some it => Ret (true, with_timers (set_erase it) m)
          end
      end
  end.

Definition refresh (now this : Z) (m : TimerManager) : outcome (bool * TimerManager) :=
  match heap m !! this with
  | None => Fault NullDeref
  | Some t =>
      match engaged (m_cb t) with
      | false => Ret (false, m)
      | true =>
          match set_find (less (heap m)) this (m_timers m) with
          | None => Ret (false, m)
          | Some it =>
              let m := with_timers (set_erase it) m in
              let h := <[this := set_next (u64 (now + m_ms t)) t]> (heap m) in
              Ret (true, with_timers (set_insert (less h) this (m_timers m)) (with_heap h m))
          end
      end
  end.

(** The first component of the pair in the result is the return value, the
    second whether [onTimerInsertedAtFront] is called. *)
Definition reset (now this ms : Z) (from_now : bool) (m : TimerManager)
    : outcome (bool * bool * TimerManager) :=
  match heap m !! this with
  | None => Fault NullDeref
  | Some t =>
      if (ms =? m_ms t) && negb from_now then Ret (true, false, m) else
      match engaged (m_cb t) with
      | false => Ret (false, false, m)
      | true =>
          match set_find (less (heap m)) this (m_timers m) with
          | None => Fault EndIterator
          | Some it =>
              let m := with_timers (set_erase it) m in
              let start := if from_now then now else u64 (m_next t - m_ms t) in
              let h := <[this := set_ms_next ms (u64 (start + ms)) t]> (heap m) in
              let '(at_front, m) := addTimer_ptr this (with_heap h m) in
              Ret (true, at_front, m)
          end
      end
  end.

(** * The scheduler's side *)

Definition hasTimer (m : TimerManager) : bool := negb (bool_decide (m_timers m = [])).

(** [getNextTimer] under the lock: the first timer, by a reference into the
    set; and after it: the delay, if the set still has the element. *)
Definition getNextTimer_first (m : TimerManager) : option Z * TimerManager :=
  (head (m_timers m), mkTimerManager (heap m) (m_timers m) false (m_previousTime m)).
Definition getNextTimer_delay (now : Z) (next : option Z) (m : TimerManager) : outcome Z :=
  match next with
  | None => Ret u64_max
  | Some a =>
      if bool_decide (a ∈ m_timers m) then
        Ret (if next_of (heap m) a <=? now then 0 else u64 (next_of (heap m) a - now))
      else Fault UseAfterFree
  end.

(** Both, when no other thread comes between. *)
Definition getNextTimer (now : Z) (m : TimerManager) : Z * TimerManager :=
  let m := mkTimerManager (heap m) (m_timers m) false (m_previousTime m) in
  match m_timers m with
  | [] => (u64_max, m)
  | a :: _ =>
      if next_of (heap m) a <=? now then (0, m)
      else (u64 (next_of (heap m) a - now), m)
  end.

(** The result and the new [m_previousTime]. *)
Definition detectClockRollover (now previous : Z) : bool * Z :=
  ((now <? previous) && (now <? u64 (previous - 60 * 60 * 1000)), now).

(** The loop that moves [it] past the timers due exactly at [now_ms], on the
    split at [it]. *)
Fixpoint skip_equal (h : gmap Z Timer) (now : Z) (p s : list Z) : list Z * list Z :=
  match s with
  | [] => (p, [])
  | a :: s' => if next_of h a =? now then skip_equal h now (p ++ [a]) s' else (p, s)
  end.

(** The loop over [expired]: collect the callbacks, re-arm the recurring
    timers and clear the others. *)
Fixpoint rearm (now : Z) (expired : list Z) (h : gmap Z Timer) (timers : list Z)
    (cbs : list callback) : list callback * gmap Z Timer * list Z :=
  match expired with
  | [] => (cbs, h, timers)
  | a :: expired =>
      match h !! a with
      | None => rearm now expired h timers cbs
      | Some t =>
          let cbs := cbs ++ [m_cb t] in
          if m_recurring t then
            let h := <[a := set_next (u64 (now + m_ms t)) t]> h in
            rearm now expired h (set_insert (less h) a timers) cbs
          else rearm now expired (<[a := set_cb nullptr t]> h) timers cbs
      end
  end.

(** [now_addr] is the address of the temporary timer used as a bound; it is
    not the address of a live timer. *)
Definition listExpiredCb (now now_addr : Z) (m : TimerManager)
    : list callback * TimerManager :=
  match m_timers m with
  | [] => ([], m)
  | front :: _ =>
      let '(rollover, prev) := detectClockRollover now (m_previousTime m) in
      let m := mkTimerManager (heap m) (m_timers m) (m_tickled m) prev in
      if negb rollover && (now <? next_of (heap m) front) then ([], m) else
      let h := <[now_addr := mkTimer false 0 now nullptr]> (heap m) in
      let '(p, s) := if rollover then (m_timers m, [])
                     else lower_bound (less h) now_addr (m_timers m) in
      let '(expired, rest) := skip_equal (heap m) now p s in
      let '(cbs, h, timers) := rearm now expired (heap m) rest [] in
      (cbs, mkTimerManager h timers (m_tickled m) (m_previousTime m))
  end.
