(* ===== verification/TimerTheorems.v ===== *)
(** The timer manager is correct: its invariant, exactly which timers expire,
    the time to the next timer, and the wake-up of the waiting thread. *)

From S2P Require Import Prelude OrderedSet Timer.

(** * Comparator is a strict total order *)

#[export] Instance less_strict_total h : StrictTotal (less h).
Proof.
  split.
  - intros a. unfold less, Comparator. repeat case_match; lia.
  - intros a b c. unfold less, Comparator. repeat case_match; lia.
  - intros a b. unfold less, Comparator. repeat case_match; lia.
Qed.

Lemma less_next h a b : less h a b = true → next_of h a ≤ next_of h b.
Proof. unfold less, Comparator. repeat case_match; lia. Qed.

Lemma next_of_insert h a t : next_of (<[a := t]> h) a = m_next t.
Proof. unfold next_of. by rewrite lookup_insert_eq. Qed.

Lemma next_of_insert_ne h a t b : a ≠ b → next_of (<[a := t]> h) b = next_of h b.
Proof. intros. unfold next_of. by rewrite lookup_insert_ne. Qed.

Lemma next_of_lookup h a t : h !! a = Some t → next_of h a = m_next t.
Proof. unfold next_of. by intros ->. Qed.

(** Changing a timer that is not in the set keeps the set sorted. *)
Lemma sorted_insert_fresh h a t l :
  a ∉ l → sorted (less h) l → sorted (less (<[a := t]> h)) l.
Proof.
  intros Ha. apply sorted_agree. intros x y Hx Hy.
  assert (a ≠ x ∧ a ≠ y) as [? ?] by set_solver.
  unfold less, Comparator. by rewrite !next_of_insert_ne.
Qed.

Lemma insert_elem h a l x : x ∈ set_insert (less h) a l ↔ x = a ∨ x ∈ l.
Proof. apply (set_insert_elem _). Qed.

(** * The invariant *)

(** [wf X h l]: [l] is the sorted set of live timers; every timer that still
    has a callback is in it, except those of [X], which are out of the set
    while an operation works on them. *)
Record wf (X : list Z) (h : gmap Z Timer) (l : list Z) : Prop := {
  wf_sorted : sorted (less h) l;
  wf_live a : a ∈ l → is_Some (h !! a);
  wf_out a : a ∈ X → (a ∉ l) ∧ is_Some (h !! a);
  wf_armed a t : h !! a = Some t → engaged (m_cb t) = true → a ∈ l ∨ a ∈ X;
}.

Definition TInv (m : TimerManager) : Prop := wf [] (heap m) (m_timers m).

Lemma wf_change X h l a t : a ∈ X → wf X h l → wf X (<[a := t]> h) l.
Proof.
  intros Ha [Hs Hl Ho Har]. constructor.
  - apply sorted_insert_fresh; [|done]. by apply Ho.
  - intros x Hx. apply lookup_insert_is_Some'. right. auto.
  - intros x Hx. split; [by apply Ho|]. apply lookup_insert_is_Some'. right. by apply Ho.
  - intros x u Hu Hcb. destruct (decide (a = x)) as [->|]; [by right|].
    rewrite lookup_insert_ne in Hu by done. eauto.
Qed.

Lemma wf_enter X h l a :
  wf (a :: X) h l → NoDup (a :: X) → wf X h (set_insert (less h) a l).
Proof.
  intros [Hs Hl Ho Har] Hnd. inversion Hnd; subst. constructor.
  - by apply (set_insert_sorted _).
  - intros x Hx. apply insert_elem in Hx as [->|Hx]; [apply Ho; set_solver|auto].
  - intros x Hx. destruct (Ho x) as [Hn Hsome]; [set_solver|]. split; [|done].
    rewrite insert_elem. intros [->|?]; done.
  - intros x u Hu Hcb. rewrite insert_elem.
    destruct (Har x u Hu Hcb) as [Hx|Hx]; [tauto|]. apply elem_of_cons in Hx as [->|]; tauto.
Qed.

Lemma wf_drop X h l a t :
  wf (a :: X) h l → h !! a = Some t → engaged (m_cb t) = false → wf X h l.
Proof.
  intros [Hs Hl Ho Har] Ha He. constructor; [done..| |].
  - intros x Hx. apply Ho. set_solver.
  - intros x u Hu Hcb. destruct (Har x u Hu Hcb) as [|Hx]; [by left|].
    apply elem_of_cons in Hx as [->|]; [congruence|by right].
Qed.

(** Looking up and erasing a timer of the set. *)
Lemma wf_erase h l a :
  wf [] h l → a ∈ l →
  ∃ it, set_find (less h) a l = Some it ∧ wf [a] h (set_erase it) ∧
        (∀ x, x ∈ set_erase it ↔ x ∈ l ∧ x ≠ a).
Proof.
  intros [Hs Hl Ho Har] Ha.
  destruct (set_find_elem (less h) a l Hs Ha)
    as (p & s & Hf & ->).
  assert (∀ x, x ∈ set_erase (p, a :: s) ↔ x ∈ p ++ a :: s ∧ x ≠ a) as Hel.
  { intros x. by apply (set_erase_elem (less h)). }
  exists (p, a :: s). split_and!; [done| |done]. constructor.
  - by apply (set_erase_sorted _).
  - intros x Hx. apply Hel in Hx as [Hx _]. auto.
  - intros x Hx. apply list_elem_of_singleton in Hx as ->. split; [|auto].
    rewrite Hel. by intros [].
  - intros x u Hu Hcb. destruct (Har x u Hu Hcb) as [Hx|Hx]; [|set_solver].
    destruct (decide (x = a)) as [->|]; [right; set_solver|left]. by apply Hel.
Qed.

(** Changing a timer but not its time. *)
Lemma wf_same_next h l a t t' :
  wf [] h l → h !! a = Some t → m_next t' = m_next t →
  (engaged (m_cb t') = true → a ∈ l) → wf [] (<[a := t']> h) l.
Proof.
  intros [Hs Hl Ho Har] Ha Hn He. constructor.
  - eapply sorted_agree; [|exact Hs]. intros x y _ _. unfold less, Comparator.
    assert (∀ z, next_of (<[a := t']> h) z = next_of h z) as Hz.
    { intros z. destruct (decide (a = z)) as [->|]; [|by apply next_of_insert_ne].
      by rewrite next_of_insert, (next_of_lookup _ _ _ Ha). }
    by rewrite !Hz.
  - intros x Hx. apply lookup_insert_is_Some'. right. auto.
  - set_solver.
  - intros x u Hu Hcb. destruct (decide (a = x)) as [->|].
    + rewrite lookup_insert_eq in Hu. simplify_eq. auto.
    + rewrite lookup_insert_ne in Hu by done. eauto.
Qed.

(** * Every operation keeps the invariant and returns *)

Lemma addTimer_ptr_inv a m :
  wf [a] (heap m) (m_timers m) → TInv (snd (addTimer_ptr a m)).
Proof. intros H. unfold TInv. simpl. apply wf_enter; [done|]. apply NoDup_singleton. Qed.

Lemma addTimer_inv now a ms cb r m :
  TInv m → heap m !! a = None → TInv (snd (addTimer now a ms cb r m)).
Proof.
  intros [Hs Hl Ho Har] Ha. unfold addTimer. apply addTimer_ptr_inv. simpl.
  assert (a ∉ m_timers m) as Hn by (intros Hin; apply Hl in Hin; rewrite Ha in Hin; by destruct Hin).
  constructor.
  - by apply sorted_insert_fresh.
  - intros x Hx. apply lookup_insert_is_Some'. auto.
  - intros x Hx. apply list_elem_of_singleton in Hx as ->. split; [done|].
    by rewrite lookup_insert_eq.
  - intros x u Hu Hcb. destruct (decide (a = x)) as [->|]; [right; set_solver|].
    rewrite lookup_insert_ne in Hu by done. left. destruct (Har x u Hu Hcb); set_solver.
Qed.

Lemma cancel_spec this m t :
  TInv m → heap m !! this = Some t →
  ∃ m', cancel this m = Ret (engaged (m_cb t), m') ∧ TInv m' ∧
        (engaged (m_cb t) = true →
           heap m' !! this = Some (set_cb nullptr t) ∧
           ∀ x, x ∈ m_timers m' ↔ x ∈ m_timers m ∧ x ≠ this).
Proof.
  intros Hi Ht. unfold cancel. rewrite Ht. destruct (engaged (m_cb t)) eqn:Hcb; [|by exists m].
  set (h := <[this := set_cb nullptr t]> (heap m)).
  assert (this ∈ m_timers m) as Hin.
  { destruct (wf_armed _ _ _ Hi this t Ht Hcb); [done|set_solver]. }
  assert (wf [] h (m_timers m)) as Hw by (by eapply wf_same_next).
  destruct (wf_erase h (m_timers m) this Hw Hin) as (it & Hf & He & Hel).
  simpl. fold h. rewrite Hf. eexists. split; [reflexivity|]. split.
  - unfold TInv. simpl. eapply (wf_drop [] h _ this); [done|apply lookup_insert_eq|done].
  - intros _. simpl. split; [apply lookup_insert_eq|done].
Qed.

Lemma refresh_spec now this m t :
  TInv m → heap m !! this = Some t →
  ∃ m', refresh now this m = Ret (engaged (m_cb t), m') ∧ TInv m' ∧
        (engaged (m_cb t) = true →
           next_of (heap m') this = u64 (now + m_ms t) ∧
           ∀ x, x ∈ m_timers m' ↔ x ∈ m_timers m).
Proof.
  intros Hi Ht. unfold refresh. rewrite Ht. destruct (engaged (m_cb t)) eqn:Hcb; [|by exists m].
  assert (this ∈ m_timers m) as Hin.
  { destruct (wf_armed _ _ _ Hi this t Ht Hcb); [done|set_solver]. }
  destruct (wf_erase (heap m) (m_timers m) this Hi Hin) as (it & Hf & He & Hel).
  rewrite Hf. eexists. split; [reflexivity|]. simpl. split.
  - unfold TInv. simpl. apply wf_enter; [|apply NoDup_singleton].
    apply wf_change; [set_solver|done].
  - intros _. rewrite next_of_insert. split; [done|]. intros x. rewrite insert_elem, Hel.
    destruct (decide (x = this)) as [->|]; tauto.
Qed.

Lemma reset_spec now this ms fn m t :
  TInv m → heap m !! this = Some t →
  ∃ b f m', reset now this ms fn m = Ret (b, f, m') ∧ TInv m' ∧
    b = ((ms =? m_ms t) && negb fn) || engaged (m_cb t) ∧
    (∀ x, x ∈ m_timers m' ↔ x ∈ m_timers m).
Proof.
  intros Hi Ht. unfold reset. rewrite Ht.
  destruct ((ms =? m_ms t) && negb fn); [by exists true, false, m|].
  destruct (engaged (m_cb t)) eqn:Hcb; [|by exists false, false, m].
  assert (this ∈ m_timers m) as Hin.
  { destruct (wf_armed _ _ _ Hi this t Ht Hcb); [done|set_solver]. }
  destruct (wf_erase (heap m) (m_timers m) this Hi Hin) as (it & Hf & He & Hel).
  rewrite Hf. eexists _, _, _. split; [reflexivity|]. simpl. split_and!.
  - unfold TInv. simpl. apply wf_enter; [|apply NoDup_singleton].
    apply wf_change; [set_solver|done].
  - done.
  - intros x. rewrite insert_elem, Hel. destruct (decide (x = this)) as [->|]; tauto.
Qed.

(** * Expiry *)

Lemma skip_equal_spec h now s : ∀ p e r,
  sorted (less h) s → (∀ x, x ∈ s → now ≤ next_of h x) →
  skip_equal h now p s = (e, r) →
  e ++ r = p ++ s ∧ (∀ x, x ∈ e → x ∈ p ∨ next_of h x = now) ∧
  (∀ x, x ∈ r → now < next_of h x).
Proof.
  induction s as [|a s IH]; intros p e r Hs Hge; simpl.
  - intros [= <- <-]. split_and!; [done|auto|set_solver].
  - inversion Hs as [|? ? Hs' Hf]; subst.
    destruct (Z.eqb_spec (next_of h a) now) as [E|E].
    + intros Hsk. destruct (IH _ _ _ Hs' ltac:(set_solver) Hsk) as (Hl & He & Hr).
      rewrite Hl, <- (assoc_L (++)). split_and!; [done| |done].
      intros x Hx. destruct (He x Hx) as [Hx'|]; [|by right]. set_solver.
    + intros [= <- <-]. split_and!; [done|auto|]. intros x Hx.
      pose proof (Hge a ltac:(set_solver)).
      apply elem_of_cons in Hx as [->|Hx]; [lia|].
      eapply Forall_forall in Hf; [|done]. apply less_next in Hf. lia.
Qed.

Lemma filter_split (P : Z → Prop) `{∀ x, Decision (P x)} (e r : list Z) :
  (∀ x, x ∈ e → P x) → (∀ x, x ∈ r → ¬ P x) → filter P (e ++ r) = e.
Proof.
  intros He Hr. induction e as [|a e IH]; simpl.
  - induction r as [|b r IHr]; [done|]. rewrite filter_cons_False by set_solver. set_solver.
  - rewrite filter_cons_True by set_solver. f_equal. set_solver.
Qed.

(** The timers that are due: those whose time has come, or all of them when
    the clock was set back. *)
Definition due (now : Z) (m : TimerManager) : list Z :=
  if fst (detectClockRollover now (m_previousTime m)) then m_timers m
  else filter (λ a, next_of (heap m) a ≤ now) (m_timers m).

Lemma split_due h now na l p s e r :
  sorted (less h) l → na ∉ l →
  lower_bound (less (<[na := mkTimer false 0 now nullptr]> h)) na l = (p, s) →
  skip_equal h now p s = (e, r) →
  l = e ++ r ∧ e = filter (λ a, next_of h a ≤ now) l.
Proof.
  intros Hs Hna Hlb Hsk. set (h' := <[na := _]> h) in *.
  pose proof (lower_bound_app _ _ _ _ _ Hlb) as Hl.
  assert (sorted (less h') l) as Hs' by (by apply sorted_insert_fresh).
  destruct (lower_bound_spec (less h') na l p s Hs' Hlb) as [Hp Hsuf].
  assert (∀ x, x ∈ l → next_of h' x = next_of h x) as Hn.
  { intros x Hx. apply next_of_insert_ne. set_solver. }
  assert (next_of h' na = now) as Hnow by apply next_of_insert.
  rewrite Hl in Hs. destruct (sorted_app_inv (less h) p s Hs) as (_ & Hss & _).
  destruct (skip_equal_spec h now s p e r Hss) as (Happ & He & Hr).
  - intros x Hx. specialize (Hsuf x Hx). rewrite <- Hn by (rewrite Hl; set_solver).
    unfold less, Comparator in Hsuf. repeat case_match; lia.
  - done.
  - split; [congruence|]. rewrite Hl, <- Happ. symmetry. apply filter_split.
    + intros x Hx. destruct (He x Hx) as [Hx'|]; [|lia].
      rewrite <- Hn by (rewrite Hl; set_solver). apply Hp, less_next in Hx'. lia.
    + intros x Hx. apply Hr in Hx. lia.
Qed.

Definition cb_of (h : gmap Z Timer) (a : Z) : callback :=
  match h !! a with Some t => m_cb t | None => nullptr end.
Definition recurring_of (h : gmap Z Timer) (a : Z) : bool :=
  match h !! a with Some t => m_recurring t | None => false end.

(** What an expired timer becomes. *)
Definition fired (now : Z) (t : Timer) : Timer :=
  if m_recurring t then set_next (u64 (now + m_ms t)) t else set_cb nullptr t.

Lemma rearm_spec now expired : ∀ h l cbs cbs' h' l',
  wf expired h l → NoDup expired → rearm now expired h l cbs = (cbs', h', l') →
  wf [] h' l' ∧ cbs' = cbs ++ (cb_of h <$> expired) ∧
  (∀ x, x ∉ expired → h' !! x = h !! x) ∧
  (∀ x, x ∈ expired → h' !! x = fired now <$> h !! x) ∧
  (∀ x, x ∈ l' ↔ x ∈ l ∨ (x ∈ expired ∧ recurring_of h x = true)).
Proof.
  induction expired as [|a ex IH]; intros h l cbs cbs' h' l' Hw Hnd; simpl.
  { intros [= <- <- <-]. rewrite app_nil_r. split_and!; try done; set_solver. }
  inversion Hnd as [|? ? Ha Hnd']; subst.
  destruct (wf_out _ _ _ Hw a) as [Hal [t Ht]]; [set_solver|]. rewrite Ht.
  set (h1 := <[a := fired now t]> h). intros Hr.
  assert (∀ x, x ∈ ex → h1 !! x = h !! x) as Hsame.
  { intros x Hx. apply lookup_insert_ne. set_solver. }
  assert (∃ l1, rearm now ex h1 l1 (cbs ++ [m_cb t]) = (cbs', h', l') ∧ wf ex h1 l1 ∧
            (∀ x, x ∈ l1 ↔ x ∈ l ∨ (x = a ∧ m_recurring t = true))) as (l1 & Hr1 & Hw1 & Hl1).
  { assert (wf (a :: ex) h1 l) as Hw' by (apply wf_change; [set_solver|done]).
    subst h1. unfold fired in *. destruct (m_recurring t) eqn:Hrec.
    - eexists. split_and!; [exact Hr|by apply wf_enter|]. intros x. rewrite insert_elem. tauto.
    - exists l. split_and!; [exact Hr| |naive_solver].
      eapply wf_drop; [exact Hw'|apply lookup_insert_eq|done]. }
  destruct (IH _ _ _ _ _ _ Hw1 Hnd' Hr1) as (Hwf & Hc & Hout & Hin & Hel).
  split_and!; [done| | | |].
  - rewrite Hc, <- (assoc_L (++)). simpl. f_equal. f_equal.
    + unfold cb_of. by rewrite Ht.
    + apply list_fmap_ext. intros i x Hx. unfold cb_of.
      rewrite Hsame; [done|]. by eapply list_elem_of_lookup_2.
  - intros x Hx. rewrite Hout by set_solver. apply lookup_insert_ne. set_solver.
  - intros x Hx. apply elem_of_cons in Hx as [->|Hx].
    + rewrite Hout by done. subst h1. rewrite lookup_insert_eq, Ht. done.
    + rewrite Hin by done. by rewrite Hsame.
  - intros x. rewrite Hel, Hl1, elem_of_cons. unfold recurring_of.
    destruct (decide (x = a)) as [->|Hne].
    + rewrite Ht. naive_solver.
    + destruct (decide (x ∈ ex)); [rewrite Hsame by done|]; naive_solver.
Qed.

Lemma wf_split h e r : wf [] h (e ++ r) → wf e h r ∧ NoDup e.
Proof.
  intros [Hs Hl _ Har]. pose proof (sorted_nodup (less h) _ Hs) as Hnd.
  apply NoDup_app in Hnd as (He & Hdis & _).
  destruct (sorted_app_inv (less h) _ _ Hs) as (_ & Hr & _).
  split; [|done]. constructor; [done|set_solver| |].
  - intros x Hx. split; [by apply Hdis|]. apply Hl. set_solver.
  - intros x t Hx Hcb. destruct (Har x t Hx Hcb) as [Hin|Hin]; set_solver.
Qed.

(** Splitting the set at the iterator and re-arming the first part. *)
Lemma expire_spec now e r h cbs h' l' :
  wf [] h (e ++ r) → rearm now e h r [] = (cbs, h', l') →
  wf [] h' l' ∧ cbs = cb_of h <$> e ∧
  (∀ x, x ∉ e → h' !! x = h !! x) ∧
  (∀ x, x ∈ e → h' !! x = fired now <$> h !! x) ∧
  (∀ x, x ∈ l' ↔ x ∈ e ++ r ∧ (x ∉ e ∨ recurring_of h x = true)).
Proof.
  intros Hw Hr. destruct (wf_split h e r Hw) as [Hwe Hnd].
  destruct (rearm_spec now e h r [] cbs h' l' Hwe Hnd Hr) as (H1 & H2 & H3 & H4 & H5).
  split_and!; [done..|]. intros x. rewrite H5, elem_of_app. split.
  - intros [Hx|[Hx Hrec]]; [|tauto]. split; [tauto|]. left. intros Hxe.
    by destruct (wf_out _ _ _ Hwe x Hxe).
  - destruct (decide (x ∈ e)); tauto.
Qed.

(** The due timers fire, in order, and nothing else does. *)
Lemma listExpiredCb_spec now na m cbs m' :
  TInv m → heap m !! na = None → listExpiredCb now na m = (cbs, m') →
  TInv m' ∧ cbs = cb_of (heap m) <$> due now m ∧
  (∀ x, x ∉ due now m → heap m' !! x = heap m !! x) ∧
  (∀ x, x ∈ due now m → heap m' !! x = fired now <$> heap m !! x) ∧
  (∀ x, x ∈ m_timers m' ↔
          x ∈ m_timers m ∧ (x ∉ due now m ∨ recurring_of (heap m) x = true)).
Proof.
  intros Hi Hna. pose proof (wf_sorted _ _ _ Hi) as Hs. unfold listExpiredCb, due.
  destruct (m_timers m) as [|front l] eqn:Hl.
  { intros [= <- <-]. rewrite Hl. case_match; split_and!; try done; set_solver. }
  assert (na ∉ front :: l) as Hnot.
  { rewrite <- Hl. intros Hin. apply (wf_live _ _ _ Hi) in Hin. rewrite Hna in Hin.
    by destruct Hin. }
  unfold TInv in *. rewrite Hl in Hi.
  assert (∀ x, x ∈ front :: l → next_of (heap m) front ≤ next_of (heap m) x) as Hfront.
  { intros x Hx. inversion Hs as [|? ? _ Hf]; subst.
    apply elem_of_cons in Hx as [->|Hx]; [lia|]. eapply Forall_forall in Hf; [|done].
    by apply less_next. }
  unfold detectClockRollover. simpl fst.
  destruct ((now <? m_previousTime m) && (now <? u64 (m_previousTime m - 60 * 60 * 1000))).
  - simpl negb. simpl andb. cbv iota. cbn [heap m_timers m_tickled m_previousTime skip_equal].
    destruct (rearm now (front :: l) (heap m) [] []) as [[cbs1 h1] l1] eqn:Hr.
    intros [= <- <-]. simpl heap. simpl m_timers.
    destruct (expire_spec now (front :: l) [] (heap m) cbs1 h1 l1) as (? & ? & ? & ? & H5);
      [by rewrite app_nil_r|done|]. rewrite app_nil_r in H5. done.
  - simpl negb. simpl andb. cbn [heap m_timers m_tickled m_previousTime].
    destruct (Z.ltb_spec now (next_of (heap m) front)).
    + intros [= <- <-]. simpl heap. simpl m_timers.
      rewrite <- (app_nil_l (front :: l)), filter_split, app_nil_l; [|set_solver|].
      * split_and!; try done; set_solver.
      * intros x Hx. apply Hfront in Hx. lia.
    + destruct (lower_bound _ na (front :: l)) as [p s] eqn:Hlb.
      destruct (skip_equal (heap m) now p s) as [e r] eqn:Hsk.
      destruct (rearm now e (heap m) r []) as [[cbs1 h1] l1] eqn:Hr.
      intros [= <- <-]. simpl heap. simpl m_timers.
      destruct (split_due _ _ _ _ _ _ _ _ Hs Hnot Hlb Hsk) as [Hel <-].
      rewrite Hel in *. by apply expire_spec.
Qed.

(** * Reachable managers *)

(** One call of a public operation on a live timer or on the manager, at the
    time [now]; a new timer gets an address that is not in use. *)
Inductive tstep : TimerManager → TimerManager → Prop :=
| step_add now a ms cb r m :
    heap m !! a = None → tstep m (snd (addTimer now a ms cb r m))
| step_add_cond now a ms cb w r m :
    heap m !! a = None → tstep m (snd (addConditionTimer now a ms cb w r m))
| step_cancel this m b m' : cancel this m = Ret (b, m') → tstep m m'
| step_refresh now this m b m' : refresh now this m = Ret (b, m') → tstep m m'
| step_reset now this ms fn m b f m' :
    reset now this ms fn m = Ret (b, f, m') → tstep m m'
| step_next now m : tstep m (snd (getNextTimer now m))
| step_expire now na m :
    heap m !! na = None → tstep m (snd (listExpiredCb now na m)).

Lemma tstep_inv m m' : tstep m m' → TInv m → TInv m'.
Proof.
  destruct 1 as [now a ms cb r m Ha|now a ms cb w r m Ha|this m b m' Hc|now this m b m' Hr
                |now this ms fn m b f m' Hr|now m|now na m Hna]; intros Hi.
  - by apply addTimer_inv.
  - by apply addTimer_inv.
  - destruct (heap m !! this) as [t|] eqn:Ht; [|unfold cancel in Hc; by rewrite Ht in Hc].
    destruct (cancel_spec this m t Hi Ht) as (m2 & Hc2 & Hi2 & _). congruence.
  - destruct (heap m !! this) as [t|] eqn:Ht; [|unfold refresh in Hr; by rewrite Ht in Hr].
    destruct (refresh_spec now this m t Hi Ht) as (m2 & Hr2 & Hi2 & _). congruence.
  - destruct (heap m !! this) as [t|] eqn:Ht; [|unfold reset in Hr; by rewrite Ht in Hr].
    destruct (reset_spec now this ms fn m t Hi Ht) as (b2 & f2 & m2 & Hr2 & Hi2 & _).
    congruence.
  - unfold getNextTimer. cbn [m_timers]. destruct (m_timers m) eqn:Hl;
      [|case_match]; unfold TInv in *; simpl; by rewrite ?Hl in *.
  - destruct (listExpiredCb now na m) as [cbs m'] eqn:He.
    by destruct (listExpiredCb_spec now na m cbs m' Hi Hna He).
Qed.

(** C33. In every manager reachable from a new one, the timer set is sorted,
    holds only live timers and holds every timer that still has a callback;
    hence [cancel], [refresh] and [reset] never dereference or erase the end
    iterator: on a live timer they return, [cancel] and [refresh] reporting
    whether the timer still had a callback. *)
Theorem timer_operations_return now0 m this t :
  rtc tstep (TimerManager_new now0) m → heap m !! this = Some t →
  TInv m ∧
  (∃ m', cancel this m = Ret (engaged (m_cb t), m')) ∧
  (∀ now, ∃ m', refresh now this m = Ret (engaged (m_cb t), m')) ∧
  (∀ now ms fn, ∃ b f m', reset now this ms fn m = Ret (b, f, m')).
Proof.
  intros Hr Ht. assert (TInv m) as Hi.
  { assert (TInv (TimerManager_new now0)) as H0.
    { constructor; simpl; [constructor|set_solver..|]. intros a u Hu. by rewrite lookup_empty in Hu. }
    clear Ht. induction Hr; [done|]. eauto using tstep_inv. }
  split_and!; [done|..].
  - destruct (cancel_spec this m t Hi Ht) as (m' & ? & _). eauto.
  - intros now. destruct (refresh_spec now this m t Hi Ht) as (m' & ? & _). eauto.
  - intros now ms fn. destruct (reset_spec now this ms fn m t Hi Ht) as (b & f & m' & ? & _).
    eauto.
Qed.

Definition one_timer : TimerManager := snd (addTimer 100 1 50 (UserCb 7) false (TimerManager_new 0)).

Lemma timer_operations_return_witness :
  TInv one_timer ∧ (∃ m', cancel 1 one_timer = Ret (true, m')) ∧
  (∀ now, ∃ m', refresh now 1 one_timer = Ret (true, m')) ∧
  (∀ now ms fn, ∃ b f m', reset now 1 ms fn one_timer = Ret (b, f, m')).
Proof.
  apply (timer_operations_return 0 one_timer 1 (mkTimer false 50 150 (UserCb 7))).
  - eapply rtc_once. by apply step_add.
  - reflexivity.
Defined.

(** C10. [listExpiredCb] returns the callbacks of exactly the timers that are
    due, in the order of their times: those with [m_next] at or before now,
    or every timer when the clock went back by more than an hour.  A
    recurring timer stays in the set with its next time one period from now,
    any other due timer leaves it and loses its callback, and the timers that
    are not due are untouched. *)
Theorem expired_timers_exact now na m cbs m' :
  TInv m → heap m !! na = None → listExpiredCb now na m = (cbs, m') →
  TInv m' ∧ cbs = cb_of (heap m) <$> due now m ∧
  (∀ x, x ∉ due now m → heap m' !! x = heap m !! x) ∧
  (∀ x, x ∈ due now m → heap m' !! x = fired now <$> heap m !! x) ∧
  (∀ x, x ∈ m_timers m' ↔
          x ∈ m_timers m ∧ (x ∉ due now m ∨ recurring_of (heap m) x = true)).
Proof. apply listExpiredCb_spec. Qed.

Definition two_timers : TimerManager := snd (addTimer 100 2 20 (UserCb 8) true one_timer).

Lemma two_timers_inv : TInv two_timers.
Proof.
  apply addTimer_inv; [|done]. apply addTimer_inv; [|done].
  constructor; simpl; [constructor|set_solver..|]. intros a u Hu. by rewrite lookup_empty in Hu.
Qed.

Lemma expired_timers_exact_witness :
  let '(cbs, m') := listExpiredCb 130 3 two_timers in
  cbs = [UserCb 8] ∧ heap m' !! 2 = Some (mkTimer true 20 150 (UserCb 8)) ∧
  (1 ∈ m_timers m' ∧ 2 ∈ m_timers m').
Proof.
  destruct (listExpiredCb 130 3 two_timers) as [cbs m'] eqn:E.
  destruct (expired_timers_exact 130 3 two_timers cbs m') as (_ & Hc & _ & Hd & Hel).
  - exact two_timers_inv.
  - reflexivity.
  - exact E.
  - split_and!.
    + exact Hc.
    + apply (Hd 2). vm_compute. constructor.
    + apply Hel. split; [vm_compute; repeat constructor|]. left. vm_compute.
      intros H. inversion H as [|? ? ? H2]; inversion H2.
    + apply Hel. split; [vm_compute; repeat constructor|]. right. reflexivity.
Defined.

(** The delay of [getNextTimer] neither oversleeps nor wakes early: it
    is the largest value only when there is no timer; otherwise no timer is
    due before the delay has passed, and one is due when it has. *)
Theorem next_timer_delay now m :
  TInv m → 0 ≤ now → (∀ a, a ∈ m_timers m → in_u 64 (next_of (heap m) a)) →
  let d := fst (getNextTimer now m) in
  match m_timers m with
  | [] => d = u64_max
  | _ :: _ => 0 ≤ d ∧
      (∀ t, now ≤ t < now + d → filter (λ a, next_of (heap m) a ≤ t) (m_timers m) = []) ∧
      filter (λ a, next_of (heap m) a ≤ now + d) (m_timers m) ≠ []
  end.
Proof.
  intros Hi Hnow Hrange. pose proof (wf_sorted _ _ _ Hi) as Hs.
  unfold getNextTimer. cbn [heap m_timers].
  destruct (m_timers m) as [|front l] eqn:Hl; [done|]. cbv zeta.
  assert (∀ x, x ∈ front :: l → next_of (heap m) front ≤ next_of (heap m) x) as Hfront.
  { intros x Hx. inversion Hs as [|? ? _ Hf]; subst.
    apply elem_of_cons in Hx as [->|Hx]; [lia|]. eapply Forall_forall in Hf; [|done].
    by apply less_next. }
  specialize (Hrange front ltac:(set_solver)). unfold in_u in Hrange.
  assert (∃ d, fst (if next_of (heap m) front <=? now then (0, mkTimerManager (heap m) (front :: l) false (m_previousTime m))
                    else (u64 (next_of (heap m) front - now), mkTimerManager (heap m) (front :: l) false (m_previousTime m))) = d
               ∧ 0 ≤ d ∧ next_of (heap m) front ≤ now + d ∧ (0 < d → now + d = next_of (heap m) front))
    as (d & -> & Hd0 & Hd1 & Hd2).
  { destruct (Z.leb_spec (next_of (heap m) front) now); simpl; eexists; (split; [done|]).
    - lia.
    - unfold u64. rewrite wrapU_id by (unfold in_u; lia). lia. }
  split_and!; [done| |].
  - intros t Ht. rewrite <- (app_nil_l (front :: l)). apply filter_split; [set_solver|].
    intros x Hx. apply Hfront in Hx. lia.
  - rewrite filter_cons_True by lia. done.
Qed.

Lemma next_timer_delay_witness :
  0 ≤ fst (getNextTimer 100 two_timers) ∧
  (∀ t, 100 ≤ t < 100 + fst (getNextTimer 100 two_timers) →
     filter (λ a, next_of (heap two_timers) a ≤ t) (m_timers two_timers) = []) ∧
  filter (λ a, next_of (heap two_timers) a ≤ 100 + fst (getNextTimer 100 two_timers))
    (m_timers two_timers) ≠ [].
Proof.
  apply (next_timer_delay 100 two_timers).
  - exact two_timers_inv.
  - lia.
  - intros a Ha. vm_compute in Ha. unfold in_u.
    repeat (apply elem_of_cons in Ha as [->|Ha]; [vm_compute; split; [discriminate|reflexivity]|]).
    inversion Ha.
Defined.

(** No lost wake-up: when [addTimer] does not call
    [onTimerInsertedAtFront] although no wake-up was pending, the earliest
    timer is still the one it was, so a delay computed before stays right. *)
Theorem addTimer_wakes_when_earlier now a ms cb r m m' :
  TInv m → heap m !! a = None → m_tickled m = false →
  addTimer now a ms cb r m = (false, m') →
  head (m_timers m') = head (m_timers m) ∧ m_timers m ≠ [] ∧ m_tickled m' = false.
Proof.
  intros Hi Ha Htick. unfold addTimer, addTimer_ptr. simpl. rewrite Htick, andb_true_r.
  intros [= Hfront <-]. simpl. rewrite Hfront. apply bool_decide_eq_false in Hfront.
  destruct (m_timers m) as [|b l]; simpl in *; [done|].
  split_and!; [|done..]. repeat (case_match; simpl in *; try done).
Qed.

Lemma addTimer_wakes_when_earlier_witness :
  let '(f, m') := addTimer 100 5 500 (UserCb 9) false
                    (snd (getNextTimer 100 two_timers)) in
  f = false ∧ head (m_timers m') = Some 2 ∧ m_tickled m' = false.
Proof.
  destruct (addTimer 100 5 500 (UserCb 9) false (snd (getNextTimer 100 two_timers)))
    as [f m'] eqn:E.
  assert (f = false) as -> by (vm_compute in E; congruence).
  destruct (addTimer_wakes_when_earlier 100 5 500 (UserCb 9) false
              (snd (getNextTimer 100 two_timers)) m') as (H1 & _ & H3).
  - apply (tstep_inv two_timers); [apply step_next|exact two_timers_inv].
  - reflexivity.
  - reflexivity.
  - exact E.
  - split_and!; [reflexivity|exact H1|exact H3].
Defined.

(** The two parts of [getNextTimer] without another thread between them. *)
Lemma getNextTimer_parts now m :
  let '(next, m1) := getNextTimer_first m in
  snd (getNextTimer now m) = m1 ∧
  getNextTimer_delay now next m1 = Ret (fst (getNextTimer now m)).
Proof.
  unfold getNextTimer, getNextTimer_first, getNextTimer_delay. cbn [m_timers heap m_previousTime].
  destruct (m_timers m) as [|a l]; cbn [head]; [done|].
  rewrite bool_decide_true by (by left). by destruct (_ <=? now).
Qed.

(** The first timer is cancelled after [getNextTimer] dropped its lock: the
    reference it goes on to use is to an element that is gone. *)
Lemma next_timer_race :
  let '(next, m1) := getNextTimer_first two_timers in
  match next with
  | Some a => match cancel a m1 with
              | Ret (_, m2) => getNextTimer_delay 100 next m2 = Fault UseAfterFree
              | _ => False
              end
  | None => False
  end.
Proof. vm_compute. reflexivity. Qed.
