(* ===== verification/Fiber.v ===== *)
(** Fibers: fiber.h and fiber.cpp.

    Fiber objects live in a heap shared by all threads; each thread has its
    thread-local variables ([t_fiber] and [t_threadFiber] of fiber.cpp,
    [t_fiber] of scheduler.cpp, which [Scheduler::GetMainFiber] returns, here
    [t_main]) and the stack its code runs on.  A saved [ucontext_t] is the
    point where the code that saved it goes on: [swapcontext] stores the
    current point in one fiber's context and jumps to another's, so an
    operation that ends in [swapcontext] returns, in the model, at the jump.
    [getcontext] and [swapcontext] are taken to return 0. *)

From S2P Require Import Prelude.

Inductive State := INIT | HOLD | EXEC | TERM | READY | EXCEPT.

#[export] Instance State_eq_dec : EqDecision State.
Proof. solve_decision. Defined.

(** The stack some code runs on: a thread's own, or the one of a fiber. *)
Inductive stack :=
| thread_stack (tid : nat)
| fiber_stack (f : nat).

#[export] Instance stack_eq_dec : EqDecision stack.
Proof. solve_decision. Defined.

(** Where a context goes on: nowhere yet, at the start of an entry function
    on the stack of a fiber, after a [swapcontext] on some stack, or at the
    assertion that ends the entry functions. *)
Inductive context :=
| ctx_unset
| ctx_MainFunc (f : nat)
| ctx_CallerMainFunc (f : nat)
| ctx_at (s : stack)
| ctx_never_reach (f : nat).

#[export] Instance context_eq_dec : EqDecision context.
Proof. solve_decision. Defined.

Record Fiber := mkFiber {
  m_id : Z;
  m_stacksize : Z;
  m_state : State;
  m_ctx : context;
  m_stack : bool;
  m_cb : callback;
}.

Record thread_locals := mkLocals {
  t_fiber : option nat;
  t_threadFiber : option nat;
  t_main : option nat;
  t_stack : stack;
}.

Record World := mkWorld {
  fibers : gmap nat Fiber;
  next_ptr : nat;
  tls : gmap nat thread_locals;
  s_fiber_id : Z;
  s_fiber_count : Z;
}.

(** The thread-local variables of a thread; they start as null pointers. *)
Definition locals (w : World) (t : nat) : thread_locals :=
  default (mkLocals None None None (thread_stack t)) (tls w !! t).

(** No fiber, every thread on its own stack. *)
Definition world0 : World := mkWorld ∅ 0 ∅ 0 0.

(** * Access to the state *)

Definition upd_state (s : State) (F : Fiber) : Fiber :=
  mkFiber (m_id F) (m_stacksize F) s (m_ctx F) (m_stack F) (m_cb F).
Definition upd_ctx (c : context) (F : Fiber) : Fiber :=
  mkFiber (m_id F) (m_stacksize F) (m_state F) c (m_stack F) (m_cb F).
Definition upd_cb (cb : callback) (F : Fiber) : Fiber :=
  mkFiber (m_id F) (m_stacksize F) (m_state F) (m_ctx F) (m_stack F) cb.

Definition upd_fibers (g : gmap nat Fiber → gmap nat Fiber) (w : World) : World :=
  mkWorld (g (fibers w)) (next_ptr w) (tls w) (s_fiber_id w) (s_fiber_count w).
Definition upd_locals (t : nat) (g : thread_locals → thread_locals) (w : World) : World :=
  mkWorld (fibers w) (next_ptr w) (<[t := g (locals w t)]> (tls w))
    (s_fiber_id w) (s_fiber_count w).

Lemma locals_upd t g w : locals (upd_locals t g w) t = g (locals w t).
Proof. unfold locals at 1. simpl. by rewrite lookup_insert_eq. Qed.

Lemma locals_upd_ne t u g w : u ≠ t → locals (upd_locals t g w) u = locals w u.
Proof. intros. unfold locals. simpl. by rewrite lookup_insert_ne. Qed.

(** [*f]: the fiber object at the address [f]. *)
Definition deref (f : nat) : M World Fiber :=
  λ w, match fibers w !! f with
       | Some F => (Ret F, w)
       | None => (Fault NullDeref, w)
       end.
Definition deref_ptr (p : option nat) : M World nat :=
  match p with
  | Some f => do! _ := deref f in ret f
  | None => fail NullDeref
  end.
Definition modify_fiber (f : nat) (g : Fiber → Fiber) : M World unit :=
  do! F := deref f in
  do! w := get in
  put (upd_fibers <[f := g F]> w).
Definition set_state (f : nat) (s : State) : M World unit := modify_fiber f (upd_state s).
Definition get_local {A} (t : nat) (field : thread_locals → A) : M World A :=
  λ w, (Ret (field (locals w t)), w).
Definition set_local (t : nat) (g : thread_locals → thread_locals) : M World unit :=
  λ w, (Ret tt, upd_locals t g w).
Definition assert (b : bool) : M World unit := if b then ret tt else fail AssertFailed.

(** [malloc] of an object: an address not used before. *)
Definition alloc (F : Fiber) : M World nat :=
  λ w, (Ret (next_ptr w),
        mkWorld (<[next_ptr w := F]> (fibers w)) (S (next_ptr w)) (tls w)
          (s_fiber_id w) (s_fiber_count w)).

(** * The operations *)

Definition SetThis (t : nat) (f : option nat) : M World unit :=
  set_local t (λ l, mkLocals f (t_threadFiber l) (t_main l) (t_stack l)).

Definition count_fibers (d : Z) : M World unit :=
  λ w, (Ret tt, mkWorld (fibers w) (next_ptr w) (tls w) (s_fiber_id w)
                  (u64 (s_fiber_count w + d))).

Definition fresh_id : M World Z :=
  λ w, let id := u64 (s_fiber_id w + 1) in
       (Ret id, mkWorld (fibers w) (next_ptr w) (tls w) id (s_fiber_count w)).

(** [Fiber::Fiber()]: the first fiber of a thread. *)
Definition Fiber_root (t : nat) : M World nat :=
  do! s := get_local t t_stack in
  do! f := alloc (mkFiber 0 0 EXEC (ctx_at s) false nullptr) in
  do! _ := SetThis t (Some f) in
  do! _ := count_fibers 1 in
  ret f.

(** [Fiber::Fiber(cb, stacksize, use_caller)]; [g_fiber_stack_size] is the
    value of the configuration item of that name. *)
Definition Fiber_new (g_fiber_stack_size : Z) (cb : callback) (stacksize : Z)
    (use_caller : bool) : M World nat :=
  do! id := fresh_id in
  do! _ := count_fibers 1 in
  let size := u32 (if stacksize =? 0 then g_fiber_stack_size else stacksize) in
  do! f := alloc (mkFiber id size INIT ctx_unset true cb) in
  do! _ := modify_fiber f
             (upd_ctx (if use_caller then ctx_CallerMainFunc f else ctx_MainFunc f)) in
  ret f.

Definition ended (s : State) : bool :=
  bool_decide (s = TERM) || bool_decide (s = INIT) || bool_decide (s = EXCEPT).

(** [Fiber::~Fiber], by the thread [t] that drops the last reference. *)
Definition Fiber_delete (t f : nat) : M World unit :=
  do! _ := count_fibers (-1) in
  do! F := deref f in
  do! _ := (if m_stack F then assert (ended (m_state F))
            else
              do! _ := assert (negb (engaged (m_cb F))) in
              do! _ := assert (bool_decide (m_state F = EXEC)) in
              do! cur := get_local t t_fiber in
              if bool_decide (cur = Some f) then SetThis t None else ret tt) in
  do! w := get in
  put (upd_fibers (delete f) w).

(** [Fiber::reset]. *)
Definition reset (f : nat) (cb : callback) : M World unit :=
  do! F := deref f in
  do! _ := assert (m_stack F) in
  do! _ := assert (ended (m_state F)) in
  do! _ := modify_fiber f (upd_cb cb) in
  do! _ := modify_fiber f (upd_ctx (ctx_MainFunc f)) in
  set_state f INIT.

(** Jumping to a context, in thread [t]. *)
Definition setcontext (t : nat) (c : context) : M World unit :=
  let on s := set_local t (λ l, mkLocals (t_fiber l) (t_threadFiber l) (t_main l) s) in
  match c with
  | ctx_unset => fail NullDeref
  | ctx_MainFunc f | ctx_CallerMainFunc f => on (fiber_stack f)
  | ctx_at s => on s
  | ctx_never_reach f => do! _ := on (fiber_stack f) in fail AssertFailed
  end.

(** [swapcontext(&save->m_ctx, &load->m_ctx)] executed at the point [here]. *)
Definition swapcontext (t save : nat) (here : context) (load : nat) : M World unit :=
  do! _ := modify_fiber save (upd_ctx here) in
  do! F := deref load in
  setcontext t (m_ctx F).

(** The point after a [swapcontext] that the running code executes. *)
Definition here (t : nat) : M World context :=
  do! s := get_local t t_stack in ret (ctx_at s).

Definition call (t f : nat) : M World unit :=
  do! _ := SetThis t (Some f) in
  do! _ := set_state f EXEC in
  do! c := here t in
  do! p := get_local t t_threadFiber in
  do! tf := deref_ptr p in
  swapcontext t tf c f.

Definition back (t f : nat) (c : context) : M World unit :=
  do! p := get_local t t_threadFiber in
  do! _ := SetThis t p in
  do! tf := deref_ptr p in
  swapcontext t f c tf.

Definition swapIn (t f : nat) : M World unit :=
  do! _ := SetThis t (Some f) in
  do! F := deref f in
  do! _ := assert (negb (bool_decide (m_state F = EXEC))) in
  do! _ := set_state f EXEC in
  do! c := here t in
  do! p := get_local t t_main in
  do! mf := deref_ptr p in
  swapcontext t mf c f.

Definition swapOut (t f : nat) (c : context) : M World unit :=
  do! p := get_local t t_main in
  do! _ := SetThis t p in
  do! mf := deref_ptr p in
  swapcontext t f c mf.

(** [Fiber::GetThis]. *)
Definition GetThis (t : nat) : M World nat :=
  do! cur := get_local t t_fiber in
  match cur with
  | Some f => do! _ := deref f in ret f
  | None =>
      do! f := Fiber_root t in
      do! cur := get_local t t_fiber in
      do! _ := assert (bool_decide (cur = Some f)) in
      do! _ := set_local t (λ l, mkLocals (t_fiber l) (Some f) (t_main l) (t_stack l)) in
      deref_ptr cur
  end.

(** The jump of a yield: [if (GetMainFiber()) cur->swapOut(); else cur->back()]. *)
Definition yield_out (t f : nat) : M World unit :=
  do! c := here t in
  do! p := get_local t t_main in
  match p with Some _ => swapOut t f c | None => back t f c end.

Definition YieldToReady (t : nat) : M World unit :=
  do! cur := GetThis t in
  do! _ := set_state cur READY in
  yield_out t cur.

Definition YieldToHold (t : nat) : M World unit :=
  do! cur := GetThis t in
  do! _ := set_state cur HOLD in
  yield_out t cur.

(** What a callback does in the end: return, or throw. *)
Inductive completion := returns | throws.

(** The end of the try block of [MainFunc] and its handlers. *)
Definition complete (cur : nat) (r : completion) : M World unit :=
  match r with
  | returns => do! _ := modify_fiber cur (upd_cb nullptr) in set_state cur TERM
  | throws => set_state cur EXCEPT
  end.

(** The jump at the end of [MainFunc]. *)
Definition MainFunc_out (t cur : nat) : M World unit :=
  do! mf := get_local t t_main in
  do! tf := get_local t t_threadFiber in
  match mf, tf with
  | Some _, _ => swapOut t cur (ctx_never_reach cur)
  | None, Some _ => back t cur (ctx_never_reach cur)
  | None, None => fail AssertFailed
  end.

(** The part of [MainFunc] after the callback, up to the jump. *)
Definition MainFunc_finish (t cur : nat) (r : completion) : M World unit :=
  do! _ := complete cur r in MainFunc_out t cur.

Definition CallerMainFunc_finish (t cur : nat) (r : completion) : M World unit :=
  do! _ := complete cur r in back t cur (ctx_never_reach cur).

(** The part of [MainFunc] before the callback; an empty callback throws
    [std::bad_function_call], which the function catches. The result is the
    callback that now runs. *)
Definition MainFunc_enter (t : nat) : M World callback :=
  do! cur := GetThis t in
  do! F := deref cur in
  if engaged (m_cb F) then ret (m_cb F)
  else do! _ := MainFunc_finish t cur throws in ret nullptr.

Definition GetFiberId (t : nat) : M World Z :=
  do! cur := get_local t t_fiber in
  match cur with
  | Some f => do! F := deref f in ret (m_id F)
  | None => ret 0
  end.

Definition TotalFibers : M World Z := λ w, (Ret (s_fiber_count w), w).
