(* ===== verification/FiberTheorems.v ===== *)
(** Correctness of fiber switching within one thread.

    A thread whose main fiber runs a scheduler creates, resumes, resets and
    destroys fibers, and the fiber that runs yields, returns or throws.  Used
    under the preconditions of [allowed], which for [swapIn] are stricter than
    what fiber.h documents, no operation fails an assertion, and
    [Fiber::GetThis] always names the fiber whose code runs. *)

From S2P Require Import Prelude Fiber.

(** * The operations of a thread *)

Inductive fop :=
| OpNew (cb : callback)
| OpReset (f : nat) (cb : callback)
| OpResume (f : nat)
| OpYieldReady
| OpYieldHold
| OpFinish (r : completion)
| OpDelete (f : nat).

Section thread.
Context (t : nat) (stack_size : Z).

(** A worker thread at the start of [Scheduler::run]: its own fiber is the
    main fiber. *)
Definition worker_start : M World nat :=
  do! f := GetThis t in
  do! _ := set_local t (λ l, mkLocals (t_fiber l) (t_threadFiber l) (Some f) (t_stack l)) in
  ret f.

(** Resuming a fiber: [swapIn], and the start of [MainFunc] when the fiber
    has not run since its creation or [reset]. *)
Definition resume (f : nat) : M World unit :=
  do! F := deref f in
  do! _ := swapIn t f in
  match m_ctx F with
  | ctx_MainFunc _ => do! _ := MainFunc_enter t in ret tt
  | _ => ret tt
  end.

Definition fexec (op : fop) : M World unit :=
  match op with
  | OpNew cb => do! _ := Fiber_new stack_size cb 0 false in ret tt
  | OpReset f cb => reset f cb
  | OpResume f => resume f
  | OpYieldReady => YieldToReady t
  | OpYieldHold => YieldToHold t
  | OpFinish r => do! f := GetThis t in MainFunc_finish t f r
  | OpDelete f => Fiber_delete t f
  end.

(** The preconditions: [m] is the main fiber.  The main fiber resumes a fiber
    that is in INIT, HOLD or READY; fiber.h asks only that it is not in EXEC,
    but one that ended cannot be resumed ([resume_ended]).  A fiber that ended
    or never ran is reset or destroyed; one other than the main fiber yields,
    returns or throws. *)
Definition allowed (m : nat) (w : World) (op : fop) : bool :=
  let cur := t_fiber (locals w t) in
  let state f := m_state <$> fibers w !! f in
  match op with
  | OpNew _ => true
  | OpReset f _ | OpDelete f =>
      negb (bool_decide (f = m)) &&
      match state f with Some s => ended s | None => false end
  | OpResume f =>
      bool_decide (cur = Some m) && negb (bool_decide (f = m)) &&
      match state f with Some (INIT | HOLD | READY) => true | _ => false end
  | OpYieldReady | OpYieldHold | OpFinish _ => negb (bool_decide (cur = Some m))
  end.

(** The worlds a thread reaches. *)
Inductive reached (m : nat) : World → Prop :=
| reached_start w : worker_start world0 = (Ret m, w) → reached m w
| reached_step w op w' :
    reached m w → allowed m w op = true → snd (fexec op w) = w' → reached m w'.

(** * The invariant *)

Definition shape (cur f : nat) (F : Fiber) : Prop :=
  m_stack F = true ∧
  match m_state F with
  | EXEC => f = cur
  | INIT => f ≠ cur ∧ m_ctx F = ctx_MainFunc f
  | HOLD | READY => f ≠ cur ∧ m_ctx F = ctx_at (fiber_stack f)
  | TERM | EXCEPT => f ≠ cur
  end.

Record FInv (m cur : nat) (fs : gmap nat Fiber) (l : thread_locals) (n : nat) : Prop := {
  fi_locals : l = mkLocals (Some cur) (Some m) (Some m)
                (if decide (cur = m) then thread_stack t else fiber_stack cur);
  fi_main : ∃ R, fs !! m = Some R ∧ m_stack R = false ∧ m_state R = EXEC ∧
                 (cur ≠ m → m_ctx R = ctx_at (thread_stack t));
  fi_cur : is_Some (fs !! cur);
  fi_shape : ∀ f F, fs !! f = Some F → f ≠ m → shape cur f F;
  fi_fresh : ∀ f, is_Some (fs !! f) → (f < n)%nat;
}.

(** What thread [t] sees of the world. *)
Definition sees (w : World) (fs : gmap nat Fiber) (l : thread_locals) (n : nat) : Prop :=
  fibers w = fs ∧ locals w t = l ∧ next_ptr w = n.

Lemma sees_self w : sees w (fibers w) (locals w t) (next_ptr w).
Proof. done. Qed.

Definition runs_to {A} (c : M World A) (w : World) (a : A) fs l n : Prop :=
  ∃ w', c w = (Ret a, w') ∧ sees w' fs l n.

Lemma runs_bind {A B} (c : M World A) (k : A → M World B) w a fs l n b fs' l' n' :
  runs_to c w a fs l n →
  (∀ w', sees w' fs l n → runs_to (k a) w' b fs' l' n') →
  runs_to (mbnd c k) w b fs' l' n'.
Proof. intros (w' & E & Hs) H. unfold runs_to, mbnd. rewrite E. by apply H. Qed.

Ltac op_solve :=
  intros; unfold sees in *; destruct_and?; simplify_eq/=; eexists; split;
  [ unfold SetThis, set_local, get_local, modify_fiber, deref, count_fibers, fresh_id,
      alloc, mbnd, ret, get, put, upd_fibers; simpl;
    repeat match goal with H : fibers _ !! _ = Some _ |- _ => rewrite H; simpl end;
    reflexivity
  | unfold sees; rewrite ?locals_upd; done ].

Lemma runs_ret {A} (a : A) w fs l n : sees w fs l n → runs_to (ret a) w a fs l n.
Proof. op_solve. Qed.

Lemma runs_SetThis w p fs l n :
  sees w fs l n →
  runs_to (SetThis t p) w tt fs (mkLocals p (t_threadFiber l) (t_main l) (t_stack l)) n.
Proof. op_solve. Qed.

Lemma runs_set_local g w fs l n :
  sees w fs l n → runs_to (set_local t g) w tt fs (g l) n.
Proof. op_solve. Qed.

Lemma runs_get_local {A} (field : thread_locals → A) w fs l n :
  sees w fs l n → runs_to (get_local t field) w (field l) fs l n.
Proof. op_solve. Qed.

Lemma runs_deref w f F fs l n :
  sees w fs l n → fs !! f = Some F → runs_to (deref f) w F fs l n.
Proof. op_solve. Qed.

Lemma runs_modify w f F g fs l n :
  sees w fs l n → fs !! f = Some F →
  runs_to (modify_fiber f g) w tt (<[f := g F]> fs) l n.
Proof. op_solve. Qed.

Lemma runs_alloc w F fs l n :
  sees w fs l n → runs_to (alloc F) w n (<[n := F]> fs) l (S n).
Proof. op_solve. Qed.

Lemma runs_count w d fs l n : sees w fs l n → runs_to (count_fibers d) w tt fs l n.
Proof. op_solve. Qed.

Lemma runs_fresh_id w fs l n : sees w fs l n → ∃ id, runs_to fresh_id w id fs l n.
Proof. intros. eexists. op_solve. Qed.

Lemma runs_assert w b fs l n :
  sees w fs l n → b = true → runs_to (assert b) w tt fs l n.
Proof. intros ? ->. by apply runs_ret. Qed.

Lemma runs_setcontext w c s fs l n :
  sees w fs l n →
  c = ctx_at s ∨ (∃ f, c = ctx_MainFunc f ∧ s = fiber_stack f) →
  runs_to (setcontext t c) w tt fs
    (mkLocals (t_fiber l) (t_threadFiber l) (t_main l) s) n.
Proof. intros ? [->|(f & -> & ->)]; simpl; op_solve. Qed.

Lemma runs_swapcontext w save load c FS FL s fs l n :
  sees w fs l n → fs !! save = Some FS → fs !! load = Some FL → save ≠ load →
  m_ctx FL = ctx_at s ∨ (∃ f, m_ctx FL = ctx_MainFunc f ∧ s = fiber_stack f) →
  runs_to (swapcontext t save c load) w tt (<[save := upd_ctx c FS]> fs)
    (mkLocals (t_fiber l) (t_threadFiber l) (t_main l) s) n.
Proof.
  intros. eapply runs_bind; [by eapply runs_modify|]. intros.
  eapply runs_bind; [eapply runs_deref; [done|by rewrite lookup_insert_ne]|].
  intros. by eapply runs_setcontext.
Qed.

Lemma runs_deref_ptr w f F fs l n :
  sees w fs l n → fs !! f = Some F → runs_to (deref_ptr (Some f)) w f fs l n.
Proof.
  intros. eapply runs_bind; [by eapply runs_deref|]. intros. by apply runs_ret.
Qed.

(** Back to the main fiber [m]. *)
Lemma runs_swapOut w f c m F R s fs l n :
  sees w fs l n → fs !! f = Some F → fs !! m = Some R → f ≠ m →
  t_main l = Some m → m_ctx R = ctx_at s →
  runs_to (swapOut t f c) w tt (<[f := upd_ctx c F]> fs)
    (mkLocals (Some m) (t_threadFiber l) (Some m) s) n.
Proof.
  intros ? ? ? ? Hm ?. destruct l as [tf tt mf ts]. simpl in Hm. subst mf.
  eapply runs_bind; [by apply runs_get_local|]. intros.
  eapply runs_bind; [by apply runs_SetThis|]. intros. simpl.
  eapply runs_bind; [by eapply runs_deref_ptr|]. intros.
  eapply (runs_swapcontext _ _ _ _ _ _ s _ (mkLocals _ _ _ _)); eauto.
Qed.

(** From the main fiber [m] into [f]. *)
Lemma runs_swapIn w f m F R s fs l n :
  sees w fs l n → fs !! f = Some F → fs !! m = Some R → f ≠ m →
  t_main l = Some m → m_state F ≠ EXEC →
  m_ctx F = ctx_at s ∨ (∃ f, m_ctx F = ctx_MainFunc f ∧ s = fiber_stack f) →
  runs_to (swapIn t f) w tt
    (<[m := upd_ctx (ctx_at (t_stack l)) R]> (<[f := upd_state EXEC F]> fs))
    (mkLocals (Some f) (t_threadFiber l) (Some m) s) n.
Proof.
  intros ? Hf HR ? Hm Hs ?. destruct l as [tf tt mf ts]. simpl in Hm. subst mf.
  eapply runs_bind; [by apply runs_SetThis|]. intros.
  eapply runs_bind; [by eapply runs_deref|]. intros.
  eapply runs_bind; [by eapply runs_assert; [|rewrite bool_decide_false]|]. intros.
  eapply runs_bind; [by eapply runs_modify|]. intros.
  eapply runs_bind; [unfold here; eapply runs_bind; [by apply runs_get_local|]|].
  { intros. by apply runs_ret. }
  intros. eapply runs_bind; [by apply runs_get_local|]. intros. simpl.
  eapply runs_bind; [eapply runs_deref_ptr; [done|by rewrite lookup_insert_ne]|].
  intros. eapply (runs_swapcontext _ _ _ _ _ (upd_state EXEC F) s _ (mkLocals _ _ _ _));
    eauto; [by rewrite lookup_insert_ne|by rewrite lookup_insert_eq].
Qed.

(** * Every allowed operation keeps the invariant *)

Definition keeps {A} (m : nat) (c : M World A) (w : World) : Prop :=
  ∃ a w' cur', c w = (Ret a, w') ∧
    FInv m cur' (fibers w') (locals w' t) (next_ptr w').

Lemma runs_keeps {A} m cur' (c : M World A) w a fs l n :
  runs_to c w a fs l n → FInv m cur' fs l n → keeps m c w.
Proof. intros (w' & E & <- & <- & <-) HI. by exists a, w', cur'. Qed.

(** A fiber other than the main one and the running one is replaced. *)
Lemma FInv_insert m cur f G fs l n :
  FInv m cur fs l n → f ≠ m → f ≠ cur → shape cur f G → (f < n)%nat →
  FInv m cur (<[f := G]> fs) l n.
Proof.
  intros [Hl (R & HR & ?) Hc Hsh Hfr] ? ? HG Hn. split; [done|..].
  - exists R. by rewrite lookup_insert_ne.
  - by rewrite lookup_insert_ne.
  - intros f' F' [[<- <-]|[? ?]]%lookup_insert_Some; eauto.
  - intros f' [<-|[? ?]]%lookup_insert_is_Some; eauto.
Qed.

(** The running fiber [cur] gives control back to the main fiber. *)
Lemma FInv_leave m cur G fs l n :
  FInv m cur fs l n → cur ≠ m → shape m cur G →
  FInv m m (<[cur := G]> fs) (mkLocals (Some m) (Some m) (Some m) (thread_stack t)) n.
Proof.
  intros [Hl (R & HR & ? & ? & ?) Hc Hsh Hfr] ? HG. split.
  - by rewrite decide_True.
  - exists R. rewrite lookup_insert_ne by done. naive_solver.
  - by rewrite lookup_insert_ne by done.
  - intros f' F' [[<- <-]|[? Hf']]%lookup_insert_Some Hm; [done|].
    specialize (Hsh _ _ Hf' Hm) as [? Hs]. split; [done|].
    destruct (m_state F'); naive_solver.
  - intros f' [<-|[? ?]]%lookup_insert_is_Some; eauto.
Qed.

(** The main fiber gives control to [f]. *)
Lemma FInv_enter m f F R fs l n :
  FInv m m fs l n → fs !! f = Some F → fs !! m = Some R → f ≠ m →
  FInv m f (<[m := upd_ctx (ctx_at (t_stack l)) R]> (<[f := upd_state EXEC F]> fs))
    (mkLocals (Some f) (Some m) (Some m) (fiber_stack f)) n.
Proof.
  intros [Hl (R' & HR & ? & ? & ?) Hc Hsh Hfr] Hf HR' ?. simplify_eq. split.
  - by rewrite decide_False.
  - eexists. rewrite lookup_insert_eq. split; [done|]. simpl. by rewrite decide_True.
  - rewrite lookup_insert_ne by done. rewrite lookup_insert_eq. done.
  - intros f' F' [[<- <-]|[? [[<- <-]|[? Hf']]%lookup_insert_Some]]%lookup_insert_Some Hm;
      [done|..].
    + by destruct (Hsh _ _ Hf Hm).
    + specialize (Hsh _ _ Hf' Hm) as [? Hs]. split; [done|].
      destruct (m_state F'); naive_solver.
  - intros f' [<-|[? [<-|[? ?]]%lookup_insert_is_Some]]%lookup_insert_is_Some; eauto.
Qed.

(** The jump out of the running fiber, whose object is now [G]. *)
Lemma swapOut_keeps m cur G c w fs l n :
  FInv m cur fs l n → cur ≠ m → sees w (<[cur := G]> fs) l n →
  shape m cur (upd_ctx c G) → keeps m (swapOut t cur c) w.
Proof.
  intros HI ? Hw HG. pose proof HI as [Hl (R & HR & ? & ? & HRc) _ _ _].
  eapply (runs_keeps m m);
    [eapply runs_swapOut; [done|by rewrite lookup_insert_eq|by rewrite lookup_insert_ne
                          |done|by subst|by apply HRc]|].
  rewrite insert_insert_eq. subst. by apply (FInv_leave m cur _ fs _ n HI).
Qed.

Lemma keeps_bind {A B} m (c : M World A) (k : A → M World B) w a fs l n :
  runs_to c w a fs l n → (∀ w', sees w' fs l n → keeps m (k a) w') →
  keeps m (mbnd c k) w.
Proof. intros (w' & E & Hs) H. unfold keeps, mbnd. rewrite E. by apply H. Qed.

(** A last action that changes nothing. *)
Lemma keeps_last {A B} m (c : M World A) (b : B) w :
  keeps m c w → keeps m (do! _ := c in ret b) w.
Proof.
  intros (a & w' & cur' & E & HI). exists b, w', cur'. unfold mbnd. by rewrite E.
Qed.

Lemma FInv_mono m cur fs l n n' : FInv m cur fs l n → (n ≤ n')%nat → FInv m cur fs l n'.
Proof.
  intros [? ? ? ? Hf] ?. split; try done. intros f Hs. specialize (Hf f Hs). lia.
Qed.

Lemma FInv_delete m cur f fs l n :
  FInv m cur fs l n → f ≠ m → f ≠ cur → FInv m cur (delete f fs) l n.
Proof.
  intros [Hl (R & HR & ?) Hc Hsh Hfr] ? ?. split; [done|..].
  - exists R. by rewrite lookup_delete_ne.
  - by rewrite lookup_delete_ne.
  - intros f' F' [? ?]%lookup_delete_Some; eauto.
  - intros f' [F' [? ?]%lookup_delete_Some]; eauto.
Qed.

Lemma runs_GetThis w f fs l n :
  sees w fs l n → t_fiber l = Some f → is_Some (fs !! f) →
  runs_to (GetThis t) w f fs l n.
Proof.
  intros ? Hf [F HF]. eapply runs_bind; [by apply runs_get_local|].
  intros. rewrite Hf. eapply runs_bind; [by eapply runs_deref|].
  intros. by apply runs_ret.
Qed.

(** The first call of [GetThis] in a thread creates its root fiber. *)
Lemma runs_GetThis_new w fs l n :
  sees w fs l n → t_fiber l = None →
  runs_to (GetThis t) w n (<[n := mkFiber 0 0 EXEC (ctx_at (t_stack l)) false nullptr]> fs)
    (mkLocals (Some n) (Some n) (t_main l) (t_stack l)) (S n).
Proof.
  intros Hw Hf. destruct l as [tf ? ? ?]. simpl in Hf. subst tf.
  eapply runs_bind; [by apply runs_get_local|]. clear w Hw. intros w Hw. simpl.
  eapply runs_bind.
  { unfold Fiber_root. eapply runs_bind; [by apply runs_get_local|]. intros.
    eapply runs_bind; [by apply runs_alloc|]. intros.
    eapply runs_bind; [by apply runs_SetThis|]. intros.
    eapply runs_bind; [by apply runs_count|]. intros. by apply runs_ret. }
  clear w Hw. intros w Hw. eapply runs_bind; [by apply runs_get_local|]. intros.
  eapply runs_bind; [by apply runs_assert; [|apply bool_decide_true]|]. intros.
  eapply runs_bind; [by apply runs_set_local|]. intros.
  by eapply runs_deref_ptr; [|apply lookup_insert_eq].
Qed.

Section step.
Context (m cur : nat) (w : World) (fs : gmap nat Fiber) (l : thread_locals) (n : nat).
Context (Hw : sees w fs l n) (HI : FInv m cur fs l n).

Local Tactic Notation "run" tactic3(tac) :=
  eapply keeps_bind; [tac|]; clear dependent w; intros w Hw.

Lemma new_keeps cb : keeps m (Fiber_new stack_size cb 0 false) w.
Proof using Hw HI.
  pose proof HI as [_ (R & HR & _) Hc _ Hfr].
  assert (m < n)%nat by (apply Hfr; eauto). assert (cur < n)%nat by eauto.
  destruct (runs_fresh_id w fs l n Hw) as [id Hid].
  run (exact Hid). run (by apply runs_count). run (by apply runs_alloc).
  run (by eapply runs_modify; [|apply lookup_insert_eq]).
  rewrite insert_insert_eq in Hw. eapply runs_keeps; [by apply runs_ret|].
  eapply FInv_insert; [by eapply FInv_mono; [exact HI|lia]|lia..| |lia].
  split; [done|]. split; [simpl; lia|done].
Qed.

Lemma reset_keeps f F cb :
  f ≠ m → fs !! f = Some F → ended (m_state F) = true → keeps m (reset f cb) w.
Proof using Hw HI.
  intros Hm Hf He. pose proof HI as [_ _ _ Hsh Hfr].
  destruct (Hsh f F Hf Hm) as [Hst Hs].
  assert (f ≠ cur) by (by destruct (m_state F); destruct_and?).
  run (by eapply runs_deref). run (by apply runs_assert).
  run (by apply runs_assert). run (by eapply runs_modify).
  run (by eapply runs_modify; [|apply lookup_insert_eq]).
  eapply runs_keeps; [by eapply runs_modify; [|apply lookup_insert_eq]|].
  rewrite !insert_insert_eq. eapply FInv_insert; eauto. by split.
Qed.

Lemma delete_keeps f F :
  f ≠ m → fs !! f = Some F → ended (m_state F) = true → keeps m (Fiber_delete t f) w.
Proof using Hw HI.
  intros Hm Hf He. pose proof HI as [_ _ _ Hsh Hfr].
  destruct (Hsh f F Hf Hm) as [Hst Hs].
  assert (f ≠ cur) by (by destruct (m_state F); destruct_and?).
  run (by apply runs_count). run (by eapply runs_deref). rewrite Hst.
  run (by apply runs_assert). unfold keeps, mbnd, get, put, upd_fibers.
  destruct Hw as (<- & <- & <-). eexists _, _, cur. split; [done|]. simpl.
  by apply FInv_delete.
Qed.

Lemma finish_keeps r : cur ≠ m → keeps m (MainFunc_finish t cur r) w.
Proof using Hw HI.
  intros Hm. pose proof HI as [Hl _ [F HF] Hsh _].
  destruct (Hsh cur F HF Hm) as [Hst _].
  assert (∃ G, runs_to (complete cur r) w tt (<[cur := G]> fs) l n ∧ shape m cur (upd_ctx (ctx_never_reach cur) G))
    as (G & Hr & HG).
  { destruct r; eexists; (split; [|shelve]).
    - eapply runs_bind; [by eapply runs_modify|]. intros.
      rewrite <- (insert_insert_eq fs cur _ (upd_cb nullptr F)).
      by eapply runs_modify; [|apply lookup_insert_eq].
    - by eapply runs_modify. 
    Unshelve. all: by split. }
  run (exact Hr). unfold MainFunc_out. run (by apply runs_get_local). run (by apply runs_get_local).
  rewrite Hl. cbn [t_main t_threadFiber]. by eapply swapOut_keeps.
Qed.

Lemma yield_keeps s :
  cur ≠ m → s = HOLD ∨ s = READY →
  keeps m (do! cur := GetThis t in do! _ := set_state cur s in yield_out t cur) w.
Proof using Hw HI.
  intros Hm Hs. pose proof HI as [Hl _ [F HF] Hsh _].
  destruct (Hsh cur F HF Hm) as [Hst _].
  run (by apply runs_GetThis; [|rewrite Hl|eauto]).
  run (by eapply runs_modify). unfold yield_out, here.
  run (eapply runs_bind; [by apply runs_get_local|intros; by apply runs_ret]).
  run (by apply runs_get_local). rewrite Hl, decide_False by done. cbn [t_main t_stack].
  eapply swapOut_keeps; eauto. split; [done|]. destruct Hs; by subst.
Qed.
End step.

(** The running fiber starts [MainFunc]. *)
Lemma enter_keeps m cur w fs l n :
  sees w fs l n → FInv m cur fs l n → cur ≠ m → keeps m (MainFunc_enter t) w.
Proof.
  intros Hw HI Hm. pose proof HI as [Hl _ [F HF] _ _].
  eapply keeps_bind; [by apply runs_GetThis; [|rewrite Hl|eauto]|]. clear w Hw.
  intros w Hw. eapply keeps_bind; [by eapply runs_deref|]. clear w Hw. intros w Hw.
  destruct (engaged (m_cb F)).
  - by eapply runs_keeps; [apply runs_ret|].
  - apply keeps_last. by eapply finish_keeps.
Qed.

Lemma resume_keeps m w fs l n f F :
  sees w fs l n → FInv m m fs l n → f ≠ m → fs !! f = Some F →
  match m_state F with INIT | HOLD | READY => True | _ => False end →
  keeps m (resume f) w.
Proof.
  intros Hw HI Hm Hf Hs. pose proof HI as [Hl (R & HR & _) _ Hsh _].
  destruct (Hsh f F Hf Hm) as [_ Hc].
  assert (m_ctx F = ctx_at (fiber_stack f) ∨ m_ctx F = ctx_MainFunc f) as Hctx.
  { destruct (m_state F); naive_solver. }
  eapply keeps_bind; [by eapply runs_deref|]. clear w Hw. intros w Hw.
  eapply keeps_bind.
  { eapply runs_swapIn; [done..|by rewrite Hl|by destruct (m_state F)|].
    destruct Hctx as [->| ->]; eauto. }
  clear w Hw. intros w Hw. pose proof (FInv_enter _ _ _ _ _ _ _ HI Hf HR Hm) as HI'.
  replace (t_threadFiber l) with (Some m) in Hw by (by rewrite Hl).
  destruct Hctx as [Hx|Hx]; rewrite Hx.
  - by eapply runs_keeps; [apply runs_ret|].
  - apply keeps_last. by eapply enter_keeps.
Qed.

Lemma allowed_keeps m cur w op :
  FInv m cur (fibers w) (locals w t) (next_ptr w) → allowed m w op = true →
  keeps m (fexec op) w.
Proof.
  intros HI Ha. pose proof (sees_self w) as Hw. pose proof HI as [Hl _ _ _ _].
  destruct op as [cb|f cb|f| | |r|f]; unfold allowed in Ha; rewrite ?Hl in Ha;
    simpl in Ha; repeat (apply andb_prop in Ha as [Ha ?]);
    repeat match goal with
      | H : negb (bool_decide _) = true |- _ => apply negb_true_iff, bool_decide_eq_false in H
      | H : bool_decide _ = true |- _ => apply bool_decide_eq_true in H
      end; destruct (fibers w !! f) as [F|] eqn:Hf || idtac; try done.
  - apply keeps_last. by eapply new_keeps.
  - by eapply reset_keeps.
  - simplify_eq. simpl in *. eapply resume_keeps; [done..|by destruct (m_state F)].
  - eapply yield_keeps; [done..|naive_solver|by right].
  - eapply yield_keeps; [done..|naive_solver|by left].
  - eapply keeps_bind; [eapply runs_GetThis; [done|by rewrite Hl|by apply HI]|].
    intros w' Hw'. eapply finish_keeps; [done..|naive_solver].
  - by eapply delete_keeps.
Qed.

Lemma start_FInv m w :
  worker_start world0 = (Ret m, w) → FInv m m (fibers w) (locals w t) (next_ptr w).
Proof.
  intros E.
  assert (runs_to worker_start world0 0%nat
    {[0%nat := mkFiber 0 0 EXEC (ctx_at (thread_stack t)) false nullptr]}
    (mkLocals (Some 0%nat) (Some 0%nat) (Some 0%nat) (thread_stack t)) 1) as (w' & E' & Hs).
  { eapply runs_bind; [apply runs_GetThis_new; [apply sees_self|done]|]. intros.
    eapply runs_bind; [by apply runs_set_local|]. intros. by apply runs_ret. }
  rewrite E in E'. simplify_eq. destruct Hs as (-> & -> & ->).
  split; [by rewrite decide_True|by eexists; rewrite lookup_singleton_eq|..].
  - by rewrite lookup_singleton_eq.
  - by intros f F [<- <-]%lookup_singleton_Some.
  - intros f [F [<- <-]%lookup_singleton_Some]. lia.
Qed.

Lemma reached_FInv m w :
  reached m w → ∃ cur, FInv m cur (fibers w) (locals w t) (next_ptr w).
Proof.
  induction 1 as [w E|w op w' _ [cur HI] Ha <-].
  - exists m. by apply start_FInv.
  - destruct (allowed_keeps m cur w op HI Ha) as ([] & w' & cur' & E & HI').
    rewrite E. eauto.
Qed.

(** A list of operations, stopping at one whose precondition fails. *)
Fixpoint run_ops (m : nat) (w : World) (ops : list fop) : option World :=
  match ops with
  | [] => Some w
  | op :: ops => if allowed m w op then run_ops m (snd (fexec op w)) ops else None
  end.

Lemma run_ops_reached m w ops w' :
  reached m w → run_ops m w ops = Some w' → reached m w'.
Proof.
  revert w. induction ops as [|op ops IH]; simpl; intros w Hr E; [by simplify_eq|].
  destruct (allowed m w op) eqn:Ha; [|done]. eapply IH; [|done]. by eapply reached_step.
Qed.
End thread.

(** * Properties *)

(** C11. In a thread that runs a scheduler, take any sequence of these
    operations: create a fiber (not of the calling kind); resume, from the main
    fiber, another one in state INIT, HOLD or READY; reset or destroy another
    one in state INIT, TERM or EXCEPT; and, when a fiber other than the main
    one runs, its yield to READY or HOLD, its return or its exception.  Every
    assertion of fiber.cpp stays true: the next such operation again returns,
    with no null pointer and no jump to a finished context.  (fiber.h allows
    swapIn in every state but EXEC; in TERM or EXCEPT it reaches an assertion,
    see [resume_ended].) *)
Theorem fiber_operations_safe (t : nat) (stack_size : Z) (m : nat) (w : World) (op : fop) :
  reached t stack_size m w → allowed t m w op = true →
  ∃ w', fexec t stack_size op w = (Ret tt, w').
Proof.
  intros [cur HI]%reached_FInv Ha.
  destruct (allowed_keeps t stack_size m cur w op HI Ha) as ([] & w' & cur' & E & _). eauto.
Qed.

(** C26. After any such sequence, [Fiber::GetThis] names the fiber whose code
    the thread runs and leaves the state alone; that fiber is in state EXEC
    and no other one is, the main fiber apart; and a fiber that yielded goes
    on, when resumed, on its own stack where it stopped. *)
Theorem this_is_the_running_fiber (t : nat) (stack_size : Z) (m : nat) (w : World) :
  reached t stack_size m w →
  ∃ cur, GetThis t w = (Ret cur, w) ∧
    t_stack (locals w t) = (if decide (cur = m) then thread_stack t else fiber_stack cur) ∧
    (∃ F, fibers w !! cur = Some F ∧ m_state F = EXEC) ∧
    (∀ f F, fibers w !! f = Some F → m_state F = EXEC → f = cur ∨ f = m) ∧
    (∀ f F, fibers w !! f = Some F → m_state F = HOLD ∨ m_state F = READY →
       m_ctx F = ctx_at (fiber_stack f)).
Proof.
  intros [cur [Hl (R & HR & _ & HE & _) [F HF] Hsh _]]%reached_FInv. exists cur.
  split_and!.
  - unfold GetThis, mbnd, get_local, deref. rewrite Hl. simpl. by rewrite HF.
  - by rewrite Hl.
  - exists F. split; [done|]. destruct (decide (cur = m)) as [->|Hm]; [by simplify_eq|].
    destruct (Hsh cur F HF Hm) as [_ Hs]. by destruct (m_state F); destruct_and?.
  - intros f G Hf Hs. destruct (decide (f = m)) as [->|Hm]; [by right|left].
    destruct (Hsh f G Hf Hm) as [_ Hx]. by rewrite Hs in Hx.
  - intros f G Hf Hs. destruct (decide (f = m)) as [->|Hm].
    + simplify_eq. rewrite HE in Hs. naive_solver.
    + destruct (Hsh f G Hf Hm) as [_ Hx]. destruct Hs as [Hs|Hs]; rewrite Hs in Hx; tauto.
Qed.

(** * Witnesses *)

(** A fiber was created, ran and yielded. *)
Definition demo_ops : list fop := [OpNew (UserCb 7); OpResume 1; OpYieldHold].
Definition demo_world : World :=
  default world0 (run_ops 3 131072 0 (snd (worker_start 3 world0)) demo_ops).

Lemma demo_reached : reached 3 131072 0 demo_world.
Proof.
  apply (run_ops_reached 3 131072 0 (snd (worker_start 3 world0)) demo_ops).
  - apply reached_start. vm_compute. reflexivity.
  - vm_compute. reflexivity.
Qed.

Lemma fiber_operations_safe_witness :
  ∃ w', fexec 3 131072 (OpResume 1) demo_world = (Ret tt, w').
Proof. apply (fiber_operations_safe 3 131072 0); [apply demo_reached|reflexivity]. Defined.

Lemma this_is_the_running_fiber_witness :
  ∃ cur, GetThis 3 demo_world = (Ret cur, demo_world).
Proof.
  destruct (this_is_the_running_fiber 3 131072 0 demo_world demo_reached) as (c & ? & _).
  by exists c.
Defined.

(** Resuming a fiber that returned, which the precondition of [swapIn] in
    fiber.h allows, runs into the assertion at the end of [MainFunc]. *)
Lemma resume_ended :
  match run_ops 3 131072 0 (snd (worker_start 3 world0))
          [OpNew (UserCb 7); OpResume 1; OpFinish returns] with
  | Some w => (m_state <$> fibers w !! 1%nat) = Some TERM ∧
              fst (fexec 3 131072 (OpResume 1) w) = Fault AssertFailed
  | None => False
  end.
Proof. vm_compute. by split. Qed.
