(* ===== verification/Scheduler.v ===== *)
(** The fiber scheduler: scheduler.h and scheduler.cpp.

    [m_fibers] is the queue of tasks shared by the worker threads.  Each
    worker runs [Scheduler::run]; the code of [run] is a program with a
    program counter [pc], and one step of a worker is one section under the
    lock, one access to an atomic counter, one test of a fiber's state, one
    store to it, or one context switch.  A task is a fiber or a callback; what
    a callback does between two switches is a label of the machine: it may
    schedule tasks, yield, return or throw, in any order.  The steps of the
    threads interleave freely.  [tickle] of this class only writes a log line;
    its calls are counted. *)

From S2P Require Import Prelude Fiber.

(** * The queue *)

Record FiberAndThread := mkFT {
  fiber : option nat;
  cb : callback;
  thread : Z;
}.

#[export] Instance FiberAndThread_eq_dec : EqDecision FiberAndThread.
Proof. solve_decision. Defined.

(** What is scheduled: a [Fiber::ptr] or a callback, and the entry made of it. *)
Inductive FiberOrCb :=
| fc_fiber (p : option nat)
| fc_cb (c : callback).

Definition FiberAndThread_new (fc : FiberOrCb) (thread : Z) : FiberAndThread :=
  match fc with
  | fc_fiber p => mkFT p nullptr thread
  | fc_cb c => mkFT None c thread
  end.

(** [FiberAndThread::reset], and the default constructor. *)
Definition ft_reset : FiberAndThread := mkFT None nullptr (-1).

(** [ft.fiber || ft.cb]. *)
Definition has_task (ft : FiberAndThread) : bool :=
  bool_decide (is_Some (fiber ft)) || engaged (cb ft).

Record Scheduler := mkScheduler {
  m_threads : list Z;
  m_fibers : list FiberAndThread;
  m_rootFiber : option nat;
  m_threadCount : Z;
  m_activeThreadCount : Z;
  m_idleThreadCount : Z;
  m_stopping : bool;
  m_autoStop : bool;
  m_rootThread : Z;
  tickles : Z;
}.

Definition with_fibers (l : list FiberAndThread) (s : Scheduler) : Scheduler :=
  mkScheduler (m_threads s) l (m_rootFiber s) (m_threadCount s) (m_activeThreadCount s)
    (m_idleThreadCount s) (m_stopping s) (m_autoStop s) (m_rootThread s) (tickles s).
Definition add_active (d : Z) (s : Scheduler) : Scheduler :=
  mkScheduler (m_threads s) (m_fibers s) (m_rootFiber s) (m_threadCount s)
    (u64 (m_activeThreadCount s + d)) (m_idleThreadCount s) (m_stopping s)
    (m_autoStop s) (m_rootThread s) (tickles s).
Definition add_idle (d : Z) (s : Scheduler) : Scheduler :=
  mkScheduler (m_threads s) (m_fibers s) (m_rootFiber s) (m_threadCount s) (m_activeThreadCount s)
    (u64 (m_idleThreadCount s + d)) (m_stopping s) (m_autoStop s) (m_rootThread s)
    (tickles s).
Definition with_flags (stopping autoStop : bool) (s : Scheduler) : Scheduler :=
  mkScheduler (m_threads s) (m_fibers s) (m_rootFiber s) (m_threadCount s) (m_activeThreadCount s)
    (m_idleThreadCount s) stopping autoStop (m_rootThread s) (tickles s).

Definition tickle (s : Scheduler) : Scheduler :=
  mkScheduler (m_threads s) (m_fibers s) (m_rootFiber s) (m_threadCount s) (m_activeThreadCount s)
    (m_idleThreadCount s) (m_stopping s) (m_autoStop s) (m_rootThread s) (tickles s + 1).

Definition hasIdleThreads (s : Scheduler) : bool := 0 <? m_idleThreadCount s.

Definition scheduleNoLock (fc : FiberOrCb) (thread : Z) (s : Scheduler)
    : bool * Scheduler :=
  let need_tickle := bool_decide (m_fibers s = []) in
  let ft := FiberAndThread_new fc thread in
  (need_tickle, if has_task ft then with_fibers (m_fibers s ++ [ft]) s else s).

Definition schedule (fc : FiberOrCb) (thread : Z) (s : Scheduler) : Scheduler :=
  let '(need_tickle, s) := scheduleNoLock fc thread s in
  if need_tickle then tickle s else s.

(** [schedule(begin, end)]: the callbacks of a range are swapped into the
    entries, which leaves the range empty. *)
Fixpoint schedule_loop (cbs : list callback) (need_tickle : bool) (s : Scheduler)
    : bool * Scheduler :=
  match cbs with
  | [] => (need_tickle, s)
  | c :: cbs =>
      let '(b, s) := scheduleNoLock (fc_cb c) (-1) s in
      schedule_loop cbs (b || need_tickle) s
  end.
Definition schedule_range (cbs : list callback) (s : Scheduler) : Scheduler :=
  let '(need_tickle, s) := schedule_loop cbs false s in
  if need_tickle then tickle s else s.

(** [Scheduler::stopping]. *)
Definition stopping (s : Scheduler) : bool :=
  m_autoStop s && m_stopping s && bool_decide (m_fibers s = []) &&
  (m_activeThreadCount s =? 0).

(** [stop] up to the call of the root fiber: the flags and the tickles.  The
    result is whether [stop] returns at once. [this_is_current] is the test
    [GetThis() == this] in the thread that calls [stop], [root_state] the state
    of the root fiber. *)
Definition stop_flags (this_is_current : bool) (root_state : option State)
    (s : Scheduler) : outcome (bool * Scheduler) :=
  let s := with_flags (m_stopping s) true s in
  let! s :=
    (if negb (m_rootThread s =? 0) && (m_threadCount s =? 0) then
       match root_state with
       | None => Fault NullDeref
       | Some (TERM | INIT) => Ret (with_flags true true s)
       | Some _ => Ret s
       end
     else Ret s) in
  if negb (m_rootThread s =? 0) && (m_threadCount s =? 0) &&
     match root_state with Some (TERM | INIT) => true | _ => false end && stopping s
  then Ret (true, s)
  else if negb (Bool.eqb this_is_current (negb (m_rootThread s =? -1)))
  then Fault AssertFailed
  else
    let s := with_flags true true s in
    let s := Nat.iter (Z.to_nat (m_threadCount s)) tickle s in
    let s := match m_rootFiber s with Some _ => tickle s | None => s end in
    Ret (stopping s, s).

(** The search of [run] for a task the thread [tid] may take: [before] are the
    entries already passed.  The result is the entry taken, [tickle_me] and
    what is left of the queue. *)
Fixpoint search (tid : Z) (fibers : gmap nat Fiber) (before l : list FiberAndThread)
    (tickle_me : bool) : outcome (option FiberAndThread * bool * list FiberAndThread) :=
  match l with
  | [] => Ret (None, tickle_me, before)
  | it :: l' =>
      if negb (thread it =? -1) && negb (thread it =? tid)
      then search tid fibers (before ++ [it]) l' true
      else if negb (has_task it) then Fault AssertFailed
      else match fiber it with
           | None => Ret (Some it, false, before ++ l')
           | Some f =>
               match fibers !! f with
               | None => Fault NullDeref
               | Some F =>
                   if bool_decide (m_state F = EXEC)
                   then search tid fibers (before ++ [it]) l' tickle_me
                   else Ret (Some it, false, before ++ l')
               end
           end
  end.

(** * The program of a worker *)

(** The three kinds of fiber [run] switches to. *)
Inductive kind := KFiber | KCb | KIdle.

(** Why the running fiber is about to leave: a yield, or its end. *)
Inductive leaving := by_yield | by_end.

#[export] Instance kind_eq_dec : EqDecision kind.
Proof. solve_decision. Defined.
#[export] Instance leaving_eq_dec : EqDecision leaving.
Proof. solve_decision. Defined.

Inductive pc :=
| P_start                                  (* before the loop of run *)
| P_search                                 (* the section under the lock *)
| P_tickle                                 (* if (tickle_me) tickle() *)
| P_branch                                 (* the if-else over the task *)
| P_cb                                     (* cb_fiber->reset or new Fiber *)
| P_swapIn (k : kind) (f : nat)
| P_task (k : kind) (f : nat)              (* code of the fiber runs *)
| P_leave (k : kind) (f : nat) (r : leaving) (* its state is set, not yet switched *)
| P_count (k : kind) (f : nat)             (* the counter after swapIn *)
| P_after (k : kind) (f : nat)             (* the tests of the state after swapIn *)
| P_hold (k : kind) (f : nat)              (* m_state = HOLD *)
| P_done.

#[export] Instance pc_eq_dec : EqDecision pc.
Proof. solve_decision. Defined.

(** A worker: its thread id and the local variables of [run]. *)
Record worker := mkWorker {
  th_id : Z;
  th_pc : pc;
  ft : FiberAndThread;
  tickle_me : bool;
  is_active : bool;
  idle_fiber : nat;
  cb_fiber : option nat;
}.

Definition goto (p : pc) (th : worker) : worker :=
  mkWorker (th_id th) p (ft th) (tickle_me th) (is_active th) (idle_fiber th) (cb_fiber th).
Definition goto_ft (p : pc) (e : FiberAndThread) (th : worker) : worker :=
  mkWorker (th_id th) p e (tickle_me th) (is_active th) (idle_fiber th) (cb_fiber th).
Definition goto_cb (p : pc) (c : option nat) (th : worker) : worker :=
  mkWorker (th_id th) p ft_reset (tickle_me th) (is_active th) (idle_fiber th) c.

Record Sys := mkSys {
  world : World;
  sched : Scheduler;
  workers : list worker;
}.

Definition set_worker (i : nat) (th : worker) (s : Sys) : Sys :=
  mkSys (world s) (sched s) (<[i := th]> (workers s)).
Definition with_world (w : World) (s : Sys) : Sys := mkSys w (sched s) (workers s).
Definition with_sched (c : Scheduler) (s : Sys) : Sys := mkSys (world s) c (workers s).

(** A fiber operation inside a step. *)
Definition on_world {A} (c : M World A) (s : Sys) : outcome (A * Sys) :=
  match c (world s) with
  | (Ret a, w) => Ret (a, with_world w s)
  | (Throw e, _) => Throw e
  | (Fault f, _) => Fault f
  end.

Definition state_of (f : nat) (s : Sys) : outcome State :=
  match fibers (world s) !! f with
  | Some F => Ret (m_state F)
  | None => Fault NullDeref
  end.

Definition over (s : State) : bool := bool_decide (s = TERM) || bool_decide (s = EXCEPT).

(** [std::bind(&Scheduler::idle, this)]: a callback of the scheduler itself. *)
Definition idle_cb : callback := UserCb 0.

Section run.
Context (stack_size : Z).

(** [run] before its loop. *)
Definition run_start (i : nat) (th : worker) (s : Sys) : outcome Sys :=
  let! (_, s) := on_world (GetThis i) s in
  let! (_, s) :=
    (if negb (th_id th =? m_rootThread (sched s)) then
       let! (f, s) := on_world (GetThis i) s in
       on_world (set_local i (λ l, mkLocals (t_fiber l) (t_threadFiber l) (Some f)
                                     (t_stack l))) s
     else Ret (tt, s)) in
  let! (idle, s) := on_world (Fiber_new stack_size idle_cb 0 false) s in
  Ret (set_worker i (mkWorker (th_id th) P_search ft_reset false false idle None) s).

(** The section under the lock. *)
Definition run_search (i : nat) (th : worker) (s : Sys) : outcome Sys :=
  let! (found, tick, rest) :=
    search (th_id th) (fibers (world s)) [] (m_fibers (sched s)) false in
  let th' e act :=
    mkWorker (th_id th) P_tickle e tick act (idle_fiber th) (cb_fiber th) in
  match found with
  | Some e =>
      Ret (set_worker i (th' e true)
             (with_sched (add_active 1 (with_fibers rest (sched s))) s))
  | None => Ret (set_worker i (th' ft_reset false) s)
  end.

(** The choice between the task's fiber, its callback and the idle fiber. *)
Definition run_branch (i : nat) (th : worker) (s : Sys) : outcome Sys :=
  let! live :=
    (match fiber (ft th) with
     | None => Ret None
     | Some f => let! st := state_of f s in Ret (if over st then None else Some f)
     end) in
  match live with
  | Some f => Ret (set_worker i (goto (P_swapIn KFiber f) th) s)
  | None =>
      if engaged (cb (ft th)) then Ret (set_worker i (goto P_cb th) s)
      else if is_active th then
        Ret (set_worker i (goto_ft P_search ft_reset th)
               (with_sched (add_active (-1) (sched s)) s))
      else
        let! st := state_of (idle_fiber th) s in
        if bool_decide (st = TERM) then Ret (set_worker i (goto P_done th) s)
        else Ret (set_worker i (goto (P_swapIn KIdle (idle_fiber th)) th)
                    (with_sched (add_idle 1 (sched s)) s))
  end.

(** [cb_fiber->reset(ft.cb)] or [cb_fiber.reset(new Fiber(ft.cb))]. *)
Definition run_cb (i : nat) (th : worker) (s : Sys) : outcome Sys :=
  match cb_fiber th with
  | Some c =>
      let! (_, s) := on_world (reset c (cb (ft th))) s in
      Ret (set_worker i (goto_cb (P_swapIn KCb c) (Some c) th) s)
  | None =>
      let! (c, s) := on_world (Fiber_new stack_size (cb (ft th)) 0 false) s in
      Ret (set_worker i (goto_cb (P_swapIn KCb c) (Some c) th) s)
  end.

(** The tests of the state after [swapIn]. *)
Definition run_after (i : nat) (th : worker) (k : kind) (f : nat) (s : Sys)
    : outcome Sys :=
  let! st := state_of f s in
  let again th := set_worker i th (with_sched (schedule (fc_fiber (Some f)) (-1) (sched s)) s) in
  match k with
  | KFiber =>
      if bool_decide (st = READY) then Ret (again (goto_ft P_search ft_reset th))
      else if over st then Ret (set_worker i (goto_ft P_search ft_reset th) s)
      else Ret (set_worker i (goto (P_hold KFiber f) th) s)
  | KCb =>
      if bool_decide (st = READY) then Ret (again (goto_cb P_search None th))
      else if over st then
        let! (_, s) := on_world (reset f nullptr) s in
        Ret (set_worker i (goto P_search th) s)
      else Ret (set_worker i (goto (P_hold KCb f) th) s)
  | KIdle =>
      if over st then Ret (set_worker i (goto P_search th) s)
      else Ret (set_worker i (goto (P_hold KIdle f) th) s)
  end.

(** One turn of [Scheduler::idle]: leave for good when stopping, else yield. *)
Definition idle (i : nat) (th : worker) (f : nat) (s : Sys) : outcome Sys :=
  if stopping (sched s) then
    let! (_, s) := on_world (complete f returns) s in
    Ret (set_worker i (goto (P_leave KIdle f by_end) th) s)
  else
    let! (_, s) := on_world (set_state f HOLD) s in
    Ret (set_worker i (goto (P_leave KIdle f by_yield) th) s).

(** The next step of worker [i]; [None] when it has none of its own: it runs
    the code of a task, or it has left [run]. *)
Definition run_step (i : nat) (th : worker) (s : Sys) : option (outcome Sys) :=
  match th_pc th with
  | P_start => Some (run_start i th s)
  | P_search => Some (run_search i th s)
  | P_tickle =>
      Some (Ret (set_worker i (goto P_branch th)
              (if tickle_me th then with_sched (tickle (sched s)) s else s)))
  | P_branch => Some (run_branch i th s)
  | P_cb => Some (run_cb i th s)
  | P_swapIn k f =>
      Some (let! (_, s) := on_world (swapIn i f) s in
            Ret (set_worker i (goto (P_task k f) th) s))
  | P_task KIdle f => Some (idle i th f s)
  | P_task _ _ => None
  | P_leave k f by_yield =>
      Some (let! (_, s) := on_world (yield_out i f) s in
            Ret (set_worker i (goto (P_count k f) th) s))
  | P_leave k f by_end =>
      Some (let! (_, s) := on_world (MainFunc_out i f) s in
            Ret (set_worker i (goto (P_count k f) th) s))
  | P_count KIdle f =>
      Some (Ret (set_worker i (goto (P_after KIdle f) th)
              (with_sched (add_idle (-1) (sched s)) s)))
  | P_count k f =>
      Some (Ret (set_worker i (goto (P_after k f) th)
              (with_sched (add_active (-1) (sched s)) s)))
  | P_after k f => Some (run_after i th k f s)
  | P_hold k f =>
      Some (let! (_, s) := on_world (set_state f HOLD) s in
            Ret (set_worker i (match k with
                               | KFiber => goto_ft P_search ft_reset th
                               | KCb => goto_cb P_search None th
                               | KIdle => goto P_search th
                               end) s))
  | P_done => None
  end.

(** What the code of a task does next. *)
Inductive action :=
| A_schedule (fc : FiberOrCb) (thread : Z)
| A_YieldToReady
| A_YieldToHold
| A_finish (r : completion).

(** The state store of a yield or of the end of [MainFunc]; the switch that
    follows is the step at [P_leave]. *)
Definition task_step (i : nat) (th : worker) (a : action) (s : Sys)
    : option (outcome Sys) :=
  match th_pc th with
  | P_task KFiber f | P_task KCb f =>
      let k := match th_pc th with P_task k _ => k | _ => KFiber end in
      match a with
      | A_schedule fc tid => Some (Ret (with_sched (schedule fc tid (sched s)) s))
      | A_YieldToReady =>
          Some (let! (_, s) := on_world (set_state f READY) s in
                Ret (set_worker i (goto (P_leave k f by_yield) th) s))
      | A_YieldToHold =>
          Some (let! (_, s) := on_world (set_state f HOLD) s in
                Ret (set_worker i (goto (P_leave k f by_yield) th) s))
      | A_finish r =>
          Some (let! (_, s) := on_world (complete f r) s in
                Ret (set_worker i (goto (P_leave k f by_end) th) s))
      end
  | _ => None
  end.

(** * Construction, start and stop *)

(** [std::bind(&Scheduler::run, this)]. *)
Definition run_callback : callback := UserCb 1.

(** [Scheduler::Scheduler] called by the thread [caller], whose id is [id];
    [current] is whether this thread already has a scheduler. *)
Definition Scheduler_new (caller : nat) (id : Z) (current : bool) (threads : Z)
    (use_caller : bool) (w : World) : outcome Sys :=
  if negb (0 <? threads) then Fault AssertFailed
  else
    let s := mkSys w (mkScheduler [] [] None threads 0 0 true false (-1) 0) [] in
    if use_caller then
      let! (_, s) := on_world (GetThis caller) s in
      if current then Fault AssertFailed
      else
        let! (root, s) := on_world (Fiber_new stack_size run_callback 0 true) s in
        let! (_, s) :=
          on_world (set_local caller (λ l, mkLocals (t_fiber l) (t_threadFiber l)
                                             (Some root) (t_stack l))) s in
        Ret (with_sched (mkScheduler [] [] (Some root) (threads - 1) 0 0 true false id 0) s)
    else Ret s.

Definition new_worker (id : Z) : worker := mkWorker id P_start ft_reset false false 0 None.

(** [start]; [ids] are the ids of the threads it creates. *)
Definition start (ids : list Z) (s : Sys) : outcome Sys :=
  let c := sched s in
  if negb (m_stopping c) then Ret s
  else if negb (bool_decide (m_threads c = [])) then Fault AssertFailed
  else
    Ret (mkSys (world s)
           (mkScheduler ids (m_fibers c) (m_rootFiber c) (m_threadCount c)
              (m_activeThreadCount c) (m_idleThreadCount c) false (m_autoStop c)
              (m_rootThread c) (tickles c))
           (workers s ++ (new_worker <$> ids))).

(** [stop] up to [join]: the caller runs the root fiber as one more worker. *)
Definition stop (this_is_current : bool) (s : Sys) : outcome Sys :=
  let root_state := f ← m_rootFiber (sched s); m_state <$> fibers (world s) !! f in
  let! (returns_at_once, c) := stop_flags this_is_current root_state (sched s) in
  let s := with_sched c s in
  if returns_at_once then Ret s
  else match m_rootFiber c with
       | None => Ret s
       | Some root =>
           let! (_, s) := on_world (call (length (workers s)) root) s in
           Ret (mkSys (world s) (sched s) (workers s ++ [new_worker (m_rootThread c)]))
       end.

(** * The machine *)

Inductive label :=
| L_run (i : nat)
| L_task (i : nat) (a : action)
| L_schedule (fc : FiberOrCb) (thread : Z) (* a call from outside the workers *)
| L_new_fiber (c : callback)             (* someone creates a fiber *)
| L_stop (this_is_current : bool).       (* not while stop runs the root fiber *)

Definition exec (l : label) (s : Sys) : option (outcome Sys) :=
  match l with
  | L_run i => th ← workers s !! i; run_step i th s
  | L_task i a => th ← workers s !! i; task_step i th a s
  | L_schedule fc tid => Some (Ret (with_sched (schedule fc tid (sched s)) s))
  | L_new_fiber c => Some (let! (_, s) := on_world (Fiber_new stack_size c 0 false) s in Ret s)
  | L_stop cur =>
      if decide (length (workers s) = length (m_threads (sched s)))
      then Some (stop cur s) else None
  end.

Fixpoint exec_all (ls : list label) (s : Sys) : option (outcome Sys) :=
  match ls with
  | [] => Some (Ret s)
  | l :: ls =>
      match exec l s with
      | Some (Ret s') => exec_all ls s'
      | r => r
      end
  end.
End run.

(** A scheduler constructed and started: the pool threads have the ids [ids];
    the thread that constructs it comes after them. *)
Definition boot (stack_size : Z) (use_caller : bool) (id : Z) (ids : list Z) : outcome Sys :=
  let threads := if use_caller then Zlen ids + 1 else Zlen ids in
  let! s := Scheduler_new stack_size (length ids) id false threads use_caller world0 in
  start ids s.

Inductive reachable (stack_size : Z) (use_caller : bool) (id : Z) (ids : list Z)
    : Sys → Prop :=
| reachable_boot s :
    boot stack_size use_caller id ids = Ret s → reachable stack_size use_caller id ids s
| reachable_step s l s' :
    reachable stack_size use_caller id ids s → exec stack_size l s = Some (Ret s') →
    reachable stack_size use_caller id ids s'.
