(* ===== verification/SchedulerTheorems.v ===== *)
(** Correctness of the scheduler, for any interleaving of its workers.

    The counters of busy and idle threads are exact, so [stopping] holds only
    when nothing is queued and no worker holds a task; every callback that is
    scheduled is started exactly once; a task bound to a thread is taken by
    that thread only.  A fiber that yields to HOLD can be resumed by another
    worker before it has left its stack. *)

From S2P Require Import FiberTheorems.
From S2P Require Import Prelude Fiber Scheduler.

(** * The workers' invariant *)

(** The worker took a task from the queue and has not counted itself out. *)
Definition holds_task (th : worker) : bool :=
  match th_pc th with
  | P_tickle | P_branch => is_active th
  | P_cb => true
  | P_swapIn k _ | P_task k _ | P_leave k _ _ | P_count k _ => negb (bool_decide (k = KIdle))
  | _ => false
  end.

(** The worker is in its idle fiber. *)
Definition is_idle (th : worker) : bool :=
  match th_pc th with
  | P_swapIn k _ | P_task k _ | P_leave k _ _ | P_count k _ => bool_decide (k = KIdle)
  | _ => false
  end.

(** The local variables of [run] agree with the program counter, and a task in
    hand may run in this thread. *)
Definition wf_worker (th : worker) : Prop :=
  (thread (ft th) = -1 ∨ thread (ft th) = th_id th) ∧
  match th_pc th with
  | P_tickle | P_branch => is_active th = false → ft th = ft_reset
  | P_cb => engaged (cb (ft th)) = true
  | _ => True
  end.

Record Inv (s : Sys) : Prop := {
  inv_active : m_activeThreadCount (sched s) = count holds_task (workers s);
  inv_idle : m_idleThreadCount (sched s) = count is_idle (workers s);
  inv_wf : Forall wf_worker (workers s);
  inv_len : Zlen (workers s) ≤ Zlen (m_threads (sched s)) + 1;
}.

(** ** The search *)

(** Whether [run] in thread [tid] passes over an entry. *)
Definition skips (tid : Z) (fibers : gmap nat Fiber) (e : FiberAndThread) : bool :=
  (negb (thread e =? -1) && negb (thread e =? tid)) ||
  match fiber e with
  | Some f => match fibers !! f with Some F => bool_decide (m_state F = EXEC) | None => false end
  | None => false
  end.

Lemma search_spec tid fibers before l b r :
  search tid fibers before l b = Ret r →
  match r with
  | (Some e, tick, rest) =>
      ∃ l1 l2, l = l1 ++ e :: l2 ∧ rest = before ++ l1 ++ l2 ∧ tick = false ∧
        Forall (λ x, skips tid fibers x = true) l1 ∧ skips tid fibers e = false ∧
        has_task e = true
  | (None, tick, rest) =>
      rest = before ++ l ∧ Forall (λ x, skips tid fibers x = true) l
  end.
Proof.
  revert before b. induction l as [|it l IH]; intros before b; simpl.
  { intros [= <-]. rewrite app_nil_r. by repeat constructor. }
  destruct (negb (thread it =? -1) && negb (thread it =? tid)) eqn:Eth;
    [|destruct (has_task it) eqn:Et; simpl; [|done];
      destruct (fiber it) as [f|] eqn:Ef;
      [destruct (fibers !! f) as [F|] eqn:EF; [|done];
       destruct (bool_decide (m_state F = EXEC)) eqn:Es|]].
  all: assert (skips tid fibers it = _) as Hsk by
    (unfold skips; rewrite Eth, ?Ef, ?EF, ?Es; reflexivity); simpl in Hsk.
  1,2: intros H; apply IH in H; clear IH; destruct r as [[[e|] tick] rest];
    [ destruct H as (l1 & l2 & -> & -> & -> & ? & ? & ?); exists (it :: l1), l2;
      rewrite <- (assoc_L (++)); repeat split; auto
    | destruct H as [-> ?]; rewrite <- (assoc_L (++)); auto ].
  all: intros [= <-]; exists [], l; by repeat split.
Qed.

Lemma skips_thread tid fibers e :
  skips tid fibers e = false → thread e = -1 ∨ thread e = tid.
Proof.
  unfold skips. intros H. destruct (Z.eqb_spec (thread e) (-1)); [by left|].
  destruct (Z.eqb_spec (thread e) tid); [by right|done].
Qed.

(** ** One step *)

Lemma obind_Ret {A B} (c : outcome A) (k : A → outcome B) b :
  obind c k = Ret b → ∃ a, c = Ret a ∧ k a = Ret b.
Proof. destruct c; simpl; naive_solver. Qed.

(** A fiber operation leaves the queue, the counters and the workers alone. *)
Lemma on_world_frame {A} (c : M World A) s a s' :
  on_world c s = Ret (a, s') → ∃ w, s' = with_world w s.
Proof. unfold on_world. destruct (c (world s)) as [[] w]; naive_solver. Qed.

(** Inverts a successful step: one goal per path through the code. *)
Ltac step_inv :=
  repeat match goal with
    | H : Some _ = Some _ |- _ => injection H as H
    | H : Ret _ = Ret _ |- _ => injection H as H; try subst
    | H : (_, _) = (_, _) |- _ => injection H as ? ?; subst
    | H : obind _ _ = Ret _ |- _ => apply obind_Ret in H as (? & ? & H)
    | H : on_world _ _ = Ret (_, _) |- _ => apply on_world_frame in H as [? ->]
    | H : on_world _ _ = Ret ?p |- _ => is_var p; destruct p
    | H : context [match ?x with _ => _ end] |- _ =>
        lazymatch type of H with
        | _ = Ret _ => destruct x eqn:?
        | _ = Some (Ret _) => destruct x eqn:?
        end; try discriminate H
    | H : context [if ?x then _ else _] |- _ =>
        lazymatch type of H with
        | _ = Ret _ => destruct x eqn:?
        | _ = Some _ => destruct x eqn:?
        end; try discriminate H
    end.

Lemma schedule_frame fc tid c :
  m_activeThreadCount (schedule fc tid c) = m_activeThreadCount c ∧
  m_idleThreadCount (schedule fc tid c) = m_idleThreadCount c ∧
  m_threads (schedule fc tid c) = m_threads c.
Proof. unfold schedule, scheduleNoLock. by destruct (has_task _), (bool_decide _). Qed.

Lemma tickles_frame n c :
  m_activeThreadCount (Nat.iter n tickle c) = m_activeThreadCount c ∧
  m_idleThreadCount (Nat.iter n tickle c) = m_idleThreadCount c ∧
  m_threads (Nat.iter n tickle c) = m_threads c ∧
  m_fibers (Nat.iter n tickle c) = m_fibers c ∧
  m_rootFiber (Nat.iter n tickle c) = m_rootFiber c.
Proof. by induction n. Qed.

Lemma stop_flags_frame cur r c b c' :
  stop_flags cur r c = Ret (b, c') →
  m_activeThreadCount c' = m_activeThreadCount c ∧
  m_idleThreadCount c' = m_idleThreadCount c ∧ m_threads c' = m_threads c ∧
  m_fibers c' = m_fibers c.
Proof.
  unfold stop_flags. intros H. apply obind_Ret in H as (c1 & H1 & H2).
  assert (m_activeThreadCount c1 = m_activeThreadCount c ∧
    m_idleThreadCount c1 = m_idleThreadCount c ∧ m_threads c1 = m_threads c ∧
    m_fibers c1 = m_fibers c) as (<- & <- & <- & <-) by (repeat case_match; by simplify_eq).
  clear H1. case_match; [by simplify_eq|]. case_match; [done|]. injection H2 as _ <-.
  destruct (tickles_frame (Z.to_nat (m_threadCount c1)) (with_flags true true c1))
    as (? & ? & ? & ? & ?). by destruct (m_rootFiber (Nat.iter _ _ _)).
Qed.

(** Moving worker [i] with the counters moved accordingly. *)
Lemma Inv_move i th th' s c' :
  Inv s → Zlen (m_threads (sched s)) + 1 < 2 ^ 64 → workers s !! i = Some th →
  wf_worker th' → m_threads c' = m_threads (sched s) →
  m_activeThreadCount c' =
    u64 (m_activeThreadCount (sched s) - Z.b2z (holds_task th) + Z.b2z (holds_task th')) →
  m_idleThreadCount c' =
    u64 (m_idleThreadCount (sched s) - Z.b2z (is_idle th) + Z.b2z (is_idle th')) →
  ∀ w, Inv (mkSys w c' (<[i := th']> (workers s))).
Proof.
  intros [Ha Hi Hw Hl] Hb Hth Hwf Ht Ha' Hi' w.
  assert (Zlen (<[i := th']> (workers s)) = Zlen (workers s)) as Hlen
    by (unfold Zlen; by rewrite length_insert).
  pose proof (count_bound holds_task (<[i := th']> (workers s))) as Hb1.
  pose proof (count_bound is_idle (<[i := th']> (workers s))) as Hb2.
  split; cbn [sched workers].
  - rewrite Ha', Ha. rewrite (count_insert _ _ _ _ _ Hth) in *. apply u64_small. lia.
  - rewrite Hi', Hi. rewrite (count_insert _ _ _ _ _ Hth) in *. apply u64_small. lia.
  - by apply Forall_insert.
  - rewrite Hlen, Ht. done.
Qed.

Lemma Inv_range s :
  Inv s → Zlen (m_threads (sched s)) + 1 < 2 ^ 64 →
  0 ≤ m_activeThreadCount (sched s) < 2 ^ 64 ∧ 0 ≤ m_idleThreadCount (sched s) < 2 ^ 64.
Proof.
  intros [-> -> _ Hl] Hb. pose proof (count_bound holds_task (workers s)).
  pose proof (count_bound is_idle (workers s)). lia.
Qed.

(** Only the counters, the size of the pool and the workers matter. *)
Lemma Inv_frame s s' :
  Inv s → workers s' = workers s →
  m_activeThreadCount (sched s') = m_activeThreadCount (sched s) →
  m_idleThreadCount (sched s') = m_idleThreadCount (sched s) →
  m_threads (sched s') = m_threads (sched s) → Inv s'.
Proof. intros [? ? ? ?] Hw Ha Hi Ht. split; rewrite ?Hw, ?Ha, ?Hi, ?Ht; done. Qed.

(** Closes the side conditions of [Inv_move]. *)
Ltac counts :=
  unfold holds_task, is_idle;
  repeat match goal with H : th_pc _ = _ |- _ => rewrite H end;
  repeat match goal with H : is_active _ = _ |- _ => rewrite H end;
  cbn [th_pc is_active goto goto_ft goto_cb sched with_sched with_world with_fibers
       add_active add_idle m_activeThreadCount m_idleThreadCount negb tickle workers
       set_worker];
  rewrite ?bool_decide_true, ?bool_decide_false by done; cbn [negb Z.b2z];
  first [ reflexivity
        | rewrite u64_small by lia; lia
        | f_equal; lia ].

Section step.
Context (stack_size : Z) (i : nat) (th : worker) (s s' : Sys).
Context (HI : Inv s) (Hb : Zlen (m_threads (sched s)) + 1 < 2 ^ 64).
Context (Hth : workers s !! i = Some th).

Definition ok (s' : Sys) : Prop := Inv s' ∧ m_threads (sched s') = m_threads (sched s).

Lemma wf_th : wf_worker th.
Proof using HI Hth. by apply (Forall_lookup_1 _ _ _ _ (inv_wf s HI) Hth). Qed.

Local Ltac moved :=
  destruct (Inv_range s HI Hb); pose proof wf_th as [? ?];
  repeat match goal with H : th_pc th = _ |- _ => rewrite H in * end;
  split; [|done]; eapply (Inv_move i th _ s); [done..| |done|counts|counts].

Lemma start_ok : th_pc th = P_start → run_start stack_size i th s = Ret s' → ok s'.
Proof using HI Hb Hth.
  intros Hpc H. unfold run_start in H. step_inv; moved; split; simpl; auto.
Qed.

Lemma search_ok : th_pc th = P_search → run_search i th s = Ret s' → ok s'.
Proof using HI Hb Hth.
  intros Hpc H. unfold run_search in H. step_inv.
  - match goal with H : search _ _ _ _ _ = _ |- _ =>
      apply search_spec in H as (l1 & l2 & _ & _ & _ & _ & ?%skips_thread & _) end.
    moved. by split.
  - moved. split; simpl; auto.
Qed.

Lemma branch_ok : th_pc th = P_branch → run_branch i th s = Ret s' → ok s'.
Proof using HI Hb Hth.
  intros Hpc H. unfold run_branch in H.
  destruct (is_active th) eqn:Hact.
  - step_inv; moved; try (split; simpl; auto).
  - destruct wf_th as [_ Hr]. rewrite Hpc in Hr. specialize (Hr Hact).
    rewrite Hr in H. simpl in H. step_inv; moved; split; simpl; auto.
Qed.

Lemma cb_ok : th_pc th = P_cb → run_cb stack_size i th s = Ret s' → ok s'.
Proof using HI Hb Hth.
  intros Hpc H. unfold run_cb in H. step_inv; moved; split; simpl; auto.
Qed.

Lemma after_ok k f : th_pc th = P_after k f → run_after i th k f s = Ret s' → ok s'.
Proof using HI Hb Hth.
  intros Hpc H. unfold run_after in H.
  destruct (schedule_frame (fc_fiber (Some f)) (-1) (sched s)) as (Ea & Ei & Et).
  step_inv; destruct (Inv_range s HI Hb); pose proof wf_th as [? ?];
  (split; [eapply (Inv_move i th _ s); [done..| | | |]|done]); try done;
    try (split; simpl; auto);
    cbn [sched with_sched]; rewrite ?Ea, ?Ei; counts.
Qed.

Lemma idle_ok f : th_pc th = P_task KIdle f → idle i th f s = Ret s' → ok s'.
Proof using HI Hb Hth.
  intros Hpc H. unfold idle in H. step_inv; moved; split; simpl; auto.
Qed.

Lemma run_step_ok : run_step stack_size i th s = Some (Ret s') → ok s'.
Proof using HI Hb Hth.
  unfold run_step. destruct (th_pc th) as [| | | | |k f|[] f|k f []|[] f|k f|k f|] eqn:Hpc;
    intros H; try discriminate H; injection H as H.
  1,2,4,5,7,13: by eauto using start_ok, search_ok, branch_ok, cb_ok, idle_ok, after_ok.
  all: try destruct (tickle_me th); try destruct k; step_inv;
    try subst s'; moved; split; simpl; auto.
Qed.

Lemma task_step_ok a : task_step i th a s = Some (Ret s') → ok s'.
Proof using HI Hb Hth.
  unfold task_step. destruct (th_pc th) as [| | | | |k f|[] f|k f r|k f|k f|k f|] eqn:Hpc;
    try done; destruct a as [fc tid| | |r]; intros H; injection H as H; step_inv; try subst s';
    try (moved; by split; simpl; auto).
  all: destruct (schedule_frame fc tid (sched s)) as (? & ? & ?); split; [|done];
    by apply (Inv_frame s).
Qed.
End step.

Lemma stop_ok cur s s' :
  Inv s → length (workers s) = length (m_threads (sched s)) →
  stop cur s = Ret s' → ok s s'.
Proof.
  intros [Ha Hi Hw Hl] Hlen H. unfold stop in H. apply obind_Ret in H as ([b c] & Hf & H).
  apply stop_flags_frame in Hf as (Ea & Ei & Et & _).
  assert (Inv (with_sched c s)) as HI' by (split; simpl; rewrite ?Ea, ?Ei, ?Et; done).
  step_inv; try (by split).
  split; [|done]. split; simpl; rewrite ?Et, ?count_app, ?Zlen_app; cbn [new_worker].
  - rewrite Ea, Ha. rewrite count_cons, count_nil. simpl. lia.
  - rewrite Ei, Hi. rewrite count_cons, count_nil. simpl. lia.
  - apply Forall_app. split; [done|]. by repeat constructor.
  - unfold Zlen. simpl. lia.
Qed.

Lemma exec_ok stack_size l s s' :
  Inv s → Zlen (m_threads (sched s)) + 1 < 2 ^ 64 →
  exec stack_size l s = Some (Ret s') → ok s s'.
Proof.
  intros HI Hb. destruct l as [i|i a|fc tid|c|cur]; simpl.
  - destruct (workers s !! i) as [th|] eqn:Hth; [|done]. simpl. by eapply run_step_ok.
  - destruct (workers s !! i) as [th|] eqn:Hth; [|done]. simpl. by eapply task_step_ok.
  - intros [= <-]. destruct (schedule_frame fc tid (sched s)) as (? & ? & ?).
    split; [|done]. by apply (Inv_frame s).
  - intros H. injection H as H. step_inv. split; [|done]. by apply (Inv_frame s).
  - destruct (decide _); [|done]. intros H. injection H as H. by eapply stop_ok.
Qed.

Lemma new_workers_idle ids :
  count holds_task (new_worker <$> ids) = 0 ∧ count is_idle (new_worker <$> ids) = 0 ∧
  Forall wf_worker (new_worker <$> ids).
Proof.
  induction ids as [|id ids (IH1 & IH2 & IH3)]; [by repeat constructor|].
  cbn [fmap list_fmap]. rewrite !count_cons. simpl. split_and!; [done..|].
  constructor; [|done]. split; [by left|done].
Qed.

Lemma boot_ok stack_size use_caller id ids s :
  boot stack_size use_caller id ids = Ret s → Inv s ∧ m_threads (sched s) = ids.
Proof.
  unfold boot. intros H. apply obind_Ret in H as (s0 & H0 & H). unfold start in H.
  assert (workers s0 = [] ∧ m_threads (sched s0) = [] ∧ m_stopping (sched s0) = true ∧
          m_activeThreadCount (sched s0) = 0 ∧ m_idleThreadCount (sched s0) = 0)
    as (Hw & Ht & Hs & Ha & Hi).
  { unfold Scheduler_new in H0. destruct (negb _); [done|]. step_inv; by subst. }
  rewrite Hw, Ht, Hs, Ha, Hi in H. simpl in H. injection H as <-.
  destruct (new_workers_idle ids) as (H1 & H2 & H3). split; [|done].
  split; simpl; [done..|]. unfold Zlen. rewrite length_fmap. lia.
Qed.

Lemma reachable_Inv stack_size use_caller id ids s :
  Zlen ids + 1 < 2 ^ 64 → reachable stack_size use_caller id ids s →
  Inv s ∧ m_threads (sched s) = ids.
Proof.
  intros Hb. induction 1 as [s Hs|s l s' _ [HI Ht] He]; [by eapply boot_ok|].
  destruct (exec_ok stack_size l s s' HI) as [? E]; [by rewrite Ht|done|].
  split; [done|]. by rewrite E.
Qed.

(** * Every callback is started exactly once *)

Definition cbs_of (e : FiberAndThread) : list callback :=
  if engaged (cb e) then [cb e] else [].

(** The callback a worker took and has not started. *)
Definition in_hand (th : worker) : list callback :=
  match th_pc th with
  | P_tickle | P_branch | P_cb => cbs_of (ft th)
  | _ => []
  end.

Definition queued (c : Scheduler) : list callback := concat (cbs_of <$> m_fibers c).

(** The callbacks scheduled and not yet started. *)
Definition pending (s : Sys) : list callback :=
  queued (sched s) ++ concat (in_hand <$> workers s).

(** The callbacks a step schedules, and the one it starts. *)
Definition submitted (l : label) : list callback :=
  match l with
  | L_schedule fc _ | L_task _ (A_schedule fc _) => cbs_of (FiberAndThread_new fc (-1))
  | _ => []
  end.

(** The callback of the fiber worker [i] is about to switch to, when that fiber
    is in its initial state and its context is the start of [MainFunc], which
    calls what [m_cb] holds. *)
Definition prepared (i : nat) (s : Sys) : list callback :=
  match workers s !! i with
  | Some th =>
      match th_pc th with
      | P_swapIn KCb f =>
          match fibers (world s) !! f with
          | Some F =>
              if bool_decide (m_state F = INIT) && bool_decide (m_ctx F = ctx_MainFunc f)
              then [m_cb F] else []
          | None => []
          end
      | _ => []
      end
  | None => []
  end.

(** A callback is started by the step, from [s] to [s'], that puts it into such
    a fiber. *)
Definition started (l : label) (s s' : Sys) : list callback :=
  match l with
  | L_run i =>
      match workers s !! i with
      | Some th => if bool_decide (th_pc th = P_cb) then prepared i s' else []
      | None => []
      end
  | _ => []
  end.

(** Entries hold a fiber or a callback, not both. *)
Definition wf_entry (e : FiberAndThread) : Prop := is_Some (fiber e) → cb e = nullptr.

Definition entries_ok (s : Sys) : Prop :=
  Forall wf_entry (m_fibers (sched s)) ∧ Forall (λ th, wf_entry (ft th)) (workers s).

Lemma concat_insert {A} (ls : list (list A)) i x y :
  ls !! i = Some x → concat (<[i := y]> ls) ++ x ≡ₚ concat ls ++ y.
Proof.
  revert i. induction ls as [|l ls IH]; intros [|i] Hi; simplify_eq/=.
  - solve_Permutation.
  - rewrite <- !(assoc_L (++)), (IH i) by done. done.
Qed.

Lemma new_entry_wf fc tid : wf_entry (FiberAndThread_new fc tid).
Proof. by destruct fc as [[]|]; intros [? ?]. Qed.

Lemma queued_schedule fc tid c :
  queued (schedule fc tid c) = queued c ++ cbs_of (FiberAndThread_new fc (-1)).
Proof.
  unfold queued, schedule, scheduleNoLock.
  assert (cbs_of (FiberAndThread_new fc tid) = cbs_of (FiberAndThread_new fc (-1))) as <-
    by (by destruct fc).
  destruct (has_task _) eqn:E.
  - destruct (bool_decide _); cbn [m_fibers with_fibers tickle];
      rewrite fmap_app, concat_app; simpl; by rewrite app_nil_r.
  - unfold has_task in E. apply orb_false_iff in E as [_ E]. 
    assert (cbs_of (FiberAndThread_new fc tid) = []) as -> by (unfold cbs_of; by rewrite E).
    destruct (bool_decide _); simpl; by rewrite app_nil_r.
Qed.

Lemma entries_schedule fc tid c :
  Forall wf_entry (m_fibers c) → Forall wf_entry (m_fibers (schedule fc tid c)).
Proof.
  intros H. unfold schedule, scheduleNoLock.
  destruct (has_task _), (bool_decide _); simpl; try done;
    apply Forall_app; (split; [done|]); constructor; auto using new_entry_wf.
Qed.

(** Worker [i] moves and the queue changes by as much. *)
Lemma pending_move i th th' s c' out :
  workers s !! i = Some th → entries_ok s → wf_entry (ft th') →
  Forall wf_entry (m_fibers c') →
  queued c' ++ in_hand th' ++ out ≡ₚ queued (sched s) ++ in_hand th →
  ∀ w, let s' := mkSys w c' (<[i := th']> (workers s)) in
  entries_ok s' ∧ pending s' ++ out ≡ₚ pending s.
Proof.
  intros Hth [_ He] Hwf Hq Hp w. split.
  - split; [done|]. by apply Forall_insert.
  - unfold pending. cbn [sched workers]. rewrite list_fmap_insert.
    assert ((in_hand <$> workers s) !! i = Some (in_hand th)) as Hi
      by (by rewrite list_lookup_fmap, Hth).
    pose proof (concat_insert _ _ _ (in_hand th') Hi) as Hc.
    apply (Permutation_app_inv_r (in_hand th)).
    transitivity ((queued c' ++ out) ++
                  (concat (<[i := in_hand th']> (in_hand <$> workers s)) ++ in_hand th));
      [solve_Permutation|]. rewrite Hc.
    transitivity ((queued c' ++ in_hand th' ++ out) ++ concat (in_hand <$> workers s));
      [solve_Permutation|]. rewrite Hp. solve_Permutation.
Qed.

(** What [reset] and the constructor leave in the heap. *)
Definition is_ready (f : nat) (c : callback) (w : World) : Prop :=
  ∃ F, fibers w !! f = Some F ∧ m_cb F = c ∧ m_state F = INIT ∧ m_ctx F = ctx_MainFunc f.

Lemma reset_ready f c w w' : reset f c w = (Ret tt, w') → is_ready f c w'.
Proof.
  unfold reset, set_state, modify_fiber, mbnd, deref, assert, get, put, ret, fail.
  destruct (fibers w !! f) as [F|] eqn:EF; [|done]. destruct (m_stack F); [|done].
  destruct (ended (m_state F)); [|done]. rewrite EF. cbn [fibers upd_fibers].
  rewrite lookup_insert_eq. cbn [fibers upd_fibers]. rewrite lookup_insert_eq. intros [= <-].
  eexists. cbn [fibers upd_fibers]. by rewrite lookup_insert_eq.
Qed.

Lemma new_ready size c w f w' : Fiber_new size c 0 false w = (Ret f, w') → is_ready f c w'.
Proof.
  unfold Fiber_new, modify_fiber, mbnd, alloc, fresh_id, count_fibers, deref, get, put, ret.
  cbn [fibers next_ptr]. rewrite lookup_insert_eq. intros [= <- <-].
  eexists. cbn [fibers upd_fibers]. by rewrite lookup_insert_eq.
Qed.

Section conserve.
Context (stack_size : Z) (i : nat) (th : worker) (s s' : Sys).
Context (Hth : workers s !! i = Some th) (He : entries_ok s) (Hwf : wf_worker th).

Definition conserves (out : list callback) (s' : Sys) : Prop :=
  entries_ok s' ∧ pending s' ++ out ≡ₚ pending s.

Lemma entry_th : wf_entry (ft th).
Proof using Hth He. by apply (Forall_lookup_1 _ _ _ _ (proj2 He) Hth). Qed.

Local Ltac hand :=
  unfold in_hand;
  repeat match goal with H : th_pc th = _ |- _ => rewrite H end;
  cbn [th_pc ft goto goto_ft goto_cb]; rewrite ?app_nil_r.

Local Ltac moved out :=
  pose proof entry_th; destruct He;
  eapply (pending_move i th _ s _ out);
  [done|done|first [done | by intros [? ?]]|done|hand].

Lemma start_conserves :
  th_pc th = P_start → run_start stack_size i th s = Ret s' → conserves [] s'.
Proof using Hth He.
  intros Hpc H. unfold run_start in H. step_inv; by moved (@nil callback).
Qed.

Lemma search_conserves :
  th_pc th = P_search → run_search i th s = Ret s' → conserves [] s'.
Proof using Hth He.
  intros Hpc H. unfold run_search in H. step_inv.
  - match goal with H : search _ _ _ _ _ = _ |- _ =>
      apply search_spec in H as (l1 & l2 & El & -> & _ & _ & _ & _) end.
    pose proof He as [Hq _]. rewrite El in Hq. apply Forall_app in Hq as [? [? ?]%Forall_cons].
    eapply (pending_move i th _ s _ []); [done..|simpl; by apply Forall_app|].
    hand. unfold queued. cbn [sched with_sched m_fibers add_active with_fibers app].
    rewrite El, !fmap_app, !concat_app. simpl. solve_Permutation.
  - by moved (@nil callback).
Qed.

Lemma branch_conserves :
  th_pc th = P_branch → run_branch i th s = Ret s' → conserves [] s'.
Proof using Hth He.
  intros Hpc H. unfold run_branch in H. pose proof entry_th as Hent.
  assert (engaged (cb (ft th)) = false → cbs_of (ft th) = []) as Hno
    by (unfold cbs_of; by intros ->).
  assert (is_Some (fiber (ft th)) → cbs_of (ft th) = []) as Hf
    by (intros Ef; unfold cbs_of; by rewrite Hent).
  step_inv; moved (@nil callback);
    first [ done | rewrite Hf by eauto; by rewrite app_nil_r
          | rewrite Hno by done; by rewrite app_nil_r ].
Qed.

Lemma cb_conserves :
  th_pc th = P_cb → run_cb stack_size i th s = Ret s' → conserves [cb (ft th)] s'.
Proof using Hth He Hwf.
  intros Hpc H. destruct Hwf as [_ Hc]. rewrite Hpc in Hc.
  unfold run_cb in H. step_inv; moved [cb (ft th)]; unfold cbs_of; by rewrite Hc.
Qed.

Lemma after_conserves k f :
  th_pc th = P_after k f → run_after i th k f s = Ret s' → conserves [] s'.
Proof using Hth He.
  intros Hpc H. unfold run_after in H. pose proof He as [Hq _].
  pose proof (entries_schedule (fc_fiber (Some f)) (-1) _ Hq) as Hq'.
  step_inv; moved (@nil callback); cbn [sched with_sched];
    rewrite ?queued_schedule; simpl; by rewrite ?app_nil_r.
Qed.

(** The fiber that [run_cb] made ready holds the callback. *)
Lemma cb_prepared :
  run_cb stack_size i th s = Ret s' → prepared i s' = [cb (ft th)].
Proof using Hth.
  assert (i < length (workers s))%nat as Hi by (by apply lookup_lt_Some in Hth).
  unfold run_cb, prepared. destruct (cb_fiber th) as [c|]; intros H;
    apply obind_Ret in H as ([u s1] & Ho & H); injection H as <-; unfold on_world in Ho.
  - destruct (reset c (cb (ft th)) (world s)) as [[[]| |] w] eqn:E; try done. injection Ho as _ <-.
    cbn [workers set_worker with_world world]. rewrite list_lookup_insert_eq by done. cbn [th_pc goto_cb].
    apply reset_ready in E as (F & -> & HF & HS & HC). rewrite HF, HS, HC.
    by rewrite !bool_decide_eq_true_2 by done.
  - destruct (Fiber_new stack_size (cb (ft th)) 0 false (world s)) as [[f| |] w] eqn:E; try done.
    injection Ho as -> <-. cbn [workers set_worker with_world world].
    rewrite list_lookup_insert_eq by done. cbn [th_pc goto_cb].
    apply new_ready in E as (F & -> & HF & HS & HC). rewrite HF, HS, HC.
    by rewrite !bool_decide_eq_true_2 by done.
Qed.

Lemma run_step_conserves :
  run_step stack_size i th s = Some (Ret s') →
  conserves (if bool_decide (th_pc th = P_cb) then prepared i s' else []) s'.
Proof using Hth He Hwf.
  unfold run_step. destruct (th_pc th) as [| | | | |k f|[] f|k f []|[] f|k f|k f|] eqn:Hpc;
    intros H; try discriminate H; injection H as H;
    first [rewrite bool_decide_true by done | rewrite bool_decide_false by done]; cbv iota;
    try rewrite (cb_prepared H).
  1,2,4,5,13: by eauto using start_conserves, search_conserves, branch_conserves,
    cb_conserves, after_conserves.
  all: try destruct (tickle_me th); try destruct k; unfold idle in *; step_inv; try subst s';
    by moved (@nil callback).
Qed.

Lemma leave_conserves k k' f r w :
  th_pc th = P_task k f →
  let s1 := set_worker i (goto (P_leave k' f r) th) (with_world w s) in
  entries_ok s1 ∧ pending s1 ≡ₚ pending s ++ [].
Proof using Hth He.
  intros Hpc s1. rewrite <- (app_nil_r (pending s1)), (app_nil_r (pending s)).
  by moved (@nil callback).
Qed.

Lemma task_step_conserves a :
  task_step i th a s = Some (Ret s') →
  entries_ok s' ∧ pending s' ≡ₚ pending s ++ submitted (L_task i a).
Proof using Hth He.
  pose proof He as [Hq Hw].
  unfold task_step. destruct (th_pc th) as [| | | | |k f|[] f|k f r|k f|k f|k f|] eqn:Hpc;
    try done; destruct a as [fc tid| | |r]; intros H; injection H as H; step_inv; try subst s'.
  1,5: split; [split; [by apply entries_schedule|done]|];
    unfold pending; cbn [sched with_sched workers]; rewrite queued_schedule;
    cbn [submitted]; solve_Permutation.
  all: by eapply leave_conserves.
Qed.
End conserve.

Lemma exec_conserves stack_size l s s' :
  Inv s → entries_ok s → exec stack_size l s = Some (Ret s') →
  entries_ok s' ∧ pending s' ++ started l s s' ≡ₚ pending s ++ submitted l.
Proof.
  intros HI He. pose proof He as [Hq Hw]. destruct l as [i|i a|fc tid|c|cur];
    cbn [exec started].
  - destruct (workers s !! i) as [th|] eqn:Hth; [|done]. cbn [mbind option_bind].
    pose proof (Forall_lookup_1 _ _ _ _ (inv_wf s HI) Hth). intros H1.
    eapply run_step_conserves in H1 as [? ?]; [|done..]. cbn [submitted].
    by rewrite app_nil_r.
  - destruct (workers s !! i) as [th|] eqn:Hth; [|done]. cbn [mbind option_bind]. intros H1.
    eapply task_step_conserves in H1 as [? ?]; [|done..]. by rewrite app_nil_r.
  - intros [= <-]. split; [split; [by apply entries_schedule|done]|].
    unfold pending. cbn [sched with_sched workers submitted]. rewrite queued_schedule.
    solve_Permutation.
  - intros H. injection H as H. step_inv. done.
  - destruct (decide _); [|done]. intros H. injection H as H.
    unfold stop in H. apply obind_Ret in H as ([b c] & Hf & H).
    apply stop_flags_frame in Hf as (_ & _ & _ & Ef). unfold entries_ok, pending, queued.
    step_inv; simpl; rewrite Ef, ?fmap_app, ?concat_app; simpl; rewrite ?app_nil_r; try done.
    split; [|done]. split; [done|]. apply Forall_app. by repeat constructor.
Qed.

(** A run: the state it reaches, the callbacks scheduled in it and those
    started in it, both in order. *)
Inductive history (stack_size : Z) (use_caller : bool) (id : Z) (ids : list Z)
    : Sys → list callback → list callback → Prop :=
| history_boot s :
    boot stack_size use_caller id ids = Ret s → history stack_size use_caller id ids s [] []
| history_step s sub st l s' :
    history stack_size use_caller id ids s sub st → exec stack_size l s = Some (Ret s') →
    history stack_size use_caller id ids s' (sub ++ submitted l) (st ++ started l s s').

Lemma history_reachable stack_size use_caller id ids s sub st :
  history stack_size use_caller id ids s sub st → reachable stack_size use_caller id ids s.
Proof. induction 1; [by eapply reachable_boot|by eapply reachable_step]. Qed.

Lemma boot_entries stack_size use_caller id ids s :
  boot stack_size use_caller id ids = Ret s → entries_ok s ∧ pending s = [].
Proof.
  unfold boot. intros H. apply obind_Ret in H as (s0 & H0 & H). unfold start in H.
  assert (workers s0 = [] ∧ m_threads (sched s0) = [] ∧ m_stopping (sched s0) = true ∧
          m_fibers (sched s0) = []) as (Hw & Ht & Hs & Hf).
  { unfold Scheduler_new in H0. destruct (negb _); [done|]. step_inv; by subst. }
  rewrite Hw, Ht, Hs, Hf in H. simpl in H. injection H as <-.
  unfold entries_ok, pending, queued. simpl. clear. induction ids as [|id ids [[_ IH] IH']];
    [done|]. simpl. split; [split; [done|]|done]. by constructor.
Qed.

Lemma history_conserves stack_size use_caller id ids s sub st :
  Zlen ids + 1 < 2 ^ 64 → history stack_size use_caller id ids s sub st →
  entries_ok s ∧ sub ≡ₚ st ++ pending s.
Proof.
  intros Hb. induction 1 as [s Hs|s sub st l s' Hh [IHe IH] He].
  - apply boot_entries in Hs as [? ->]. done.
  - apply history_reachable in Hh. destruct (reachable_Inv _ _ _ _ _ Hb Hh) as [HI _].
    destruct (exec_conserves _ _ _ _ HI IHe He) as [? Hp]. split; [done|].
    rewrite IH, <- (assoc_L (++)), <- Hp. solve_Permutation.
Qed.

(** Nothing is pending when [stopping] holds. *)
Lemma stopping_pending s : Inv s → stopping (sched s) = true → pending s = [].
Proof.
  intros [Ha _ Hwf _] Hs. unfold stopping in Hs.
  apply andb_prop in Hs as [[[_ _]%andb_prop Hq%bool_decide_eq_true]%andb_prop Hz%Z.eqb_eq].
  unfold pending, queued. rewrite Hq. simpl. rewrite Ha in Hz.
  assert (∀ th, th ∈ workers s → in_hand th = []) as Hall.
  { intros th Hth. pose proof (count_zero _ _ _ Hz Hth) as Hh.
    pose proof (proj1 (Forall_forall _ _) Hwf th Hth) as [_ Hc].
    unfold holds_task in Hh. unfold in_hand.
    destruct (th_pc th); try done; by rewrite Hc. }
  clear -Hall. induction (workers s) as [|th l IH]; [done|]. simpl.
  rewrite Hall by left. apply IH. intros. apply Hall. by right.
Qed.

(** Thread [i] runs [MainFunc] of a fiber that holds the callback [c]: the
    fiber is the current one, it executes, and the thread is on its stack. *)
Definition runs_callback (i : nat) (c : callback) (s : Sys) : Prop :=
  ∃ th f F, workers s !! i = Some th ∧ th_pc th = P_task KCb f ∧
    fibers (world s) !! f = Some F ∧ m_cb F = c ∧ m_state F = EXEC ∧
    t_fiber (locals (world s) i) = Some f ∧ t_stack (locals (world s) i) = fiber_stack f.

(** The next step of a worker that has prepared a callback, when the fiber its
    thread comes from is another one: it switches, and the callback runs. *)
Lemma prepared_runs stack_size i c th f mf s :
  workers s !! i = Some th → th_pc th = P_swapIn KCb f → prepared i s = [c] →
  t_main (locals (world s) i) = Some mf → is_Some (fibers (world s) !! mf) → f ≠ mf →
  ∃ s', exec stack_size (L_run i) s = Some (Ret s') ∧ runs_callback i c s'.
Proof.
  intros Hth Hpc Hp Hm [R HR] Hne. unfold prepared in Hp. rewrite Hth, Hpc in Hp.
  destruct (fibers (world s) !! f) as [F|] eqn:EF; [|done].
  destruct (bool_decide _ && bool_decide _) eqn:E; [|done]. injection Hp as <-.
  apply andb_true_iff in E as [HS%bool_decide_eq_true HC%bool_decide_eq_true].
  destruct (runs_swapIn i (world s) f mf F R (fiber_stack f) _ _ _ (sees_self i (world s)) EF HR Hne Hm)
    as (w' & Es & Hf & Hl & _); [by rewrite HS|right; by exists f|].
  cbn [exec]. rewrite Hth. cbn [mbind option_bind]. unfold run_step. rewrite Hpc. unfold on_world.
  rewrite Es. cbn [obind]. eexists. split; [reflexivity|].
  exists (goto (P_task KCb f) th), f, (upd_state EXEC F).
  cbn [workers set_worker with_world world]. rewrite Hf, Hl.
  split_and!; try done.
  - apply list_lookup_insert_eq. by apply lookup_lt_Some in Hth.
  - rewrite lookup_insert_ne by done. apply lookup_insert_eq.
Qed.

(** * Properties *)

(** C22. However the workers interleave, [m_activeThreadCount] is the number
    of workers between taking a task and its end or yield and
    [m_idleThreadCount] the number of workers in their idle fiber (neither
    wraps around); so when [stopping] answers true the queue is empty and no
    worker holds a task. *)
Theorem scheduler_counters_exact (stack_size : Z) (use_caller : bool) (id : Z)
    (ids : list Z) (s : Sys) :
  Zlen ids + 1 < 2 ^ 64 → reachable stack_size use_caller id ids s →
  m_activeThreadCount (sched s) = count holds_task (workers s) ∧
  m_idleThreadCount (sched s) = count is_idle (workers s) ∧
  (stopping (sched s) = true →
     m_fibers (sched s) = [] ∧ ∀ th, th ∈ workers s → holds_task th = false).
Proof.
  intros Hb Hr. destruct (reachable_Inv _ _ _ _ _ Hb Hr) as [[Ha Hi _ _] _].
  split_and!; [done..|]. unfold stopping.
  intros [[[_ _]%andb_prop Hq%bool_decide_eq_true]%andb_prop Hz%Z.eqb_eq]%andb_prop.
  split; [done|]. intros th Hth. rewrite Ha in Hz. by apply (count_zero _ _ _ Hz).
Qed.

(** C5. However the workers interleave, every callback scheduled is started
    exactly once or still waits (in the queue, or taken by one worker): none
    is lost and none is started twice.  Started means that a worker has put it
    into a fiber in its initial state, at the start of [MainFunc], and is about
    to switch to that fiber; the step that switches (from a main fiber that is
    another one) leaves the thread on the stack of this fiber, with the
    callback to call.  Once [stopping] answers true, every callback that was
    scheduled has been started. *)
Theorem callbacks_started_exactly_once (stack_size : Z) (use_caller : bool) (id : Z)
    (ids : list Z) (s : Sys) (sub st : list callback) :
  Zlen ids + 1 < 2 ^ 64 → history stack_size use_caller id ids s sub st →
  sub ≡ₚ st ++ pending s ∧ (stopping (sched s) = true → sub ≡ₚ st) ∧
  (∀ i c th f mf, workers s !! i = Some th → th_pc th = P_swapIn KCb f → prepared i s = [c] →
     t_main (locals (world s) i) = Some mf → is_Some (fibers (world s) !! mf) → f ≠ mf →
     ∃ s', exec stack_size (L_run i) s = Some (Ret s') ∧ runs_callback i c s').
Proof.
  intros Hb Hh. destruct (history_conserves _ _ _ _ _ _ _ Hb Hh) as [_ Hp].
  split; [done|]. split; [|eauto using prepared_runs]. intros Hs. apply history_reachable in Hh.
  destruct (reachable_Inv _ _ _ _ _ Hb Hh) as [HI _].
  by rewrite Hp, (stopping_pending s HI Hs), app_nil_r.
Qed.

(** The search of a worker takes the first entry of the queue that is for
    any thread or for this one and whose fiber is not running, and leaves the
    other entries in order; it takes none only if every entry is for another
    thread or running.  So a task bound to a thread is only ever in the hands
    of that thread. *)
Theorem search_takes_first_runnable (stack_size : Z) (use_caller : bool) (id : Z)
    (ids : list Z) (s : Sys) (i : nat) (th : worker) :
  Zlen ids + 1 < 2 ^ 64 → reachable stack_size use_caller id ids s →
  workers s !! i = Some th →
  (thread (ft th) = -1 ∨ thread (ft th) = th_id th) ∧
  ∀ found tick rest,
    search (th_id th) (fibers (world s)) [] (m_fibers (sched s)) false
      = Ret (found, tick, rest) →
    match found with
    | Some e =>
        ∃ l1 l2, m_fibers (sched s) = l1 ++ e :: l2 ∧ rest = l1 ++ l2 ∧
          Forall (λ x, skips (th_id th) (fibers (world s)) x = true) l1 ∧
          skips (th_id th) (fibers (world s)) e = false
    | None =>
        rest = m_fibers (sched s) ∧
        Forall (λ x, skips (th_id th) (fibers (world s)) x = true) rest
    end.
Proof.
  intros Hb Hr Hth. destruct (reachable_Inv _ _ _ _ _ Hb Hr) as [[_ _ Hwf _] _].
  split; [by destruct (Forall_lookup_1 _ _ _ _ Hwf Hth)|].
  intros found tick rest H. apply search_spec in H. destruct found as [e|].
  - destruct H as (l1 & l2 & ? & -> & _ & ? & ? & _). by exists l1, l2.
  - destruct H as [-> ?]. done.
Qed.

Lemma exec_all_reachable stack_size use_caller id ids ls s s' :
  reachable stack_size use_caller id ids s → exec_all stack_size ls s = Some (Ret s') →
  reachable stack_size use_caller id ids s'.
Proof.
  revert s. induction ls as [|l ls IH]; intros s Hr H; [by simplify_eq/=|].
  cbn [exec_all] in H. destruct (exec stack_size l s) as [[s1| |]|] eqn:E; try done.
  eapply IH; [|done]. by eapply reachable_step.
Qed.

(** Two workers, a fiber that yields to HOLD in the first one, and a wake-up
    that reaches the second one before the first has switched stacks. *)
Definition race : list label :=
  [L_run 0; L_run 1; L_new_fiber (UserCb 9); L_schedule (fc_fiber (Some 4%nat)) (-1)]
  ++ replicate 4 (L_run 0)
  ++ [L_task 0 A_YieldToHold; L_schedule (fc_fiber (Some 4%nat)) (-1)]
  ++ replicate 4 (L_run 1).

Definition race_end : option (outcome Sys) :=
  match boot 131072 false 0 [10; 11] with
  | Ret s => exec_all 131072 race s
  | _ => None
  end.

(** [YieldToHold] stores HOLD before it leaves the stack of the fiber, and
    a worker takes any fiber that is not EXEC: when the fiber is scheduled in
    between (its event arrives), a second worker switches to it while the
    first still runs on its stack, so two threads execute on one stack. *)
Theorem yield_to_hold_race :
  ∃ s, reachable 131072 false 0 [10; 11] s ∧
    (th_pc <$> workers s) = [P_leave KFiber 4 by_yield; P_task KFiber 4] ∧
    t_stack (locals (world s) 0) = fiber_stack 4 ∧
    t_stack (locals (world s) 1) = fiber_stack 4.
Proof.
  destruct (boot 131072 false 0 [10; 11]) as [s0| |] eqn:E0; [|by vm_compute in E0..].
  destruct race_end as [[s| |]|] eqn:E; [|by vm_compute in E..].
  exists s. split.
  - eapply exec_all_reachable; [by eapply reachable_boot|]. unfold race_end in E.
    by rewrite E0 in E.
  - vm_compute in E. injection E as <-. by vm_compute.
Qed.

(** * Witnesses *)

(** Two callbacks are scheduled; one worker has started the first and holds
    the second. *)
Definition demo : list label :=
  [L_run 0; L_schedule (fc_cb (UserCb 7)) 10; L_schedule (fc_cb (UserCb 8)) (-1)]
  ++ replicate 5 (L_run 0)
  ++ [L_task 0 (A_finish returns)] ++ replicate 4 (L_run 0).

Fixpoint exec_history (ls : list label) (s : Sys) (sub st : list callback)
    : option (Sys * list callback * list callback) :=
  match ls with
  | [] => Some (s, sub, st)
  | l :: ls =>
      match exec 131072 l s with
      | Some (Ret s') => exec_history ls s' (sub ++ submitted l) (st ++ started l s s')
      | _ => None
      end
  end.

Lemma exec_history_ok ls s sub st s' sub' st' :
  history 131072 false 0 [10; 11] s sub st →
  exec_history ls s sub st = Some (s', sub', st') →
  history 131072 false 0 [10; 11] s' sub' st'.
Proof.
  revert s sub st. induction ls as [|l ls IH]; intros s sub st Hh H; [by simplify_eq/=|].
  cbn [exec_history] in H. destruct (exec 131072 l s) as [[s1| |]|] eqn:E; try done.
  eapply IH; [|done]. by apply history_step.
Qed.

Lemma demo_history :
  ∃ s, history 131072 false 0 [10; 11] s [UserCb 7; UserCb 8] [UserCb 7] ∧
    th_id <$> workers s !! 0%nat = Some 10.
Proof.
  destruct (boot 131072 false 0 [10; 11]) as [s0| |] eqn:E0; [|by vm_compute in E0..].
  destruct (exec_history demo s0 [] []) as [[[s sub] st]|] eqn:E;
    [|vm_compute in E0; injection E0 as <-; by vm_compute in E].
  assert (sub = [UserCb 7; UserCb 8] ∧ st = [UserCb 7] ∧ th_id <$> workers s !! 0%nat = Some 10)
    as (-> & -> & ?).
  { vm_compute in E0. injection E0 as <-. vm_compute in E. by injection E as <- <- <-. }
  exists s. split; [|done]. eapply exec_history_ok; [|exact E]. by apply history_boot.
Qed.

Lemma scheduler_counters_exact_witness :
  ∃ s, m_activeThreadCount (sched s) = count holds_task (workers s).
Proof.
  destruct demo_history as (s & Hh & _). exists s.
  destruct (scheduler_counters_exact 131072 false 0 [10; 11] s) as [? _];
    [by vm_compute|by eapply history_reachable|done].
Defined.

Lemma callbacks_started_exactly_once_witness :
  ∃ s, [UserCb 7; UserCb 8] ≡ₚ [UserCb 7] ++ pending s.
Proof.
  destruct demo_history as (s & Hh & _). exists s.
  destruct (callbacks_started_exactly_once 131072 false 0 [10; 11] s _ _ ltac:(by vm_compute) Hh)
    as [? _]. done.
Defined.

Lemma search_takes_first_runnable_witness :
  ∃ s th, workers s !! 0%nat = Some th ∧ (thread (ft th) = -1 ∨ thread (ft th) = 10).
Proof.
  destruct demo_history as (s & Hh & Hid).
  destruct (workers s !! 0%nat) as [th|] eqn:Hth; [|done].
  exists s, th. split; [done|].
  destruct (search_takes_first_runnable 131072 false 0 [10; 11] s 0 th) as [Hx _];
    [by vm_compute|by eapply history_reachable|done|].
  simpl in Hid. injection Hid as <-. exact Hx.
Defined.
