(* ===== verification/IOManager.v ===== *)
(** The epoll-based scheduler: iomanager.h and iomanager.cpp.

    An [IOManager] is a [Scheduler] and a [TimerManager] with a table of
    contexts indexed by file descriptor.  Each operation holds the lock of the
    context it works on from the first test to its end, and is one atomic
    step; [addEvent] is three, the first two under the lock of the table.  The kernel is outside: the result of [epoll_ctl] and what
    [epoll_wait] reports are arguments; what the kernel was last told to watch
    is recorded in [epoll].  The bytes in the pipe that wakes [epoll_wait] are
    counted in [pipe]. *)

From S2P Require Import Prelude OrderedSet Timer Fiber Scheduler.

(** * Event masks *)

Definition NONE : Z := 0.
Definition READ : Z := 1.
Definition WRITE : Z := 4.

Definition EPOLLIN : Z := 1.
Definition EPOLLPRI : Z := 2.
Definition EPOLLOUT : Z := 4.
Definition EPOLLERR : Z := 8.
Definition EPOLLHUP : Z := 16.
Definition EPOLLET : Z := 2 ^ 31.

(** [operator&], [operator|] and [operator~] of [Event]. *)
Definition ev_and (l r : Z) : Z := Z.land l r.
Definition ev_or (l r : Z) : Z := Z.lor l r.
Definition ev_not (e : Z) : Z := u32 (Z.lnot e).
(** [!e] is [ev_none e]; [!!(l & r)] is [ev_has l r]. *)
Definition ev_none (e : Z) : bool := e =? NONE.
Definition ev_has (l r : Z) : bool := negb (ev_none (ev_and l r)).

(** [operator<<] for masks: the names of the bits, with bars between them. *)
Definition event_names : list (Z * string) :=
  [(1, "EPOLLIN"); (2, "EPOLLPRI"); (4, "EPOLLOUT"); (64, "EPOLLRDNORM");
   (128, "EPOLLRDBAND"); (256, "EPOLLWRNORM"); (512, "EPOLLWRBAND"); (1024, "EPOLLMSG");
   (8, "EPOLLERR"); (16, "EPOLLHUP"); (8192, "EPOLLRDHUP"); (2 ^ 30, "EPOLLONESHOT");
   (2 ^ 31, "EPOLLET")]%string.

Fixpoint print_names (events : Z) (first : bool) (names : list (Z * string)) : string :=
  match names with
  | [] => EmptyString
  | (e, name) :: names =>
      if ev_has events e then
        ((if first then EmptyString else "|") +:+ name +:+ print_names events false names)%string
      else print_names events first names
  end.
Definition print_events (events : Z) : string :=
  if events =? 0 then "None" else print_names events true event_names.

(** * Contexts *)

(** [scheduler] is whether the pointer is set; it then points to this manager. *)
Record EventContext := mkEC {
  ec_scheduler : bool;
  ec_fiber : option nat;
  ec_cb : callback;
}.

Record FdContext := mkFdContext {
  fc_read : EventContext;
  fc_write : EventContext;
  fc_fd : Z;
  fc_events : Z;
}.

Definition no_context : EventContext := mkEC false None nullptr.

(** [getContext]. *)
Definition getContext (c : FdContext) (event : Z) : outcome EventContext :=
  if event =? READ then Ret (fc_read c)
  else if event =? WRITE then Ret (fc_write c)
  else Fault AssertFailed.

Definition set_context (c : FdContext) (event : Z) (e : EventContext) : FdContext :=
  if event =? READ then mkFdContext e (fc_write c) (fc_fd c) (fc_events c)
  else mkFdContext (fc_read c) e (fc_fd c) (fc_events c).
Definition set_events (c : FdContext) (events : Z) : FdContext :=
  mkFdContext (fc_read c) (fc_write c) (fc_fd c) events.

(** [resetContext]. *)
Definition resetContext (c : FdContext) (event : Z) : FdContext :=
  set_context c event no_context.

(** * The manager *)

Inductive epoll_op := EPOLL_CTL_ADD | EPOLL_CTL_MOD | EPOLL_CTL_DEL.

#[export] Instance epoll_op_eq_dec : EqDecision epoll_op.
Proof. solve_decision. Defined.

Record IOManager := mkIOManager {
  io_sched : Scheduler;
  io_timers : TimerManager;
  io_world : World;
  m_pendingEventCount : Z;
  m_fdContexts : list FdContext;
  epoll : gmap Z Z;
  pipe : Z;
}.

Definition with_io_sched (s : Scheduler) (m : IOManager) : IOManager :=
  mkIOManager s (io_timers m) (io_world m) (m_pendingEventCount m) (m_fdContexts m)
    (epoll m) (pipe m).
Definition with_io_timers (t : TimerManager) (m : IOManager) : IOManager :=
  mkIOManager (io_sched m) t (io_world m) (m_pendingEventCount m) (m_fdContexts m)
    (epoll m) (pipe m).
Definition with_io_world (w : World) (m : IOManager) : IOManager :=
  mkIOManager (io_sched m) (io_timers m) w (m_pendingEventCount m) (m_fdContexts m)
    (epoll m) (pipe m).
Definition with_pending (n : Z) (m : IOManager) : IOManager :=
  mkIOManager (io_sched m) (io_timers m) (io_world m) n (m_fdContexts m)
    (epoll m) (pipe m).
Definition with_contexts (l : list FdContext) (m : IOManager) : IOManager :=
  mkIOManager (io_sched m) (io_timers m) (io_world m) (m_pendingEventCount m) l
    (epoll m) (pipe m).
Definition with_epoll (e : gmap Z Z) (m : IOManager) : IOManager :=
  mkIOManager (io_sched m) (io_timers m) (io_world m) (m_pendingEventCount m)
    (m_fdContexts m) e (pipe m).
Definition with_pipe (n : Z) (m : IOManager) : IOManager :=
  mkIOManager (io_sched m) (io_timers m) (io_world m) (m_pendingEventCount m)
    (m_fdContexts m) (epoll m) n.

(** [IOManager::tickle]: wake a worker that waits in [epoll_wait]. *)
Definition io_tickle (m : IOManager) : IOManager :=
  if negb (hasIdleThreads (io_sched m)) then m else with_pipe (pipe m + 1) m.

Definition onTimerInsertedAtFront (m : IOManager) : IOManager := io_tickle m.

(** [schedule] of the base class, whose [tickle] is the one above. *)
Definition io_schedule (fc : FiberOrCb) (tid : Z) (m : IOManager) : IOManager :=
  let '(need_tickle, s) := scheduleNoLock fc tid (io_sched m) in
  let m := with_io_sched s m in
  if need_tickle then io_tickle m else m.

Definition io_schedule_range (cbs : list callback) (m : IOManager) : IOManager :=
  let '(need_tickle, s) := schedule_loop cbs false (io_sched m) in
  let m := with_io_sched s m in
  if need_tickle then io_tickle m else m.

(** [triggerEvent] on the context [c]: the new context and the manager. *)
Definition triggerEvent (c : FdContext) (event : Z) (m : IOManager)
    : outcome (FdContext * IOManager) :=
  if ev_none (ev_and (fc_events c) event) then Fault AssertFailed
  else
    let c := set_events c (ev_and (fc_events c) (ev_not event)) in
    let! ctx := getContext c event in
    if negb (ec_scheduler ctx) then Fault NullDeref
    else if engaged (ec_cb ctx) then
      Ret (set_context c event (mkEC false (ec_fiber ctx) nullptr),
           io_schedule (fc_cb (ec_cb ctx)) (-1) m)
    else
      Ret (set_context c event (mkEC false None (ec_cb ctx)),
           io_schedule (fc_fiber (ec_fiber ctx)) (-1) m).

(** [contextResize]: [std::vector::resize], and a new context in every empty
    cell. *)
Definition new_context (i : nat) : FdContext :=
  mkFdContext no_context no_context (Z.of_nat i) NONE.
Definition contextResize (size : nat) (l : list FdContext) : list FdContext :=
  take size l ++ (new_context <$> seq (length l) (size - length l)).

(** The conversion of [fd * 1.5] to [size_t]. *)
Definition grown (fd : Z) : nat := Z.to_nat (fd * 3 / 2).

(** [m_fdContexts[fd]]. *)
Definition context_at (fd : Z) (m : IOManager) : outcome FdContext :=
  if fd <? 0 then Fault OutOfBounds
  else match m_fdContexts m !! Z.to_nat fd with
       | Some c => Ret c
       | None => Fault OutOfBounds
       end.
Definition store_context (fd : Z) (c : FdContext) (m : IOManager) : IOManager :=
  with_contexts (<[Z.to_nat fd := c]> (m_fdContexts m)) m.

Definition fd_capacity (m : IOManager) : Z := Zlen (m_fdContexts m).

(** A call of [epoll_ctl] that returned 0. *)
Definition epoll_apply (op : epoll_op) (fd mask : Z) (m : IOManager) : IOManager :=
  with_epoll (match op with
              | EPOLL_CTL_DEL => delete fd (epoll m)
              | _ => <[fd := mask]> (epoll m)
              end) m.

(** [addEvent] in its three parts.  Under the read lock it looks whether the
    table has a context for [fd]; if not, it drops that lock, takes the write
    lock and resizes, without looking again; in both cases it has the address
    of the context, and holds its lock from there on. *)
Definition addEvent_found (fd : Z) (m : IOManager) : bool := fd <? fd_capacity m.
Definition addEvent_resize (fd : Z) (m : IOManager) : IOManager :=
  with_contexts (contextResize (grown fd) (m_fdContexts m)) m.

(** The last part, in thread [t].  [here] says whether [Scheduler::GetThis()]
    of the thread is this manager; otherwise it is null.  [rt] is the result of
    [epoll_ctl].  The context is that of the table: an address taken before
    the table was made smaller, whose context is in no table any more, is
    outside the model. *)
Definition addEvent_locked (here : bool) (t : nat) (rt fd event : Z) (cb : callback)
    (m : IOManager) : outcome (Z * IOManager) :=
  let! c := context_at fd m in
  if ev_has (fc_events c) event then Fault AssertFailed
  else
    let op := if negb (fc_events c =? NONE) then EPOLL_CTL_MOD else EPOLL_CTL_ADD in
    let mask := ev_or (ev_or EPOLLET (fc_events c)) event in
    if negb (rt =? 0) then Ret (-1, m)
    else
      let m := with_pending (u64 (m_pendingEventCount m + 1)) (epoll_apply op fd mask m) in
      let c := set_events c (ev_or (fc_events c) event) in
      let! ctx := getContext c event in
      if ec_scheduler ctx || bool_decide (is_Some (ec_fiber ctx)) || engaged (ec_cb ctx)
      then Fault AssertFailed
      else if engaged cb then
        Ret (0, store_context fd (set_context c event (mkEC here None cb)) m)
      else
        match GetThis t (io_world m) with
        | (Ret f, w) =>
            match fibers w !! f with
            | Some F =>
                if bool_decide (m_state F = EXEC) then
                  Ret (0, store_context fd (set_context c event (mkEC here (Some f) nullptr))
                            (with_io_world w m))
                else Fault AssertFailed
            | None => Fault NullDeref
            end
        | (Throw e, _) => Throw e
        | (Fault f, _) => Fault f
        end.

(** [addEvent(fd, event, cb)], when no other thread comes between. *)
Definition addEvent (here : bool) (t : nat) (rt fd event : Z) (cb : callback) (m : IOManager)
    : outcome (Z * IOManager) :=
  addEvent_locked here t rt fd event cb
    (if addEvent_found fd m then m else addEvent_resize fd m).

(** [delEvent(fd, event)]; [junk] is the content of the [events] field of
    [epevent], which the function does not set. *)
Definition delEvent (rt junk fd event : Z) (m : IOManager) : outcome (bool * IOManager) :=
  if fd_capacity m <=? fd then Ret (false, m)
  else
    let! c := context_at fd m in
    if ev_none (ev_and (fc_events c) event) then Ret (false, m)
    else
      let new_events := ev_and (fc_events c) (ev_not event) in
      let op := if negb (new_events =? NONE) then EPOLL_CTL_MOD else EPOLL_CTL_DEL in
      if negb (rt =? 0) then Ret (false, m)
      else
        let m := with_pending (u64 (m_pendingEventCount m - 1)) (epoll_apply op fd junk m) in
        let c := set_events c new_events in
        let! _ := getContext c event in
        Ret (true, store_context fd (resetContext c event) m).

(** [cancelEvent(fd, event)]. *)
Definition cancelEvent (rt junk fd event : Z) (m : IOManager) : outcome (bool * IOManager) :=
  if fd_capacity m <=? fd then Ret (false, m)
  else
    let! c := context_at fd m in
    if ev_none (ev_and (fc_events c) event) then Ret (false, m)
    else
      let new_events := ev_and (fc_events c) (ev_not event) in
      let op := if negb (new_events =? NONE) then EPOLL_CTL_MOD else EPOLL_CTL_DEL in
      if negb (rt =? 0) then Ret (false, m)
      else
        let m := epoll_apply op fd junk m in
        let! _ := getContext c event in
        let! (c, m) := triggerEvent c event m in
        Ret (true, with_pending (u64 (m_pendingEventCount m - 1)) (store_context fd c m)).

(** [if (!!(events & event)) { triggerEvent(event); --m_pendingEventCount; }] *)
Definition trigger_if (events event : Z) (c : FdContext) (m : IOManager)
    : outcome (FdContext * IOManager) :=
  if ev_has events event then
    let! (c, m) := triggerEvent c event m in
    Ret (c, with_pending (u64 (m_pendingEventCount m - 1)) m)
  else Ret (c, m).

(** [cancelAll(fd)]. *)
Definition cancelAll (rt fd : Z) (m : IOManager) : outcome (bool * IOManager) :=
  if fd_capacity m <=? fd then Ret (false, m)
  else
    let! c := context_at fd m in
    if fc_events c =? NONE then Ret (false, m)
    else if negb (rt =? 0) then Ret (false, m)
    else
      let m := epoll_apply EPOLL_CTL_DEL fd NONE m in
      let! (c, m) := trigger_if (fc_events c) READ c m in
      let! (c, m) := trigger_if (fc_events c) WRITE c m in
      if negb (fc_events c =? NONE) then Fault AssertFailed
      else Ret (true, store_context fd c m).

(** [IOManager::stopping(timeout)] at time [now]: the answer, the timeout, and
    the manager ([getNextTimer] clears [m_tickled]). *)
Definition io_stopping (now : Z) (m : IOManager) : bool * Z * IOManager :=
  let '(timeout, t) := getNextTimer now (io_timers m) in
  ((timeout =? u64_max) && (m_pendingEventCount m =? 0) && stopping (io_sched m),
   timeout, with_io_timers t m).

(** * The idle fiber *)

(** The timeout given to [epoll_wait]. *)
Definition MAX_TIMEOUT : Z := 5000.
Definition epoll_timeout (next_timeout : Z) : Z :=
  i32 (if negb (next_timeout =? u64_max)
       then (if MAX_TIMEOUT <? i32 next_timeout then MAX_TIMEOUT else next_timeout)
       else MAX_TIMEOUT).

(** What [epoll_wait] stores: a mask, and the [data] the descriptor was added
    with: the pipe's descriptor, or the address of a context.  (The code tells
    them apart by the [fd] member of the union; no context is taken to lie at
    an address whose low half is the pipe's descriptor.) *)
Inductive epoll_data := data_pipe | data_ctx (i : nat).

Record epoll_event := mkEpollEvent {
  ee_events : Z;
  ee_data : epoll_data;
}.

(** One turn of the loop over the ready events.  [arr] is the array [events];
    the code takes the mask from its first cell ([events->events]), after the
    cell of this turn was updated for errors, and stores the rest mask in the
    cell of this turn. *)
Definition idle_event (rt2 : Z) (i : nat) (st : list epoll_event * IOManager)
    : outcome (list epoll_event * IOManager) :=
  let '(arr, m) := st in
  match arr !! i with
  | None => Fault OutOfBounds
  | Some event =>
      match ee_data event with
      | data_pipe => Ret (arr, with_pipe 0 m)
      | data_ctx fd =>
          match m_fdContexts m !! fd with
          | None => Fault NullDeref
          | Some c =>
              let arr :=
                if negb (Z.land (ee_events event) (Z.lor EPOLLERR EPOLLHUP) =? 0)
                then <[i := mkEpollEvent
                              (Z.lor (ee_events event)
                                 (Z.land (Z.lor EPOLLIN EPOLLOUT) (fc_events c)))
                              (ee_data event)]> arr
                else arr in
              let first := default 0 (ee_events <$> head arr) in
              let real := if negb (Z.land first EPOLLIN =? 0) then READ else NONE in
              let real := if negb (Z.land first EPOLLOUT =? 0) then ev_or real WRITE else real in
              if ev_and (fc_events c) real =? NONE then Ret (arr, m)
              else
                let rest := ev_and (fc_events c) (ev_not real) in
                let op := if negb (rest =? NONE) then EPOLL_CTL_MOD else EPOLL_CTL_DEL in
                let mask := ev_or EPOLLET rest in
                let arr := <[i := mkEpollEvent mask (ee_data event)]> arr in
                if negb (rt2 =? 0) then Ret (arr, m)
                else
                  let m := epoll_apply op (fc_fd c) mask m in
                  let! (c, m) := trigger_if real READ c m in
                  let! (c, m) := trigger_if real WRITE c m in
                  Ret (arr, with_contexts (<[fd := c]> (m_fdContexts m)) m)
          end
      end
  end.

(** The loop [for (int i = 0; i < rt; ++i)]; [ctl i] is the result of
    [epoll_ctl] in turn [i]. *)
Fixpoint idle_events (ctl : nat → Z) (idxs : list nat) (st : list epoll_event * IOManager)
    : outcome (list epoll_event * IOManager) :=
  match idxs with
  | [] => Ret st
  | i :: idxs => let! st := idle_event (ctl i) i st in idle_events ctl idxs st
  end.

(** One turn of [IOManager::idle] after [epoll_wait] stored [ready]: the
    expired timers' callbacks are scheduled, then the events are handled. *)
Definition idle_turn (now now_addr : Z) (ctl : nat → Z) (ready : list epoll_event)
    (m : IOManager) : outcome IOManager :=
  let '(cbs, t) := listExpiredCb now now_addr (io_timers m) in
  let m := with_io_timers t m in
  let m := match cbs with [] => m | _ => io_schedule_range cbs m end in
  let! (_, m) := idle_events ctl (seq 0 (length ready)) (ready, m) in
  Ret m.

(** [IOManager::IOManager] after the base classes: 32 contexts. *)
Definition IOManager_new (s : Scheduler) (t : TimerManager) (w : World) : IOManager :=
  mkIOManager s t w 0 (contextResize 32 []) ∅ 0.
