(* ===== verification/IOManagerTheorems.v ===== *)
(** Correctness of the event registrations of the IOManager.

    Invariant: the bits of a context say which of its two events wait, a
    waiting event has a scheduler and exactly one of a fiber and a callback,
    the other slots are empty, and [m_pendingEventCount] is the number of
    waiting events. *)

From S2P Require Import Prelude OrderedSet Timer Fiber Scheduler IOManager.

(** * The invariant *)

Definition is_event (e : Z) : Prop := e = READ ∨ e = WRITE.

Definition slot_ok (waits : bool) (e : EventContext) : Prop :=
  if waits then
    ec_scheduler e = true ∧
    ((engaged (ec_cb e) = true ∧ ec_fiber e = None) ∨
     (ec_cb e = nullptr ∧ is_Some (ec_fiber e)))
  else e = no_context.

Definition mask_ok (e : Z) : Prop := e = 0 ∨ e = 1 ∨ e = 4 ∨ e = 5.

Record fd_ok (c : FdContext) : Prop := {
  fo_mask : mask_ok (fc_events c);
  fo_read : slot_ok (ev_has (fc_events c) READ) (fc_read c);
  fo_write : slot_ok (ev_has (fc_events c) WRITE) (fc_write c);
}.

(** The number of events that wait on a context, and in a table. *)
Definition waits (c : FdContext) : Z :=
  Z.b2z (ev_has (fc_events c) READ) + Z.b2z (ev_has (fc_events c) WRITE).

Definition total (l : list FdContext) : Z := foldr (λ c z, waits c + z) 0 l.

Record IOInv (m : IOManager) : Prop := {
  io_slots : Forall fd_ok (m_fdContexts m);
  io_count : m_pendingEventCount m = total (m_fdContexts m);
  io_size : 32 ≤ fd_capacity m ≤ 2 ^ 32;
}.

Lemma waits_bound c : 0 ≤ waits c ≤ 2.
Proof. unfold waits. destruct (ev_has _ READ), (ev_has _ WRITE); simpl; lia. Qed.

Lemma total_bound l : 0 ≤ total l ≤ 2 * Zlen l.
Proof.
  unfold Zlen. induction l as [|c l IH]; simpl; [lia|].
  pose proof (waits_bound c). lia.
Qed.

Lemma total_app l k : total (l ++ k) = total l + total k.
Proof. induction l as [|c l IH]; simpl; [lia|]. rewrite IH. lia. Qed.

Lemma total_insert l i c c' :
  l !! i = Some c → total (<[i := c']> l) = total l - waits c + waits c'.
Proof.
  revert i. induction l as [|x l IH]; intros [|i] Hi; simplify_eq/=; [lia|].
  rewrite (IH i) by done. lia.
Qed.

(** ** Masks *)

(** The slot of an event. *)
Definition slot (c : FdContext) (event : Z) : EventContext :=
  if event =? READ then fc_read c else fc_write c.

Lemma getContext_slot c event : is_event event → getContext c event = Ret (slot c event).
Proof. by intros [->| ->]. Qed.

Lemma slot_ok_of c event :
  fd_ok c → is_event event → slot_ok (ev_has (fc_events c) event) (slot c event).
Proof. by intros [? ? ?] [->| ->]. Qed.

(** Clearing a waiting event. *)
Lemma clear_ok c event :
  fd_ok c → is_event event → ev_has (fc_events c) event = true →
  let c' := set_context (set_events c (ev_and (fc_events c) (ev_not event))) event no_context in
  fd_ok c' ∧ waits c' = waits c - 1.
Proof.
  intros [Hm Hr Hw] He Hh. unfold waits. destruct c as [r w fd ev]. simpl in *.
  destruct Hm as [->|[->|[->| ->]]], He as [->| ->]; try discriminate Hh;
    (split; [split|]); simpl; try done; vm_compute; auto.
Qed.

(** Registering an event that does not wait. *)
Lemma set_ok c event e :
  fd_ok c → is_event event → ev_has (fc_events c) event = false → slot_ok true e →
  let c' := set_context (set_events c (ev_or (fc_events c) event)) event e in
  fd_ok c' ∧ waits c' = waits c + 1.
Proof.
  intros [Hm Hr Hw] He Hh Hs. unfold waits. destruct c as [r w fd ev]. simpl in *.
  destruct Hm as [->|[->|[->| ->]]], He as [->| ->]; try discriminate Hh;
    (split; [split|]); simpl; try done; vm_compute; auto.
Qed.

(** ** Scheduling *)

(** The entry that resumes what waits in a slot. *)
Definition resumes (e : EventContext) : FiberAndThread :=
  if engaged (ec_cb e) then mkFT None (ec_cb e) (-1) else mkFT (ec_fiber e) nullptr (-1).

(** Only the queue (by [es]), the counted tickles and the pipe changed. *)
Definition queues (es : list FiberAndThread) (m m' : IOManager) : Prop :=
  m_fibers (io_sched m') = m_fibers (io_sched m) ++ es ∧
  io_timers m' = io_timers m ∧ io_world m' = io_world m ∧
  m_pendingEventCount m' = m_pendingEventCount m ∧
  m_fdContexts m' = m_fdContexts m ∧ epoll m' = epoll m.

Lemma io_schedule_queues fc m :
  has_task (FiberAndThread_new fc (-1)) = true →
  queues [FiberAndThread_new fc (-1)] m (io_schedule fc (-1) m).
Proof.
  intros H. unfold io_schedule, scheduleNoLock, io_tickle. rewrite H.
  destruct (bool_decide _); [destruct (hasIdleThreads _)|]; by split_and!.
Qed.

Lemma trigger_spec c event m :
  fd_ok c → is_event event → ev_has (fc_events c) event = true →
  ∃ c' m', triggerEvent c event m = Ret (c', m') ∧ fd_ok c' ∧ waits c' = waits c - 1 ∧
    fc_events c' = ev_and (fc_events c) (ev_not event) ∧ fc_fd c' = fc_fd c ∧
    (∀ e, is_event e → e ≠ event → slot c' e = slot c e) ∧
    queues [resumes (slot c event)] m m'.
Proof.
  intros Hc He Hh. destruct (clear_ok c event Hc He Hh) as [Hok Hw].
  pose proof (slot_ok_of c event Hc He) as Hs. rewrite Hh in Hs. destruct Hs as [Hsch Hs].
  unfold triggerEvent. unfold ev_has in Hh. rewrite negb_true_iff in Hh. rewrite Hh.
  rewrite getContext_slot by done. unfold obind.
  replace (slot (set_events c _) event) with (slot c event) by (by destruct He as [->| ->]).
  rewrite Hsch. cbn [negb]. unfold resumes.
  assert (∀ e, is_event e → e ≠ event → ∀ x,
    slot (set_context (set_events c (ev_and (fc_events c) (ev_not event))) event x) e = slot c e)
    as Hother by (intros e [->| ->] ? x; by destruct He as [->| ->]).
  destruct Hs as [[Hcb Hf]|[Hcb [f Hf]]]; rewrite Hcb, Hf; cbn [engaged];
    (do 2 eexists; split; [reflexivity|]; split_and!; try done;
     [by destruct He as [->| ->]..|by intros; apply Hother|]).
  - apply (io_schedule_queues (fc_cb (ec_cb (slot c event)))). unfold has_task. simpl.
    by rewrite Hcb.
  - by apply (io_schedule_queues (fc_fiber (Some f))).
Qed.

(** ** The table *)

(** One context replaced, with the count moved accordingly. *)
Lemma IOInv_store m m' i c c' :
  IOInv m → m_fdContexts m !! i = Some c → fd_ok c' →
  m_fdContexts m' = <[i := c']> (m_fdContexts m) →
  m_pendingEventCount m' = u64 (m_pendingEventCount m - waits c + waits c') →
  IOInv m'.
Proof.
  intros [Hs Hn Hl] Hi Hc Ht Hp.
  assert (fd_capacity m' = fd_capacity m) as Hcap
    by (unfold fd_capacity, Zlen; by rewrite Ht, length_insert).
  split.
  - rewrite Ht. by apply Forall_insert.
  - rewrite Hp, Ht, Hn, (total_insert _ _ _ _ Hi). apply wrapU_id.
    pose proof (total_bound (<[i := c']> (m_fdContexts m))) as Hb.
    rewrite (total_insert _ _ _ _ Hi) in Hb.
    unfold fd_capacity in *. rewrite Ht in Hcap. unfold in_u.
    change (2 ^ 64) with (2 ^ 32 * 2 ^ 32). lia.
  - by rewrite Hcap.
Qed.

Lemma total_new_contexts n k : total (new_context <$> seq n k) = 0.
Proof. revert n. induction k as [|k IH]; intros n; simpl; [done|]. by rewrite IH. Qed.

Lemma resize_Inv m fd :
  IOInv m → 32 ≤ fd < 2 ^ 31 → fd_capacity m ≤ Z.of_nat (grown fd) →
  let m' := addEvent_resize fd m in
  IOInv m' ∧ fd < fd_capacity m' ∧
  ∃ k, m_fdContexts m' = m_fdContexts m ++ (new_context <$> k).
Proof.
  intros [Hs Hn Hl] Hfd Hg. unfold fd_capacity, Zlen in *.
  assert (fd < fd * 3 / 2 < 2 ^ 32) by (Z.to_euclidean_division_equations; lia).
  assert (length (m_fdContexts m) ≤ grown fd)%nat by lia.
  unfold addEvent_resize, contextResize. cbn [m_fdContexts with_contexts m_pendingEventCount].
  rewrite take_ge by done. split; [|split].
  - split; cbn [m_fdContexts with_contexts m_pendingEventCount].
    + apply Forall_app. split; [done|]. apply Forall_fmap, Forall_true.
      intros i. split; [by left|done..].
    + by rewrite total_app, total_new_contexts, Z.add_0_r.
    + unfold fd_capacity, Zlen. simpl. rewrite length_app, length_fmap, length_seq.
      unfold grown in *. lia.
  - rewrite length_app, length_fmap, length_seq. unfold grown in *. lia.
  - by eexists.
Qed.

Lemma context_at_spec m fd :
  IOInv m → 0 ≤ fd < fd_capacity m →
  ∃ c, context_at fd m = Ret c ∧ m_fdContexts m !! Z.to_nat fd = Some c ∧ fd_ok c.
Proof.
  intros [Hs _ _] Hfd. unfold context_at. unfold fd_capacity, Zlen in Hfd.
  destruct (Z.ltb_spec fd 0); [lia|].
  destruct (m_fdContexts m !! Z.to_nat fd) as [c|] eqn:Hc.
  - exists c. split_and!; [done..|]. by apply (Forall_lookup_1 _ _ _ _ Hs Hc).
  - apply lookup_ge_None in Hc. lia.
Qed.

(** The slot of an event that waits on a descriptor. *)
Definition waiting (m : IOManager) (fd event : Z) : option EventContext :=
  c ← m_fdContexts m !! Z.to_nat fd;
  if ev_has (fc_events c) event then Some (slot c event) else None.

Lemma waiting_slot m fd event c :
  m_fdContexts m !! Z.to_nat fd = Some c →
  waiting m fd event = if ev_has (fc_events c) event then Some (slot c event) else None.
Proof. intros H. unfold waiting. by rewrite H. Qed.

Lemma waiting_beyond m fd event : fd_capacity m ≤ fd → waiting m fd event = None.
Proof.
  unfold fd_capacity, Zlen, waiting. intros. rewrite lookup_ge_None_2; [done|]. lia.
Qed.

Lemma ev_has_clear c event :
  fd_ok c → is_event event → ev_has (ev_and (fc_events c) (ev_not event)) event = false.
Proof. intros [Hm _ _] He. by destruct Hm as [->|[->|[->| ->]]], He as [->| ->]. Qed.

Lemma ev_has_clear_other c event e :
  fd_ok c → is_event event → is_event e → e ≠ event →
  ev_has (ev_and (fc_events c) (ev_not event)) e = ev_has (fc_events c) e.
Proof.
  intros [Hm _ _] He He' ?. by destruct Hm as [->|[->|[->| ->]]], He as [->| ->], He' as [->| ->].
Qed.

(** ** delEvent and cancelEvent *)

(** What removing a registration does to the others: nothing. *)
Definition forgets (m m' : IOManager) (fd event : Z) : Prop :=
  waiting m' fd event = None ∧
  (∀ e, is_event e → e ≠ event → waiting m' fd e = waiting m fd e) ∧
  (∀ fd' e, 0 ≤ fd' → fd' ≠ fd → waiting m' fd' e = waiting m fd' e).

Lemma store_forgets m m' fd event c c' :
  0 ≤ fd → m_fdContexts m !! Z.to_nat fd = Some c → fd_ok c → is_event event →
  m_fdContexts m' = <[Z.to_nat fd := c']> (m_fdContexts m) →
  fc_events c' = ev_and (fc_events c) (ev_not event) →
  (∀ e, is_event e → e ≠ event → slot c' e = slot c e) →
  forgets m m' fd event.
Proof.
  intros Hfd Hc Hok He Ht Hev Hsl.
  assert (m_fdContexts m' !! Z.to_nat fd = Some c') as Hc'.
  { rewrite Ht, list_lookup_insert_eq; [done|]. by eapply lookup_lt_Some. }
  split_and!.
  - rewrite (waiting_slot _ _ _ _ Hc'), Hev. by rewrite ev_has_clear.
  - intros e ? ?. rewrite (waiting_slot _ _ _ _ Hc'), (waiting_slot _ _ _ _ Hc), Hev.
    rewrite ev_has_clear_other by done. by rewrite Hsl.
  - intros fd' e ? ?. unfold waiting. rewrite Ht, list_lookup_insert_ne by lia. done.
Qed.

Lemma cancelEvent_spec rt junk fd event m :
  IOInv m → 0 ≤ fd → is_event event →
  ∃ b m', cancelEvent rt junk fd event m = Ret (b, m') ∧ IOInv m' ∧
    match waiting m fd event, rt =? 0 with
    | Some e, true =>
        b = true ∧ m_fibers (io_sched m') = m_fibers (io_sched m) ++ [resumes e] ∧
        forgets m m' fd event
    | _, _ => b = false ∧ m' = m
    end.
Proof.
  intros HI Hfd He. unfold cancelEvent.
  destruct (Z.leb_spec (fd_capacity m) fd).
  { rewrite waiting_beyond by done. by exists false, m. }
  destruct (context_at_spec m fd HI) as (c & -> & Hc & Hok); [lia|]. cbn [obind].
  rewrite (waiting_slot _ _ _ _ Hc). unfold ev_has. destruct (ev_none _) eqn:En; cbn [negb].
  { by exists false, m. }
  destruct (Z.eqb_spec rt 0); cbn [negb]; [|by exists false, m].
  rewrite getContext_slot by done. cbn [obind].
  match goal with |- context [triggerEvent c event ?m0] => set (m1 := m0) end.
  destruct (trigger_spec c event m1 Hok He) as (c' & m2 & -> & Hok' & Hw & Hev & _ & Hsl & Hq);
    [unfold ev_has; by rewrite En|]. destruct Hq as (Hf & _ & _ & Hp & Ht & _).
  cbn [obind]. do 2 eexists. split; [reflexivity|]. split; [|split_and!; [done|done|]].
  - eapply (IOInv_store m _ (Z.to_nat fd) c c'); [done..| |].
    + simpl. by rewrite Ht.
    + cbn [m_pendingEventCount with_pending store_context with_contexts].
      rewrite Hp, Hw. f_equal. simpl. lia.
  - eapply store_forgets; [done..| |done|done]. simpl. by rewrite Ht.
Qed.

Lemma delEvent_spec rt junk fd event m :
  IOInv m → 0 ≤ fd → is_event event →
  ∃ b m', delEvent rt junk fd event m = Ret (b, m') ∧ IOInv m' ∧
    io_sched m' = io_sched m ∧
    match waiting m fd event, rt =? 0 with
    | Some _, true => b = true ∧ forgets m m' fd event
    | _, _ => b = false ∧ m' = m
    end.
Proof.
  intros HI Hfd He. unfold delEvent.
  destruct (Z.leb_spec (fd_capacity m) fd).
  { rewrite waiting_beyond by done. by exists false, m. }
  destruct (context_at_spec m fd HI) as (c & -> & Hc & Hok); [lia|]. cbn [obind].
  rewrite (waiting_slot _ _ _ _ Hc). unfold ev_has. destruct (ev_none _) eqn:En; cbn [negb].
  { by exists false, m. }
  destruct (Z.eqb_spec rt 0); cbn [negb]; [|by exists false, m].
  rewrite getContext_slot by done. cbn [obind].
  destruct (clear_ok c event Hok He) as [Hok' Hw]; [unfold ev_has; by rewrite En|].
  do 2 eexists. split; [reflexivity|]. split_and!; [|done|done|].
  - eapply (IOInv_store m _ (Z.to_nat fd) c); [done|done|exact Hok'|done|].
    cbn [m_pendingEventCount with_pending store_context with_contexts]. rewrite Hw.
    f_equal. simpl. lia.
  - eapply store_forgets; [done..| |]; [by destruct He as [->| ->]|].
    intros x [->| ->] ?; by destruct He as [->| ->].
Qed.

(** ** Triggering by a mask: cancelAll and the idle fiber *)

(** What [trigger_if] does when it returns. *)
Definition triggered (mask event : Z) (c : FdContext) (m : IOManager) (c' : FdContext)
    (m' : IOManager) : Prop :=
  fd_ok c' ∧ fc_fd c' = fc_fd c ∧
  (∀ e, is_event e → e ≠ event →
     slot c' e = slot c e ∧ ev_has (fc_events c') e = ev_has (fc_events c) e) ∧
  m_fdContexts m' = m_fdContexts m ∧ epoll m' = epoll m ∧ io_timers m' = io_timers m ∧
  if ev_has mask event then
    ev_has (fc_events c) event = true ∧
    fc_events c' = ev_and (fc_events c) (ev_not event) ∧
    waits c' = waits c - 1 ∧
    m_pendingEventCount m' = u64 (m_pendingEventCount m - 1) ∧
    m_fibers (io_sched m') = m_fibers (io_sched m) ++ [resumes (slot c event)]
  else c' = c ∧ m' = m.

Lemma trigger_if_spec mask event c m :
  fd_ok c → is_event event → (ev_has mask event = true → ev_has (fc_events c) event = true) →
  ∃ c' m', trigger_if mask event c m = Ret (c', m') ∧ triggered mask event c m c' m'.
Proof.
  intros Hc He Hh. unfold trigger_if, triggered. destruct (ev_has mask event).
  - specialize (Hh eq_refl).
    destruct (trigger_spec c event m Hc He Hh)
      as (c' & m' & -> & ? & ? & Hev & ? & Hsl & ? & ? & ? & Hp & ? & ?). cbn [obind].
    do 2 eexists. split; [reflexivity|]. split_and!; try done.
    + intros e ? ?. rewrite Hev. split; [by apply Hsl|by apply ev_has_clear_other].
    + simpl. by rewrite Hp.
  - exists c, m. by split_and!.
Qed.

Lemma trigger_if_inv mask event c m c' m' :
  fd_ok c → is_event event → trigger_if mask event c m = Ret (c', m') →
  triggered mask event c m c' m'.
Proof.
  intros Hc He H.
  destruct (trigger_if_spec mask event c m Hc He) as (c1 & m1 & E & Ht).
  - intros Hm. unfold trigger_if, triggerEvent in H. rewrite Hm in H. unfold ev_has.
    by destruct (ev_none _).
  - rewrite E in H. by simplify_eq.
Qed.

(** The events waiting on a descriptor, READ first. *)
Definition all_waiting (m : IOManager) (fd : Z) : list EventContext :=
  omap (waiting m fd) [READ; WRITE].

Lemma u64_sub a b : u64 (u64 a - b) = u64 (a - b).
Proof. apply Zminus_mod_idemp_l. Qed.

(** The two [trigger_if]s in a row, with the masks they see. *)
Lemma trigger_both m mR mW c c1 c2 m1 m2 :
  triggered mR READ c m c1 m1 → triggered mW WRITE c1 m1 c2 m2 →
  m_fdContexts m2 = m_fdContexts m ∧ fc_fd c2 = fc_fd c ∧ fd_ok c2 ∧
  io_timers m2 = io_timers m ∧ epoll m2 = epoll m ∧
  m_fibers (io_sched m2) = m_fibers (io_sched m) ++
    (if ev_has mR READ then [resumes (slot c READ)] else []) ++
    (if ev_has mW WRITE then [resumes (slot c WRITE)] else []) ∧
  (ev_has mR READ || ev_has mW WRITE = true →
   m_pendingEventCount m2 = u64 (m_pendingEventCount m - waits c + waits c2)).
Proof.
  intros (_ & Hfd & Hs & Ht & He & Hti & H1) (Hok & Hfd' & _ & Ht' & He' & Hti' & H2).
  rewrite Ht', Hfd', Hti', He'. split_and!; [done..| |].
  - assert (slot c1 WRITE = slot c WRITE) as HW
      by (destruct (ev_has mR READ); [by apply Hs; [right|]|by destruct H1 as [-> _]]).
    destruct (ev_has mR READ), (ev_has mW WRITE); destruct_and?; subst; rewrite ?app_nil_r;
      try done; repeat match goal with H : m_fibers _ = _ |- _ => rewrite H end;
      rewrite ?HW; by rewrite <- ?(assoc_L (++)).
  - destruct (ev_has mR READ), (ev_has mW WRITE); intros; destruct_and?; subst; try done;
      repeat match goal with H : m_pendingEventCount _ = _ |- _ => rewrite H end;
      rewrite ?u64_sub; f_equal; lia.
Qed.

Lemma cancelAll_spec rt fd m :
  IOInv m → 0 ≤ fd →
  ∃ b m', cancelAll rt fd m = Ret (b, m') ∧ IOInv m' ∧
    match all_waiting m fd, rt =? 0 with
    | _ :: _, true =>
        b = true ∧
        m_fibers (io_sched m') = m_fibers (io_sched m) ++ (resumes <$> all_waiting m fd) ∧
        all_waiting m' fd = [] ∧
        (∀ fd' e, 0 ≤ fd' → fd' ≠ fd → waiting m' fd' e = waiting m fd' e)
    | _, _ => b = false ∧ m' = m
    end.
Proof.
  intros HI Hfd. unfold cancelAll, all_waiting. cbn [omap list_omap].
  destruct (Z.leb_spec (fd_capacity m) fd).
  { rewrite !waiting_beyond by done. by exists false, m. }
  destruct (context_at_spec m fd HI) as (c & -> & Hc & Hok); [lia|]. cbn [obind].
  rewrite !(waiting_slot _ _ _ _ Hc).
  destruct (Z.eqb_spec (fc_events c) NONE) as [En|En].
  { exists false, m. rewrite En. by split_and!. }
  destruct (Z.eqb_spec rt 0) as [Hrt|]; cbn [negb].
  2: { exists false, m. by destruct (ev_has (fc_events c) READ), (ev_has (fc_events c) WRITE). }
  match goal with |- context [trigger_if _ READ c ?m0] => set (m1 := m0) end.
  destruct (trigger_if_spec (fc_events c) READ c m1 Hok) as (c1 & m2 & -> & H1); [by left|done|].
  cbn [obind]. pose proof H1 as (Hok1 & _ & Hs1 & _ & _ & _ & Hx1).
  destruct (trigger_if_spec (fc_events c1) WRITE c1 m2 Hok1) as (c2 & m3 & -> & H2);
    [by right|done|]. cbn [obind].
  destruct (trigger_both _ _ _ _ _ _ _ _ H1 H2) as (Ht & _ & Hok2 & _ & _ & Hq & Hp).
  pose proof H2 as (_ & _ & _ & _ & _ & _ & Hx2).
  assert (ev_has (fc_events c1) WRITE = ev_has (fc_events c) WRITE) as HW
    by (apply Hs1; [by right|done]).
  rewrite HW in *. assert (fc_events c2 = NONE) as Hnone.
  { destruct Hok as [Hm _ _]. destruct Hm as [E|[E|[E|E]]]; rewrite E in *; simpl in Hx1, Hx2;
      destruct_and?; subst; 
      repeat match goal with H : fc_events _ = _ |- _ => rewrite H end; done. }
  assert (ev_has (fc_events c) READ || ev_has (fc_events c) WRITE = true) as Hany.
  { destruct Hok as [Hm _ _]. by destruct Hm as [E|[E|[E|E]]]; rewrite E in *. }
  rewrite Hnone. cbn [negb Z.eqb NONE]. do 2 eexists. split; [reflexivity|]. split.
  { eapply (IOInv_store m _ (Z.to_nat fd) c c2); [done..|simpl; by rewrite Ht|].
    simpl. rewrite Hp by done. done. }
  assert (∀ e, is_event e → waiting (store_context fd c2 m3) fd e = None) as Hgone.
  { intros e He. unfold waiting. simpl. rewrite Ht. simpl.
    rewrite list_lookup_insert_eq by (by eapply lookup_lt_Some). simpl.
    rewrite Hnone. by destruct He as [->| ->]. }
  assert (∀ fd' e, 0 ≤ fd' → fd' ≠ fd →
    waiting (store_context fd c2 m3) fd' e = waiting m fd' e) as Hother.
  { intros fd' e' ? ?. unfold waiting. simpl. rewrite Ht. simpl.
    by rewrite list_lookup_insert_ne by lia. }
  rewrite !Hgone by (by constructor).
  destruct (ev_has (fc_events c) READ), (ev_has (fc_events c) WRITE); simpl in *; try done;
    split_and!; done.
Qed.

(** ** addEvent *)

(** What [addEvent] stores: the callback, or the fiber that calls it. *)
Definition caller_slot (t : nat) (cb : callback) (w : World) (e : EventContext) : Prop :=
  (engaged cb = true ∧ e = mkEC true None cb) ∨
  (cb = nullptr ∧ ∃ f w' F, GetThis t w = (Ret f, w') ∧ fibers w' !! f = Some F ∧
     m_state F = EXEC ∧ e = mkEC true (Some f) nullptr).

Lemma waiting_grow m m' k fd e :
  m_fdContexts m' = m_fdContexts m ++ (new_context <$> k) →
  is_event e → waiting m' fd e = waiting m fd e.
Proof.
  intros Ht He. unfold waiting. rewrite Ht.
  destruct (m_fdContexts m !! Z.to_nat fd) as [c|] eqn:Hc.
  - by rewrite (lookup_app_l_Some _ _ _ _ Hc).
  - rewrite lookup_app, Hc, list_lookup_fmap.
    destruct (k !! _); [|done]. simpl. by destruct He as [->| ->].
Qed.

(** The table [addEvent] works on: it has a context for the descriptor. *)
Lemma addEvent_table m fd :
  IOInv m → 0 ≤ fd < 2 ^ 31 →
  ∃ m1, (if addEvent_found fd m then m else addEvent_resize fd m) = m1 ∧
    IOInv m1 ∧ fd < fd_capacity m1 ∧ io_sched m1 = io_sched m ∧ io_world m1 = io_world m ∧
    epoll m1 = epoll m ∧ ∀ fd' e, is_event e → waiting m1 fd' e = waiting m fd' e.
Proof.
  intros HI Hfd. unfold addEvent_found. destruct (Z.ltb_spec fd (fd_capacity m)).
  - by exists m.
  - pose proof (io_size m HI).
    destruct (resize_Inv m fd HI) as (HI1 & Hlt & k & Hk);
      [lia|unfold grown; Z.to_euclidean_division_equations; lia|].
    eexists. split_and!; try done. intros. by eapply waiting_grow.
Qed.

(** The registration is stored. *)
Lemma add_store m1 m3 fd event c e :
  IOInv m1 → 0 ≤ fd → m_fdContexts m1 !! Z.to_nat fd = Some c → fd_ok c → is_event event →
  ev_has (fc_events c) event = false → slot_ok true e →
  m_fdContexts m3 = <[Z.to_nat fd :=
    set_context (set_events c (ev_or (fc_events c) event)) event e]> (m_fdContexts m1) →
  m_pendingEventCount m3 = u64 (m_pendingEventCount m1 + 1) →
  IOInv m3 ∧ waiting m3 fd event = Some e ∧
  (∀ fd' e', 0 ≤ fd' → is_event e' → ¬ (fd' = fd ∧ e' = event) →
     waiting m3 fd' e' = waiting m1 fd' e') ∧
  (∀ e', is_event e' →
     ev_has (ev_or (ev_or EPOLLET (fc_events c)) event) e' = true ↔
     is_Some (waiting m3 fd e')).
Proof.
  intros HI Hfd Hc Hok He Hev Hsl Ht Hp.
  destruct (set_ok c event e Hok He Hev Hsl) as [Hok' Hw'].
  assert (m_fdContexts m3 !! Z.to_nat fd =
    Some (set_context (set_events c (ev_or (fc_events c) event)) event e)) as Hc3
    by (rewrite Ht; apply list_lookup_insert_eq; by eapply lookup_lt_Some).
  split_and!.
  - eapply IOInv_store; [done..|]. rewrite Hp, Hw'. f_equal. lia.
  - rewrite (waiting_slot _ _ _ _ Hc3). destruct Hok as [Hm _ _], c; simpl in *.
    by destruct Hm as [->|[->|[->| ->]]], He as [->| ->].
  - intros fd' e' ? He' Hne. destruct (decide (fd' = fd)) as [->|].
    + rewrite (waiting_slot _ _ _ _ Hc3), (waiting_slot _ _ _ _ Hc).
      destruct Hok as [Hm _ _], c; simpl in *.
      destruct Hm as [->|[->|[->| ->]]], He as [->| ->], He' as [->| ->]; naive_solver.
    + unfold waiting. by rewrite Ht, list_lookup_insert_ne by lia.
  - intros e' He'. rewrite (waiting_slot _ _ _ _ Hc3). destruct Hok as [Hm _ _], c; simpl in *.
    destruct Hm as [->|[->|[->| ->]]], He as [->| ->], He' as [->| ->]; simpl;
      split; intros Hx; try done; by destruct Hx.
Qed.

Lemma addEvent_spec t rt fd event cb m e :
  IOInv m → 0 ≤ fd < 2 ^ 31 → is_event event → waiting m fd event = None →
  caller_slot t cb (io_world m) e →
  ∃ r m', addEvent true t rt fd event cb m = Ret (r, m') ∧ IOInv m' ∧
    io_sched m' = io_sched m ∧
    (∀ fd' e', 0 ≤ fd' → is_event e' → ¬ (fd' = fd ∧ e' = event) →
       waiting m' fd' e' = waiting m fd' e') ∧
    if rt =? 0 then
      r = 0 ∧ waiting m' fd event = Some e ∧
      ∃ mask, epoll m' !! fd = Some mask ∧
        ∀ e', is_event e' → ev_has mask e' = true ↔ is_Some (waiting m' fd e')
    else r = -1 ∧ waiting m' fd event = None ∧ epoll m' = epoll m.
Proof.
  intros HI Hfd He Hno Hcaller. unfold addEvent, addEvent_locked.
  destruct (addEvent_table m fd HI Hfd) as (m1 & -> & HI1 & Hcap & Hs1 & Hw1 & Hep1 & Hwt).
  destruct (context_at_spec m1 fd HI1) as (c & -> & Hc & Hok); [lia|]. cbn [obind].
  rewrite <- (Hwt fd event He) in Hno. rewrite (waiting_slot _ _ _ _ Hc) in Hno.
  destruct (ev_has (fc_events c) event) eqn:Hev; [done|].
  destruct (Z.eqb_spec rt 0); cbn [negb].
  2: { do 2 eexists. split; [reflexivity|]. split_and!; try done.
       - intros. by rewrite Hwt.
       - by rewrite (waiting_slot _ _ _ _ Hc), Hev. }
  rewrite getContext_slot by done. cbn [obind].
  assert (slot (set_events c (ev_or (fc_events c) event)) event = no_context) as ->.
  { pose proof (slot_ok_of c event Hok He) as Hsl. rewrite Hev in Hsl.
    rewrite <- Hsl. by destruct He as [->| ->]. }
  rewrite bool_decide_false by (by intros [? ?]). cbn [ec_scheduler ec_cb no_context engaged orb].
  destruct Hcaller as [[Hcb ->]|(-> & f & w' & F & HG & HF & HE & ->)].
  - rewrite Hcb. do 2 eexists. split; [reflexivity|].
    match goal with |- IOInv ?m3 ∧ _ =>
      destruct (add_store m1 m3 fd event c (mkEC true None cb)) as (? & Hwe & Hwo & Hm);
        [done|lia|done..|by split; auto|done|done|]
    end.
    split_and!; [done..| |done|done|].
    + intros. rewrite <- Hwt by done. by apply Hwo.
    + eexists. split; [|exact Hm]. simpl.
      destruct (fc_events c =? NONE); apply lookup_insert_eq.
  - cbn [engaged]. cbn [io_world with_pending epoll_apply with_epoll].
    rewrite Hw1, HG, HF, bool_decide_true by done. do 2 eexists. split; [reflexivity|].
    match goal with |- IOInv ?m3 ∧ _ =>
      destruct (add_store m1 m3 fd event c (mkEC true (Some f) nullptr))
        as (? & Hwe & Hwo & Hm); [done|lia|done..|split; [done|right; eauto]|done|done|]
    end.
    split_and!; [done..| |done|done|].
    + intros. rewrite <- Hwt by done. by apply Hwo.
    + eexists. split; [|exact Hm]. simpl.
      destruct (fc_events c =? NONE); apply lookup_insert_eq.
Qed.

(** ** The idle fiber *)

Lemma IOInv_frame m m' :
  IOInv m → m_fdContexts m' = m_fdContexts m →
  m_pendingEventCount m' = m_pendingEventCount m → IOInv m'.
Proof.
  intros [? ? Hl] Ht Hp. split; rewrite ?Ht, ?Hp; try done. unfold fd_capacity. by rewrite Ht.
Qed.

(** The mask the loop takes the events from, and the events it derives. *)
Definition real_events (first : Z) : Z :=
  let real := if negb (Z.land first EPOLLIN =? 0) then READ else NONE in
  if negb (Z.land first EPOLLOUT =? 0) then ev_or real WRITE else real.

Lemma real_events_has first e :
  is_event e → ev_has (real_events first) e = negb (Z.land first e =? 0).
Proof.
  intros He. unfold real_events.
  destruct He as [->| ->]; change EPOLLIN with READ; change EPOLLOUT with WRITE;
    destruct (Z.land first READ =? 0), (Z.land first WRITE =? 0); reflexivity.
Qed.

Lemma real_events_waits c real :
  fd_ok c → (∃ f, real = real_events f) → (ev_and (fc_events c) real =? NONE) = false →
  ev_has real READ || ev_has real WRITE = true.
Proof.
  intros _ [f ->]. unfold real_events.
  destruct (negb _), (negb _); intros H; try done. by rewrite Z.land_0_r in H.
Qed.

Lemma idle_event_Inv rt2 i arr m arr' m' :
  IOInv m → idle_event rt2 i (arr, m) = Ret (arr', m') → IOInv m'.
Proof.
  intros HI. unfold idle_event.
  destruct (arr !! i) as [ev|]; [|done]. destruct (ee_data ev) as [|fd].
  { intros [= <- <-]. by apply (IOInv_frame m). }
  destruct (m_fdContexts m !! fd) as [c|] eqn:Hc; [|done].
  pose proof (Forall_lookup_1 _ _ _ _ (io_slots m HI) Hc) as Hok. cbv zeta.
  match goal with |- context [default 0 (ee_events <$> head ?a)] =>
    set (first := default 0 (ee_events <$> head a)) end.
  fold (real_events first). destruct (_ =? NONE) eqn:En; [by intros [= <- <-]|].
  destruct (rt2 =? 0); cbn [negb]; [|by intros [= <- <-]].
  match goal with |- context [trigger_if _ READ c ?x] => set (m1 := x) end.
  destruct (trigger_if (real_events first) READ c m1) as [[c1 m2]| |] eqn:E1; [|done..].
  apply trigger_if_inv in E1; [|done|by left]. cbn [obind].
  destruct (trigger_if _ WRITE c1 m2) as [[c2 m3]| |] eqn:E2; [|done..].
  apply trigger_if_inv in E2; [|by apply E1|by right]. cbn [obind]. intros [= <- <-].
  destruct (trigger_both _ _ _ _ _ _ _ _ E1 E2) as (Ht & _ & Hok2 & _ & _ & _ & Hp).
  eapply (IOInv_store m _ fd c c2); [done..|simpl; by rewrite Ht|].
  simpl. apply Hp. eapply real_events_waits; [exact Hok|by eexists|done].
Qed.

Lemma idle_events_Inv ctl idxs arr m arr' m' :
  IOInv m → idle_events ctl idxs (arr, m) = Ret (arr', m') → IOInv m'.
Proof.
  revert arr m. induction idxs as [|i idxs IH]; intros arr m HI H; cbn [idle_events] in H.
  { by simplify_eq. }
  destruct (idle_event _ i (arr, m)) as [[arr1 m1]| |] eqn:E; [|done..].
  cbn [obind] in H. eapply IH; [|done]. by eapply idle_event_Inv.
Qed.

Lemma io_schedule_range_frame cbs m :
  m_fdContexts (io_schedule_range cbs m) = m_fdContexts m ∧
  m_pendingEventCount (io_schedule_range cbs m) = m_pendingEventCount m.
Proof.
  unfold io_schedule_range, io_tickle. destruct (schedule_loop _ _ _) as [[] s]; [|done].
  by destruct (hasIdleThreads _).
Qed.

Lemma idle_turn_Inv now now_addr ctl ready m m' :
  IOInv m → idle_turn now now_addr ctl ready m = Ret m' → IOInv m'.
Proof.
  intros HI H. unfold idle_turn in H. destruct (listExpiredCb _ _ _) as [cbs t].
  match type of H with obind (idle_events _ _ (_, ?x)) _ = _ => assert (IOInv x) as HI1 end.
  { assert (IOInv (with_io_timers t m)) by (by apply (IOInv_frame m)).
    destruct cbs as [|b cbs]; [done|].
    destruct (io_schedule_range_frame (b :: cbs) (with_io_timers t m)).
    by apply (IOInv_frame (with_io_timers t m)). }
  destruct (idle_events _ _ _) as [[arr1 m1]| |] eqn:E; [|done..].
  cbn [obind] in H. simplify_eq. by eapply idle_events_Inv.
Qed.

(** The loop body on a ready context whose mask, taken from the first cell,
    has bits of waiting events only. *)
Lemma idle_event_ready arr i m ev fd c first :
  IOInv m → arr !! i = Some ev → ee_data ev = data_ctx fd →
  m_fdContexts m !! fd = Some c →
  first = default 0 (ee_events <$> head
    (if negb (Z.land (ee_events ev) (Z.lor EPOLLERR EPOLLHUP) =? 0)
     then <[i := mkEpollEvent (Z.lor (ee_events ev)
                                (Z.land (Z.lor EPOLLIN EPOLLOUT) (fc_events c)))
                   (ee_data ev)]> arr else arr)) →
  (∀ e, is_event e → ev_has (real_events first) e = true → ev_has (fc_events c) e = true) →
  ∃ arr' m', idle_event 0 i (arr, m) = Ret (arr', m') ∧
    m_fibers (io_sched m') = m_fibers (io_sched m) ++
      (if ev_has (real_events first) READ then [resumes (slot c READ)] else []) ++
      (if ev_has (real_events first) WRITE then [resumes (slot c WRITE)] else []) ∧
    (∀ fd', fd' ≠ fd → m_fdContexts m' !! fd' = m_fdContexts m !! fd') ∧
    (real_events first ≠ NONE → arr' = <[i := mkEpollEvent
       (ev_or EPOLLET (ev_and (fc_events c) (ev_not (real_events first)))) (ee_data ev)]> arr).
Proof.
  intros HI Hev Hd Hc Hfirst Hsub. unfold idle_event. rewrite Hev, Hd, Hc. cbv zeta.
  rewrite <- Hd, <- Hfirst. fold (real_events first).
  pose proof (Forall_lookup_1 _ _ _ _ (io_slots m HI) Hc) as Hok.
  assert (i < length arr)%nat as Hi by (by eapply lookup_lt_Some).
  destruct (Z.eqb_spec (ev_and (fc_events c) (real_events first)) NONE) as [En|En].
  - assert (∀ e, is_event e → ev_has (real_events first) e = false) as Hnone.
    { intros e He. destruct (ev_has (real_events first) e) eqn:E; [|done].
      pose proof (Hsub e He E) as Hx. destruct Hok as [Hm _ _]. unfold real_events in *.
      by destruct (negb (Z.land first EPOLLIN =? 0)), (negb (Z.land first EPOLLOUT =? 0)),
        Hm as [Em|[Em|[Em|Em]]], He as [->| ->]; rewrite Em in *. }
    do 2 eexists. split; [reflexivity|]. rewrite !Hnone by (by constructor).
    rewrite app_nil_r. split_and!; [done..|]. intros Hx. exfalso. apply Hx.
    pose proof (Hnone READ (or_introl eq_refl)). pose proof (Hnone WRITE (or_intror eq_refl)).
    unfold real_events in *. 
    by destruct (negb (Z.land first EPOLLIN =? 0)), (negb (Z.land first EPOLLOUT =? 0)).
  - cbn [negb Z.eqb].
    match goal with |- context [trigger_if _ READ c ?x] => set (m1 := x) end.
    destruct (trigger_if_spec (real_events first) READ c m1 Hok) as (c1 & m2 & -> & H1);
      [by left|by apply Hsub; left|]. cbn [obind].
    pose proof H1 as (Hok1 & _ & Hs1 & _).
    destruct (trigger_if_spec (real_events first) WRITE c1 m2 Hok1) as (c2 & m3 & -> & H2);
      [by right| |].
    { intros Hx. rewrite (proj2 (Hs1 WRITE (or_intror eq_refl) ltac:(done))).
      apply Hsub; [by right|done]. }
    cbn [obind]. destruct (trigger_both _ _ _ _ _ _ _ _ H1 H2) as (Ht & _ & _ & _ & _ & Hq & _).
    do 2 eexists. split; [reflexivity|]. simpl. split_and!; [done| |].
    + intros fd' Hne. by rewrite Ht, list_lookup_insert_ne.
    + intros _. destruct (negb (Z.land (ee_events ev) _ =? 0)); [|done].
      by rewrite list_insert_insert_eq.
Qed.

(** * Runs of the manager *)

(** [IoResize] is the part of an [addEvent] under the write lock, [IoAdd] the
    part under the lock of the context; steps of other threads may come before,
    between and after them. *)
Inductive io_op :=
| IoResize (fd : Z)
| IoAdd (t : nat) (rt fd event : Z) (cb : callback)
| IoDel (rt junk fd event : Z)
| IoCancel (rt junk fd event : Z)
| IoCancelAll (rt fd : Z)
| IoIdle (now now_addr : Z) (ctl : nat → Z) (ready : list epoll_event).

Definition io_exec (op : io_op) (m : IOManager) : outcome IOManager :=
  match op with
  | IoResize fd => Ret (addEvent_resize fd m)
  | IoAdd t rt fd event cb => let! (_, m) := addEvent_locked true t rt fd event cb m in Ret m
  | IoDel rt junk fd event => let! (_, m) := delEvent rt junk fd event m in Ret m
  | IoCancel rt junk fd event => let! (_, m) := cancelEvent rt junk fd event m in Ret m
  | IoCancelAll rt fd => let! (_, m) := cancelAll rt fd m in Ret m
  | IoIdle now now_addr ctl ready => idle_turn now now_addr ctl ready m
  end.

(** The arguments are a descriptor and an event of the enumeration.  A resize
    was asked for by an [addEvent] that found the table too small, at that
    time or before, and does not make it smaller now; the last part of
    [addEvent] has its context. *)
Definition io_valid (op : io_op) (m : IOManager) : Prop :=
  match op with
  | IoResize fd => 32 ≤ fd < 2 ^ 31 ∧ fd_capacity m ≤ Z.of_nat (grown fd)
  | IoAdd _ _ fd event _ => 0 ≤ fd < 2 ^ 31 ∧ is_event event ∧ addEvent_found fd m = true
  | IoDel _ _ fd event | IoCancel _ _ fd event =>
      0 ≤ fd < 2 ^ 31 ∧ is_event event
  | IoCancelAll _ fd => 0 ≤ fd < 2 ^ 31
  | IoIdle _ _ _ _ => True
  end.

Inductive io_reachable (s : Scheduler) (t : TimerManager) (w : World) : IOManager → Prop :=
| io_reach_new : io_reachable s t w (IOManager_new s t w)
| io_reach_step m op m' :
    io_reachable s t w m → io_valid op m → io_exec op m = Ret m' → io_reachable s t w m'.

Lemma addEvent_Inv t rt fd event cb m r m' :
  IOInv m → 0 ≤ fd < 2 ^ 31 → is_event event →
  addEvent true t rt fd event cb m = Ret (r, m') → IOInv m'.
Proof.
  intros HI Hfd He H. destruct (waiting m fd event) as [e|] eqn:Hw.
  - exfalso. unfold addEvent, addEvent_locked in H.
    destruct (addEvent_table m fd HI Hfd) as (m1 & E & HI1 & Hcap & _ & _ & _ & Hwt).
    rewrite E in H. destruct (context_at_spec m1 fd HI1) as (c & Ec & Hc & _); [lia|].
    rewrite Ec in H. cbn [obind] in H. rewrite <- Hwt, (waiting_slot _ _ _ _ Hc) in Hw by done.
    by destruct (ev_has (fc_events c) event).
  - assert ((∃ e, caller_slot t cb (io_world m) e) ∨ rt ≠ 0) as [[e Hcs]|Hrt].
    { unfold addEvent, addEvent_locked in H. destruct (addEvent_table m fd HI Hfd)
        as (m1 & E & HI1 & Hcap & _ & Hw1 & _ & Hwt). rewrite E in H.
      destruct (decide (rt = 0)) as [->|]; [left|by right].
      destruct (context_at fd m1) as [c| |]; [|done..]. cbn [obind] in H.
      destruct (ev_has _ event); [done|]. cbn [negb Z.eqb] in H.
      rewrite getContext_slot in H by done. cbn [obind] in H.
      destruct (_ || _ || _); [done|]. destruct (engaged cb) eqn:Hcb; [by eexists; left|].
      cbn [io_world with_pending epoll_apply with_epoll] in H. rewrite Hw1 in H.
      destruct (GetThis t (io_world m)) as [[f| |] w'] eqn:HG; [|done..].
      destruct (fibers w' !! f) as [F|] eqn:HF; [|done].
      destruct (bool_decide _) eqn:Hb; [|done]. apply bool_decide_eq_true in Hb.
      eexists. right. split; [by destruct cb|]. by exists f, w', F. }
    + destruct (addEvent_spec t rt fd event cb m e HI Hfd He Hw Hcs) as (? & ? & E & ? & _).
      rewrite E in H. by simplify_eq.
    + destruct (addEvent_spec t rt fd event (UserCb 0) m (mkEC true None (UserCb 0)) HI Hfd He Hw)
        as (? & ? & E & ? & _); [by left|].
      unfold addEvent, addEvent_locked in H, E. apply Z.eqb_neq in Hrt. rewrite Hrt in *.
      destruct (context_at _ _); [|done..]. cbn [obind negb] in *.
      destruct (ev_has _ _); [done|]. by simplify_eq.
Qed.

Lemma io_exec_Inv op m m' : IOInv m → io_valid op m → io_exec op m = Ret m' → IOInv m'.
Proof.
  intros HI Hv H. destruct op as [fd|t rt fd ev cb|rt junk fd ev|rt junk fd ev|rt fd|now a ctl l];
    cbn [io_exec io_valid] in *.
  - simplify_eq. destruct Hv as [Hfd Hg]. by destruct (resize_Inv m fd HI Hfd Hg).
  - destruct (addEvent_locked true t rt fd ev cb m) as [[r m1]| |] eqn:E; [|done..]. cbn [obind] in H.
    simplify_eq. destruct Hv as (Hfd & He & Hf). eapply (addEvent_Inv t rt fd ev cb m r m'); [done..|].
    unfold addEvent. by rewrite Hf.
  - destruct (delEvent_spec rt junk fd ev m HI) as (b & m1 & E & ? & _); [lia|tauto|].
    rewrite E in H. by simplify_eq/=.
  - destruct (cancelEvent_spec rt junk fd ev m HI) as (b & m1 & E & ? & _); [lia|tauto|].
    rewrite E in H. by simplify_eq/=.
  - destruct (cancelAll_spec rt fd m HI) as (b & m1 & E & ? & _); [lia|].
    rewrite E in H. by simplify_eq/=.
  - by eapply idle_turn_Inv.
Qed.

Lemma IOManager_new_Inv s t w : IOInv (IOManager_new s t w).
Proof.
  split; simpl.
  - repeat constructor.
  - done.
  - unfold fd_capacity, Zlen. simpl. lia.
Qed.

(** * Properties *)

(** C9. Let workers of this manager add, delete and cancel events while the
    idle fibers deliver them, in any order, with the parts of [addEvent] (the
    resize of the table, the registration) as steps of their own, whatever
    epoll answers and as long as no resize makes the table smaller than it is
    by then.  Then [m_pendingEventCount] is the number of registered events,
    and the slot of an event holds a scheduler and exactly one of a fiber and a
    callback if the event is registered, and nothing if not.  (Two [addEvent]s
    that both find the table too small can make it smaller, and registrations
    are lost: [resize_race].) *)
Theorem io_registrations_exact (s : Scheduler) (t : TimerManager) (w : World) (m : IOManager) :
  io_reachable s t w m →
  m_pendingEventCount m = total (m_fdContexts m) ∧ Forall fd_ok (m_fdContexts m).
Proof.
  intros Hr. assert (IOInv m) as [? ? _]; [|done].
  induction Hr as [|m op m' _ IH Hv He]; [apply IOManager_new_Inv|by eapply io_exec_Inv].
Qed.

(** A resize to fewer contexts drops the registrations beyond them, which
    [m_pendingEventCount] still counts. *)
Lemma resize_loses m fd fd' event e :
  waiting m fd' event = Some e → Z.of_nat (grown fd) ≤ fd' →
  let m' := addEvent_resize fd m in
  waiting m' fd' event = None ∧ m_pendingEventCount m' = m_pendingEventCount m.
Proof.
  intros Hw Hg. split; [|done]. apply waiting_beyond. unfold fd_capacity, Zlen, addEvent_resize.
  assert (fd' < fd_capacity m) by (apply Z.nle_gt; intros Hx; by rewrite waiting_beyond in Hw).
  unfold fd_capacity, Zlen, contextResize in *. cbn [m_fdContexts with_contexts].
  rewrite length_app, length_take, length_fmap, length_seq. lia.
Qed.

(** C31. A worker of this manager registers an event and cancels it, with no
    other thread in between: [addEvent] returns 0 and arms
    epoll with exactly the events that wait on the descriptor; [cancelEvent]
    then returns true and schedules, once, the callback or the fiber that was
    registered; [delEvent] in its place schedules nothing.  Both leave every
    registration as it was before. *)
Theorem add_then_cancel (t : nat) (junk fd event : Z) (cb : callback) (m : IOManager)
    (e : EventContext) :
  IOInv m → 0 ≤ fd < 2 ^ 31 → is_event event → waiting m fd event = None →
  caller_slot t cb (io_world m) e →
  ∃ m1, addEvent true t 0 fd event cb m = Ret (0, m1) ∧ waiting m1 fd event = Some e ∧
    (∃ mask, epoll m1 !! fd = Some mask ∧
       ∀ e', is_event e' → ev_has mask e' = true ↔ is_Some (waiting m1 fd e')) ∧
    (∃ m2, cancelEvent 0 junk fd event m1 = Ret (true, m2) ∧
       m_fibers (io_sched m2) = m_fibers (io_sched m) ++ [resumes e] ∧
       ∀ fd' e', 0 ≤ fd' → is_event e' → waiting m2 fd' e' = waiting m fd' e') ∧
    (∃ m3, delEvent 0 junk fd event m1 = Ret (true, m3) ∧
       m_fibers (io_sched m3) = m_fibers (io_sched m) ∧
       ∀ fd' e', 0 ≤ fd' → is_event e' → waiting m3 fd' e' = waiting m fd' e').
Proof.
  intros HI Hfd He Hno Hcs.
  destruct (addEvent_spec t 0 fd event cb m e HI Hfd He Hno Hcs)
    as (r & m1 & Ea & HI1 & Hs & Ho & -> & Hw & Hm).
  destruct (cancelEvent_spec 0 junk fd event m1 HI1) as (b & m2 & Ec & _ & Hc); [lia|done|].
  destruct (delEvent_spec 0 junk fd event m1 HI1) as (b' & m3 & Ed & _ & Hsd & Hd); [lia|done|].
  rewrite Hw in Hc, Hd. destruct Hc as (-> & Hq & Hf), Hd as (-> & Hf').
  assert (∀ m', forgets m1 m' fd event →
    ∀ fd' e', 0 ≤ fd' → is_event e' → waiting m' fd' e' = waiting m fd' e') as Hrest.
  { intros m' (Hg & Hse & Hof) fd' e' ? ?. destruct (decide (fd' = fd)) as [->|].
    - destruct (decide (e' = event)) as [->|]; [congruence|]. rewrite Hse by done. naive_solver.
    - rewrite Hof by done. naive_solver. }
  exists m1. split_and!; [done..|exists m2|exists m3]; split_and!; try done; eauto.
  - by rewrite Hq, Hs.
  - by rewrite Hsd, Hs.
Qed.

(** C36. [cancelAll] on a descriptor with registered events schedules each of
    them once, READ before WRITE, and leaves none registered on it; the other
    descriptors keep theirs.  With none registered, or when epoll refuses, it
    returns false and changes nothing. *)
Theorem cancelAll_schedules_all (rt fd : Z) (m : IOManager) :
  IOInv m → 0 ≤ fd →
  ∃ b m', cancelAll rt fd m = Ret (b, m') ∧
    (b = true ↔ all_waiting m fd ≠ [] ∧ rt = 0) ∧
    if b then
      m_fibers (io_sched m') = m_fibers (io_sched m) ++ (resumes <$> all_waiting m fd) ∧
      all_waiting m' fd = [] ∧
      (∀ fd' e, 0 ≤ fd' → fd' ≠ fd → waiting m' fd' e = waiting m fd' e)
    else m' = m.
Proof.
  intros HI Hfd. destruct (cancelAll_spec rt fd m HI Hfd) as (b & m' & E & _ & H).
  exists b, m'. split; [done|].
  destruct (all_waiting m fd) as [|x l], (Z.eqb_spec rt 0); destruct_and?; subst;
    naive_solver.
Qed.

(** The events of [ready] that the single-event turn resumes. *)
Definition delivered (mask : Z) (c : FdContext) (e : Z) : bool :=
  ev_has (fc_events c) e &&
  (ev_has mask e || negb (Z.land mask (Z.lor EPOLLERR EPOLLHUP) =? 0)).

Lemma real_single mask c e :
  fd_ok c → is_event e → (ev_has mask e = true → ev_has (fc_events c) e = true) →
  ev_has (real_events
    (if negb (Z.land mask (Z.lor EPOLLERR EPOLLHUP) =? 0)
     then Z.lor mask (Z.land (Z.lor EPOLLIN EPOLLOUT) (fc_events c)) else mask)) e
  = delivered mask c e.
Proof.
  intros [Hm _ _] He Hsub. rewrite real_events_has by done. unfold delivered.
  assert (Z.lor EPOLLIN EPOLLOUT = 5) as -> by done.
  assert (negb (Z.land mask e =? 0) = ev_has mask e) as Hme by done.
  destruct (Z.land mask (Z.lor EPOLLERR EPOLLHUP) =? 0); cbn [negb].
  - rewrite Hme, orb_false_r. destruct (ev_has mask e); [by rewrite Hsub|by rewrite andb_false_r].
  - rewrite orb_true_r, andb_true_r, Z.land_lor_distr_l.
    replace (Z.land (Z.land 5 (fc_events c)) e) with (Z.land (fc_events c) e)
      by (destruct Hm as [->|[->|[->| ->]]], He as [->| ->]; reflexivity).
    unfold ev_has, ev_none, ev_and in *. destruct (Z.eqb_spec (Z.land mask e) 0) as [E|E].
    + by rewrite E, Z.lor_0_l.
    + rewrite Hsub by done. apply negb_true_iff, Z.eqb_neq.
      intros Hz%Z.lor_eq_0_iff. tauto.
Qed.

(** C30. When [epoll_wait] reports one descriptor, and for it only events that
    are registered (or an error), the idle fiber schedules exactly the
    registered events that are ready, all the registered ones on an error or
    hang-up, READ before WRITE, and touches no other descriptor. *)
Theorem idle_resumes_ready (mask : Z) (fd : nat) (c : FdContext) (m : IOManager) :
  IOInv m → m_fdContexts m !! fd = Some c →
  (∀ e, is_event e → ev_has mask e = true → ev_has (fc_events c) e = true) →
  ∃ arr m', idle_events (λ _, 0) [0%nat] ([mkEpollEvent mask (data_ctx fd)], m) = Ret (arr, m') ∧
    m_fibers (io_sched m') = m_fibers (io_sched m) ++
      (if delivered mask c READ then [resumes (slot c READ)] else []) ++
      (if delivered mask c WRITE then [resumes (slot c WRITE)] else []) ∧
    ∀ fd', fd' ≠ fd → m_fdContexts m' !! fd' = m_fdContexts m !! fd'.
Proof.
  intros HI Hc Hsub. pose proof (Forall_lookup_1 _ _ _ _ (io_slots m HI) Hc) as Hok.
  destruct (idle_event_ready [mkEpollEvent mask (data_ctx fd)] 0 m
    (mkEpollEvent mask (data_ctx fd)) fd c
    (if negb (Z.land mask (Z.lor EPOLLERR EPOLLHUP) =? 0)
     then Z.lor mask (Z.land (Z.lor EPOLLIN EPOLLOUT) (fc_events c)) else mask))
    as (arr' & m' & E & Hq & Ho & _); [done|done|done|done|..].
  - simpl. by destruct (negb _).
  - intros e He. rewrite real_single by auto. by intros [? _]%andb_prop.
  - exists arr', m'. cbn [idle_events]. rewrite E. cbn [obind]. split_and!; [done| |done].
    assert (is_event READ) by (by left). assert (is_event WRITE) by (by right).
    by rewrite Hq, !real_single by auto.
Qed.

(** With two ready descriptors the loop reads the mask of the first cell
    of the array in both turns, and the first turn has overwritten it: when
    the first descriptor waits for READ only and is readable, the second one's
    events are not delivered, whatever they are. Both were edge-triggered, so
    the second is not reported again. *)
Theorem idle_loses_second_event (i j : nat) (mask : Z) (ci cj : FdContext) (m : IOManager) :
  IOInv m → i ≠ j → m_fdContexts m !! i = Some ci → m_fdContexts m !! j = Some cj →
  fc_events ci = READ → Z.land mask (Z.lor EPOLLERR EPOLLHUP) = 0 →
  ∃ arr m', idle_events (λ _, 0) [0%nat; 1%nat]
      ([mkEpollEvent EPOLLIN (data_ctx i); mkEpollEvent mask (data_ctx j)], m) = Ret (arr, m') ∧
    m_fibers (io_sched m') = m_fibers (io_sched m) ++ [resumes (slot ci READ)] ∧
    m_fdContexts m' !! j = Some cj.
Proof.
  intros HI Hij Hi Hj Hev Herr.
  destruct (idle_event_ready [mkEpollEvent EPOLLIN (data_ctx i); mkEpollEvent mask (data_ctx j)]
    0 m (mkEpollEvent EPOLLIN (data_ctx i)) i ci EPOLLIN) as (arr' & m' & E & Hq & Ho & Harr); [done|done|done|done|done| |].
  { rewrite Hev. by intros e [->| ->]. }
  specialize (Harr ltac:(done)). rewrite Hev in Harr.
  exists arr', m'. cbn [idle_events]. rewrite E. cbn [obind].
  subst arr'.
  split_and!; [|exact Hq|by rewrite Ho].
  assert (idle_event 0 1 ([mkEpollEvent EPOLLET (data_ctx i); mkEpollEvent mask (data_ctx j)], m')
    = Ret ([mkEpollEvent EPOLLET (data_ctx i); mkEpollEvent mask (data_ctx j)], m')) as E1.
  { unfold idle_event. cbn [lookup list_lookup ee_data ee_events].
    rewrite Ho, Hj, Herr by done. cbn [Z.eqb negb head fmap option_fmap option_map default].
    change (negb (Z.land EPOLLET EPOLLIN =? 0)) with false.
    change (negb (Z.land EPOLLET EPOLLOUT =? 0)) with false.
    unfold ev_and. by rewrite Z.land_0_r. }
  match goal with |- obind (idle_event 0 1 (?a, m')) _ = _ =>
    change a with [mkEpollEvent EPOLLET (data_ctx i); mkEpollEvent mask (data_ctx j)] end.
  by rewrite E1.
Qed.

(** The timeout of [epoll_wait] is the delay to the next timer, at most
    five seconds, for every delay below 2^31 milliseconds and when there is no
    timer. A longer delay is cut to its low 32 bits: from 2^31 to 2^32 - 1 the
    timeout is negative, and [epoll_wait] then has no timeout. *)
Theorem epoll_timeout_bounds (n : Z) :
  (0 ≤ n < 2 ^ 31 → epoll_timeout n = Z.min n MAX_TIMEOUT) ∧
  epoll_timeout u64_max = MAX_TIMEOUT ∧
  (2 ^ 31 ≤ n < 2 ^ 32 → epoll_timeout n < 0).
Proof.
  unfold epoll_timeout, MAX_TIMEOUT, u64_max. split_and!.
  - intros Hn. destruct (Z.eqb_spec n (2 ^ 64 - 1)); [lia|]. cbn [negb].
    assert (i32 n = n) as -> by (apply wrapS_id; [lia|unfold in_s; simpl; lia]).
    destruct (Z.ltb_spec 5000 n).
    + rewrite Z.min_r by lia. done.
    + rewrite Z.min_l by lia. apply wrapS_id; [lia|unfold in_s; simpl; lia].
  - done.
  - intros Hn. destruct (Z.eqb_spec n (2 ^ 64 - 1)); [lia|]. cbn [negb].
    assert (i32 n = n - 2 ^ 32) as Hi.
    { unfold i32, wrapS. replace (n + 2 ^ (32 - 1)) with ((n - 2 ^ 31) + 1 * 2 ^ 32) by lia.
      rewrite Z.mod_add, Z.mod_small by lia. lia. }
    rewrite Hi. destruct (Z.ltb_spec 5000 (n - 2 ^ 32)); [lia|]. rewrite Hi. lia.
Qed.

(** The manager stops only when nothing can wake it any more: [stopping]
    is true exactly when no timer is set, no event is registered on any
    descriptor, and the base scheduler may stop. *)
Theorem io_stopping_exact (now : Z) (m : IOManager) :
  IOInv m → 0 ≤ now → (∀ a, a ∈ m_timers (io_timers m) → next_of (heap (io_timers m)) a < u64_max) →
  fst (fst (io_stopping now m)) = true ↔
  m_timers (io_timers m) = [] ∧ total (m_fdContexts m) = 0 ∧ stopping (io_sched m) = true.
Proof.
  intros [_ Hn _] Hnow Hmax. unfold io_stopping, getNextTimer. cbn [m_timers heap].
  rewrite Hn. destruct (m_timers (io_timers m)) as [|a l] eqn:Ht; cbn [fst].
  - rewrite Z.eqb_refl. cbn [andb]. rewrite andb_true_iff, Z.eqb_eq. naive_solver.
  - specialize (Hmax a ltac:(left)).
    destruct (Z.leb_spec (next_of (heap (io_timers m)) a) now); cbn [fst].
    + change (0 =? u64_max) with false. naive_solver.
    + assert (u64 (next_of (heap (io_timers m)) a - now) ≠ u64_max) as Hne%Z.eqb_neq.
      { unfold u64_max in *. rewrite u64_small by lia. lia. }
      rewrite Hne. naive_solver.
Qed.

(** * Witnesses *)

Definition demo_sched : Scheduler := mkScheduler [] [] None 1 0 0 true true (-1) 0.
Definition demo_new : IOManager := IOManager_new demo_sched (TimerManager_new 0) world0.

(** Two descriptors wait for READ, by callbacks. *)
Definition demo_io : IOManager :=
  match addEvent true 0 0 5 READ (UserCb 3) demo_new with
  | Ret (_, m) =>
      match addEvent true 0 0 40 READ (UserCb 4) m with Ret (_, m) => m | _ => m end
  | _ => demo_new
  end.

(** Two threads add an event for 40 and for 70 and both find the table, of 32
    contexts, too small; the one for 70 is registered; then the other resizes
    to 60.  The registration is lost, and still counted. *)
Lemma resize_race :
  addEvent_found 40 demo_new = false ∧ addEvent_found 70 demo_new = false ∧
  match addEvent_locked true 0 0 70 READ (UserCb 3) (addEvent_resize 70 demo_new) with
  | Ret (r, m1) =>
      let m2 := addEvent_resize 40 m1 in
      r = 0 ∧ m_pendingEventCount m2 = 1 ∧ total (m_fdContexts m2) = 0 ∧
      cancelEvent 0 0 70 READ m2 = Ret (false, m2)
  | _ => False
  end.
Proof. vm_compute. repeat split. Qed.

(** An event added on a thread without a scheduler cannot be delivered. *)
Lemma add_without_scheduler :
  match addEvent false 0 0 5 READ (UserCb 3) demo_new with
  | Ret (r, m) => r = 0 ∧ cancelEvent 0 0 5 READ m = Fault NullDeref
  | _ => False
  end.
Proof. vm_compute. repeat split. Qed.

Lemma io_reach_add s t w m n fd event cb r m' :
  io_reachable s t w m → (addEvent_found fd m = true ∨ 32 ≤ fd ∧ fd_capacity m ≤ Z.of_nat (grown fd)) →
  0 ≤ fd < 2 ^ 31 → is_event event → IOInv m →
  addEvent true n 0 fd event cb m = Ret (r, m') → io_reachable s t w m'.
Proof.
  intros Hr Hg Hfd He HI. unfold addEvent. destruct (addEvent_found fd m) eqn:Ef; intros E.
  - apply (io_reach_step _ _ _ m (IoAdd n 0 fd event cb)); [done|by split|].
    cbn [io_exec]. by rewrite E.
  - destruct Hg as [|[Hf Hg]]; [done|].
    destruct (resize_Inv m fd HI) as (_ & Hlt & _); [lia|done|].
    apply (io_reach_step _ _ _ (addEvent_resize fd m) (IoAdd n 0 fd event cb)).
    + apply (io_reach_step _ _ _ m (IoResize fd)); [done|split; [lia|done]|done].
    + split; [lia|]. split; [done|]. unfold addEvent_found. lia.
    + cbn [io_exec]. by rewrite E.
Qed.

Lemma demo_io_reachable : io_reachable demo_sched (TimerManager_new 0) world0 demo_io.
Proof.
  destruct (addEvent true 0 0 5 READ (UserCb 3) demo_new) as [[r m]| |] eqn:E1;
    [|by vm_compute in E1..].
  destruct (addEvent true 0 0 40 READ (UserCb 4) m) as [[r' m']| |] eqn:E2;
    [|vm_compute in E1; injection E1 as <- <-; by vm_compute in E2..].
  unfold demo_io. rewrite E1, E2.
  assert (io_reachable demo_sched (TimerManager_new 0) world0 demo_new) as H0 by constructor.
  assert (is_event READ) as Hev by (by left).
  assert (IOInv m) as HI
    by (by eapply (addEvent_Inv 0 0 5 READ (UserCb 3)), E1; [apply IOManager_new_Inv|lia|]).
  eapply io_reach_add, E2; [|right|lia|done|done].
  - eapply io_reach_add, E1; [done|by left|lia|done|apply IOManager_new_Inv].
  - vm_compute in E1. injection E1 as <- <-. split; [lia|by vm_compute].
Qed.

Lemma demo_io_Inv : IOInv demo_io.
Proof.
  generalize demo_io_reachable. generalize demo_io. intros m Hr.
  induction Hr as [|m op m' _ IH Hv He]; [apply IOManager_new_Inv|by eapply io_exec_Inv].
Qed.

Lemma io_registrations_exact_witness : m_pendingEventCount demo_io = total (m_fdContexts demo_io).
Proof.
  apply (io_registrations_exact demo_sched (TimerManager_new 0) world0), demo_io_reachable.
Defined.

Lemma add_then_cancel_witness :
  ∃ m1, addEvent true 0 0 5 WRITE (UserCb 9) demo_io = Ret (0, m1).
Proof.
  destruct (add_then_cancel 0 77 5 WRITE (UserCb 9) demo_io (mkEC true None (UserCb 9)))
    as (m1 & E & _);
    [apply demo_io_Inv|lia|by right|by vm_compute|by left|by exists m1].
Defined.

Lemma cancelAll_schedules_all_witness : ∃ b m', cancelAll 0 5 demo_io = Ret (b, m').
Proof.
  destruct (cancelAll_schedules_all 0 5 demo_io demo_io_Inv ltac:(lia)) as (b & m' & E & _).
  by exists b, m'.
Defined.

Lemma idle_resumes_ready_witness :
  ∃ arr m', idle_events (λ _, 0) [0%nat] ([mkEpollEvent EPOLLHUP (data_ctx 5)], demo_io)
            = Ret (arr, m').
Proof.
  destruct (idle_resumes_ready EPOLLHUP 5
    (mkFdContext (mkEC true None (UserCb 3)) no_context 5 READ) demo_io demo_io_Inv)
    as (arr & m' & E & _); [by vm_compute|by intros e [->| ->]|by exists arr, m'].
Defined.

Lemma idle_loses_second_event_witness :
  ∃ arr m', idle_events (λ _, 0) [0%nat; 1%nat]
    ([mkEpollEvent EPOLLIN (data_ctx 5); mkEpollEvent EPOLLIN (data_ctx 40)], demo_io)
    = Ret (arr, m').
Proof.
  destruct (idle_loses_second_event 5 40 EPOLLIN
    (mkFdContext (mkEC true None (UserCb 3)) no_context 5 READ)
    (mkFdContext (mkEC true None (UserCb 4)) no_context 40 READ) demo_io demo_io_Inv)
    as (arr & m' & E & _); [done|by vm_compute|by vm_compute|done|done|by exists arr, m'].
Defined.

Lemma io_stopping_exact_witness : fst (fst (io_stopping 10 demo_new)) = true.
Proof.
  apply (io_stopping_exact 10 demo_new (IOManager_new_Inv _ _ _));
    [lia|intros a Ha; by apply not_elem_of_nil in Ha|by vm_compute].
Defined.
