(* ===== verification/FdManager.v ===== *)
(** The table of file descriptors: fdmanager.h and fdmanager.cpp.

    The system calls the code makes are the operations of a class [Kernel]
    over an abstract kernel state; what the theorems use of them are the laws
    of [KernelLaws], which state documented behaviour of fcntl(2) and ioctl(2)
    about the O_NONBLOCK flag.  A concrete kernel, [table_kernel], satisfies
    the laws. *)

From S2P Require Import Prelude.

Definition O_NONBLOCK : Z := 2048.
Definition SO_RCVTIMEO : Z := 20.
Definition SO_SNDTIMEO : Z := 21.
Definition SOL_SOCKET : Z := 1.
Definition FIONBIO : Z := 21537.

(** The functions of the C library the hooks call, [fcntl] split by command. *)
Class Kernel (K : Type) := {
  (** [Some b]: success, and [b] is S_ISSOCK of the mode. *)
  fstat_socket : Z → K → option bool;
  fcntl_getfl : Z → K → Z;
  fcntl_setfl : Z → Z → K → Z * K;
  fcntl_cmd : Z → Z → Z → K → Z * K;
  ioctl_f : Z → Z → Z → K → Z * K;
  socket_f : Z → Z → Z → K → Z * K;
  close_f : Z → K → Z * K;
  setsockopt_f : Z → Z → Z → Z * Z → K → Z * K;
}.

(** [flags & O_NONBLOCK], as a condition. *)
Definition nonblocking (flags : Z) : bool := negb (Z.land flags O_NONBLOCK =? 0).

Class KernelLaws (K : Type) `{!Kernel K} : Prop := {
  setfl_getfl fd arg k k' :
    fcntl_setfl fd arg k = (0, k') → nonblocking (fcntl_getfl fd k') = nonblocking arg;
  ioctl_getfl fd v k k' :
    ioctl_f fd FIONBIO v k = (0, k') → nonblocking (fcntl_getfl fd k') = negb (v =? 0);
}.

(** * FdCtx *)

Record FdCtx := mkFdCtx {
  m_isInit : bool;
  m_isSocket : bool;
  m_sysNonblock : bool;
  m_userNonblock : bool;
  m_isClosed : bool;
  m_fd : Z;
  m_recvTimeout : Z;
  m_sendTimeout : Z;
}.

Definition setUserNonblock (v : bool) (c : FdCtx) : FdCtx :=
  mkFdCtx (m_isInit c) (m_isSocket c) (m_sysNonblock c) v (m_isClosed c) (m_fd c)
    (m_recvTimeout c) (m_sendTimeout c).
Definition setSysNonblock (v : bool) (c : FdCtx) : FdCtx :=
  mkFdCtx (m_isInit c) (m_isSocket c) v (m_userNonblock c) (m_isClosed c) (m_fd c)
    (m_recvTimeout c) (m_sendTimeout c).

Definition setTimeout (type v : Z) (c : FdCtx) : FdCtx :=
  if type =? SO_RCVTIMEO then
    mkFdCtx (m_isInit c) (m_isSocket c) (m_sysNonblock c) (m_userNonblock c) (m_isClosed c)
      (m_fd c) v (m_sendTimeout c)
  else
    mkFdCtx (m_isInit c) (m_isSocket c) (m_sysNonblock c) (m_userNonblock c) (m_isClosed c)
      (m_fd c) (m_recvTimeout c) v.

Definition getTimeout (type : Z) (c : FdCtx) : Z :=
  if type =? SO_RCVTIMEO then m_recvTimeout c else m_sendTimeout c.

Section ctx.
Context {K : Type} `{!Kernel K}.

(** [FdCtx::init]. *)
Definition init (c : FdCtx) (k : K) : bool * FdCtx * K :=
  if m_isInit c then (true, c, k)
  else
    let '(isInit, isSocket) :=
      match fstat_socket (m_fd c) k with
      | None => (false, false)
      | Some sock => (true, sock)
      end in
    let k :=
      if isSocket then
        let flags := fcntl_getfl (m_fd c) k in
        if nonblocking flags then k
        else snd (fcntl_setfl (m_fd c) (Z.lor flags O_NONBLOCK) k)
      else k in
    (isInit, mkFdCtx isInit isSocket isSocket false false (m_fd c) u64_max u64_max, k).

(** [FdCtx::FdCtx(fd)]. *)
Definition FdCtx_new (fd : Z) (k : K) : FdCtx * K :=
  let '(_, c, k) := init (mkFdCtx false false false false false fd u64_max u64_max) k in
  (c, k).
End ctx.

(** * FdManager *)

Record FdManager := mkFdManager { m_datas : list (option FdCtx) }.

Definition FdManager_new : FdManager := mkFdManager (replicate 64 None).

(** [std::vector::resize]. *)
Definition resize {A} (n : nat) (x : A) (l : list A) : list A :=
  take n l ++ replicate (n - length l) x.

(** [m_datas[fd]] for an [int] index. *)
Definition data_at (fd : Z) (m : FdManager) : outcome (option FdCtx) :=
  if fd <? 0 then Fault OutOfBounds
  else match m_datas m !! Z.to_nat fd with
       | Some p => Ret p
       | None => Fault OutOfBounds
       end.
Definition store_data (fd : Z) (p : option FdCtx) (m : FdManager) : FdManager :=
  mkFdManager (<[Z.to_nat fd := p]> (m_datas m)).

Section manager.
Context {K : Type} `{!Kernel K}.

(** The part of [get] under the write lock. *)
Definition get_create (fd : Z) (m : FdManager) (k : K) : outcome (option FdCtx * FdManager * K) :=
  let '(ctx, k) := FdCtx_new fd k in
  let m := if Zlen (m_datas m) <=? fd
           then mkFdManager (resize (Z.to_nat (fd * 3 / 2)) None (m_datas m)) else m in
  let! _ := data_at fd m in
  Ret (Some ctx, store_data fd (Some ctx) m, k).

(** [FdManager::get]. *)
Definition get (fd : Z) (auto_create : bool) (m : FdManager) (k : K)
    : outcome (option FdCtx * FdManager * K) :=
  if fd =? -1 then Ret (None, m, k)
  else if Zlen (m_datas m) <? fd then
    if negb auto_create then Ret (None, m, k) else get_create fd m k
  else
    let! p := data_at fd m in
    match p with
    | Some c => Ret (Some c, m, k)
    | None => if negb auto_create then Ret (None, m, k) else get_create fd m k
    end.
End manager.

(** [FdManager::del]. *)
Definition del (fd : Z) (m : FdManager) : outcome FdManager :=
  if Zlen (m_datas m) <=? fd then Ret m
  else
    let! _ := data_at fd m in
    Ret (store_data fd None m).

(** * A kernel *)

(** Descriptors with their type and flags. *)
Record table_entry := mkEntry { te_socket : bool; te_flags : Z }.

#[export] Instance table_kernel : Kernel (gmap Z table_entry) := {
  fstat_socket fd k := te_socket <$> k !! fd;
  fcntl_getfl fd k := match k !! fd with Some e => te_flags e | None => -1 end;
  fcntl_setfl fd arg k :=
    match k !! fd with
    | Some e => (0, <[fd := mkEntry (te_socket e) arg]> k)
    | None => (-1, k)
    end;
  fcntl_cmd fd cmd arg k := (0, k);
  ioctl_f fd req v k :=
    match k !! fd with
    | Some e =>
        (0, if req =? FIONBIO then
              <[fd := mkEntry (te_socket e)
                  (if v =? 0 then Z.ldiff (te_flags e) O_NONBLOCK
                   else Z.lor (te_flags e) O_NONBLOCK)]> k
            else k)
    | None => (-1, k)
    end;
  socket_f d t p k := (3, <[3 := mkEntry true 2]> k);
  close_f fd k := (0, delete fd k);
  setsockopt_f fd level opt tv k := (0, k);
}.

Lemma nonblocking_testbit flags : nonblocking flags = Z.testbit flags 11.
Proof.
  unfold nonblocking, O_NONBLOCK. change 2048 with (2 ^ 11).
  destruct (Z.testbit flags 11) eqn:E.
  - apply negb_true_iff, Z.eqb_neq. intros H. apply (f_equal (λ z, Z.testbit z 11)) in H.
    by rewrite Z.land_spec, E, Z.pow2_bits_true, Z.bits_0 in H.
  - apply negb_false_iff, Z.eqb_eq, Z.bits_inj. intros n.
    rewrite Z.land_spec, Z.bits_0. destruct (decide (n = 11)) as [->|].
    + by rewrite E.
    + by rewrite Z.pow2_bits_false, andb_false_r.
Qed.

#[export] Instance table_kernel_laws : KernelLaws (gmap Z table_entry).
Proof.
  split; simpl.
  - intros fd arg k k'. destruct (k !! fd); intros [= <-]. by rewrite lookup_insert_eq.
  - intros fd v k k'. destruct (k !! fd); intros [= <-]. rewrite lookup_insert_eq. simpl.
    rewrite nonblocking_testbit. unfold O_NONBLOCK. change 2048 with (2 ^ 11).
    destruct (v =? 0); [rewrite Z.ldiff_spec|rewrite Z.lor_spec];
      rewrite Z.pow2_bits_true by lia; [by rewrite andb_false_r|by rewrite orb_true_r].
Qed.
