(* ===== verification/Hook.v ===== *)
(** The hooked system calls: hook.h and hook.cpp.

    A hooked call consults the table of descriptors and then calls the
    original function, an operation of [Kernel].  The calls that may suspend
    the fiber ([do_io] and [connect_with_timeout]) are programs that ask the
    rest of the system for answers: the results of the original function and of
    [addEvent], and when its timers' callbacks run and the fiber is resumed.
    The answers are given as a list, the requests the program made are its
    trace, and a program whose answers run out is still waiting.  [iom] says
    whether the thread has an IOManager: without one [IOManager::GetThis()] is
    null, also on a worker of a plain Scheduler, which enables the hooks. *)

From S2P Require Import Prelude FdManager.

Definition EINTR : Z := 4.
Definition EBADF : Z := 9.
Definition EAGAIN : Z := 11.
Definition ETIMEDOUT : Z := 110.
Definition EINPROGRESS : Z := 115.

Record HookState (K : Type) := mkHook {
  kernel : K;
  fds : FdManager;
  t_hook_enable : bool;
}.
Arguments mkHook {K}.
Arguments kernel {K}.
Arguments fds {K}.
Arguments t_hook_enable {K}.

Definition is_hook_enable {K} (s : HookState K) : bool := t_hook_enable s.
Definition set_hook_enable {K} (flag : bool) (s : HookState K) : HookState K :=
  mkHook (kernel s) (fds s) flag.

Section hook.
Context {K : Type} `{!Kernel K}.
Implicit Types (s : HookState K).

(** [FdMgr::GetInstance()->get(fd, auto_create)]. *)
Definition fdmgr_get (fd : Z) (auto_create : bool) s : outcome (option FdCtx * HookState K) :=
  let! (p, m, k) := get fd auto_create (fds s) (kernel s) in
  Ret (p, mkHook k m (t_hook_enable s)).

(** A change of the context of [fd] through its shared pointer. *)
Definition fdmgr_store (fd : Z) (c : FdCtx) s : HookState K :=
  mkHook (kernel s) (store_data fd (Some c) (fds s)) (t_hook_enable s).

Definition sys (r : Z * K) s : Z * HookState K :=
  (fst r, mkHook (snd r) (fds s) (t_hook_enable s)).

(** * Descriptor flags *)

(** A registered socket, open. *)
Definition managed (p : option FdCtx) : option FdCtx :=
  match p with
  | Some c => if m_isClosed c || negb (m_isSocket c) then None else Some c
  | None => None
  end.

Definition F_DUPFD : Z := 0.
Definition F_GETFD : Z := 1.
Definition F_SETFD : Z := 2.
Definition F_GETFL : Z := 3.
Definition F_SETFL : Z := 4.
Definition F_GETOWN : Z := 9.
Definition F_GETSIG : Z := 11.
Definition F_GETLEASE : Z := 1025.
Definition F_GETPIPE_SZ : Z := 1032.

(** The commands whose case calls [fcntl] itself. *)
Definition getter_cmds : list Z := [F_GETFD; F_GETOWN; F_GETSIG; F_GETLEASE; F_GETPIPE_SZ].

Definition fcntl_F_SETFL (fd arg : Z) s : outcome (Z * HookState K) :=
  let! (p, s) := fdmgr_get fd false s in
  match managed p with
  | None => Ret (sys (fcntl_setfl fd arg (kernel s)) s)
  | Some ctx =>
      let ctx := setUserNonblock (nonblocking arg) ctx in
      let s := fdmgr_store fd ctx s in
      let arg := if m_sysNonblock ctx then Z.lor arg O_NONBLOCK
                 else Z.land arg (Z.lnot O_NONBLOCK) in
      Ret (sys (fcntl_setfl fd arg (kernel s)) s)
  end.

Definition fcntl_F_GETFL (fd : Z) s : outcome (Z * HookState K) :=
  let arg := fcntl_getfl fd (kernel s) in
  let! (p, s) := fdmgr_get fd false s in
  match managed p with
  | None => Ret (arg, s)
  | Some ctx =>
      Ret (if m_userNonblock ctx then Z.lor arg O_NONBLOCK
           else Z.land arg (Z.lnot O_NONBLOCK), s)
  end.

(** [fcntl(fd, cmd, arg)]; the fuel bounds the depth of the recursion. *)
Fixpoint fcntl (fuel : nat) (fd cmd arg : Z) s : outcome (Z * HookState K) :=
  match fuel with
  | O => Fault OutOfFuel
  | S fuel =>
      if cmd =? F_SETFL then fcntl_F_SETFL fd arg s
      else if cmd =? F_GETFL then fcntl_F_GETFL fd s
      else if bool_decide (cmd ∈ getter_cmds) then fcntl fuel fd cmd 0 s
      else Ret (sys (fcntl_cmd fd cmd arg (kernel s)) s)
  end.

(** [ioctl(fd, request, arg)], with [value] the int [arg] points to. *)
Definition ioctl (fd request value : Z) s : outcome (Z * HookState K) :=
  if request =? FIONBIO then
    let user_nonblock := negb (value =? 0) in
    let! (p, s) := fdmgr_get fd false s in
    match managed p with
    | None => Ret (sys (ioctl_f fd request value (kernel s)) s)
    | Some ctx =>
        let s := fdmgr_store fd (setUserNonblock user_nonblock ctx) s in
        Ret (sys (ioctl_f fd request value (kernel s)) s)
    end
  else Ret (sys (ioctl_f fd request value (kernel s)) s).

(** [setsockopt] with a [timeval] (seconds, microseconds). *)
Definition setsockopt (sockfd level optname : Z) (tv : Z * Z) s : outcome (Z * HookState K) :=
  if negb (t_hook_enable s) then Ret (sys (setsockopt_f sockfd level optname tv (kernel s)) s)
  else
    let! s :=
      (if (level =? SOL_SOCKET) && ((optname =? SO_RCVTIMEO) || (optname =? SO_SNDTIMEO)) then
         let! (p, s) := fdmgr_get sockfd false s in
         match p with
         | Some ctx =>
             Ret (fdmgr_store sockfd
                    (setTimeout optname (u64 (fst tv * 1000 + Z.quot (snd tv) 1000)) ctx) s)
         | None => Ret s
         end
       else Ret s) in
    Ret (sys (setsockopt_f sockfd level optname tv (kernel s)) s).

(** [socket]. *)
Definition socket (domain type protocol : Z) s : outcome (Z * HookState K) :=
  let '(fd, s') := sys (socket_f domain type protocol (kernel s)) s in
  if negb (t_hook_enable s) then Ret (fd, s')
  else if fd =? -1 then Ret (fd, s')
  else
    let! (_, s') := fdmgr_get fd true s' in
    Ret (fd, s').

(** [close]; the result says also whether [cancelAll(fd)] is called on the
    manager of the thread, if it has one ([iom]). *)
Definition close (iom : bool) (fd : Z) s : outcome (Z * bool * HookState K) :=
  if negb (t_hook_enable s) then
    let '(r, s) := sys (close_f fd (kernel s)) s in Ret (r, false, s)
  else
    let! (p, s) := fdmgr_get fd false s in
    let! (cancels, s) :=
      (match p with
       | Some _ =>
           let! m := del fd (fds s) in
           Ret (iom, mkHook (kernel s) m (t_hook_enable s))
       | None => Ret (false, s)
       end) in
    let '(r, s) := sys (close_f fd (kernel s)) s in
    Ret (r, cancels, s).

(** * Input and output *)

(** What happens to a call in progress: the original function returns, with
    errno; [addEvent] returns, with errno; the callback of a condition timer the
    call added runs, on whatever thread; the fiber is resumed. *)
Inductive answer :=
| a_call (n errno : Z)
| a_addEvent (rt errno : Z)
| a_timer
| a_resumed.

(** The requests it makes, and its callback. *)
Inductive request :=
| r_call
| r_addConditionTimer (ms : Z)
| r_addEvent (event : Z)
| r_YieldToHold
| r_cancel_timer
| r_cancelEvent (event : Z).

(** The callback of the condition timer.  [t] is [winfo.lock()]: the
    [cancelled] of the call's [timer_info], null when the call is over. *)
Definition on_timer (event : Z) (t : option Z) : option Z * list request :=
  match t with
  | None => (None, [])
  | Some cancelled =>
      if negb (cancelled =? 0) then (Some cancelled, [])
      else (Some ETIMEDOUT, [r_cancelEvent event])
  end.

(** Where a call stands: in the original function, in [addEvent], held. *)
Inductive io_point := in_call | in_addEvent | in_yield.

(** The loop of [do_io] from the label [retry] on: [Some (n, errno)] is its
    return, [None] means that it waits.  [cancelled] is [tinfo->cancelled] and
    [timers] the number of callbacks added that have not run; [cancel] does not
    take back one the manager has already handed out, so any of them may still
    run.  [iom]: the thread has a manager. *)
Fixpoint do_io_retry (iom : bool) (event timeout : Z) (p : io_point) (cancelled : Z)
    (timers : nat) (answers : list answer) (trace : list request)
    : outcome (option (Z * Z) * list request) :=
  let has_timer := negb (timeout =? u64_max) in
  let cancel := if has_timer then [r_cancel_timer] else [] in
  match answers with
  | [] => Ret (None, trace)
  | a :: answers =>
      match a, p with
      | a_timer, _ =>
          match timers with
          | O => Ret (None, trace)
          | S timers =>
              let '(t, reqs) := on_timer event (Some cancelled) in
              do_io_retry iom event timeout p (default 0 t) timers answers (trace ++ reqs)
          end
      | a_call n errno, in_call =>
          if (n =? -1) && (errno =? EINTR) then
            do_io_retry iom event timeout in_call cancelled timers answers (trace ++ [r_call])
          else if (n =? -1) && (errno =? EAGAIN) then
            if negb iom then Fault NullDeref
            else
              let set := if has_timer then [r_addConditionTimer timeout] else [] in
              do_io_retry iom event timeout in_addEvent cancelled
                (if has_timer then S timers else timers) answers
                (trace ++ set ++ [r_addEvent event])
          else Ret (Some (n, errno), trace)
      | a_addEvent rt err, in_addEvent =>
          if negb (rt =? 0) then Ret (Some (-1, err), trace ++ cancel)
          else do_io_retry iom event timeout in_yield cancelled timers answers
                 (trace ++ [r_YieldToHold])
      | a_resumed, in_yield =>
          let trace := trace ++ cancel in
          if negb (cancelled =? 0) then Ret (Some (-1, cancelled), trace)
          else do_io_retry iom event timeout in_call cancelled timers answers (trace ++ [r_call])
      | _, _ => Ret (None, trace)
      end
  end.

(** [do_io(fd, fun, name, event, timeout_so, args...)]. *)
Definition do_io (iom : bool) (fd event timeout_so : Z) (answers : list answer) s
    : outcome (option (Z * Z) * list request) :=
  let direct :=
    Ret (match answers with a_call n e :: _ => Some (n, e) | _ => None end, [r_call]) in
  if negb (t_hook_enable s) then direct
  else
    let! (p, s) := fdmgr_get fd false s in
    match p with
    | None => direct
    | Some ctx =>
        if m_isClosed ctx then Ret (Some (-1, EBADF), [])
        else if negb (m_isSocket ctx) || m_userNonblock ctx then direct
        else do_io_retry iom event (getTimeout timeout_so ctx) in_call 0 0 answers [r_call]
    end.

(** [connect_with_timeout]: [conn] is the answer of [connect_f], [added] of
    [addEvent], [fired] says whether the callback of the timer, if there is
    one, runs before the fiber is resumed, [so_error] is the result of
    [getsockopt(SO_ERROR)] and the value it stores (or errno when it fails). *)
Definition connect_with_timeout (iom : bool) (fd timeout_ms : Z) (conn : Z * Z) (added : Z)
    (fired : bool) (so_error : Z * Z) s : outcome (Z * Z * list request) :=
  let direct := Ret (conn, [r_call]) in
  if negb (t_hook_enable s) then direct
  else
    let! (p, s) := fdmgr_get fd false s in
    match p with
    | None => Ret (-1, EBADF, [])
    | Some ctx =>
        if m_isClosed ctx then Ret (-1, EBADF, [])
        else if negb (m_isSocket ctx) || m_userNonblock ctx then direct
        else if (fst conn =? 0) || negb (fst conn =? -1) || negb (snd conn =? EINPROGRESS)
        then direct
        else if negb iom then Fault NullDeref
        else
          let has_timer := negb (timeout_ms =? u64_max) in
          let cancel := if has_timer then [r_cancel_timer] else [] in
          let trace := [r_call] ++ (if has_timer then [r_addConditionTimer timeout_ms] else [])
                                ++ [r_addEvent 4] in
          let '(t, reqs) := if has_timer && fired then on_timer 4 (Some 0) else (Some 0, []) in
          let cancelled := default 0 t in
          let check trace :=
            if fst so_error =? -1 then Ret (-1, snd so_error, trace)
            else if snd so_error =? 0 then Ret (0, snd conn, trace)
            else Ret (-1, snd so_error, trace) in
          if added =? 0 then
            let trace := trace ++ [r_YieldToHold] ++ reqs ++ cancel in
            if negb (cancelled =? 0) then Ret (-1, cancelled, trace) else check trace
          else check (trace ++ reqs ++ cancel)
    end.

(** [accept]: [do_io] for READ, then the new descriptor is registered. *)
Definition accept (iom : bool) (sockfd : Z) (answers : list answer) s
    : outcome (option (Z * Z) * HookState K) :=
  let! (r, _) := do_io iom sockfd 1 SO_RCVTIMEO answers s in
  match r with
  | Some (fd, errno) =>
      if 0 <=? fd then let! (_, s) := fdmgr_get fd true s in Ret (r, s) else Ret (r, s)
  | None => Ret (r, s)
  end.

(** The other hooked calls are [do_io] with these arguments. *)
Definition read_io (iom : bool) (fd : Z) := do_io iom fd 1 SO_RCVTIMEO.
Definition write_io (iom : bool) (fd : Z) := do_io iom fd 4 SO_SNDTIMEO.
End hook.

(** * Sleeping *)

(** What a sleep does: calls the original, calls itself, or sets a timer of
    so many milliseconds that schedules the fiber, and yields. *)
Inductive sleep_action :=
| calls_original
| calls_itself
| sets_timer (ms : Z).

(** [iom->addTimer], and the yield. *)
Definition sleeps_for (iom : bool) (ms : Z) : outcome sleep_action :=
  if iom then Ret (sets_timer ms) else Fault NullDeref.

(** [seconds * 1000] is computed in [unsigned int]. *)
Definition sleep (hook iom : bool) (seconds : Z) : outcome sleep_action :=
  if negb hook then Ret calls_original else sleeps_for iom (u32 (seconds * 1000)).
Definition usleep (hook iom : bool) (usec : Z) : outcome sleep_action :=
  if negb hook then Ret calls_original else sleeps_for iom (u32 (usec / 1000)).
(** [timeout_ms] is an [int], converted to [uint64_t]. *)
Definition nanosleep (hook iom : bool) (tv_sec tv_nsec : Z) : outcome sleep_action :=
  if negb hook then Ret calls_itself
  else sleeps_for iom (u64 (i32 (i64 (tv_sec * 1000 + Z.quot (Z.quot tv_nsec 1000) 1000)))).
