(* ===== verification/HookTheorems.v ===== *)
(** Correctness of the descriptor table and of the hooked calls. *)

From S2P Require Import Prelude FdManager Hook.

(** * The table *)

Section registry.
Context {K : Type} `{!Kernel K}.
Implicit Types (m : FdManager) (k : K).

(** The context registered for a descriptor. *)
Definition registered m (fd : Z) : option FdCtx :=
  if fd <? 0 then None else mjoin (m_datas m !! Z.to_nat fd).

Lemma data_at_spec m fd :
  0 ≤ fd < Zlen (m_datas m) → data_at fd m = Ret (registered m fd).
Proof.
  intros Hfd. unfold data_at, registered. destruct (Z.ltb_spec fd 0); [lia|].
  destruct (m_datas m !! Z.to_nat fd) as [p|] eqn:E; [done|].
  apply lookup_ge_None in E. unfold Zlen in Hfd. lia.
Qed.

Lemma registered_beyond m fd : Zlen (m_datas m) ≤ fd → registered m fd = None.
Proof.
  unfold registered, Zlen. intros. destruct (fd <? 0); [done|].
  by rewrite lookup_ge_None_2 by lia.
Qed.

Lemma registered_store m fd p fd' :
  0 ≤ fd < Zlen (m_datas m) → 0 ≤ fd' →
  registered (store_data fd p m) fd' = if decide (fd' = fd) then p else registered m fd'.
Proof.
  intros Hfd Hfd'. unfold registered, store_data. cbn [m_datas].
  destruct (Z.ltb_spec fd' 0); [lia|]. unfold Zlen in Hfd. destruct (decide (fd' = fd)) as [->|].
  - rewrite list_lookup_insert_eq by lia. done.
  - by rewrite list_lookup_insert_ne by lia.
Qed.

Lemma registered_resize m n fd :
  (length (m_datas m) ≤ n)%nat →
  registered (mkFdManager (resize n None (m_datas m))) fd = registered m fd.
Proof.
  intros Hn. unfold registered, resize. cbn [m_datas]. destruct (fd <? 0); [done|].
  rewrite take_ge by done. rewrite lookup_app.
  destruct (m_datas m !! Z.to_nat fd) eqn:E; [done|].
  destruct (replicate _ None !! _) eqn:E'; [|done].
  by apply lookup_replicate in E' as [-> _].
Qed.

Lemma get_create_spec fd m k :
  0 ≤ fd → 64 ≤ Zlen (m_datas m) →
  ∃ c k' m', FdCtx_new fd k = (c, k') ∧ get_create fd m k = Ret (Some c, m', k') ∧
    Zlen (m_datas m) ≤ Zlen (m_datas m') ∧
    ∀ fd', 0 ≤ fd' → registered m' fd' = if decide (fd' = fd) then Some c else registered m fd'.
Proof.
  intros Hfd Hlen. unfold get_create. destruct (FdCtx_new fd k) as [c k'].
  set (m1 := if _ <=? _ then _ else m).
  assert (fd < Zlen (m_datas m1) ∧ Zlen (m_datas m) ≤ Zlen (m_datas m1) ∧
          ∀ fd', registered m1 fd' = registered m fd') as (Hcap & Hle & Hreg).
  { unfold m1. destruct (Z.leb_spec (Zlen (m_datas m)) fd); [|done].
    assert (fd < fd * 3 / 2) by (Z.to_euclidean_division_equations; lia).
    unfold Zlen in *. split_and!; [| |intros; apply registered_resize; lia];
    cbn [m_datas]; unfold resize; rewrite length_app, length_take, length_replicate; lia. }
  rewrite data_at_spec by lia. cbn [obind]. exists c, k'. eexists. split_and!; [done..| |].
  - unfold store_data. cbn [m_datas]. unfold Zlen in *. rewrite length_insert. lia.
  - intros fd' ?. rewrite registered_store by lia. by rewrite Hreg.
Qed.

(** [get] away from the two arguments it mishandles: a negative descriptor
    other than -1, and the current size of the table. *)
Lemma get_spec fd auto m k :
  0 ≤ fd → fd ≠ Zlen (m_datas m) → 64 ≤ Zlen (m_datas m) →
  get fd auto m k =
    match registered m fd with
    | Some c => Ret (Some c, m, k)
    | None => if auto then get_create fd m k else Ret (None, m, k)
    end.
Proof.
  intros Hfd Hne Hlen. unfold get. destruct (Z.eqb_spec fd (-1)); [lia|].
  destruct (Z.ltb_spec (Zlen (m_datas m)) fd).
  - rewrite registered_beyond by lia. by destruct auto.
  - rewrite data_at_spec by lia. cbn [obind]. destruct (registered m fd); [done|].
    by destruct auto.
Qed.

(** Asking for the descriptor that equals the size of the table reads one
    past its end: the bound is tested with [<] where [<=] is needed. *)
Theorem get_at_capacity_faults auto m k :
  get (Zlen (m_datas m)) auto m k = Fault OutOfBounds.
Proof.
  unfold get, Zlen. destruct (Z.eqb_spec (Z.of_nat (length (m_datas m))) (-1)); [lia|].
  rewrite Z.ltb_irrefl. unfold data_at. destruct (Z.ltb_spec (Z.of_nat (length (m_datas m))) 0);
    [lia|]. by rewrite lookup_ge_None_2 by lia.
Qed.

(** The context made for a socket is non-blocking in the kernel's eyes only. *)
Lemma FdCtx_new_spec fd k c k' :
  FdCtx_new fd k = (c, k') →
  m_fd c = fd ∧ m_isClosed c = false ∧ m_userNonblock c = false ∧
  m_sysNonblock c = m_isSocket c ∧
  m_isSocket c = default false (fstat_socket fd k) ∧
  m_recvTimeout c = u64_max ∧ m_sendTimeout c = u64_max.
Proof.
  unfold FdCtx_new, init. cbn [m_isInit m_fd].
  destruct (fstat_socket fd k) as [b|]; intros [= <- <-]; by simpl.
Qed.
End registry.

(** The table of descriptors is a map: [get] with [auto_create] returns
    the registered context, or registers a fresh one (user flag clear,
    non-blocking in the system exactly when it is a socket, no timeouts);
    from then on [get] returns it, and the other descriptors keep theirs;
    after [del] the descriptor has none. *)
Theorem fd_table_is_a_map {K} `{!Kernel K} (fd : Z) (m : FdManager) (k : K) :
  0 ≤ fd → fd ≠ Zlen (m_datas m) → 64 ≤ Zlen (m_datas m) →
  ∃ c m' k', get fd true m k = Ret (Some c, m', k') ∧
    registered m' fd = Some c ∧
    (∀ fd', 0 ≤ fd' → fd' ≠ fd → registered m' fd' = registered m fd') ∧
    (registered m fd = None →
       m_userNonblock c = false ∧ m_sysNonblock c = m_isSocket c ∧
       m_isSocket c = default false (fstat_socket fd k) ∧ getTimeout SO_RCVTIMEO c = u64_max) ∧
    (fd ≠ Zlen (m_datas m') → get fd false m' k' = Ret (Some c, m', k')) ∧
    ∃ m'', del fd m' = Ret m'' ∧ registered m'' fd = None.
Proof.
  intros Hfd Hne Hlen.
  assert (∃ c m' k', get fd true m k = Ret (Some c, m', k') ∧
    registered m' fd = Some c ∧ Zlen (m_datas m) ≤ Zlen (m_datas m') ∧
    (∀ fd', 0 ≤ fd' → fd' ≠ fd → registered m' fd' = registered m fd') ∧
    (registered m fd = None → ∃ k0, FdCtx_new fd k = (c, k0)))
    as (c & m' & k' & Hg & Hr & Hle & Ho & Hnew).
  { rewrite get_spec by done. destruct (registered m fd) as [c|] eqn:Hr.
    - exists c, m, k. split_and!; try done; lia.
    - destruct (get_create_spec fd m k Hfd Hlen) as (c & k' & m' & Hc & -> & Hle & Hreg).
      exists c, m', k'. split_and!; try done.
      + by rewrite Hreg, decide_True.
      + intros. by rewrite Hreg, decide_False.
      + eauto. }
  assert (fd < Zlen (m_datas m')).
  { destruct (decide (fd < Zlen (m_datas m'))); [done|].
    rewrite registered_beyond in Hr by lia. done. }
  exists c, m', k'. split_and!; try done.
  - intros Hn. destruct (Hnew Hn) as [k0 Hc].
    destruct (FdCtx_new_spec _ _ _ _ Hc) as (_ & _ & ? & ? & ? & ? & _). by split_and!.
  - intros. rewrite get_spec by (try done; lia). by rewrite Hr.
  - unfold del. destruct (Z.leb_spec (Zlen (m_datas m')) fd); [lia|].
    rewrite data_at_spec by lia. cbn [obind]. eexists. split; [done|].
    rewrite registered_store by lia. by rewrite decide_True.
Qed.

(** * Flags *)

Section flags.
Context {K : Type} `{!Kernel K, !KernelLaws K}.
Implicit Types (s : HookState K).

(** A descriptor the hooks manage: an open socket in the table. *)
Record manages s (fd : Z) (ctx : FdCtx) : Prop := {
  mg_fd : 0 ≤ fd < Zlen (m_datas (fds s));
  mg_ctx : registered (fds s) fd = Some ctx;
  mg_open : m_isClosed ctx = false;
  mg_socket : m_isSocket ctx = true;
}.

Lemma fdmgr_get_manages s fd ctx :
  manages s fd ctx → fdmgr_get fd false s = Ret (Some ctx, s) ∧ managed (Some ctx) = Some ctx.
Proof.
  intros [Hfd Hr Ho Hs]. unfold fdmgr_get, get, managed. rewrite Ho, Hs.
  destruct (Z.eqb_spec fd (-1)); [lia|].
  destruct (Z.ltb_spec (Zlen (m_datas (fds s))) fd); [lia|].
  rewrite data_at_spec, Hr by lia. by destruct s.
Qed.

(** The flag of the context changes, the kernel state is [k]. *)
Lemma manages_user s fd ctx v k :
  manages s fd ctx →
  manages (mkHook k (fds (fdmgr_store fd (setUserNonblock v ctx) s)) (t_hook_enable s)) fd
    (setUserNonblock v ctx).
Proof.
  intros [Hfd Hr Ho Hs]. split; cbn [fds fdmgr_store]; try done.
  - unfold store_data. cbn [m_datas]. unfold Zlen in *. by rewrite length_insert.
  - rewrite registered_store by lia. by rewrite decide_True.
Qed.

Lemma F_GETFL_manages s fd ctx :
  manages s fd ctx →
  fcntl 1 fd F_GETFL 0 s =
    Ret (if m_userNonblock ctx then Z.lor (fcntl_getfl fd (kernel s)) O_NONBLOCK
         else Z.land (fcntl_getfl fd (kernel s)) (Z.lnot O_NONBLOCK), s).
Proof.
  intros H. destruct (fdmgr_get_manages _ _ _ H) as [Hg Hm].
  cbn [fcntl]. change (F_GETFL =? F_SETFL) with false. change (F_GETFL =? F_GETFL) with true.
  cbv iota. unfold fcntl_F_GETFL. rewrite Hg. cbn [obind]. by rewrite Hm.
Qed.

Lemma nonblocking_lor z : nonblocking (Z.lor z O_NONBLOCK) = true.
Proof.
  rewrite nonblocking_testbit, Z.lor_spec. unfold O_NONBLOCK. change 2048 with (2 ^ 11).
  by rewrite Z.pow2_bits_true, orb_true_r by lia.
Qed.

Lemma nonblocking_clear z : nonblocking (Z.land z (Z.lnot O_NONBLOCK)) = false.
Proof.
  rewrite nonblocking_testbit, Z.land_spec, Z.lnot_spec by lia. unfold O_NONBLOCK.
  change 2048 with (2 ^ 11). by rewrite Z.pow2_bits_true, andb_false_r by lia.
Qed.

(** Through ioctl the same request reaches the kernel: FIONBIO with 0 makes
    a socket blocking that the hooks rely on to be non-blocking. *)
Theorem ioctl_unsets_kernel_nonblock s s' fd ctx :
  manages s fd ctx → m_sysNonblock ctx = true → ioctl fd FIONBIO 0 s = Ret (0, s') →
  registered (fds s') fd = Some (setUserNonblock false ctx) ∧
  nonblocking (fcntl_getfl fd (kernel s')) = false.
Proof.
  intros H _ Hi. destruct (fdmgr_get_manages _ _ _ H) as [Hg Hm].
  unfold ioctl in Hi. rewrite Z.eqb_refl, Hg in Hi. cbn [obind] in Hi. rewrite Hm in Hi.
  unfold sys in Hi. cbn [kernel fdmgr_store] in Hi.
  destruct (ioctl_f fd FIONBIO 0 (kernel s)) as [r k'] eqn:E. injection Hi as -> <-.
  split; [|by apply ioctl_getfl in E].
  destruct (manages_user s fd ctx false k' H) as [_ Hr _ _]. exact Hr.
Qed.
End flags.

(** The hooks hide that the sockets they manage are non-blocking: after
    [fcntl(fd, F_SETFL, arg)] succeeds, [fcntl(fd, F_GETFL)] reports the
    O_NONBLOCK the user asked for, whatever it was, while the descriptor
    itself stays non-blocking. *)
Theorem fcntl_hides_nonblock {K} `{!Kernel K, !KernelLaws K} (fd arg : Z) (ctx : FdCtx)
    (s s' : HookState K) :
  manages s fd ctx → m_sysNonblock ctx = true →
  fcntl 1 fd F_SETFL arg s = Ret (0, s') →
  nonblocking (fcntl_getfl fd (kernel s')) = true ∧
  ∃ flags, fcntl 1 fd F_GETFL 0 s' = Ret (flags, s') ∧ nonblocking flags = nonblocking arg.
Proof.
  intros H Hsys Hset. destruct (fdmgr_get_manages _ _ _ H) as [Hg Hm].
  cbn [fcntl] in Hset. rewrite Z.eqb_refl in Hset. unfold fcntl_F_SETFL in Hset.
  rewrite Hg in Hset. cbn [obind] in Hset. rewrite Hm in Hset.
  cbn [m_sysNonblock setUserNonblock] in Hset. rewrite Hsys in Hset.
  unfold sys in Hset. cbn [kernel fdmgr_store] in Hset.
  destruct (fcntl_setfl fd (Z.lor arg O_NONBLOCK) (kernel s)) as [r k'] eqn:E.
  injection Hset as -> <-. pose proof (setfl_getfl _ _ _ _ E) as Hk.
  rewrite nonblocking_lor in Hk. split; [done|].
  pose proof (manages_user s fd ctx (nonblocking arg) k' H) as H'.
  eexists. split; [exact (F_GETFL_manages _ _ _ H')|]. cbn [m_userNonblock setUserNonblock].
  destruct (nonblocking arg); [apply nonblocking_lor|apply nonblocking_clear].
Qed.

(** Some commands never return: [fcntl] calls itself with the same arguments
    where the original was meant, so no depth of recursion is enough. *)
Theorem fcntl_getters_diverge {K} `{!Kernel K} (fuel : nat) (fd cmd arg : Z) (s : HookState K) :
  cmd ∈ getter_cmds → fcntl fuel fd cmd arg s = Fault OutOfFuel.
Proof.
  intros Hc. revert arg. induction fuel as [|fuel IH]; intros arg; [done|]. cbn [fcntl].
  rewrite bool_decide_true by done.
  assert (cmd ≠ F_SETFL ∧ cmd ≠ F_GETFL) as [?%Z.eqb_neq ?%Z.eqb_neq].
  { unfold getter_cmds in Hc. rewrite !elem_of_cons in Hc.
    destruct Hc as [->|[->|[->|[->|[->|Hc%not_elem_of_nil]]]]]; done. }
  rewrite H, H0. apply IH.
Qed.

(** * Waiting *)

Section waiting.
Context (event timeout : Z).

Definition timer_set : list request :=
  if negb (timeout =? u64_max) then [r_addConditionTimer timeout] else [].
Definition timer_off : list request :=
  if negb (timeout =? u64_max) then [r_cancel_timer] else [].

Abbreviation RETRY := (do_io_retry true event timeout).





















End waiting.


(** The callback of a round that is over can still end a later wait: the
    [timer_info] is that of the whole call.  Here data came first, the timer
    was cancelled after its callback had been handed out, and the second wait
    ends at once with ETIMEDOUT. *)
Lemma stale_timeout :
  do_io_retry true 1 300 in_call 0 0
    [a_call (-1) EAGAIN; a_addEvent 0 0; a_resumed; a_call (-1) EAGAIN; a_timer; a_addEvent 0 0;
     a_resumed] [r_call] =
  Ret (Some (-1, ETIMEDOUT),
    [r_call; r_addConditionTimer 300; r_addEvent 1; r_YieldToHold; r_cancel_timer; r_call;
     r_addConditionTimer 300; r_addEvent 1; r_cancelEvent 1; r_YieldToHold; r_cancel_timer]).
Proof. reflexivity. Qed.

(** [connect] on a managed socket whose connection is in progress waits
    for WRITE under the timer and reports the socket's error; when the callback
    of the timer runs it returns -1 with ETIMEDOUT. When [addEvent] fails it
    does not wait at all, and still reports success if the socket has no error
    yet. *)
Theorem connect_reports {K} `{!Kernel K} (fd timeout_ms err : Z) (fired : bool) (ctx : FdCtx)
    (s : HookState K) :
  t_hook_enable s = true → manages s fd ctx → m_userNonblock ctx = false → err ≠ 0 →
  let waited cancels := r_call :: timer_set timeout_ms ++ [r_addEvent 4; r_YieldToHold] ++
                        cancels ++ timer_off timeout_ms in
  let connect added fired so := connect_with_timeout true fd timeout_ms (-1, EINPROGRESS) added
                                  fired (0, so) s in
  (∃ e, connect 0 false 0 = Ret (0, e, waited [])) ∧
  connect 0 false err = Ret (-1, err, waited []) ∧
  (timeout_ms ≠ u64_max →
   ∀ so, connect 0 true so = Ret (-1, ETIMEDOUT, waited [r_cancelEvent 4])) ∧
  (∃ e tr, connect (-1) fired 0 = Ret (0, e, tr) ∧ r_YieldToHold ∉ tr).
Proof.
  intros Hen Hmg Huser Herr waited connect. unfold connect, connect_with_timeout.
  rewrite Hen. cbn [negb]. destruct (fdmgr_get_manages _ _ _ Hmg) as [Hg _]. rewrite Hg.
  cbn [obind]. destruct Hmg as [_ _ Ho Hs]. rewrite Ho, Hs, Huser. cbn [negb orb fst snd].
  change ((-1 =? 0) || negb (-1 =? -1) || negb (EINPROGRESS =? EINPROGRESS)) with false.
  cbv iota zeta. fold (timer_set timeout_ms) (timer_off timeout_ms).
  apply Z.eqb_neq in Herr. rewrite !andb_false_r. unfold waited.
  split_and!.
  - eexists. cbn [app]. by rewrite <- ?(assoc_L (++)).
  - cbn [default negb Z.eqb app fst snd]. rewrite Herr. by rewrite <- ?(assoc_L (++)).
  - intros Ht%Z.eqb_neq so. rewrite Ht. cbn [negb andb on_timer Z.eqb default].
    by rewrite <- ?(assoc_L (++)).
  - destruct (if negb (timeout_ms =? u64_max) && fired then _ else _) as [t reqs] eqn:E.
    do 2 eexists. split; [reflexivity|]. assert (r_YieldToHold ∉ reqs) as Hr
      by (destruct (negb _ && fired); injection E as _ <-; set_solver).
    unfold timer_set, timer_off. destruct (negb _); set_solver.
Qed.

(** The hooked sleeps wait for the time asked, rounded down to
    milliseconds, as long as it fits: [sleep] below 4294968 seconds, [usleep]
    always, [nanosleep] below 2^31 milliseconds. *)
Theorem sleeps_last_as_asked (seconds usec tv_sec tv_nsec : Z) :
  (0 ≤ seconds < 4294968 → sleep true true seconds = Ret (sets_timer (seconds * 1000))) ∧
  (0 ≤ usec < 2 ^ 32 → usleep true true usec = Ret (sets_timer (usec / 1000))) ∧
  (0 ≤ tv_sec → 0 ≤ tv_nsec < 10 ^ 9 → tv_sec * 1000 + tv_nsec / 1000000 < 2 ^ 31 →
     nanosleep true true tv_sec tv_nsec = Ret (sets_timer (tv_sec * 1000 + tv_nsec / 1000000))).
Proof.
  unfold sleep, usleep, nanosleep, sleeps_for. cbn [negb]. split_and!; intros; f_equal.
  - f_equal. apply wrapU_id. unfold in_u. lia.
  - f_equal. apply wrapU_id. unfold in_u. Z.to_euclidean_division_equations. lia.
  - f_equal. rewrite (Z.quot_div_nonneg tv_nsec 1000) by lia.
    rewrite Z.quot_div_nonneg by (try apply Z.div_pos; lia).
    rewrite Z.div_div by lia. change (1000 * 1000) with 1000000.
    assert (0 ≤ tv_nsec / 1000000) by (apply Z.div_pos; lia).
    rewrite (wrapS_id 64) by (unfold in_s; simpl; lia).
    rewrite (wrapS_id 32) by (unfold in_s; simpl; lia). apply wrapU_id. unfold in_u. lia.
Qed.

(** * Witnesses *)

Definition demo_kernel : gmap Z table_entry := {[ 7 := mkEntry true 2 ]}.
Definition demo_ctx : FdCtx := mkFdCtx true true true false false 7 300 u64_max.
Definition demo_hook : HookState (gmap Z table_entry) :=
  mkHook demo_kernel (store_data 7 (Some demo_ctx) FdManager_new) true.

Lemma demo_manages : manages demo_hook 7 demo_ctx.
Proof. by split. Qed.

Lemma fd_table_is_a_map_witness :
  ∃ c m' k', get 9 true FdManager_new demo_kernel = Ret (Some c, m', k').
Proof.
  destruct (fd_table_is_a_map 9 FdManager_new demo_kernel) as (c & m' & k' & E & _);
    [lia|by vm_compute|by vm_compute|by exists c, m', k'].
Defined.

Lemma fcntl_hides_nonblock_witness :
  ∃ s', nonblocking (fcntl_getfl 7 (kernel s')) = true.
Proof.
  destruct (fcntl 1 7 F_SETFL 0 demo_hook) as [[r s']| |] eqn:E; [|by vm_compute in E..].
  exists s'. destruct (fcntl_hides_nonblock 7 0 demo_ctx demo_hook s') as [H _];
    [apply demo_manages|done| |exact H].
  rewrite E. vm_compute in E. injection E as <- <-. done.
Defined.


Lemma connect_reports_witness :
  ∃ e tr, connect_with_timeout true 7 300 (-1, EINPROGRESS) 0 false (0, 0) demo_hook = Ret (0, e, tr).
Proof.
  destruct (connect_reports 7 300 111 false demo_ctx demo_hook) as [[e E] _];
    [done|apply demo_manages|done|done|by eexists _, _].
Defined.
