(* ===== verification/Http.v ===== *)
(** HTTP messages: http/http.h and http.cpp.

    A [std::string] is a list of characters.  The tables are those of the
    macros [HTTP_METHOD_MAP] and [HTTP_STATUS_MAP], with the strings the
    preprocessor makes of the third column.  A [std::map] is the list of its
    entries in the order of its comparator. *)

From S2P Require Import Prelude.
From Stdlib Require Import Ascii.
From stdpp Require Import pretty.

#[local] Open Scope string_scope.
#[local] Open Scope list_scope.
#[local] Open Scope Z_scope.

Abbreviation text := (list ascii).
Definition str (s : string) : text := String.list_ascii_of_string s.

#[export] Instance ascii_eq_dec : EqDecision ascii := Ascii.ascii_dec.

(** * Methods and statuses *)

Definition HTTP_METHOD_MAP : list (Z * string) :=
  [(0, "DELETE"); (1, "GET"); (2, "HEAD"); (3, "POST"); (4, "PUT"); (5, "CONNECT");
   (6, "OPTIONS"); (7, "TRACE"); (8, "COPY"); (9, "LOCK"); (10, "MKCOL"); (11, "MOVE");
   (12, "PROPFIND"); (13, "PROPPATCH"); (14, "SEARCH"); (15, "UNLOCK"); (16, "BIND");
   (17, "REBIND"); (18, "UNBIND"); (19, "ACL"); (20, "REPORT"); (21, "MKACTIVITY");
   (22, "CHECKOUT"); (23, "MERGE"); (24, "M - SEARCH"); (25, "NOTIFY");
   (26, "SUBSCRIBE"); (27, "UNSUBSCRIBE"); (28, "PATCH"); (29, "PURGE");
   (30, "MKCALENDAR"); (31, "LINK"); (32, "UNLINK"); (33, "SOURCE")].

Definition HTTP_STATUS_MAP : list (Z * string) :=
  [(100, "Continue"); (101, "Switching Protocols"); (102, "Processing"); (200, "OK");
   (201, "Created"); (202, "Accepted"); (203, "Non - Authoritative Information");
   (204, "No Content"); (205, "Reset Content"); (206, "Partial Content");
   (207, "Multi - Status"); (208, "Already Reported"); (226, "IM Used");
   (300, "Multiple Choices"); (301, "Moved Permanently"); (302, "Found");
   (303, "See Other"); (304, "Not Modified"); (305, "Use Proxy");
   (307, "Temporary Redirect"); (308, "Permanent Redirect"); (400, "Bad Request");
   (401, "Unauthorized"); (402, "Payment Required"); (403, "Forbidden");
   (404, "Not Found"); (405, "Method Not Allowed"); (406, "Not Acceptable");
   (407, "Proxy Authentication Required"); (408, "Request Timeout"); (409, "Conflict");
   (410, "Gone"); (411, "Length Required"); (412, "Precondition Failed");
   (413, "Payload Too Large"); (414, "URI Too Long"); (415, "Unsupported Media Type");
   (416, "Range Not Satisfiable"); (417, "Expectation Failed");
   (421, "Misdirected Request"); (422, "Unprocessable Entity"); (423, "Locked");
   (424, "Failed Dependency"); (426, "Upgrade Required");
   (428, "Precondition Required"); (429, "Too Many Requests");
   (431, "Request Header Fields Too Large"); (451, "Unavailable For Legal Reasons");
   (500, "Internal Server Error"); (501, "Not Implemented"); (502, "Bad Gateway");
   (503, "Service Unavailable"); (504, "Gateway Timeout");
   (505, "HTTP Version Not Supported"); (506, "Variant Also Negotiates");
   (507, "Insufficient Storage"); (508, "Loop Detected"); (510, "Not Extended");
   (511, "Network Authentication Required")].

Definition HIT_INVALID_METHOD : Z := 255.

(** [m.c_str()] read as a C string: up to the first NUL. *)
Fixpoint c_str (s : text) : text :=
  match s with
  | [] => []
  | c :: s => if decide (c = Ascii.zero) then [] else c :: c_str s
  end.

(** [strcmp(a, b) == 0] on the C string of [m]. *)
Definition StringToHttpMethod (m : text) : Z :=
  match list_find (λ e, str (snd e) = c_str m) HTTP_METHOD_MAP with
  | Some (_, e) => fst e
  | None => HIT_INVALID_METHOD
  end.

(** [strncmp(name, m, strlen(name)) == 0], where [m] is all the memory from the
    pointer on: it is read up to the first difference, which a NUL is. *)
Fixpoint strncmp_name (name m : text) : outcome bool :=
  match name, m with
  | [], _ => Ret true
  | _ :: _, [] => Fault OutOfBounds
  | c :: name, d :: m => if decide (c = d) then strncmp_name name m else Ret false
  end.

Fixpoint find_method (rows : list (Z * string)) (m : text) : outcome Z :=
  match rows with
  | [] => Ret HIT_INVALID_METHOD
  | (num, name) :: rows =>
      let! equal := strncmp_name (str name) m in
      if equal then Ret num else find_method rows m
  end.
Definition CharsToHttpMethod (m : text) : outcome Z := find_method HTTP_METHOD_MAP m.

(** The index is an unsigned 32-bit number. *)
Definition HttpMethodToString (m : Z) : text :=
  match HTTP_METHOD_MAP !! Z.to_nat (u32 m) with
  | Some e => str (snd e)
  | None => str "<unknown>"
  end.

Definition HttpStatusToString (s : Z) : text :=
  match list_find (λ e, fst e = s) HTTP_STATUS_MAP with
  | Some (_, e) => str (snd e)
  | None => str "<unknown>"
  end.

(** * Maps with case-insensitive keys *)

(** [tolower] of the C locale, on a byte. *)
Definition lower (c : ascii) : N :=
  let n := N_of_ascii c in if (65 <=? n)%N && (n <=? 90)%N then (n + 32)%N else n.

(** A key as [strcasecmp] sees it. *)
Definition folded (s : text) : list N := lower <$> c_str s.

(** [strcasecmp(a, b) < 0], on folded strings. *)
Fixpoint lex_less (a b : list N) : bool :=
  match a, b with
  | _, [] => false
  | [], _ :: _ => true
  | x :: a, y :: b => (x <? y)%N || ((x =? y)%N && lex_less a b)
  end.

(** [CaseInsensitiveLess]. *)
Definition CaseInsensitiveLess (lhs rhs : text) : bool := lex_less (folded lhs) (folded rhs).

Abbreviation MapType := (list (text * text)).

(** [map.find(key)]. *)
Fixpoint map_find (key : text) (l : MapType) : option text :=
  match l with
  | [] => None
  | (k, v) :: l =>
      if CaseInsensitiveLess k key then map_find key l
      else if CaseInsensitiveLess key k then None
      else Some v
  end.

(** [map[key] = val]: an equivalent key stays as it is. *)
Fixpoint map_set (key val : text) (l : MapType) : MapType :=
  match l with
  | [] => [(key, val)]
  | (k, v) :: l' =>
      if CaseInsensitiveLess k key then (k, v) :: map_set key val l'
      else if CaseInsensitiveLess key k then (key, val) :: l
      else (k, val) :: l'
  end.

(** [map.erase(key)]. *)
Fixpoint map_erase (key : text) (l : MapType) : MapType :=
  match l with
  | [] => []
  | (k, v) :: l' =>
      if CaseInsensitiveLess k key then (k, v) :: map_erase key l'
      else if CaseInsensitiveLess key k then l
      else l'
  end.

(** * Requests *)

Record HttpRequest := mkRequest {
  m_method : Z;
  m_version : Z;
  m_close : bool;
  m_path : text;
  m_query : text;
  m_fragment : text;
  m_body : text;
  m_headers : MapType;
  m_params : MapType;
  m_cookies : MapType;
}.

Definition HttpRequest_new (version : Z) (close : bool) : HttpRequest :=
  mkRequest 1 version close (str "/") [] [] [] [] [] [].

Definition with_maps (h p c : MapType) (r : HttpRequest) : HttpRequest :=
  mkRequest (m_method r) (m_version r) (m_close r) (m_path r) (m_query r) (m_fragment r)
    (m_body r) h p c.

Definition setMethod (v : Z) (r : HttpRequest) : HttpRequest :=
    mkRequest v (m_version r) (m_close r) (m_path r) (m_query r) (m_fragment r) (m_body r)
    (m_headers r) (m_params r) (m_cookies r).
Definition setVersion (v : Z) (r : HttpRequest) : HttpRequest :=
    mkRequest (m_method r) v (m_close r) (m_path r) (m_query r) (m_fragment r) (m_body r)
    (m_headers r) (m_params r) (m_cookies r).
Definition setClose (v : bool) (r : HttpRequest) : HttpRequest :=
    mkRequest (m_method r) (m_version r) v (m_path r) (m_query r) (m_fragment r) (m_body r)
    (m_headers r) (m_params r) (m_cookies r).
Definition setPath (v : text) (r : HttpRequest) : HttpRequest :=
    mkRequest (m_method r) (m_version r) (m_close r) v (m_query r) (m_fragment r) (m_body r)
    (m_headers r) (m_params r) (m_cookies r).
Definition setQuery (v : text) (r : HttpRequest) : HttpRequest :=
    mkRequest (m_method r) (m_version r) (m_close r) (m_path r) v (m_fragment r) (m_body r)
    (m_headers r) (m_params r) (m_cookies r).
Definition setFragment (v : text) (r : HttpRequest) : HttpRequest :=
    mkRequest (m_method r) (m_version r) (m_close r) (m_path r) (m_query r) v (m_body r)
    (m_headers r) (m_params r) (m_cookies r).
Definition setBody (v : text) (r : HttpRequest) : HttpRequest :=
    mkRequest (m_method r) (m_version r) (m_close r) (m_path r) (m_query r) (m_fragment r) v
    (m_headers r) (m_params r) (m_cookies r).

Definition getHeader (key def : text) (r : HttpRequest) : text :=
  default def (map_find key (m_headers r)).
Definition getParam (key def : text) (r : HttpRequest) : text :=
  default def (map_find key (m_params r)).
Definition getCookie (key def : text) (r : HttpRequest) : text :=
  default def (map_find key (m_cookies r)).
Definition setHeader (key val : text) (r : HttpRequest) : HttpRequest :=
  with_maps (map_set key val (m_headers r)) (m_params r) (m_cookies r) r.
Definition setParam (key val : text) (r : HttpRequest) : HttpRequest :=
  with_maps (m_headers r) (map_set key val (m_params r)) (m_cookies r) r.
Definition setCookie (key val : text) (r : HttpRequest) : HttpRequest :=
  with_maps (m_headers r) (m_params r) (map_set key val (m_cookies r)) r.
Definition hasHeader (key : text) (r : HttpRequest) : bool * option text :=
  let v := map_find key (m_headers r) in (bool_decide (is_Some v), v).
Definition hasParam (key : text) (r : HttpRequest) : bool * option text :=
  let v := map_find key (m_params r) in (bool_decide (is_Some v), v).
Definition hasCookie (key : text) (r : HttpRequest) : bool * option text :=
  let v := map_find key (m_cookies r) in (bool_decide (is_Some v), v).
Definition delHeader (key : text) (r : HttpRequest) : HttpRequest :=
  with_maps (map_erase key (m_headers r)) (m_params r) (m_cookies r) r.
Definition delParam (key : text) (r : HttpRequest) : HttpRequest :=
  with_maps (m_headers r) (map_erase key (m_params r)) (m_cookies r) r.
Definition delCookie (key : text) (r : HttpRequest) : HttpRequest :=
  with_maps (m_headers r) (m_params r) (map_erase key (m_cookies r)) r.

(** [getAs] and [checkGetAs]; [cast] is [boost::lexical_cast], [None] when it
    throws. *)
Definition getAs {T} (cast : text → option T) (m : MapType) (key : text) (def : T) : T :=
  match map_find key m with
  | None => def
  | Some v => default def (cast v)
  end.
Definition checkGetAs {T} (cast : text → option T) (m : MapType) (key : text) (def : T)
    : bool * T :=
  match map_find key m with
  | None => (false, def)
  | Some v => match cast v with Some x => (true, x) | None => (false, def) end
  end.

(** ** Output *)

Definition crlf : text := [ascii_of_N 13; ascii_of_N 10].

(** [os << n] of an unsigned number. *)
Definition dec (n : Z) : text := str (pretty (Z.to_N n)).

(** [strcasecmp(key, "connection") == 0]. *)
Definition is_connection (key : text) : bool :=
  bool_decide (folded key = folded (str "connection")).

Definition connection_line (close : bool) : text :=
  str "connection: " ++ (if close then str "close" else str "keep-alive") ++ crlf.

(** The lines of the headers, without the connection header. *)
Definition header_lines (sep : text) (h : MapType) : text :=
  concat ((λ '(k, v), if is_connection k then [] else k ++ sep ++ v ++ crlf) <$> h).

Definition body_part (body empty : text) : text :=
  match body with
  | [] => empty
  | _ => str "content-length: " ++ dec (Zlen body) ++ crlf ++ crlf ++ body
  end.

Definition request_line (r : HttpRequest) : text :=
  HttpMethodToString (m_method r) ++ str " " ++ m_path r
  ++ (match m_query r with [] => [] | _ => str "?" ++ m_query r end)
  ++ (match m_fragment r with [] => [] | _ => str "#" ++ m_fragment r end)
  ++ str " HTTP/" ++ dec (Z.shiftr (m_version r) 4) ++ str "."
  ++ dec (Z.land (m_version r) 15) ++ crlf.

(** [HttpRequest::dump]. *)
Definition request_dump (r : HttpRequest) : text :=
  request_line r ++ connection_line (m_close r) ++ header_lines (str ":") (m_headers r)
  ++ body_part (m_body r) crlf.

(** * Responses *)

Record HttpResponse := mkResponse {
  rs_status : Z;
  rs_version : Z;
  rs_close : bool;
  rs_body : text;
  rs_reason : text;
  rs_headers : MapType;
}.

Definition HttpResponse_new (version : Z) (close : bool) : HttpResponse :=
  mkResponse 200 version close [] [] [].

Definition response_setStatus (v : Z) (r : HttpResponse) : HttpResponse :=
  mkResponse v (rs_version r) (rs_close r) (rs_body r) (rs_reason r) (rs_headers r).
Definition response_setVersion (v : Z) (r : HttpResponse) : HttpResponse :=
  mkResponse (rs_status r) v (rs_close r) (rs_body r) (rs_reason r) (rs_headers r).
Definition response_setClose (v : bool) (r : HttpResponse) : HttpResponse :=
  mkResponse (rs_status r) (rs_version r) v (rs_body r) (rs_reason r) (rs_headers r).
Definition response_setBody (v : text) (r : HttpResponse) : HttpResponse :=
  mkResponse (rs_status r) (rs_version r) (rs_close r) v (rs_reason r) (rs_headers r).
Definition response_setReason (v : text) (r : HttpResponse) : HttpResponse :=
  mkResponse (rs_status r) (rs_version r) (rs_close r) (rs_body r) v (rs_headers r).
Definition response_setHeaders (v : MapType) (r : HttpResponse) : HttpResponse :=
  mkResponse (rs_status r) (rs_version r) (rs_close r) (rs_body r) (rs_reason r) v.

Definition response_getHeader (key def : text) (r : HttpResponse) : text :=
  default def (map_find key (rs_headers r)).
Definition response_setHeader (key val : text) (r : HttpResponse) : HttpResponse :=
  mkResponse (rs_status r) (rs_version r) (rs_close r) (rs_body r) (rs_reason r)
    (map_set key val (rs_headers r)).
Definition response_delHeader (key : text) (r : HttpResponse) : HttpResponse :=
  mkResponse (rs_status r) (rs_version r) (rs_close r) (rs_body r) (rs_reason r)
    (map_erase key (rs_headers r)).

Definition status_line (r : HttpResponse) : text :=
  str "HTTP/" ++ dec (Z.shiftr (rs_version r) 4) ++ str "." ++ dec (Z.land (rs_version r) 15)
  ++ str " " ++ dec (u32 (rs_status r)) ++ str " "
  ++ (match rs_reason r with [] => HttpStatusToString (rs_status r) | s => s end) ++ crlf.

(** [HttpResponse::dump]. *)
Definition response_dump (r : HttpResponse) : text :=
  status_line r ++ header_lines (str ": ") (rs_headers r) ++ connection_line (rs_close r)
  ++ body_part (rs_body r) (crlf ++ crlf).
