(* ===== verification/HttpTheorems.v ===== *)
(** Correctness of the HTTP tables, header maps and printing. *)

From S2P Require Import Prelude Http.
From Stdlib Require Import Ascii Sorted.
From stdpp Require Import pretty.

#[local] Open Scope list_scope.
#[local] Open Scope Z_scope.

(** * Methods *)

Definition methods : list Z := fst <$> HTTP_METHOD_MAP.

(** The table, row by row: a name is found, also with more text after it, and
    its number is its index. *)
Lemma method_rows :
  Forall (λ e, HttpMethodToString (fst e) = str (snd e) ∧ StringToHttpMethod (str (snd e)) = fst e)
    HTTP_METHOD_MAP.
Proof. repeat (constructor; [by vm_compute|]). constructor. Qed.

Lemma method_rows_prefix :
  Forall (λ e, ∀ rest, CharsToHttpMethod (str (snd e) ++ rest) = Ret (fst e)) HTTP_METHOD_MAP.
Proof. repeat (constructor; [intros rest; vm_compute; reflexivity|]). constructor. Qed.

(** No name is longer than 11 characters. *)
Lemma strncmp_name_reads name : ∀ m,
  (length name ≤ length m)%nat → ∃ b, strncmp_name name m = Ret b.
Proof.
  induction name as [|c name IH]; intros [|d m] Hl; simpl in *; try (by eexists); [lia|].
  destruct (decide (c = d)); [apply IH; lia|by eexists].
Qed.

Lemma CharsToHttpMethod_reads m : (11 ≤ length m)%nat → ∃ v, CharsToHttpMethod m = Ret v.
Proof.
  intros Hl. unfold CharsToHttpMethod.
  assert (Forall (λ e : Z * string, (length (str (snd e)) ≤ 11)%nat) HTTP_METHOD_MAP) as Hrows
    by (repeat (constructor; [vm_compute; lia|]); constructor).
  induction HTTP_METHOD_MAP as [|[num name] rows IH]; [by eexists|].
  apply Forall_cons in Hrows as [Hn Hrows]. cbn [find_method].
  destruct (strncmp_name_reads (str name) m) as [b ->]; [cbn [snd] in Hn; lia|]. cbn [obind].
  destruct b; [by eexists|by apply IH].
Qed.

(** In shorter memory the comparison with the name that has blanks in it can
    run past the end. *)
Lemma method_over_read : CharsToHttpMethod (str "M ") = Fault OutOfBounds.
Proof. by vm_compute. Qed.

(** * Header maps *)

Lemma lex_less_irrefl a : lex_less a a = false.
Proof. induction a as [|x a IH]; [done|]. simpl. by rewrite N.ltb_irrefl, N.eqb_refl, IH. Qed.

Lemma lex_less_trans a b c :
  lex_less a b = true → lex_less b c = true → lex_less a c = true.
Proof.
  revert b c. induction a as [|x a IH]; intros [|y b] [|z c]; simpl; try done.
  rewrite !orb_true_iff, !andb_true_iff, !N.ltb_lt, !N.eqb_eq.
  intros [?|[-> ?]] [?|[-> ?]]; [left; lia|by left|by left|right; eauto].
Qed.

Lemma lex_less_total a b : lex_less a b = false → lex_less b a = false → a = b.
Proof.
  revert b. induction a as [|x a IH]; intros [|y b]; simpl; try done.
  rewrite !orb_false_iff, !andb_false_iff, !N.ltb_ge, !N.eqb_neq.
  intros [? H1] [? H2]. assert (x = y) as -> by lia. f_equal.
  apply IH; [by destruct H1|by destruct H2].
Qed.

(** Keys that differ in case only. *)
Definition same_key (a b : text) : Prop := folded a = folded b.

#[global] Instance same_key_equiv : Equivalence same_key.
Proof. unfold same_key. split; [done|by intros ? ? ->|by intros ? ? ? -> ->]. Qed.

#[global] Instance CaseInsensitiveLess_proper :
  Proper (same_key ==> same_key ==> eq) CaseInsensitiveLess.
Proof. unfold same_key, CaseInsensitiveLess. by intros ? ? -> ? ? ->. Qed.

#[global] Instance same_key_dec : RelDecision same_key.
Proof. unfold same_key. intros a b. apply _. Defined.

Lemma less_or_same a b :
  CaseInsensitiveLess a b = false → CaseInsensitiveLess b a = false → same_key a b.
Proof. apply lex_less_total. Qed.

Lemma less_not_same a b : CaseInsensitiveLess a b = true → ¬ same_key a b.
Proof. intros H E. rewrite E in H. unfold CaseInsensitiveLess in H. by rewrite lex_less_irrefl in H. Qed.

(** The order a std::map keeps. *)
Definition sorted_map (l : MapType) : Prop :=
  StronglySorted (λ x y, CaseInsensitiveLess (fst x) (fst y) = true) l.

(** The value of a key, by the keys' equivalence alone. *)
Fixpoint assoc (key : text) (l : MapType) : option text :=
  match l with
  | [] => None
  | (k, v) :: l => if decide (same_key k key) then Some v else assoc key l
  end.

Lemma assoc_above key l :
  Forall (λ x, CaseInsensitiveLess key (fst x) = true) l → assoc key l = None.
Proof.
  induction 1 as [|[k v] l Hk _ IH]; [done|]. simpl in *. rewrite decide_False; [done|].
  intros E. symmetry in E. by apply (less_not_same _ _ Hk).
Qed.

Lemma Forall_less_trans key k (l : MapType) :
  CaseInsensitiveLess key k = true →
  Forall (λ x, CaseInsensitiveLess k (fst x) = true) l →
  Forall (λ x, CaseInsensitiveLess key (fst x) = true) l.
Proof. intros H Hl. eapply Forall_impl; [exact Hl|]. intros x Hx. by eapply lex_less_trans. Qed.

Lemma map_find_assoc key l : sorted_map l → map_find key l = assoc key l.
Proof.
  induction 1 as [|[k v] l _ IH Hall]; [done|]. simpl in *.
  destruct (CaseInsensitiveLess k key) eqn:E1.
  - rewrite decide_False by (by apply less_not_same). done.
  - destruct (CaseInsensitiveLess key k) eqn:E2.
    + rewrite decide_False; [|intros E; symmetry in E; by apply (less_not_same _ _ E2)].
      symmetry. apply assoc_above. by eapply Forall_less_trans.
    + by rewrite decide_True by (by apply less_or_same).
Qed.

Lemma map_set_keys key val l (P : text → Prop) :
  P key → Forall (λ x, P (fst x)) l → Forall (λ x, P (fst x)) (map_set key val l).
Proof.
  intros Hk. induction 1 as [|[k v] l Hx Hl IH]; simpl; [by repeat constructor|].
  destruct (CaseInsensitiveLess k key); [by constructor|].
  destruct (CaseInsensitiveLess key k); by repeat constructor.
Qed.

Lemma map_set_sorted key val l : sorted_map l → sorted_map (map_set key val l).
Proof.
  induction 1 as [|[k v] l Hs IH Hall]; simpl; [by repeat constructor|].
  destruct (CaseInsensitiveLess k key) eqn:E1.
  - constructor; [done|]. by apply (map_set_keys _ _ _ (λ x, CaseInsensitiveLess k x = true)).
  - destruct (CaseInsensitiveLess key k) eqn:E2.
    + constructor; [by constructor|]. constructor; [done|]. by eapply Forall_less_trans.
    + by constructor.
Qed.

Lemma map_erase_incl key l x : x ∈ map_erase key l → x ∈ l.
Proof.
  induction l as [|[k v] l IH]; simpl; [done|].
  destruct (CaseInsensitiveLess k key); [set_solver|].
  destruct (CaseInsensitiveLess key k); set_solver.
Qed.

Lemma map_erase_sorted key l : sorted_map l → sorted_map (map_erase key l).
Proof.
  induction 1 as [|[k v] l Hs IH Hall]; simpl; [constructor|].
  destruct (CaseInsensitiveLess k key).
  - constructor; [done|]. apply Forall_forall. intros x Hx%map_erase_incl.
    by apply (proj1 (Forall_forall _ _) Hall).
  - destruct (CaseInsensitiveLess key k); [by constructor|done].
Qed.

Lemma assoc_set key val key' l :
  sorted_map l →
  assoc key' (map_set key val l) = if decide (same_key key key') then Some val else assoc key' l.
Proof.
  induction 1 as [|[k v] l Hs IH Hall]; simpl in *; [done|].
  destruct (CaseInsensitiveLess k key) eqn:E1; simpl.
  - rewrite IH. destruct (decide (same_key k key')) as [Hk|]; [|done].
    rewrite decide_False; [done|]. intros E. apply (less_not_same _ _ E1). by rewrite Hk.
  - destruct (CaseInsensitiveLess key k) eqn:E2; simpl; [done|].
    pose proof (less_or_same _ _ E1 E2) as Ek.
    destruct (decide (same_key k key')) as [Hk|Hk], (decide (same_key key key')) as [Hk'|Hk'];
      try done; exfalso; [apply Hk'|apply Hk]; by rewrite <- Hk || rewrite Ek.
Qed.

Lemma assoc_erase key key' l :
  sorted_map l →
  assoc key' (map_erase key l) = if decide (same_key key key') then None else assoc key' l.
Proof.
  induction 1 as [|[k v] l Hs IH Hall]; simpl in *; [by destruct (decide _)|].
  destruct (CaseInsensitiveLess k key) eqn:E1; simpl.
  - rewrite IH. destruct (decide (same_key k key')) as [Hk|]; [|done].
    rewrite decide_False; [done|]. intros E. apply (less_not_same _ _ E1). by rewrite Hk.
  - destruct (CaseInsensitiveLess key k) eqn:E2; simpl.
    + destruct (decide (same_key key key')) as [Hk'|]; [|done].
      assert (CaseInsensitiveLess key' k = true) as E3 by (by rewrite <- Hk').
      rewrite decide_False; [|intros E; symmetry in E; by apply (less_not_same _ _ E3)].
      apply assoc_above. by eapply Forall_less_trans.
    + pose proof (less_or_same _ _ E1 E2) as Ek.
      destruct (decide (same_key key key')) as [Hk'|Hk'].
      * apply assoc_above. eapply Forall_impl; [exact Hall|]. intros x Hx. simpl in Hx.
        by setoid_rewrite <- Hk'; setoid_rewrite <- Ek.
      * rewrite decide_False; [done|]. intros E. apply Hk'. by rewrite <- E.
Qed.

(** * Printing *)

Definition CR : ascii := ascii_of_N 13.
Definition LF : ascii := ascii_of_N 10.

(** How a peer reads a message head: the lines up to the first empty one, each
    ended by CR LF, and what follows. *)
Fixpoint cut_line (t : text) : text * text :=
  match t with
  | [] => ([], [])
  | c :: t' =>
      match t' with
      | d :: t'' =>
          if decide (c = CR ∧ d = LF) then ([], t'')
          else let '(l, r) := cut_line t' in (c :: l, r)
      | [] => ([c], [])
      end
  end.

Fixpoint read_head (fuel : nat) (t : text) : list text * text :=
  match fuel with
  | O => ([], t)
  | S fuel =>
      match cut_line t with
      | ([], rest) => ([], rest)
      | (l, rest) => let '(ls, body) := read_head fuel rest in (l :: ls, body)
      end
  end.

Lemma cut_line_app l rest : CR ∉ l → cut_line (l ++ crlf ++ rest) = (l, rest).
Proof.
  induction l as [|c l IH]; intros Hl.
  - change (cut_line ([] ++ crlf ++ rest)) with
      (if decide (CR = CR ∧ LF = LF) then ([], rest)
       else let '(l, r) := cut_line (LF :: rest) in (CR :: l, r)).
    by rewrite decide_True.
  - assert (c ≠ CR ∧ CR ∉ l) as [Hc Hl'] by set_solver. specialize (IH Hl').
    assert (∃ d t, l ++ crlf ++ rest = d :: t) as (d & t & E) by (destruct l; simpl; eauto).
    cbn [app cut_line]. rewrite E in *. rewrite decide_False by tauto. by rewrite IH.
Qed.

(** Lines that are not empty, the empty line, the body. *)
Lemma read_head_lines ls body n :
  Forall (λ l, l ≠ [] ∧ CR ∉ l) ls → (length ls < n)%nat →
  read_head n (concat ((λ l, l ++ crlf) <$> ls) ++ crlf ++ body) = (ls, body).
Proof.
  intros H. revert n. induction H as [|l ls [Hne Hl] _ IH]; intros [|n] Hn; simpl in Hn;
    try lia.
  - change (concat ((λ l, l ++ crlf) <$> []) ++ crlf ++ body) with ([] ++ crlf ++ body).
    cbn [read_head]. rewrite cut_line_app by set_solver. done.
  - cbn [fmap list_fmap concat read_head]. rewrite <- !(assoc_L (++)), cut_line_app by done.
    destruct l as [|c l]; [done|]. rewrite IH by lia. done.
Qed.

(** The lines between the first line and the empty one. *)
Definition header_texts (sep : text) (h : MapType) : list text :=
  (λ x, fst x ++ sep ++ snd x) <$> filter (λ x, is_connection (fst x) = false) h.

Definition length_text (body : text) : list text :=
  match body with [] => [] | _ => [str "content-length: " ++ dec (Zlen body)] end.

Lemma header_lines_texts sep h :
  header_lines sep h = concat ((λ l, l ++ crlf) <$> header_texts sep h).
Proof.
  unfold header_lines, header_texts. induction h as [|[k v] h IH]; [done|].
  cbn [fmap list_fmap concat]. rewrite IH. destruct (is_connection k) eqn:E.
  - by rewrite filter_cons_False by (simpl; by rewrite E).
  - rewrite filter_cons_True by done. cbn [fmap list_fmap concat fst snd].
    by rewrite <- !(assoc_L (++)).
Qed.

Lemma body_part_lines body :
  body_part body crlf = concat ((λ l, l ++ crlf) <$> length_text body) ++ crlf ++ body.
Proof.
  destruct body as [|c b]; [done|]. unfold body_part, length_text.
  cbn [fmap list_fmap concat]. by rewrite app_nil_r, <- !(assoc_L (++)).
Qed.

Lemma str_app a b : str (a +:+ b) = str a ++ str b.
Proof. induction a as [|c a IH]; [done|]. simpl. by rewrite <- IH. Qed.

Lemma dec_no_CR n : CR ∉ dec n.
Proof.
  unfold dec, pretty, pretty_N. destruct (decide _); [set_solver|].
  assert (∀ x s, CR ∉ str s → CR ∉ str (pretty_N_go x s)) as Hgo; [|by apply Hgo, not_elem_of_nil].
  intros x. induction (N.lt_wf_0 x) as [x _ IH]. intros s Hs.
  destruct (decide (0 < x)%N) as [Hx|Hx].
  - rewrite pretty_N_go_step by done. apply IH; [by apply N.div_lt|].
    cbn [str String.list_ascii_of_string]. apply not_elem_of_cons. split; [|done].
    unfold pretty_N_char. by repeat case_match.
  - assert (x = 0)%N as -> by lia. by rewrite pretty_N_go_0.
Qed.

(** The fields have no line break of their own. *)
Record plain_request (r : HttpRequest) : Prop := {
  pr_line : (CR ∉ m_path r) ∧ (CR ∉ m_query r) ∧ (CR ∉ m_fragment r);
  pr_headers : Forall (λ x, (CR ∉ fst x) ∧ (CR ∉ snd x)) (m_headers r);
}.

Definition request_text (r : HttpRequest) : text :=
  HttpMethodToString (m_method r) ++ str " " ++ m_path r
  ++ (match m_query r with [] => [] | _ => str "?" ++ m_query r end)
  ++ (match m_fragment r with [] => [] | _ => str "#" ++ m_fragment r end)
  ++ str " HTTP/" ++ dec (Z.shiftr (m_version r) 4) ++ str "."
  ++ dec (Z.land (m_version r) 15).

Definition connection_text (close : bool) : text :=
  str "connection: " ++ (if close then str "close" else str "keep-alive").

Lemma method_no_CR m : CR ∉ HttpMethodToString m.
Proof.
  unfold HttpMethodToString. destruct (HTTP_METHOD_MAP !! _) as [e|] eqn:E.
  - apply list_elem_of_lookup_2 in E. revert e E. apply Forall_forall.
    repeat (constructor; [by apply (bool_decide_unpack _); vm_compute|]). constructor.
  - by apply (bool_decide_unpack _); vm_compute.
Qed.

Lemma str_no_CR s : bool_decide (CR ∉ str s) = true → CR ∉ str s.
Proof. apply bool_decide_eq_true. Qed.

Ltac no_CR :=
  rewrite ?not_elem_of_app; repeat split;
  first [ done | apply dec_no_CR | apply method_no_CR | by apply str_no_CR; vm_compute
        | set_solver ].

Lemma request_lines r :
  plain_request r →
  Forall (λ l, l ≠ [] ∧ CR ∉ l)
    (request_text r :: connection_text (m_close r) :: header_texts (str ":") (m_headers r)
     ++ length_text (m_body r)).
Proof.
  intros [(Hp & Hq & Hf) Hh]. repeat apply Forall_cons_2.
  - split; [unfold request_text; by destruct (HttpMethodToString _)|].
    unfold request_text. destruct (m_query r), (m_fragment r); no_CR.
  - split; [done|]. unfold connection_text. destruct (m_close r); no_CR.
  - apply Forall_app. split.
    + apply Forall_fmap, Forall_forall. intros [k v] [_ Hin]%list_elem_of_filter.
      apply (proj1 (Forall_forall _ _) Hh) in Hin as [? ?]. simpl in *.
      split; [by destruct k|no_CR].
    + unfold length_text. destruct (m_body r); [constructor|].
      repeat constructor; [done|no_CR].
Qed.

(** * Properties *)

(** Methods and their names: every method of the table is found again
    from its name, by [StringToHttpMethod] and, with any text after it, by
    [CharsToHttpMethod]; and a text that [StringToHttpMethod] accepts is the
    name of the method it returns. *)
Theorem method_names_roundtrip :
  (∀ m, m ∈ methods →
     StringToHttpMethod (HttpMethodToString m) = m ∧
     ∀ rest, CharsToHttpMethod (HttpMethodToString m ++ rest) = Ret m) ∧
  (∀ s, StringToHttpMethod s ≠ HIT_INVALID_METHOD →
     HttpMethodToString (StringToHttpMethod s) = c_str s).
Proof.
  split.
  - intros m [e [-> He]]%list_elem_of_fmap.
    destruct (proj1 (Forall_forall _ _) method_rows e He) as [-> ?].
    split; [done|]. by apply (proj1 (Forall_forall _ _) method_rows_prefix e He).
  - intros s. unfold StringToHttpMethod. destruct (list_find _ _) as [[i e]|] eqn:E; [|done].
    intros _. apply list_find_Some in E as (He & <- & _). apply list_elem_of_lookup_2 in He.
    by apply (proj1 (Forall_forall _ _) method_rows e He).
Qed.

(** Headers are a map over keys up to case: after [setHeader(k, v)],
    [getHeader] of any key that differs from [k] in case only is [v] and of
    the others is unchanged; after [delHeader(k)] it is the default; and the
    entries stay in the order the container needs. *)
Theorem headers_case_insensitive (key val key' def : text) (r : HttpRequest) :
  sorted_map (m_headers r) →
  getHeader key' def (setHeader key val r)
    = (if decide (same_key key key') then val else getHeader key' def r) ∧
  getHeader key' def (delHeader key r)
    = (if decide (same_key key key') then def else getHeader key' def r) ∧
  fst (hasHeader key (setHeader key val r)) = true ∧
  sorted_map (m_headers (setHeader key val r)) ∧ sorted_map (m_headers (delHeader key r)).
Proof.
  intros Hs. unfold getHeader, hasHeader, setHeader, delHeader. cbn [m_headers with_maps fst].
  pose proof (map_set_sorted key val _ Hs). pose proof (map_erase_sorted key _ Hs).
  rewrite !map_find_assoc by done. rewrite !assoc_set, !assoc_erase by done.
  split_and!; try done.
  - by destruct (decide (same_key key key')).
  - by destruct (decide (same_key key key')).
  - by rewrite decide_True.
Qed.

(** A printed request reads back: when no field holds a carriage return,
    the peer that splits the text at CR LF up to the first empty line gets the
    request line, one connection line that says what [m_close] says, each
    other header once as [name:value], the content length when there is a
    body, and then exactly the body. *)
Theorem request_dump_reads_back (r : HttpRequest) :
  plain_request r →
  ∃ n, ∀ fuel, (n ≤ fuel)%nat →
    read_head fuel (request_dump r) =
      (request_text r :: connection_text (m_close r) :: header_texts (str ":") (m_headers r)
       ++ length_text (m_body r), m_body r).
Proof.
  intros Hr. pose proof (request_lines r Hr) as Hl.
  set (ls := request_text r :: _ :: _ ++ _) in *. exists (S (length ls)). intros fuel Hf.
  assert (request_dump r = concat ((λ l, l ++ crlf) <$> ls) ++ crlf ++ m_body r) as ->.
  { unfold request_dump, ls. rewrite header_lines_texts, body_part_lines.
    cbn [fmap list_fmap concat]. rewrite fmap_app, concat_app.
    unfold request_line, request_text, connection_line, connection_text.
    by rewrite <- !(assoc_L (++)). }
  by apply read_head_lines; [|lia].
Qed.

(** A response without a body ends in one line break too many: the peer finds
    an empty line as the body of every such response. *)
Theorem empty_response_has_body (r : HttpResponse) :
  rs_body r = [] → ∃ head, response_dump r = head ++ crlf ++ crlf ++ crlf.
Proof.
  intros Hb. unfold response_dump, body_part. rewrite Hb. unfold connection_line.
  exists (status_line r ++ header_lines (str ": ") (rs_headers r) ++ connection_text (rs_close r)).
  unfold connection_text. by rewrite <- !(assoc_L (++)).
Qed.

(** The name of method 24 is not the token of the protocol. *)
Lemma msearch_not_recognised : StringToHttpMethod (str "M-SEARCH") = HIT_INVALID_METHOD.
Proof. by vm_compute. Qed.

(** A longer token is taken for the method it starts with. *)
Lemma getx_taken_for_get : CharsToHttpMethod (str "GETX") = Ret 1.
Proof. by vm_compute. Qed.

(** * Witnesses *)

Definition demo_request : HttpRequest :=
  mkRequest 1 17 true (str "/index") [] [] (str "hi") [(str "Host", str "a.b")] [] [].

Lemma headers_case_insensitive_witness :
  getHeader (str "HOST") [] (setHeader (str "hOst") (str "c.d") demo_request) = str "c.d".
Proof.
  destruct (headers_case_insensitive (str "hOst") (str "c.d") (str "HOST") [] demo_request)
    as [E _]; [by repeat constructor|]. rewrite E. by rewrite decide_True by (by vm_compute).
Defined.

Lemma request_dump_reads_back_witness :
  ∃ n, snd (read_head n (request_dump demo_request)) = str "hi".
Proof.
  destruct (request_dump_reads_back demo_request) as [n Hn].
  - split; [|repeat constructor]; simpl; repeat split; by apply (bool_decide_unpack _); vm_compute.
  - exists n. by rewrite (Hn n) by done.
Defined.
