(* ===== verification/Log.v ===== *)
(** The logger: log.h and log.cpp.

    Levels are the values of an enumeration over [char] (the code also casts
    other numbers to it).  A pattern is parsed by index, as the code does;
    [strftime] of the local time is an argument.  Appenders are shared between
    the logger and its user, so they live in a heap keyed by their address. *)

From S2P Require Import Prelude Http.
From Stdlib Require Import Ascii.
From stdpp Require Import pretty.

#[local] Open Scope string_scope.
#[local] Open Scope list_scope.
#[local] Open Scope Z_scope.

(** * Levels *)

Definition UNKNOWN : Z := 0.
Definition DEBUG : Z := 1.
Definition INFO : Z := 2.
Definition WARN : Z := 3.
Definition ERROR : Z := 4.
Definition FATAL : Z := 5.

Definition level_names : list (Z * string) :=
  [(DEBUG, "DEBUG"); (INFO, "INFO"); (WARN, "WARN"); (ERROR, "ERROR"); (FATAL, "FATAL")].
Definition level_names_lower : list (Z * string) :=
  [(DEBUG, "debug"); (INFO, "info"); (WARN, "warn"); (ERROR, "error"); (FATAL, "fatal")].

(** [LogLevel::ToString]. *)
Definition level_ToString (level : Z) : text :=
  match list_find (λ e, fst e = level) level_names with
  | Some (_, e) => str (snd e)
  | None => str "UNKNOWN"
  end.

(** [LogLevel::FromString]. *)
Definition level_FromString (v : text) : Z :=
  match list_find (λ e, str (snd e) = v) (level_names_lower ++ level_names) with
  | Some (_, e) => fst e
  | None => UNKNOWN
  end.

(** * Patterns *)

Definition percent : ascii := ascii_of_N 37.
Definition lbrace : ascii := ascii_of_N 123.
Definition rbrace : ascii := ascii_of_N 125.

(** [std::isalpha] in the C locale. *)
Definition isalpha (c : ascii) : bool :=
  let n := N_of_ascii c in
  ((65 <=? n)%N && (n <=? 90)%N) || ((97 <=? n)%N && (n <=? 122)%N).

(** [s.substr(pos, len)], for [pos] at most the size. *)
Definition substr (s : text) (pos len : nat) : text := take len (drop pos s).

(** The inner loop: from index [n], with the state [fmt_status], [fmt_begin],
    [str_] and [fmt]; the result is [n], [fmt_status], [str_] and [fmt] after
    the loop. *)
Fixpoint scan (fuel : nat) (pat : text) (i n : nat) (fmt_status : Z) (fmt_begin : nat)
    (str_ fmt : text) : nat * Z * text * text :=
  match fuel with
  | O => (n, fmt_status, str_, fmt)
  | S fuel =>
      match pat !! n with
      | None => (n, fmt_status, str_, fmt)
      | Some c =>
          if (fmt_status =? 0) && negb (isalpha c) && negb (bool_decide (c = lbrace))
             && negb (bool_decide (c = rbrace))
          then (n, fmt_status, substr pat (i + 1) (n - i - 1), fmt)
          else if (fmt_status =? 0) && bool_decide (c = lbrace)
          then scan fuel pat i (n + 1) 1 n (substr pat (i + 1) (n - i - 1)) fmt
          else if (fmt_status =? 1) && bool_decide (c = rbrace)
          then ((n + 1)%nat, 2, str_, substr pat (fmt_begin + 1) (n - fmt_begin - 1))
          else scan fuel pat i (n + 1) fmt_status fmt_begin str_ fmt
      end
  end.

(** An entry of [vec]: string, format, type. *)
Record entry := mkEntry3 { e_str : text; e_fmt : text; e_type : Z }.

Definition flush (normal_str : text) (vec : list entry) : list entry :=
  match normal_str with [] => vec | _ => vec ++ [mkEntry3 normal_str [] 0] end.

(** The outer loop of [LogFormatter::init] from index [i]: [vec] and
    [m_error]; [None] when the fuel does not suffice. *)
Fixpoint parse_from (fuel : nat) (pat : text) (i : nat) (normal_str : text)
    (vec : list entry) (m_error : bool) : option (list entry * bool) :=
  match fuel with
  | O => None
  | S fuel =>
      match pat !! i with
      | None => Some (flush normal_str vec, m_error)
      | Some c =>
          if negb (bool_decide (c = percent))
          then parse_from fuel pat (i + 1) (normal_str ++ [c]) vec m_error
          else if bool_decide (pat !! (i + 1)%nat = Some percent)
          then parse_from fuel pat (i + 1) (normal_str ++ [percent]) vec m_error
          else
            let '(n, fmt_status, str_, fmt) :=
              scan (length pat) pat i (i + 1) 0 0 [] [] in
            if fmt_status =? 0 then
              let vec := flush normal_str vec in
              let str_ := substr pat (i + 1) (n - i - 1) in
              parse_from fuel pat n [] (vec ++ [mkEntry3 str_ fmt 1]) m_error
            else if fmt_status =? 1 then
              parse_from fuel pat (i + 1) normal_str
                (vec ++ [mkEntry3 (str "<<pattern_error>>") fmt 0]) true
            else
              parse_from fuel pat n [] (flush normal_str vec ++ [mkEntry3 str_ fmt 1]) m_error
      end
  end.

Definition parse (pat : text) : option (list entry * bool) :=
  parse_from (S (length pat)) pat 0 [] [] false.

(** ** Items *)

Inductive FormatItem :=
| MessageFormatItem
| LevelFormatItem
| ElapseFormatItem
| NameFormatItem
| ThreadIdFormatItem
| NewLineFormatItem
| DateTimeFormatItem (format : text)
| FilenameFormatItem
| LineFormatItem
| TabFormatItem
| FiberFormatItem
| ThreadNameFormatItem
| StringFormatItem (s : text).

(** [DateTimeFormatItem::DateTimeFormatItem]. *)
Definition DateTime_new (format : text) : FormatItem :=
  DateTimeFormatItem (match format with [] => str "%Y-%m-%d %H:%M:%S" | _ => format end).

(** [s_format_items]. *)
Definition s_format_items : list (string * (text → FormatItem)) :=
  [("m", λ _, MessageFormatItem); ("p", λ _, LevelFormatItem); ("r", λ _, ElapseFormatItem);
   ("c", λ _, NameFormatItem); ("t", λ _, ThreadIdFormatItem); ("n", λ _, NewLineFormatItem);
   ("d", DateTime_new); ("f", λ _, FilenameFormatItem); ("l", λ _, LineFormatItem);
   ("T", λ _, TabFormatItem); ("F", λ _, FiberFormatItem); ("N", λ _, ThreadNameFormatItem)].

Definition item_of (e : entry) : FormatItem * bool :=
  if e_type e =? 0 then (StringFormatItem (e_str e), false)
  else match list_find (λ x, str (fst x) = e_str e) s_format_items with
       | Some (_, x) => (snd x (e_fmt e), false)
       | None => (StringFormatItem (str "<<error_format %" ++ e_str e ++ str ">>"), true)
       end.

(** [LogFormatter]: its pattern, items and error flag. *)
Record LogFormatter := mkFormatter {
  lf_pattern : text;
  lf_items : list FormatItem;
  lf_error : bool;
}.

Definition LogFormatter_new (pattern : text) : option LogFormatter :=
  '(vec, err) ← parse pattern;
  Some (mkFormatter pattern (fst ∘ item_of <$> vec) (err || existsb (snd ∘ item_of) vec)).

Record LogEvent := mkEvent {
  ev_file : text;
  ev_line : Z;
  ev_elapse : Z;
  ev_threadId : Z;
  ev_fiberId : Z;
  ev_time : Z;
  ev_threadname : text;
  ev_content : text;
  ev_logger : text;
}.

(** [os << n] of a signed number. *)
Definition dec_signed (n : Z) : text := str (pretty n).

(** The items' [format]; [strftime fmt time] formats the local time, of which
    at most 63 characters fit the buffer. *)
Definition format_item (strftime : text → Z → text) (level : Z) (e : LogEvent)
    (it : FormatItem) : text :=
  match it with
  | MessageFormatItem => ev_content e
  | LevelFormatItem => level_ToString level
  | ElapseFormatItem => dec (ev_elapse e)
  | NameFormatItem => ev_logger e
  | ThreadIdFormatItem => dec (ev_threadId e)
  | NewLineFormatItem => [ascii_of_N 10]
  | DateTimeFormatItem f => strftime f (ev_time e)
  | FilenameFormatItem => ev_file e
  | LineFormatItem => dec_signed (ev_line e)
  | TabFormatItem => [ascii_of_N 9]
  | FiberFormatItem => dec (ev_fiberId e)
  | ThreadNameFormatItem => ev_threadname e
  | StringFormatItem s => s
  end.

(** [LogFormatter::format]. *)
Definition format (strftime : text → Z → text) (f : LogFormatter) (level : Z) (e : LogEvent)
    : text :=
  concat (format_item strftime level e <$> lf_items f).

(** * Appenders and loggers *)

(** [ap_sink] is where it writes: the console, or a file of that name. *)
Record LogAppender := mkAppender {
  ap_sink : option text;
  ap_level : Z;
  ap_formatter : option LogFormatter;
  ap_hasFormatter : bool;
}.

Definition appender_setFormatter (val : option LogFormatter) (a : LogAppender) : LogAppender :=
  mkAppender (ap_sink a) (ap_level a) val (bool_decide (is_Some val)).
Definition appender_inherit (val : option LogFormatter) (a : LogAppender) : LogAppender :=
  mkAppender (ap_sink a) (ap_level a) val (ap_hasFormatter a).
Definition appender_setLevel (level : Z) (a : LogAppender) : LogAppender :=
  mkAppender (ap_sink a) level (ap_formatter a) (ap_hasFormatter a).

Record Logger := mkLogger {
  lg_name : text;
  lg_level : Z;
  lg_appenders : list nat;
  lg_formatter : option LogFormatter;
  lg_root : bool;
}.

Definition default_pattern : text :=
  str "%d{%Y-%m-%d %H:%M:%S}%T%t%T%N%T%F%T[%p]%T[%c]%T%f:%l%T%m%n".

(** [Logger::Logger(name)]. *)
Definition Logger_new (name : text) : Logger :=
  mkLogger name DEBUG [] (LogFormatter_new default_pattern) false.

Definition with_appenders (l : list nat) (lg : Logger) : Logger :=
  mkLogger (lg_name lg) (lg_level lg) l (lg_formatter lg) (lg_root lg).

(** [Logger::addAppender] on the heap of appenders. *)
Definition addAppender (a : nat) (st : Logger * gmap nat LogAppender)
    : outcome (Logger * gmap nat LogAppender) :=
  let '(lg, h) := st in
  match h !! a with
  | None => Fault NullDeref
  | Some ap =>
      let h := match ap_formatter ap with
               | None => <[a := appender_inherit (lg_formatter lg) ap]> h
               | Some _ => h
               end in
      Ret (with_appenders (lg_appenders lg ++ [a]) lg, h)
  end.

(** [Logger::delAppender]: the first one only. *)
Fixpoint remove_first (a : nat) (l : list nat) : list nat :=
  match l with
  | [] => []
  | b :: l => if decide (b = a) then l else b :: remove_first a l
  end.
Definition delAppender (a : nat) (lg : Logger) : Logger :=
  with_appenders (remove_first a (lg_appenders lg)) lg.
Definition clearAppenders (lg : Logger) : Logger := with_appenders [] lg.
Definition setLevel (level : Z) (lg : Logger) : Logger :=
  mkLogger (lg_name lg) level (lg_appenders lg) (lg_formatter lg) (lg_root lg).

(** [Logger::setFormatter(LogFormatter::ptr)]: pushed down to the appenders
    that have no formatter of their own. *)
Definition push_down (f : option LogFormatter) (h : gmap nat LogAppender) (a : nat)
    : gmap nat LogAppender :=
  match h !! a with
  | Some ap => if ap_hasFormatter ap then h else <[a := appender_inherit f ap]> h
  | None => h
  end.
Definition setFormatter_ptr (f : option LogFormatter) (st : Logger * gmap nat LogAppender)
    : Logger * gmap nat LogAppender :=
  let '(lg, h) := st in
  (mkLogger (lg_name lg) (lg_level lg) (lg_appenders lg) f (lg_root lg),
   foldl (push_down f) h (lg_appenders lg)).

(** [Logger::setFormatter(const std::string &)]: an invalid pattern changes
    nothing. *)
Definition setFormatter (val : text) (st : Logger * gmap nat LogAppender)
    : option (Logger * gmap nat LogAppender) :=
  f ← LogFormatter_new val;
  Some (if lf_error f then st else setFormatter_ptr (Some f) st).

(** [LogAppender::log] of both appenders: what is written where. *)
Definition appender_log strftime (level : Z) (e : LogEvent) (a : LogAppender)
    : outcome (list (option text * text)) :=
  if ap_level a <=? level then
    match ap_formatter a with
    | Some f => Ret [(ap_sink a, format strftime f level e)]
    | None => Fault NullDeref
    end
  else Ret [].

Fixpoint appenders_log strftime (level : Z) (e : LogEvent) (h : gmap nat LogAppender)
    (l : list nat) : outcome (list (option text * text)) :=
  match l with
  | [] => Ret []
  | a :: l =>
      match h !! a with
      | None => Fault NullDeref
      | Some ap =>
          let! out := appender_log strftime level e ap in
          let! outs := appenders_log strftime level e h l in
          Ret (out ++ outs)
      end
  end.

(** [Logger::log]; [root] is the logger [m_root] points to. *)
Definition log strftime (level : Z) (e : LogEvent) (h : gmap nat LogAppender)
    (root lg : Logger) : outcome (list (option text * text)) :=
  if lg_level lg <=? level then
    match lg_appenders lg with
    | _ :: _ => appenders_log strftime level e h (lg_appenders lg)
    | [] =>
        if lg_root lg then
          if lg_level root <=? level then appenders_log strftime level e h (lg_appenders root)
          else Ret []
        else Ret []
    end
  else Ret [].

(** The stream of a [FileLogAppender]: the content of its file and
    [m_lastTime]. [open] of a std::ofstream in its default mode empties the
    file. *)
Record file_state := mkFile { fs_content : text; fs_lastTime : Z }.
Definition reopen (s : file_state) : file_state := mkFile [] (fs_lastTime s).

(** [FileLogAppender::log] on its stream, at the time [now]. *)
Definition file_log strftime (now : Z) (level : Z) (e : LogEvent) (a : LogAppender)
    (s : file_state) : outcome file_state :=
  if ap_level a <=? level then
    let s := if negb (now =? fs_lastTime s) then mkFile (fs_content (reopen s)) now else s in
    match ap_formatter a with
    | Some f => Ret (mkFile (fs_content s ++ format strftime f level e) (fs_lastTime s))
    | None => Fault NullDeref
    end
  else Ret s.

(** [LoggerManager]: the map of loggers, which holds the root logger under its
    name, and the heap of appenders. *)
Record LoggerManager := mkMgr {
  m_loggers : gmap text Logger;
  m_heap : gmap nat LogAppender;
}.

(** [LoggerManager::LoggerManager]. *)
Definition LoggerManager_new : outcome LoggerManager :=
  let! (root, h) := addAppender 0%nat
    (Logger_new (str "root"), {[ 0%nat := mkAppender None DEBUG None false ]}) in
  Ret (mkMgr {[ lg_name root := root ]} h).

(** [LoggerManager::getLogger]. *)
Definition getLogger (name : text) (m : gmap text Logger) : Logger * gmap text Logger :=
  match m !! name with
  | Some lg => (lg, m)
  | None =>
      let lg := Logger_new name in
      let lg := mkLogger (lg_name lg) (lg_level lg) (lg_appenders lg) (lg_formatter lg) true in
      (lg, <[name := lg]> m)
  end.

(** * Reloading the configuration *)

Record LogAppenderDefine := mkAD { ad_type : Z; ad_level : Z; ad_formatter : text; ad_file : text }.
Record LogDefine := mkLD {
  ld_name : text;
  ld_level : Z;
  ld_formatter : text;
  ld_appenders : list LogAppenderDefine;
}.

#[export] Instance LogAppenderDefine_eq_dec : EqDecision LogAppenderDefine.
Proof. solve_decision. Defined.
#[export] Instance LogDefine_eq_dec : EqDecision LogDefine.
Proof. solve_decision. Defined.

(** The pointer [logger] the listener of [LogIniter] works on, for a new
    definition [i]: it is set only if the definition is new or has changed. *)
Definition logger_for (i : LogDefine) (old_value : list LogDefine) : option text :=
  match list_find (λ d, ld_name d = ld_name i) old_value with
  | None => Some (ld_name i)
  | Some (_, it) => if decide (i = it) then None else Some (ld_name i)
  end.

(** The appender a definition describes: the pointer is null for another type,
    and an invalid formatter is not set. *)
Definition define_appender (a : LogAppenderDefine) : outcome LogAppender :=
  let ap := if ad_type a =? 1 then Some (mkAppender (Some (ad_file a)) DEBUG None false)
            else if ad_type a =? 2 then Some (mkAppender None DEBUG None false)
            else None in
  match ap with
  | None => Fault NullDeref
  | Some ap =>
      let ap := appender_setLevel (ad_level a) ap in
      match ad_formatter a with
      | [] => Ret ap
      | _ => match LogFormatter_new (ad_formatter a) with
             | None => Fault OutOfFuel
             | Some fmt => Ret (if lf_error fmt then ap else appender_setFormatter (Some fmt) ap)
             end
      end
  end.

(** The loop over [i.appenders]: each new appender gets an address of its
    own. *)
Fixpoint add_defined (l : list LogAppenderDefine) (st : Logger * gmap nat LogAppender)
    : outcome (Logger * gmap nat LogAppender) :=
  match l with
  | [] => Ret st
  | a :: l =>
      let! ap := define_appender a in
      let p := fresh (dom (snd st)) in
      let! st := addAppender p (fst st, <[p := ap]> (snd st)) in
      add_defined l st
  end.

(** The body of the first loop of the listener, for the definition [i]. *)
Definition configure (old_value : list LogDefine) (i : LogDefine) (m : LoggerManager)
    : outcome LoggerManager :=
  match logger_for i old_value with
  | None => Fault NullDeref
  | Some name =>
      let '(lg, loggers) := getLogger name (m_loggers m) in
      let lg := setLevel (ld_level i) lg in
      let! (lg, h) := match ld_formatter i with
                      | [] => Ret (lg, m_heap m)
                      | _ => match setFormatter (ld_formatter i) (lg, m_heap m) with
                             | Some st => Ret st
                             | None => Fault OutOfFuel
                             end
                      end in
      let! (lg, h) := add_defined (ld_appenders i) (clearAppenders lg, h) in
      Ret (mkMgr (<[name := lg]> loggers) h)
  end.

Fixpoint configure_all (old_value new_value : list LogDefine) (m : LoggerManager)
    : outcome LoggerManager :=
  match new_value with
  | [] => Ret m
  | i :: new_value => let! m := configure old_value i m in configure_all old_value new_value m
  end.

(** The body of the second loop, for the old definition [i]. *)
Definition retire (new_value : list LogDefine) (m : LoggerManager) (i : LogDefine)
    : LoggerManager :=
  match list_find (λ d, ld_name d = ld_name i) new_value with
  | Some _ => m
  | None =>
      let '(lg, loggers) := getLogger (ld_name i) (m_loggers m) in
      mkMgr (<[ld_name i := clearAppenders (setLevel 100 lg)]> loggers) (m_heap m)
  end.

(** The listener of [LogIniter]; a std::set of definitions, ordered by their
    names, is the list of its elements. The line it logs itself is left out. *)
Definition on_change (old_value new_value : list LogDefine) (m : LoggerManager)
    : outcome LoggerManager :=
  let! m := configure_all old_value new_value m in
  Ret (foldl (retire new_value) m old_value).
