(* ===== verification/LogTheorems.v ===== *)
(** Correctness of the log patterns and of the loggers. *)

From S2P Require Import Prelude Http Log.
From Stdlib Require Import Ascii.

#[local] Open Scope string_scope.
#[local] Open Scope list_scope.
#[local] Open Scope Z_scope.

(** * Patterns as sequences of pieces *)

(** A piece of a pattern: plain text, or [%key] with or without [{format}]. *)
Inductive piece :=
| Lit (t : text)
| Item (key : text) (fmt : option text).

Definition show (p : piece) : text :=
  match p with
  | Lit t => t
  | Item k None => percent :: k
  | Item k (Some f) => percent :: k ++ lbrace :: f ++ [rbrace]
  end.

Definition entry_of (p : piece) : entry :=
  match p with
  | Lit t => mkEntry3 t [] 0
  | Item k f => mkEntry3 k (default [] f) 1
  end.

Definition show_all (ps : list piece) : text := concat (show <$> ps).

(** The character ends a key without format. *)
Definition ends_key (c : ascii) : bool :=
  negb (isalpha c) && negb (bool_decide (c = lbrace)) && negb (bool_decide (c = rbrace)).

(** Pieces that the pattern language can express in a row. *)
Fixpoint wf_pieces (ps : list piece) : Prop :=
  match ps with
  | [] => True
  | Lit t :: ps =>
      t ≠ [] ∧ (percent ∉ t) ∧ wf_pieces ps ∧
      match ps with Lit _ :: _ => False | _ => True end
  | Item k f :: ps =>
      k ≠ [] ∧ Forall (λ c, isalpha c = true) k ∧ wf_pieces ps ∧
      match f with
      | Some f => rbrace ∉ f
      | None => match show_all ps with [] => True | c :: _ => ends_key c = true end
      end
  end.

Lemma lookup_drop_head {A} (l : list A) i x r : drop i l = x :: r → l !! i = Some x.
Proof. intros H. by rewrite <- (Nat.add_0_r i), <- lookup_drop, H. Qed.

Lemma drop_app_next {A} (l a r : list A) i :
  drop i l = a ++ r → drop (i + length a) l = r.
Proof. intros H. rewrite <- drop_drop, H. apply drop_app_length. Qed.

Lemma drop_next {A} (l r : list A) i x : drop i l = x :: r → drop (i + 1) l = r.
Proof. intros H. by apply (drop_app_next l [x]). Qed.

Lemma alpha_not c :
  isalpha c = true → c ≠ percent ∧ bool_decide (c = lbrace) = false.
Proof.
  intros H. split; [|apply bool_decide_eq_false]; intros ->; by vm_compute in H.
Qed.

Lemma ends_percent : ends_key percent = true.
Proof. by vm_compute. Qed.

(** ** The inner loop *)

(** Reading the letters of a key. *)
Lemma scan_key k rest pat i n b s f fuel :
  Forall (λ c, isalpha c = true) k → drop n pat = k ++ rest →
  scan (length k + fuel) pat i n 0 b s f = scan fuel pat i (n + length k) 0 b s f.
Proof.
  revert n. induction k as [|c k IH]; intros n Hk Hd; [by rewrite Nat.add_0_r|].
  apply Forall_cons in Hk as [Hc Hk]. destruct (alpha_not c Hc) as [_ Hl].
  cbn [length Nat.add app scan]. rewrite (lookup_drop_head _ _ _ _ Hd), Hc, Hl.
  cbn [negb andb Z.eqb]. rewrite IH by (try done; by eapply drop_next). f_equal. lia.
Qed.

(** Reading the characters of a format. *)
Lemma scan_fmt g rest pat i n b s f fuel :
  (rbrace ∉ g) → drop n pat = g ++ rest →
  scan (length g + fuel) pat i n 1 b s f = scan fuel pat i (n + length g) 1 b s f.
Proof.
  revert n. induction g as [|c g IH]; intros n Hg Hd; [by rewrite Nat.add_0_r|].
  apply not_elem_of_cons in Hg as [Hc Hg].
  cbn [length Nat.add app scan]. rewrite (lookup_drop_head _ _ _ _ Hd).
  cbn [negb andb Z.eqb]. rewrite bool_decide_false by done.
  rewrite IH by (try done; by eapply drop_next). f_equal. lia.
Qed.

Lemma substr_drop pat pos a r :
  drop pos pat = a ++ r → substr pat pos (length a) = a.
Proof. intros H. unfold substr. by rewrite H, take_app_length. Qed.

(** A key without format. *)
Lemma scan_plain k rest pat i :
  Forall (λ c, isalpha c = true) k → drop i pat = percent :: k ++ rest →
  match rest with [] => True | c :: _ => ends_key c = true end →
  ∃ s, scan (length pat) pat i (i + 1) 0 0 [] [] = ((i + 1 + length k)%nat, 0, s, []).
Proof.
  intros Hk Hd Hr. pose proof (drop_next _ _ _ _ Hd) as Hd1.
  pose proof (drop_app_next _ _ _ _ Hd1) as Hd2.
  assert (∃ fuel, length pat = (length k + S fuel)%nat) as [fuel ->].
  { apply (f_equal length) in Hd. rewrite length_drop in Hd. simpl in Hd.
    rewrite length_app in Hd. exists (length pat - length k - 1)%nat. lia. }
  rewrite (scan_key _ _ _ _ _ _ _ _ _ Hk Hd1). cbn [scan].
  destruct rest as [|c rest].
  - rewrite lookup_ge_None_2; [by eexists|].
    apply (f_equal length) in Hd2. rewrite length_drop in Hd2. simpl in Hd2. lia.
  - rewrite (lookup_drop_head _ _ _ _ Hd2). unfold ends_key in Hr. rewrite Z.eqb_refl.
    cbn [andb]. rewrite Hr. by eexists.
Qed.

(** A key with its format. *)
Lemma scan_braced k g rest pat i :
  Forall (λ c, isalpha c = true) k → (rbrace ∉ g) →
  drop i pat = percent :: k ++ lbrace :: g ++ rbrace :: rest →
  scan (length pat) pat i (i + 1) 0 0 [] [] =
    ((i + 1 + length k + 1 + length g + 1)%nat, 2, k, g).
Proof.
  intros Hk Hg Hd. pose proof (drop_next _ _ _ _ Hd) as Hd1.
  pose proof (drop_app_next _ _ _ _ Hd1) as Hd2. pose proof (drop_next _ _ _ _ Hd2) as Hd3.
  pose proof (drop_app_next _ _ _ _ Hd3) as Hd4.
  assert (∃ fuel, length pat = (length k + S (length g + S fuel))%nat) as [fuel ->].
  { apply (f_equal length) in Hd. rewrite length_drop in Hd. simpl in Hd.
    rewrite !length_app in Hd. simpl in Hd. rewrite length_app in Hd. simpl in Hd.
    exists (length pat - length k - length g - 2)%nat. lia. }
  rewrite (scan_key _ _ _ _ _ _ _ _ _ Hk Hd1). cbn [scan].
  rewrite (lookup_drop_head _ _ _ _ Hd2). rewrite (bool_decide_true (lbrace = lbrace)) by done.
  cbn [Z.eqb negb andb]. rewrite andb_false_r. cbn [andb].
  rewrite (scan_fmt _ _ _ _ _ _ _ _ _ Hg Hd3). cbn [scan].
  rewrite (lookup_drop_head _ _ _ _ Hd4). rewrite (bool_decide_true (rbrace = rbrace)) by done.
  cbn [Z.eqb negb andb]. do 2 f_equal.
  - f_equal. replace (i + 1 + length k - i - 1)%nat with (length k) by lia.
    by apply (substr_drop _ _ _ _ Hd1).
  - replace (i + 1 + length k + 1 + length g - (i + 1 + length k) - 1)%nat with (length g) by lia.
    by apply (substr_drop _ _ _ _ Hd3).
Qed.

(** ** The outer loop *)

Lemma parse_lit t rest pat i nr vec fuel :
  (percent ∉ t) → drop i pat = t ++ rest →
  parse_from (length t + fuel) pat i nr vec false =
  parse_from fuel pat (i + length t) (nr ++ t) vec false.
Proof.
  revert i nr. induction t as [|c t IH]; intros i nr Ht Hd;
    [by rewrite Nat.add_0_r, app_nil_r|].
  apply not_elem_of_cons in Ht as [Hc Ht]. cbn [length Nat.add parse_from].
  rewrite (lookup_drop_head _ _ _ _ Hd), bool_decide_false by done. cbn [negb].
  rewrite IH by (try done; by eapply drop_next). rewrite <- (assoc_L (++)). f_equal. lia.
Qed.

Lemma parse_item k f rest pat i nr vec fuel :
  k ≠ [] → Forall (λ c, isalpha c = true) k →
  drop i pat = show (Item k f) ++ rest →
  match f with
  | Some f => rbrace ∉ f
  | None => match rest with [] => True | c :: _ => ends_key c = true end
  end →
  parse_from (S fuel) pat i nr vec false =
  parse_from fuel pat (i + length (show (Item k f))) [] (flush nr vec ++ [entry_of (Item k f)])
    false.
Proof.
  intros Hne Hk Hd Hf.
  assert (pat !! i = Some percent ∧ pat !! (i + 1)%nat ≠ Some percent) as [Hi Hi1].
  { destruct k as [|c k]; [done|]. apply Forall_cons in Hk as [Hc _].
    destruct (alpha_not c Hc) as [Hp _]. destruct f; simpl in Hd;
    (split; [by apply (lookup_drop_head _ _ _ _ Hd)|]);
    rewrite (lookup_drop_head _ _ _ _ (drop_next _ _ _ _ Hd)); congruence. }
  cbn [parse_from]. rewrite Hi, bool_decide_true, bool_decide_false by done. cbn [negb].
  destruct f as [g|].
  - assert (drop i pat = percent :: k ++ lbrace :: g ++ rbrace :: rest) as Hd'.
    { rewrite Hd. simpl. rewrite <- (assoc_L (++)). simpl. by rewrite <- (assoc_L (++)). }
    rewrite (scan_braced k g rest pat i Hk Hf Hd'). cbn [Z.eqb entry_of default from_option].
    f_equal. simpl. rewrite length_app. simpl. rewrite length_app. simpl. lia.
  - destruct (scan_plain k rest pat i Hk Hd Hf) as [s ->]. cbn [Z.eqb].
    replace (i + 1 + length k - i - 1)%nat with (length k) by lia.
    rewrite (substr_drop pat (i + 1) k rest) by exact (drop_next pat (k ++ rest) i percent Hd).
    f_equal. simpl. lia.
Qed.

(** The loop on the text of [ps], with [nr] pending. *)
Lemma parse_pieces ps pat i nr vec fuel :
  wf_pieces ps → drop i pat = show_all ps → (length (show_all ps) < fuel)%nat →
  (nr = [] ∨ match ps with Lit _ :: _ => False | _ => True end) →
  parse_from fuel pat i nr vec false = Some (flush nr vec ++ (entry_of <$> ps), false).
Proof.
  revert i nr vec fuel. induction ps as [|p ps IH]; intros i nr vec fuel Hwf Hd Hfuel Hnr.
  { destruct fuel; [lia|]. cbn [parse_from]. rewrite lookup_ge_None_2.
    - by rewrite app_nil_r.
    - apply (f_equal length) in Hd. rewrite length_drop in Hd. simpl in Hd. lia. }
  change (show_all (p :: ps)) with (show p ++ show_all ps) in Hd, Hfuel.
  rewrite length_app in Hfuel. pose proof (drop_app_next _ _ _ _ Hd) as Hd'.
  destruct p as [t|k f]; cbn [wf_pieces] in Hwf.
  - destruct Hwf as (Ht & Hp & Hwf & Hnext). destruct Hnr as [->|[]]. simpl in Hfuel, Hd'.
    replace fuel with (length t + (fuel - length t))%nat by lia.
    rewrite (parse_lit t _ pat i [] vec _ Hp Hd).
    rewrite IH by (try done; try lia; by right). f_equal. f_equal.
    destruct t; [done|]. cbn [app flush fmap list_fmap entry_of]. by rewrite <- (assoc_L (++)).
  - destruct Hwf as (Hne & Hk & Hwf & Hf). destruct fuel as [|fuel]; [lia|].
    rewrite (parse_item k f (show_all ps) pat i nr vec fuel Hne Hk Hd Hf).
    assert (1 ≤ length (show (Item k f)))%nat by (destruct f; simpl; lia).
    rewrite IH by (try done; try lia; by left). cbn [flush fmap list_fmap].
    by rewrite <- (assoc_L (++)).
Qed.

(** The outer loop always ends within the fuel [parse] gives it. *)
Lemma scan_forward fuel pat i n st b s f n' st' s' f' :
  scan fuel pat i n st b s f = (n', st', s', f') → (n ≤ n')%nat.
Proof.
  revert n st b s f. induction fuel as [|fuel IH]; intros n st b s f; cbn [scan];
    [by intros [= <- _ _ _]|].
  destruct (pat !! n); [|by intros [= <- _ _ _]]. repeat case_match; intros Hs;
    try (by injection Hs as <- _ _ _; lia); apply IH in Hs; lia.
Qed.

Lemma parse_total fuel pat i nr vec err :
  (length pat - i < fuel)%nat → is_Some (parse_from fuel pat i nr vec err).
Proof.
  revert i nr vec err. induction fuel as [|fuel IH]; intros i nr vec err Hf; [lia|].
  cbn [parse_from]. destruct (pat !! i) as [c|] eqn:Hi; [|by eexists].
  apply lookup_lt_Some in Hi. repeat case_match; try (apply IH; lia).
  all: match goal with H : scan _ _ _ _ _ _ _ _ = _ |- _ => apply scan_forward in H end;
    apply IH; lia.
Qed.

(** * Loggers *)

Lemma push_down_lookup f (h : gmap nat LogAppender) l a :
  foldl (push_down f) h l !! a =
  (λ ap, if decide (a ∈ l) then if ap_hasFormatter ap then ap else appender_inherit f ap else ap)
    <$> h !! a.
Proof.
  revert h. induction l as [|b l IH]; intros h; cbn [foldl].
  { destruct (h !! a); [|done]. cbn [fmap option_fmap option_map].
    destruct (decide (a ∈ [])) as [H|]; [by apply not_elem_of_nil in H|done]. }
  rewrite IH. unfold push_down. destruct (decide (a = b)) as [->|Hab].
  - destruct (h !! b) as [ap|] eqn:Hb; [|by rewrite Hb].
    destruct (ap_hasFormatter ap) eqn:Hh; rewrite ?Hb, ?lookup_insert_eq;
      cbn [fmap option_fmap option_map]; f_equal; rewrite ?Hh;
      destruct (decide (b ∈ l)), (decide (b ∈ b :: l)) as [|Hn]; try done;
      try (by exfalso; apply Hn; left); simpl; by rewrite ?Hh.
  - assert ((if decide (a ∈ b :: l) then true else false) = if decide (a ∈ l) then true else false)
      as Hd by (destruct (decide (a ∈ b :: l)), (decide (a ∈ l)); set_solver).
    destruct (h !! b) as [ap|]; [destruct (ap_hasFormatter ap)|];
      rewrite ?lookup_insert_ne by done; destruct (h !! a); cbn [fmap option_fmap option_map];
      try done; f_equal; by destruct (decide (a ∈ b :: l)), (decide (a ∈ l)).
Qed.

(** Every appender of the logger exists and has a formatter, and so has the
    logger. *)
Definition ready (st : Logger * gmap nat LogAppender) : Prop :=
  is_Some (lg_formatter (fst st)) ∧
  ∀ a, a ∈ lg_appenders (fst st) → ∃ ap, snd st !! a = Some ap ∧ is_Some (ap_formatter ap).

Lemma ready_addAppender a st st' : ready st → addAppender a st = Ret st' → ready st'.
Proof.
  destruct st as [lg h]. intros [Hf Ha]. cbn [fst snd addAppender] in *.
  destruct (h !! a) as [ap|] eqn:Hap; [|done]. intros [= <-]. split; [done|].
  intros b Hb. cbn [fst snd lg_appenders with_appenders] in *.
  assert (b ∈ lg_appenders lg ∨ b = a) as Hb' by set_solver. clear Hb.
  destruct (ap_formatter ap) as [f|] eqn:Ef.
  - destruct Hb' as [Hb| ->]; [by apply Ha|]. exists ap. by rewrite Ef.
  - destruct (decide (b = a)) as [->|Hne].
    + exists (appender_inherit (lg_formatter lg) ap). by rewrite lookup_insert_eq.
    + rewrite lookup_insert_ne by done. apply Ha. naive_solver.
Qed.

Lemma ready_setFormatter f st : ready st → ready (setFormatter_ptr (Some f) st).
Proof.
  destruct st as [lg h]. intros [Hf Ha]. split; [done|]. cbn [fst snd setFormatter_ptr] in *.
  intros a Hin. destruct (Ha a Hin) as (ap & Hap & Hff). rewrite push_down_lookup, Hap.
  eexists. split; [reflexivity|]. destruct (decide _); [|done]. by destruct (ap_hasFormatter ap).
Qed.

(** What one appender writes. *)
Definition writes strftime (level : Z) (e : LogEvent) (h : gmap nat LogAppender) (a : nat)
    : list (option text * text) :=
  match h !! a with
  | Some ap =>
      match ap_formatter ap with
      | Some f => if ap_level ap <=? level then [(ap_sink ap, format strftime f level e)] else []
      | None => []
      end
  | None => []
  end.

Lemma appenders_log_ready strftime level e (h : gmap nat LogAppender) l :
  (∀ a, a ∈ l → ∃ ap, h !! a = Some ap ∧ is_Some (ap_formatter ap)) →
  appenders_log strftime level e h l = Ret (concat (writes strftime level e h <$> l)).
Proof.
  induction l as [|a l IH]; intros Hl; [done|]. cbn [appenders_log fmap list_fmap concat].
  destruct (Hl a) as (ap & Hap & f & Hf); [by left|].
  rewrite IH by (intros; apply Hl; by right).
  assert (writes strftime level e h a =
    if ap_level ap <=? level then [(ap_sink ap, format strftime f level e)] else []) as ->
    by (unfold writes; by rewrite Hap, Hf).
  unfold appender_log. rewrite Hap, Hf. by destruct (ap_level ap <=? level).
Qed.

(** * Reloading *)

(** The formatter a pattern in a definition gives: none if it is empty or
    invalid. *)
Definition valid_formatter (pat : text) : option LogFormatter :=
  match pat with
  | [] => None
  | _ => match LogFormatter_new pat with
         | Some f => if lf_error f then None else Some f
         | None => None
         end
  end.

Lemma LogFormatter_new_total pat : is_Some (LogFormatter_new pat).
Proof.
  unfold LogFormatter_new, parse.
  destruct (parse_total (S (length pat)) pat 0 [] [] false) as [[vec err] E]; [lia|].
  rewrite E. by eexists.
Qed.

Definition valid_type (a : LogAppenderDefine) : Prop := ad_type a = 1 ∨ ad_type a = 2.

(** [p] is the address of an appender as [a] describes it, in a logger with
    the formatter [fmt]. *)
Definition described (h : gmap nat LogAppender) (fmt : option LogFormatter) (p : nat)
    (a : LogAppenderDefine) : Prop :=
  h !! p = Some (mkAppender
    (if ad_type a =? 1 then Some (ad_file a) else None) (ad_level a)
    (match valid_formatter (ad_formatter a) with Some f => Some f | None => fmt end)
    (bool_decide (is_Some (valid_formatter (ad_formatter a))))).

Lemma define_appender_spec a :
  valid_type a →
  define_appender a = Ret (mkAppender
    (if ad_type a =? 1 then Some (ad_file a) else None) (ad_level a)
    (valid_formatter (ad_formatter a))
    (bool_decide (is_Some (valid_formatter (ad_formatter a))))).
Proof.
  intros Ht. unfold define_appender, valid_formatter.
  destruct (LogFormatter_new_total (ad_formatter a)) as [f ->].
  destruct Ht as [-> | ->]; (destruct (ad_formatter a); [done|]); by destruct (lf_error f).
Qed.

Lemma described_mono h h' fmt p a : h ⊆ h' → described h fmt p a → described h' fmt p a.
Proof. unfold described. intros Hsub H. by eapply lookup_weaken. Qed.

Lemma add_defined_spec l lg h :
  Forall valid_type l →
  ∃ ps h', add_defined l (lg, h) = Ret (with_appenders (lg_appenders lg ++ ps) lg, h') ∧
    Forall2 (described h' (lg_formatter lg)) ps l ∧ (∀ p, p ∈ ps → h !! p = None) ∧ h ⊆ h'.
Proof.
  intros Hl. revert lg h. induction Hl as [|a l Ha Hl IH]; intros lg h; cbn [add_defined].
  { exists [], h. rewrite app_nil_r. split_and!; [by destruct lg|constructor|set_solver|done]. }
  rewrite define_appender_spec by done. cbn [obind fst snd].
  set (p := fresh (dom h)).
  assert (h !! p = None) as Hp by (apply not_elem_of_dom, is_fresh).
  set (lg' := with_appenders (lg_appenders lg ++ [p]) lg).
  assert (∃ h1, addAppender p (lg, <[p:=mkAppender
      (if ad_type a =? 1 then Some (ad_file a) else None) (ad_level a)
      (valid_formatter (ad_formatter a))
      (bool_decide (is_Some (valid_formatter (ad_formatter a))))]> h) = Ret (lg', h1) ∧
    described h1 (lg_formatter lg) p a ∧ h ⊆ h1) as (h1 & -> & Hd & Hh).
  { unfold addAppender. rewrite lookup_insert_eq. cbn [ap_formatter]. unfold described.
    destruct (valid_formatter (ad_formatter a)); (eexists; split; [reflexivity|]).
    - rewrite lookup_insert_eq. split; [done|by apply insert_subseteq].
    - rewrite insert_insert_eq, lookup_insert_eq. split; [done|by apply insert_subseteq]. }
  cbn [obind]. destruct (IH lg' h1) as (ps & h' & -> & HF & Hn & Hh').
  exists (p :: ps), h'. split_and!.
  - unfold lg'. by destruct lg; cbn; rewrite <- app_assoc.
  - constructor; [by eapply described_mono|done].
  - intros q [-> |Hq]%elem_of_cons; [done|]. apply Hn in Hq.
    destruct (h !! q) as [x|] eqn:E; [|done]. exfalso.
    pose proof (lookup_weaken _ _ _ _ E Hh). congruence.
  - by etrans.
Qed.

(** Every appender of a logger is in the heap. *)
Definition closed (m : LoggerManager) : Prop :=
  ∀ n lg p, m_loggers m !! n = Some lg → p ∈ lg_appenders lg → is_Some (m_heap m !! p).

(** The logger of the definition [i] is as defined; [lg0] is the logger it was
    before. *)
Definition configured (i : LogDefine) (lg0 : Logger) (m : LoggerManager) (lg : Logger) : Prop :=
  m_loggers m !! ld_name i = Some lg ∧ lg_level lg = ld_level i ∧
  lg_formatter lg = (match valid_formatter (ld_formatter i) with
                     | Some f => Some f
                     | None => lg_formatter lg0
                     end) ∧
  Forall2 (described (m_heap m) (lg_formatter lg)) (lg_appenders lg) (ld_appenders i).

Lemma push_down_frame f l (h : gmap nat LogAppender) p :
  p ∉ l → foldl (push_down f) h l !! p = h !! p.
Proof.
  intros Hp. rewrite push_down_lookup. destruct (h !! p); [|done].
  cbn [fmap option_fmap option_map]. by rewrite decide_False.
Qed.

Lemma push_down_dom f l (h : gmap nat LogAppender) p :
  foldl (push_down f) h l !! p = None ↔ h !! p = None.
Proof. rewrite push_down_lookup. by destruct (h !! p). Qed.

(** The formatter step of [configure]. *)
Lemma reformat_spec (i : LogDefine) lg h :
  ∃ h', match ld_formatter i with
        | [] => Ret (lg, h)
        | _ => match setFormatter (ld_formatter i) (lg, h) with
               | Some st => Ret st
               | None => Fault OutOfFuel
               end
        end = Ret (mkLogger (lg_name lg) (lg_level lg) (lg_appenders lg)
          (match valid_formatter (ld_formatter i) with
           | Some f => Some f | None => lg_formatter lg end) (lg_root lg), h') ∧
    (∀ p, p ∉ lg_appenders lg → h' !! p = h !! p) ∧ (∀ p, h' !! p = None ↔ h !! p = None).
Proof.
  unfold valid_formatter, setFormatter. destruct (ld_formatter i) as [|c pat].
  { exists h. by destruct lg. }
  destruct (LogFormatter_new_total (c :: pat)) as [f ->]. cbn [mbind option_bind].
  destruct (lf_error f).
  - exists h. by destruct lg.
  - eexists. split; [reflexivity|]. split; intros p.
    + apply push_down_frame.
    + apply push_down_dom.
Qed.

Lemma configure_spec old i m :
  logger_for i old = Some (ld_name i) → Forall valid_type (ld_appenders i) →
  let lg0 := fst (getLogger (ld_name i) (m_loggers m)) in
  ∃ m' lg, configure old i m = Ret m' ∧ configured i lg0 m' lg ∧
    (∀ p, p ∈ lg_appenders lg → m_heap m !! p = None) ∧
    (∀ n, n ≠ ld_name i → m_loggers m' !! n = m_loggers m !! n) ∧
    (∀ p, is_Some (m_heap m !! p) → p ∉ lg_appenders lg0 → m_heap m' !! p = m_heap m !! p) ∧
    (∀ p, is_Some (m_heap m !! p) → is_Some (m_heap m' !! p)).
Proof.
  intros Hf Hv lg0. unfold configure. rewrite Hf.
  destruct (getLogger (ld_name i) (m_loggers m)) as [lg1 loggers] eqn:Eg. cbn [fst] in lg0.
  assert (∀ n, n ≠ ld_name i → loggers !! n = m_loggers m !! n) as Hother.
  { intros n Hn. unfold getLogger in Eg. destruct (m_loggers m !! ld_name i); injection Eg as <- <-;
      [done|by rewrite lookup_insert_ne]. }
  destruct (reformat_spec i (setLevel (ld_level i) lg1) (m_heap m)) as (h1 & -> & Hfr & Hdom).
  cbn [obind]. set (lg2 := clearAppenders _).
  destruct (add_defined_spec (ld_appenders i) lg2 h1 Hv) as (ps & h' & -> & HF & Hn & Hsub).
  cbn [obind]. eexists _, _. split; [reflexivity|]. unfold configured.
  cbn [m_loggers m_heap lg_appenders with_appenders lg_formatter lg_level].
  subst lg2. cbn [app clearAppenders with_appenders lg_appenders lg_formatter lg_level setLevel] in *.
  split_and!.
  - by rewrite lookup_insert_eq.
  - done.
  - done.
  - done.
  - intros p Hp. by apply Hdom, Hn.
  - intros n Hne. rewrite lookup_insert_ne by done. by apply Hother.
  - intros p [x Hx] Hp. rewrite <- (Hfr p Hp) in *. rewrite Hx. by eapply lookup_weaken.
  - intros p Hp. destruct (h1 !! p) as [x|] eqn:E; [|apply Hdom in E; by destruct Hp as [? ?]; congruence].
    exists x. by eapply lookup_weaken.
Qed.

Lemma logger_for_new i old :
  NoDup (ld_name <$> old) → i ∉ old → logger_for i old = Some (ld_name i).
Proof.
  intros Hnd Hi. unfold logger_for. destruct (list_find _ _) as [[k d]|] eqn:E; [|done].
  apply list_find_Some in E as (Hd & _). rewrite decide_False; [done|].
  intros ->. apply Hi. by eapply list_elem_of_lookup_2.
Qed.

Lemma logger_for_unchanged i old :
  NoDup (ld_name <$> old) → i ∈ old → logger_for i old = None.
Proof.
  intros Hnd Hi. unfold logger_for. apply list_elem_of_lookup in Hi as [k Hk].
  destruct (list_find _ _) as [[k' d]|] eqn:E.
  - apply list_find_Some in E as (Hd & Hn & _).
    assert (k' = k) as ->.
    { eapply NoDup_lookup; [exact Hnd|by rewrite list_lookup_fmap, Hd|].
      rewrite list_lookup_fmap, Hk. simpl. by rewrite Hn. }
    rewrite Hk in Hd. injection Hd as <-. by rewrite decide_True.
  - exfalso. apply list_find_None in E. rewrite Forall_lookup in E. by apply (E k i Hk).
Qed.

(** The state of the first loop after the definitions [done], from [m0]. *)
Definition reloading (m0 : LoggerManager) (done : list LogDefine) (m : LoggerManager) : Prop :=
  (∀ i, i ∈ done → ∃ lg,
     configured i (fst (getLogger (ld_name i) (m_loggers m0))) m lg ∧
     ∀ p, p ∈ lg_appenders lg → m_heap m0 !! p = None) ∧
  (∀ n, n ∉ ld_name <$> done → m_loggers m !! n = m_loggers m0 !! n) ∧
  (∀ p, is_Some (m_heap m0 !! p) → is_Some (m_heap m !! p)).

Lemma getLogger_ext (n : text) (a b : gmap text Logger) :
  a !! n = b !! n → fst (getLogger n a) = fst (getLogger n b).
Proof. unfold getLogger. intros ->. by destruct (b !! n). Qed.

Lemma configured_appenders i lg0 m lg p :
  configured i lg0 m lg → p ∈ lg_appenders lg → is_Some (m_heap m !! p).
Proof.
  intros (_ & _ & _ & HF) Hp. apply list_elem_of_lookup in Hp as [k Hk].
  destruct (Forall2_lookup_l _ _ _ _ _ HF Hk) as (a & _ & Ha). by eexists.
Qed.

Lemma getLogger_appenders m (n : text) p :
  closed m → p ∈ lg_appenders (fst (getLogger n (m_loggers m))) → is_Some (m_heap m !! p).
Proof.
  intros Hc. unfold getLogger. destruct (m_loggers m !! n) as [lg|] eqn:E; [by apply (Hc n)|].
  intros Hp%elem_of_nil. done.
Qed.

Lemma configured_frame i lg0 m m' lg :
  configured i lg0 m lg → m_loggers m' !! ld_name i = m_loggers m !! ld_name i →
  (∀ p, p ∈ lg_appenders lg → m_heap m' !! p = m_heap m !! p) →
  configured i lg0 m' lg.
Proof.
  intros (H1 & H2 & H3 & H4) Hl Hh. split_and!; [by rewrite Hl|done|done|].
  revert Hh. generalize (lg_formatter lg) as fmt, H4. clear. intros fmt H4.
  induction H4 as [|p a ps l Hp HF IH]; intros Hh; constructor.
  - unfold described. rewrite Hh by (by left). done.
  - apply IH. intros q Hq. apply Hh. by right.
Qed.

Lemma reloading_step old m0 done i m :
  closed m0 → reloading m0 done m → ld_name i ∉ ld_name <$> done →
  logger_for i old = Some (ld_name i) → Forall valid_type (ld_appenders i) →
  ∃ m', configure old i m = Ret m' ∧ reloading m0 (done ++ [i]) m'.
Proof.
  intros Hcl (Hdone & Hrest & Hheap) Hi Hf Hv.
  destruct (configure_spec old i m Hf Hv) as (m' & lg & -> & Hc & Hfresh & Hl & Hh & Hk).
  rewrite (getLogger_ext _ _ (m_loggers m0)) in Hc, Hh by auto.
  exists m'. split; [done|]. split_and!.
  - intros j [Hj| ->%list_elem_of_singleton]%elem_of_app.
    + destruct (Hdone j Hj) as (lgj & Hcj & Hnew). exists lgj. split; [|done].
      apply (configured_frame _ _ m); [done| |].
      * apply Hl. intros E. apply Hi. rewrite <- E. by apply list_elem_of_fmap_2.
      * intros p Hp. apply Hh; [by eapply configured_appenders|].
        intros [x Hx]%getLogger_appenders; [|done]. rewrite Hnew in Hx; done.
    + exists lg. split; [done|]. intros p Hp. destruct (m_heap m0 !! p) eqn:E; [|done].
      destruct (Hheap p) as [x Hx]; [by eexists|]. rewrite Hfresh in Hx; done.
  - intros n Hn. rewrite fmap_app, not_elem_of_app in Hn. destruct Hn as [Hn1 Hn2].
    rewrite Hl; [by apply Hrest|]. intros ->. apply Hn2. by left.
  - intros p Hp. by apply Hk, Hheap.
Qed.

Lemma configure_all_spec old m0 todo : ∀ done m,
  closed m0 → NoDup (ld_name <$> old) → NoDup (ld_name <$> (done ++ todo)) →
  reloading m0 done m →
  Forall (λ i, (i ∉ old) ∧ Forall valid_type (ld_appenders i)) todo →
  ∃ m', configure_all old todo m = Ret m' ∧ reloading m0 (done ++ todo) m'.
Proof.
  induction todo as [|i todo IH]; intros done m Hcl Hold Hnd Hr Hall; cbn [configure_all].
  { exists m. by rewrite app_nil_r. }
  apply Forall_cons in Hall as [[Hi Hv] Hall].
  assert (ld_name i ∉ ld_name <$> done) as Hni.
  { rewrite fmap_app, NoDup_app in Hnd. destruct Hnd as (_ & Hd & _). intros Hin.
    apply (Hd _ Hin). by left. }
  destruct (reloading_step old m0 done i m) as (m' & -> & Hr'); try done.
  { by apply logger_for_new. }
  cbn [obind]. rewrite (cons_middle i), app_assoc in Hnd |- *. by apply IH.
Qed.

(** An unchanged definition stops the loop at the null pointer, whatever comes
    before it. *)
Lemma configure_all_unchanged old new i m :
  NoDup (ld_name <$> old) → i ∈ new → i ∈ old →
  Forall (λ i, Forall valid_type (ld_appenders i)) new →
  configure_all old new m = Fault NullDeref.
Proof.
  intros Hnd Hin Hi Hv. revert m. induction Hv as [|j new Hj Hv IH]; intros m; [by apply elem_of_nil in Hin|].
  cbn [configure_all]. destruct (decide (j ∈ old)) as [Hjo|Hjo].
  { unfold configure. by rewrite logger_for_unchanged. }
  destruct (configure_spec old j m) as (m' & lg & -> & _); [by apply logger_for_new|done|].
  cbn [obind]. apply IH. apply elem_of_cons in Hin as [-> |Hin]; [done|done].
Qed.

Lemma names_snoc (n : text) l i :
  n ∈ ld_name <$> (l ++ [i]) ↔ n ∈ ld_name <$> l ∨ n = ld_name i.
Proof. rewrite fmap_app, elem_of_app. by rewrite <- list_elem_of_singleton. Qed.

(** The second loop. *)
Lemma retire_all new old m :
  let m' := foldl (retire new) m old in
  m_heap m' = m_heap m ∧
  (∀ n, n ∈ ld_name <$> old → n ∉ ld_name <$> new →
     ∃ lg, m_loggers m' !! n = Some lg ∧ lg_level lg = 100 ∧ lg_appenders lg = []) ∧
  (∀ n, n ∉ ld_name <$> old ∨ n ∈ ld_name <$> new → m_loggers m' !! n = m_loggers m !! n).
Proof.
  induction old as [|i old IH] using rev_ind; [split_and!; [done|by intros ? ?%elem_of_nil|done]|].
  cbv zeta in *. rewrite foldl_snoc. destruct IH as (IH1 & IH2 & IH3).
  set (m' := foldl (retire new) m old) in *. unfold retire.
  destruct (list_find _ _) as [[k d]|] eqn:E.
  - apply list_find_Some in E as (Hd & Hn & _). apply list_elem_of_lookup_2 in Hd.
    assert (ld_name i ∈ ld_name <$> new) as Hin by (rewrite <- Hn; by apply list_elem_of_fmap_2).
    split_and!; [done| |]; intros n; rewrite names_snoc.
    + intros [Hn'| ->] Hnew; [by apply IH2|done].
    + intros Hx. apply IH3. tauto.
  - assert (ld_name i ∉ ld_name <$> new) as Hnin.
    { intros (d & Hd & Hin)%list_elem_of_fmap. apply list_find_None in E.
      rewrite Forall_forall in E. by apply (E d). }
    destruct (getLogger (ld_name i) (m_loggers m')) as [lg loggers] eqn:Eg. cbn [m_loggers m_heap].
    split_and!; [done| |]; intros n; rewrite names_snoc.
    + intros Hn Hnew. destruct (decide (n = ld_name i)) as [-> |Hne].
      { rewrite lookup_insert_eq. by eexists. }
      destruct Hn as [Hn|Hn]; [|done]. destruct (IH2 n Hn Hnew) as (lg' & H1 & H2).
      exists lg'. split; [|done]. rewrite lookup_insert_ne by done.
      unfold getLogger in Eg. destruct (m_loggers m' !! ld_name i); injection Eg as <- <-;
        [done|by rewrite lookup_insert_ne].
    + intros Hn. assert (n ≠ ld_name i) as Hne by (intros ->; tauto).
      rewrite lookup_insert_ne, <- IH3 by (try done; tauto).
      unfold getLogger in Eg. destruct (m_loggers m' !! ld_name i); injection Eg as <- <-;
        [done|by rewrite lookup_insert_ne].
Qed.

(** * Properties *)

(** C37. The pattern parser reads what a pattern means, on the text of any
    sequence of these: plain pieces, nonempty, without a percent sign and no two
    in a row; items [%key] whose key is of letters and after which the pattern
    ends or goes on with neither a letter nor a brace; and items
    [%key{format}] without a closing brace in the format.  It gives
    back exactly these pieces, in order and without an error.  It ends on every
    pattern at all. The formatter then writes the pieces' texts one after the other,
    and reports an error exactly if some key is unknown. *)
Theorem pattern_roundtrip (ps : list piece) :
  wf_pieces ps →
  parse (show_all ps) = Some (entry_of <$> ps, false) ∧
  (∀ pat, is_Some (parse pat)) ∧
  ∃ f, LogFormatter_new (show_all ps) = Some f ∧
    (lf_error f = true ↔ ∃ p, p ∈ ps ∧ snd (item_of (entry_of p)) = true) ∧
    ∀ strftime level e, format strftime f level e =
      concat ((λ p, format_item strftime level e (fst (item_of (entry_of p)))) <$> ps).
Proof.
  intros Hwf. assert (parse (show_all ps) = Some (entry_of <$> ps, false)) as Hp.
  { unfold parse. rewrite (parse_pieces ps) by (try done; try lia; by left). done. }
  split_and!; [done|intros pat; apply parse_total; lia|].
  unfold LogFormatter_new. rewrite Hp. cbn [mbind option_bind].
  eexists. split; [reflexivity|]. cbn [lf_error orb]. split.
  - rewrite existsb_exists. split.
    + intros (x & Hx & He). apply list_elem_of_In, list_elem_of_fmap in Hx as (p & -> & Hin).
      by exists p.
    + intros (p & Hin & He). exists (entry_of p). split; [|done].
      apply list_elem_of_In, list_elem_of_fmap. by exists p.
  - intros strftime level e. unfold format. cbn [lf_items]. by rewrite <- !list_fmap_compose.
Qed.

(** A logger whose appenders were added to it always has a formatter for
    each of them: adding an appender and changing the logger's formatter keep
    that, so logging never meets a null formatter. An event of at least the
    logger's level goes to exactly the appenders whose own level it reaches,
    in the order they were added; one below goes nowhere. A new formatter
    reaches exactly the appenders without one of their own. *)
Theorem logger_dispatch strftime (level : Z) (e : LogEvent) (root lg : Logger)
    (h : gmap nat LogAppender) (f : LogFormatter) :
  ready (lg, h) → lg_appenders lg ≠ [] →
  log strftime level e h root lg =
    Ret (if lg_level lg <=? level then concat (writes strftime level e h <$> lg_appenders lg)
         else []) ∧
  ready (setFormatter_ptr (Some f) (lg, h)) ∧
  (∀ a st, addAppender a (lg, h) = Ret st → ready st) ∧
  (∀ a ap, h !! a = Some ap →
     snd (setFormatter_ptr (Some f) (lg, h)) !! a =
       Some (if decide (a ∈ lg_appenders lg) then
               if ap_hasFormatter ap then ap else appender_inherit (Some f) ap
             else ap)).
Proof.
  intros Hr Hne. split_and!.
  - unfold log. destruct (lg_level lg <=? level); [|done].
    destruct Hr as [_ Ha]. cbn [fst snd] in Ha.
    destruct (lg_appenders lg) as [|a l] eqn:El; [done|]. by apply appenders_log_ready.
  - by apply ready_setFormatter.
  - intros a st. by apply ready_addAppender.
  - intros a ap Hap. cbn [setFormatter_ptr snd]. by rewrite push_down_lookup, Hap.
Qed.

(** The default pattern has no error. *)
Lemma default_pattern_ok :
  option_map lf_error (LogFormatter_new default_pattern) = Some false.
Proof. by vm_compute. Qed.

(** The percent sign cannot be written: [%%] leaves a second percent sign that
    starts an item with an empty key, which is an error. *)
Lemma double_percent_is_an_error :
  option_map lf_error (LogFormatter_new (str "100%%")) = Some true.
Proof. by vm_compute. Qed.

(** C38. Reloading the logger definitions: if no new definition is an
    unchanged old one, the listener returns, every defined logger has its
    level, its formatter (its old one if the new is missing or invalid) and
    appenders exactly as its definition lists them, in order; a logger that is
    no longer defined accepts none of the five levels and has no appender; all others stay.
    An unchanged definition makes it use a null pointer. *)
Theorem reload_applies_definitions (old_value new_value : list LogDefine) (m : LoggerManager) :
  closed m → NoDup (ld_name <$> old_value) → NoDup (ld_name <$> new_value) →
  Forall (λ i, Forall valid_type (ld_appenders i)) new_value →
  ((∃ i, i ∈ new_value ∧ i ∈ old_value) → on_change old_value new_value m = Fault NullDeref) ∧
  (Forall (.∉ old_value) new_value →
   ∃ m', on_change old_value new_value m = Ret m' ∧
     (∀ i, i ∈ new_value →
        ∃ lg, configured i (fst (getLogger (ld_name i) (m_loggers m))) m' lg) ∧
     (∀ n, n ∈ ld_name <$> old_value → n ∉ ld_name <$> new_value →
        ∃ lg, m_loggers m' !! n = Some lg ∧ lg_level lg = 100 ∧ lg_appenders lg = []) ∧
     (∀ n, n ∉ ld_name <$> old_value → n ∉ ld_name <$> new_value →
        m_loggers m' !! n = m_loggers m !! n)).
Proof.
  intros Hcl Hold Hnew Hv. unfold on_change. split.
  { intros (i & Hi & Hio). by rewrite (configure_all_unchanged _ _ i). }
  intros Hall. destruct (configure_all_spec old_value m new_value [] m) as (m1 & -> & Hd & Hr & _);
    try done.
  { split_and!; [by intros ? ?%elem_of_nil|done|done]. }
  { rewrite Forall_forall in *. auto. }
  cbn [obind app] in *. destruct (retire_all new_value old_value m1) as (Hh & Hgone & Hstay).
  eexists. split; [reflexivity|]. split_and!.
  - intros i Hi. destruct (Hd i Hi) as (lg & Hc & _). exists lg.
    apply (configured_frame _ _ m1); [done| |by rewrite Hh].
    apply Hstay. right. by apply list_elem_of_fmap_2.
  - done.
  - intros n Hn1 Hn2. rewrite Hstay by tauto. by apply Hr.
Qed.

(** The file of an appender keeps the lines of the current second only. *)
Theorem file_keeps_last_second strftime (now level : Z) (e : LogEvent) (a : LogAppender)
    (f : LogFormatter) (s : file_state) :
  ap_formatter a = Some f → ap_level a ≤ level → now ≠ fs_lastTime s →
  file_log strftime now level e a s = Ret (mkFile (format strftime f level e) now).
Proof.
  intros Hf Hl H. unfold file_log. apply Z.eqb_neq in H. apply Z.leb_le in Hl.
  by rewrite Hl, H, Hf.
Qed.

(** * Witnesses *)

Lemma pattern_roundtrip_witness :
  parse (show_all [Lit (str "["); Item (str "p") None; Lit (str "] ");
                   Item (str "d") (Some (str "%H")); Item (str "m") None])
  = Some ([mkEntry3 (str "[") [] 0; mkEntry3 (str "p") [] 1; mkEntry3 (str "] ") [] 0;
           mkEntry3 (str "d") (str "%H") 1; mkEntry3 (str "m") [] 1], false).
Proof.
  apply (pattern_roundtrip [Lit (str "["); Item (str "p") None; Lit (str "] ");
                            Item (str "d") (Some (str "%H")); Item (str "m") None]).
  cbn [wf_pieces]. repeat ((split; [by apply (bool_decide_unpack _); vm_compute|]) ||
    (split; try done)); by apply (bool_decide_unpack _); vm_compute.
Defined.

Definition demo_logger : Logger :=
  mkLogger (str "app") INFO [0%nat] (LogFormatter_new (str "%m")) true.
Definition demo_appenders : gmap nat LogAppender :=
  {[ 0%nat := mkAppender None DEBUG (LogFormatter_new (str "%m")) false ]}.

Lemma logger_dispatch_witness :
  ∃ out, log (λ f _, f) WARN (mkEvent [] 1 0 0 0 0 [] (str "hi") []) demo_appenders demo_logger
           demo_logger = Ret out.
Proof.
  destruct (logger_dispatch (λ f _, f) WARN (mkEvent [] 1 0 0 0 0 [] (str "hi") []) demo_logger
    demo_logger demo_appenders (mkFormatter [] [] false)) as [E _].
  - split; [by eexists|]. intros a Ha. assert (a = 0%nat) as -> by set_solver.
    eexists. split; [reflexivity|]. by eexists.
  - done.
  - by eexists.
Defined.

Definition demo_old : list LogDefine := [mkLD (str "gone") INFO [] []; mkLD (str "kept") INFO [] []].
Definition demo_new : list LogDefine :=
  [mkLD (str "kept") ERROR (str "%m") [mkAD 2 WARN (str "%p") []; mkAD 1 INFO [] (str "a.log")]].

Definition demo_mgr : LoggerManager :=
  match LoggerManager_new with Ret m => m | _ => mkMgr ∅ ∅ end.

Lemma demo_mgr_closed : closed demo_mgr.
Proof.
  assert (map_Forall (λ _ lg, Forall (λ p, is_Some (m_heap demo_mgr !! p)) (lg_appenders lg))
    (m_loggers demo_mgr)) as H by (apply (bool_decide_unpack _); by vm_compute).
  intros n lg p Hn Hp. specialize (H n lg Hn). cbv beta in H.
  rewrite Forall_forall in H. by apply H.
Qed.

Lemma reload_applies_definitions_witness :
  LoggerManager_new = Ret demo_mgr ∧ ∃ m', on_change demo_old demo_new demo_mgr = Ret m'.
Proof.
  destruct (reload_applies_definitions demo_old demo_new demo_mgr) as [_ H].
  - apply demo_mgr_closed.
  - apply (bool_decide_unpack _). by vm_compute.
  - apply (bool_decide_unpack _). by vm_compute.
  - repeat constructor; unfold valid_type; by (left + right).
  - destruct H as (m' & E & _); [apply (bool_decide_unpack _); by vm_compute|].
    split; [reflexivity|by exists m'].
Defined.
