(* ===== verification/Ragel.v ===== *)
(** What the two state machines that Ragel generated have in common. *)

From S2P Require Import Prelude.
From Stdlib Require Import Ascii.

(** [switch (c) { case v: goto x; ... }] with a [goto] after it. *)
Fixpoint switch {A} (c : Z) (cases : list (Z * A)) (d : A) : A :=
  match cases with
  | [] => d
  | (v, x) :: cases => if c =? v then x else switch c cases d
  end.

(** A [char] of the buffer as the code compares it: it is signed. *)
Definition schar (a : ascii) : Z := i8 (Z.of_N (N_of_ascii a)).
