(* ===== verification/CString.v ===== *)
(** The C library functions on strings that the HTTP parsers use.

    The memory at a pointer is a text.  [strncmp_eq] reads at most [n]
    characters, which the callbacks have in the buffer, and [strtol] stops at
    the first character that is no digit; where the text ends before, the
    terminating NUL is taken to follow.  The comparison that can read further,
    that of [CharsToHttpMethod], is [strncmp_name] of Http.v, and faults at the
    end of the text. *)

From S2P Require Import Prelude Http.
From Stdlib Require Import Ascii.

#[local] Open Scope Z_scope.

Definition NUL : ascii := Ascii.zero.

(** [strncmp(a, b, n) == 0]. *)
Definition strncmp_eq (a b : text) (n : Z) : bool :=
  let k := Z.to_nat (Z.min n (Zlen b + 1)) in
  bool_decide (take k (c_str a ++ [NUL]) = take k (c_str b ++ [NUL])).

(** [isspace] in the C locale. *)
Definition isspace (c : ascii) : bool :=
  let n := N_of_ascii c in (n =? 32)%N || ((9 <=? n)%N && (n <=? 13)%N).

Fixpoint skip_spaces (s : text) : text :=
  match s with
  | c :: s' => if isspace c then skip_spaces s' else s
  | [] => []
  end.

(** The value of a digit, letters counting from 10. *)
Definition digit_value (c : ascii) : option Z :=
  let n := Z.of_N (N_of_ascii c) in
  if (48 <=? n) && (n <=? 57) then Some (n - 48)
  else if (97 <=? n) && (n <=? 122) then Some (n - 87)
  else if (65 <=? n) && (n <=? 90) then Some (n - 55)
  else None.

(** The number the digits at the start of [s] write, with [acc] before them. *)
Fixpoint digits (base acc : Z) (s : text) : Z :=
  match s with
  | c :: s =>
      match digit_value c with
      | Some v => if v <? base then digits base (acc * base + v) s else acc
      | None => acc
      end
  | [] => acc
  end.

(** The prefix [0x] of a hexadecimal number. *)
Definition skip_0x (base : Z) (s : text) : text :=
  match s with
  | z :: x :: d :: s' =>
      if (base =? 16) && bool_decide (z = ascii_of_N 48)
         && (bool_decide (x = ascii_of_N 120) || bool_decide (x = ascii_of_N 88))
         && (match digit_value d with Some v => v <? 16 | None => false end)
      then d :: s' else s
  | _ => s
  end.

(** [strtol(s, NULL, base)]: the value saturates at the limits of [long]. *)
Definition strtol (base : Z) (s : text) : Z :=
  let s := skip_spaces s in
  let '(neg, s) := match s with
                   | c :: s' => if bool_decide (c = ascii_of_N 45) then (true, s')
                                else if bool_decide (c = ascii_of_N 43) then (false, s')
                                else (false, s)
                   | [] => (false, [])
                   end in
  let v := digits base 0 (skip_0x base (c_str s)) in
  if neg then Z.max (- v) (- 2 ^ 63) else Z.min v (2 ^ 63 - 1).

(** [atoi]. *)
Definition atoi (s : text) : Z := i32 (strtol 10 s).

(** [std::string(at, len)], with [s] the memory at the pointer. *)
Definition std_string (s : text) (len : Z) : outcome text :=
  if 2 ^ 63 - 2 <? len then Throw std_length_error
  else if Zlen s <? len then Fault OutOfBounds
  else Ret (take (Z.to_nat len) s).

(** [memmove(data, data + from, n)] inside the array [data]. *)
Definition memmove_front (data : text) (from n : Z) : outcome text :=
  if (0 <=? from) && (0 <=? n) && (from + n <=? Zlen data)
  then Ret (take (Z.to_nat n) (drop (Z.to_nat from) data) ++ drop (Z.to_nat n) data)
  else Fault OutOfBounds.
