(* ===== verification/Http11Machine.v ===== *)
(** The state machine of the request parser: packages/http11/http11_parser.rl.cpp.

    One definition per label of the code: [st_case_n] is the code at the label
    of that name, which looks at the character [c] (a [char] is signed) and
    jumps, and [ctrn] is the block at [_ctrn], its actions in order and the
    state it enters.  A jump to [_stn] enters state [n] without an action, one
    to [_st0] is an error.  [relaxed] is [uri_relaxed]. *)

From S2P Require Import Prelude Ragel.

(** The actions of the grammar, in its order. *)
Inductive action :=
| mark
| start_field
| write_field
| start_value
| write_value
| request_method
| request_uri
| fragment
| start_query
| query_string
| http_version
| request_path
| done
| xml
| json.

(** A [goto]: the actions of a transition and the state it enters. *)
Abbreviation target := (list action * Z)%type.
Definition st (n : Z) : target := ([], n).

(** ** Transitions with actions *)

Definition ctr2 : target := ([mark], 2).
Definition ctr3 : target := ([mark], 194).
Definition ctr4 : target := ([mark], 198).
Definition ctr6 : target := ([request_method], 3).
Definition ctr9 : target := ([mark; request_path; request_uri], 4).
Definition ctr10 : target := ([mark], 19).
Definition ctr11 : target := ([mark; request_path; request_uri], 20).
Definition ctr12 : target := ([mark], 24).
Definition ctr13 : target := ([mark], 33).
Definition ctr14 : target := ([mark; request_path], 29).
Definition ctr15 : target := ([mark], 173).
Definition ctr16 : target := ([mark], 19).
Definition ctr19 : target := ([mark], 5).
Definition ctr28 : target := ([http_version], 13).
Definition ctr29 : target := ([http_version], 17).
Definition ctr31 : target := ([start_field], 14).
Definition ctr32 : target := ([start_field; done], 348).
Definition ctr33 : target := ([start_field], 18).
Definition ctr35 : target := ([write_field], 15).
Definition ctr37 : target := ([start_value], 16).
Definition ctr38 : target := ([start_value], 15).
Definition ctr39 : target := ([start_value; write_value], 13).
Definition ctr40 : target := ([start_value; write_value], 17).
Definition ctr42 : target := ([write_value], 13).
Definition ctr43 : target := ([write_value], 17).
Definition ctr46 : target := ([done], 348).
Definition ctr48 : target := ([request_path; request_uri], 4).
Definition ctr49 : target := ([request_path; request_uri], 20).
Definition ctr52 : target := ([request_path], 29).
Definition ctr55 : target := ([mark], 21).
Definition ctr56 : target := ([mark; fragment], 4).
Definition ctr57 : target := ([mark], 22).
Definition ctr58 : target := ([mark], 21).
Definition ctr60 : target := ([fragment], 4).
Definition ctr69 : target := ([start_query], 30).
Definition ctr70 : target := ([start_query; query_string; request_uri], 4).
Definition ctr71 : target := ([start_query; query_string; request_uri], 20).
Definition ctr72 : target := ([start_query], 31).
Definition ctr73 : target := ([start_query], 30).
Definition ctr75 : target := ([query_string; request_uri], 4).
Definition ctr76 : target := ([query_string; request_uri], 20).
Definition ctr226 : target := ([mark], 26).
Definition ctr227 : target := ([mark], 27).
Definition ctr228 : target := ([mark], 26).
Definition ctr249 : target := ([request_path], 196).
Definition ctr252 : target := ([xml; done], 349).
Definition ctr254 : target := ([request_path], 199).
Definition ctr260 : target := ([mark], 200).
Definition ctr263 : target := ([json; done], 349).

(** ** States *)

Definition st_case_1 (relaxed : bool) (c : Z) : target :=
  switch c
    [(60, ctr3); (64, ctr4)]
    (if (57 <? c) then
       if ((65 <=? c) && (c <=? 90)) then ctr2 else st 0
     else if (48 <=? c) then ctr2 else st 0).
Definition st_case_2 (relaxed : bool) (c : Z) : target :=
  if (c =? 32) then
    ctr6
  else if (57 <? c) then
    if ((65 <=? c) && (c <=? 90)) then st 175 else st 0
  else if (48 <=? c) then st 175 else st 0.
Definition st_case_3 (relaxed : bool) (c : Z) : target :=
  switch c
    [(32, ctr9); (33, ctr10); (35, ctr11); (37, ctr12); (47, ctr13); (59, ctr10);
     (61, ctr10); (63, ctr14); (64, ctr10); (94, if relaxed then ctr16 else st 0);
     (95, ctr10); (123, if relaxed then ctr16 else st 0);
     (125, if relaxed then ctr16 else st 0); (126, ctr10)]
    (if (c <? 65) then
       if ((36 <=? c) && (c <=? 57)) then ctr10 else st 0
     else if (90 <? c) then if ((97 <=? c) && (c <=? 122)) then ctr15 else st 0 else ctr15).
Definition st_case_4 (relaxed : bool) (c : Z) : target :=
  if (c =? 72) then ctr19 else st 0.
Definition st_case_5 (relaxed : bool) (c : Z) : target :=
  if (c =? 84) then st 6 else st 0.
Definition st_case_6 (relaxed : bool) (c : Z) : target :=
  if (c =? 84) then st 7 else st 0.
Definition st_case_7 (relaxed : bool) (c : Z) : target :=
  if (c =? 80) then st 8 else st 0.
Definition st_case_8 (relaxed : bool) (c : Z) : target :=
  if (c =? 47) then st 9 else st 0.
Definition st_case_9 (relaxed : bool) (c : Z) : target :=
  if (c =? 49) then st 10 else st 0.
Definition st_case_10 (relaxed : bool) (c : Z) : target :=
  if (c =? 46) then st 11 else st 0.
Definition st_case_11 (relaxed : bool) (c : Z) : target :=
  if ((48 <=? c) && (c <=? 49)) then st 12 else st 0.
Definition st_case_12 (relaxed : bool) (c : Z) : target :=
  switch c
    [(10, ctr28); (13, ctr29)]
    (st 0).
Definition st_case_13 (relaxed : bool) (c : Z) : target :=
  switch c
    [(10, ctr32); (13, ctr33); (33, ctr31); (124, ctr31); (126, ctr31)]
    (if (c <? 42) then
       if (c <? 11) then
         if ((1 <=? c) && (c <=? 8)) then ctr31 else st 0
       else if (31 <? c) then if ((35 <=? c) && (c <=? 39)) then ctr31 else st 0 else ctr31
     else if (43 <? c) then
       if (c <? 48) then
         if ((45 <=? c) && (c <=? 46)) then ctr31 else st 0
       else if (57 <? c) then
         if (90 <? c) then
           if ((94 <=? c) && (c <=? 122)) then ctr31 else st 0
         else if (65 <=? c) then ctr31 else st 0
       else ctr31
     else ctr31).
Definition st_case_14 (relaxed : bool) (c : Z) : target :=
  switch c
    [(33, st 14); (58, ctr35); (124, st 14); (126, st 14)]
    (if (c <? 42) then
       if (c <? 10) then
         if ((1 <=? c) && (c <=? 8)) then st 14 else st 0
       else if (31 <? c) then if ((35 <=? c) && (c <=? 39)) then st 14 else st 0 else st 14
     else if (43 <? c) then
       if (c <? 48) then
         if ((45 <=? c) && (c <=? 46)) then st 14 else st 0
       else if (57 <? c) then
         if (90 <? c) then
           if ((94 <=? c) && (c <=? 122)) then st 14 else st 0
         else if (65 <=? c) then st 14 else st 0
       else st 14
     else st 14).
Definition st_case_15 (relaxed : bool) (c : Z) : target :=
  switch c
    [(0, st 0); (9, ctr38); (10, ctr39); (13, ctr40); (32, ctr38); (127, st 0)]
    (ctr37).
Definition st_case_16 (relaxed : bool) (c : Z) : target :=
  switch c
    [(0, st 0); (10, ctr42); (13, ctr43); (127, st 0)]
    (st 16).
Definition st_case_17 (relaxed : bool) (c : Z) : target :=
  if (c =? 10) then st 13 else st 0.
Definition st_case_18 (relaxed : bool) (c : Z) : target :=
  switch c
    [(10, ctr46); (33, st 14); (58, ctr35); (124, st 14); (126, st 14)]
    (if (c <? 42) then
       if (c <? 11) then
         if ((1 <=? c) && (c <=? 8)) then st 14 else st 0
       else if (31 <? c) then if ((35 <=? c) && (c <=? 39)) then st 14 else st 0 else st 14
     else if (43 <? c) then
       if (c <? 48) then
         if ((45 <=? c) && (c <=? 46)) then st 14 else st 0
       else if (57 <? c) then
         if (90 <? c) then
           if ((94 <=? c) && (c <=? 122)) then st 14 else st 0
         else if (65 <=? c) then st 14 else st 0
       else st 14
     else st 14).
Definition st_case_19 (relaxed : bool) (c : Z) : target :=
  switch c
    [(32, ctr48); (33, st 19); (35, ctr49); (37, st 24); (47, st 26); (59, st 19);
     (61, st 19); (63, ctr52); (94, if relaxed then st 19 else st 0); (95, st 19);
     (123, if relaxed then st 19 else st 0); (125, if relaxed then st 19 else st 0);
     (126, st 19)]
    (if (c <? 64) then
       if ((36 <=? c) && (c <=? 57)) then st 19 else st 0
     else if (90 <? c) then if ((97 <=? c) && (c <=? 122)) then st 19 else st 0 else st 19).
Definition st_case_20 (relaxed : bool) (c : Z) : target :=
  switch c
    [(32, ctr56); (37, ctr57); (60, st 0); (62, st 0);
     (94, if relaxed then ctr58 else st 0); (96, st 0); (124, st 0); (127, st 0)]
    (if (c <? 34) then
       if ((0 <=? c) && (c <=? 31)) then st 0 else ctr55
     else if (35 <? c) then
       if (93 <? c) then
         if ((123 <=? c) && (c <=? 125)) then if relaxed then ctr58 else st 0 else ctr55
       else if (91 <=? c) then st 0 else ctr55
     else st 0).
Definition st_case_21 (relaxed : bool) (c : Z) : target :=
  switch c
    [(32, ctr60); (37, st 22); (60, st 0); (62, st 0); (94, if relaxed then st 21 else st 0);
     (96, st 0); (124, st 0); (127, st 0)]
    (if (c <? 34) then
       if ((0 <=? c) && (c <=? 31)) then st 0 else st 21
     else if (35 <? c) then
       if (93 <? c) then
         if ((123 <=? c) && (c <=? 125)) then if relaxed then st 21 else st 0 else st 21
       else if (91 <=? c) then st 0 else st 21
     else st 0).
Definition st_case_22 (relaxed : bool) (c : Z) : target :=
  if (c <? 65) then
    if ((48 <=? c) && (c <=? 57)) then st 23 else st 0
  else if (70 <? c) then if ((97 <=? c) && (c <=? 102)) then st 23 else st 0 else st 23.
Definition st_case_23 (relaxed : bool) (c : Z) : target :=
  if (c <? 65) then
    if ((48 <=? c) && (c <=? 57)) then st 21 else st 0
  else if (70 <? c) then if ((97 <=? c) && (c <=? 102)) then st 21 else st 0 else st 21.
Definition st_case_24 (relaxed : bool) (c : Z) : target :=
  if (c <? 65) then
    if ((48 <=? c) && (c <=? 57)) then st 25 else st 0
  else if (70 <? c) then if ((97 <=? c) && (c <=? 102)) then st 25 else st 0 else st 25.
Definition st_case_25 (relaxed : bool) (c : Z) : target :=
  if (c <? 65) then
    if ((48 <=? c) && (c <=? 57)) then st 19 else st 0
  else if (70 <? c) then if ((97 <=? c) && (c <=? 102)) then st 19 else st 0 else st 19.
Definition st_case_26 (relaxed : bool) (c : Z) : target :=
  switch c
    [(32, ctr48); (34, st 0); (35, ctr49); (37, st 27); (60, st 0); (62, st 0); (63, ctr52);
     (94, if relaxed then st 26 else st 0); (96, st 0); (124, st 0); (127, st 0)]
    (if (c <? 91) then
       if ((0 <=? c) && (c <=? 31)) then st 0 else st 26
     else if (93 <? c) then
       if ((123 <=? c) && (c <=? 125)) then if relaxed then st 26 else st 0 else st 26
     else st 0).
Definition st_case_27 (relaxed : bool) (c : Z) : target :=
  if (c <? 65) then
    if ((48 <=? c) && (c <=? 57)) then st 28 else st 0
  else if (70 <? c) then if ((97 <=? c) && (c <=? 102)) then st 28 else st 0 else st 28.
Definition st_case_28 (relaxed : bool) (c : Z) : target :=
  if (c <? 65) then
    if ((48 <=? c) && (c <=? 57)) then st 26 else st 0
  else if (70 <? c) then if ((97 <=? c) && (c <=? 102)) then st 26 else st 0 else st 26.
Definition st_case_29 (relaxed : bool) (c : Z) : target :=
  switch c
    [(32, ctr70); (34, st 0); (35, ctr71); (37, ctr72); (60, st 0); (62, st 0);
     (94, if relaxed then ctr73 else st 0); (96, st 0); (124, st 0); (127, st 0)]
    (if (c <? 91) then
       if ((0 <=? c) && (c <=? 31)) then st 0 else ctr69
     else if (93 <? c) then
       if ((123 <=? c) && (c <=? 125)) then if relaxed then ctr73 else st 0 else ctr69
     else st 0).
Definition st_case_30 (relaxed : bool) (c : Z) : target :=
  switch c
    [(32, ctr75); (34, st 0); (35, ctr76); (37, st 31); (60, st 0); (62, st 0);
     (94, if relaxed then st 30 else st 0); (96, st 0); (124, st 0); (127, st 0)]
    (if (c <? 91) then
       if ((0 <=? c) && (c <=? 31)) then st 0 else st 30
     else if (93 <? c) then
       if ((123 <=? c) && (c <=? 125)) then if relaxed then st 30 else st 0 else st 30
     else st 0).
Definition st_case_31 (relaxed : bool) (c : Z) : target :=
  if (c <? 65) then
    if ((48 <=? c) && (c <=? 57)) then st 32 else st 0
  else if (70 <? c) then if ((97 <=? c) && (c <=? 102)) then st 32 else st 0 else st 32.
Definition st_case_32 (relaxed : bool) (c : Z) : target :=
  if (c <? 65) then
    if ((48 <=? c) && (c <=? 57)) then st 30 else st 0
  else if (70 <? c) then if ((97 <=? c) && (c <=? 102)) then st 30 else st 0 else st 30.
Definition st_case_33 (relaxed : bool) (c : Z) : target :=
  switch c
    [(32, ctr48); (34, st 0); (35, ctr49); (37, st 27); (47, st 34); (60, st 0); (62, st 0);
     (63, ctr52); (94, if relaxed then st 26 else st 0); (96, st 0); (124, st 0); (127, st 0)]
    (if (c <? 91) then
       if ((0 <=? c) && (c <=? 31)) then st 0 else st 26
     else if (93 <? c) then
       if ((123 <=? c) && (c <=? 125)) then if relaxed then st 26 else st 0 else st 26
     else st 0).
Definition st_case_34 (relaxed : bool) (c : Z) : target :=
  switch c
    [(32, ctr48); (33, st 35); (35, ctr49); (37, st 36); (47, st 26); (58, st 38);
     (61, st 35); (63, ctr52); (64, st 42); (91, st 47);
     (94, if relaxed then st 35 else st 0); (95, st 35);
     (123, if relaxed then st 35 else st 0); (125, if relaxed then st 35 else st 0);
     (126, st 35)]
    (if (c <? 65) then
       if ((36 <=? c) && (c <=? 59)) then st 35 else st 0
     else if (90 <? c) then if ((97 <=? c) && (c <=? 122)) then st 35 else st 0 else st 35).
Definition st_case_35 (relaxed : bool) (c : Z) : target :=
  switch c
    [(32, ctr48); (33, st 35); (35, ctr49); (37, st 36); (47, st 26); (58, st 38);
     (61, st 35); (63, ctr52); (64, st 42); (94, if relaxed then st 35 else st 0);
     (95, st 35); (123, if relaxed then st 35 else st 0);
     (125, if relaxed then st 35 else st 0); (126, st 35)]
    (if (c <? 65) then
       if ((36 <=? c) && (c <=? 59)) then st 35 else st 0
     else if (90 <? c) then if ((97 <=? c) && (c <=? 122)) then st 35 else st 0 else st 35).
Definition st_case_36 (relaxed : bool) (c : Z) : target :=
  if (c <? 65) then
    if ((48 <=? c) && (c <=? 57)) then st 37 else st 0
  else if (70 <? c) then if ((97 <=? c) && (c <=? 102)) then st 37 else st 0 else st 37.
Definition st_case_37 (relaxed : bool) (c : Z) : target :=
  if (c <? 65) then
    if ((48 <=? c) && (c <=? 57)) then st 35 else st 0
  else if (70 <? c) then if ((97 <=? c) && (c <=? 102)) then st 35 else st 0 else st 35.
Definition st_case_38 (relaxed : bool) (c : Z) : target :=
  switch c
    [(32, ctr48); (33, st 39); (35, ctr49); (37, st 40); (47, st 26); (61, st 39);
     (63, ctr52); (64, st 42); (94, if relaxed then st 39 else st 0); (95, st 39);
     (123, if relaxed then st 39 else st 0); (125, if relaxed then st 39 else st 0);
     (126, st 39)]
    (if (c <? 58) then
       if (46 <? c) then
         if (48 <=? c) then st 38 else st 0
       else if (36 <=? c) then st 39 else st 0
     else if (59 <? c) then
       if (90 <? c) then
         if ((97 <=? c) && (c <=? 122)) then st 39 else st 0
       else if (65 <=? c) then st 39 else st 0
     else st 39).
Definition st_case_39 (relaxed : bool) (c : Z) : target :=
  switch c
    [(33, st 39); (37, st 40); (61, st 39); (64, st 42); (94, if relaxed then st 39 else st 0);
     (95, st 39); (123, if relaxed then st 39 else st 0);
     (125, if relaxed then st 39 else st 0); (126, st 39)]
    (if (c <? 48) then
       if ((36 <=? c) && (c <=? 46)) then st 39 else st 0
     else if (59 <? c) then
       if (90 <? c) then
         if ((97 <=? c) && (c <=? 122)) then st 39 else st 0
       else if (65 <=? c) then st 39 else st 0
     else st 39).
Definition st_case_40 (relaxed : bool) (c : Z) : target :=
  if (c <? 65) then
    if ((48 <=? c) && (c <=? 57)) then st 41 else st 0
  else if (70 <? c) then if ((97 <=? c) && (c <=? 102)) then st 41 else st 0 else st 41.
Definition st_case_41 (relaxed : bool) (c : Z) : target :=
  if (c <? 65) then
    if ((48 <=? c) && (c <=? 57)) then st 39 else st 0
  else if (70 <? c) then if ((97 <=? c) && (c <=? 102)) then st 39 else st 0 else st 39.
Definition st_case_42 (relaxed : bool) (c : Z) : target :=
  switch c
    [(32, ctr48); (33, st 43); (35, ctr49); (37, st 44); (47, st 26); (58, st 46);
     (61, st 43); (63, ctr52); (91, st 47); (94, if relaxed then st 43 else st 0);
     (95, st 43); (123, if relaxed then st 43 else st 0);
     (125, if relaxed then st 43 else st 0); (126, st 43)]
    (if (c <? 65) then
       if ((36 <=? c) && (c <=? 59)) then st 43 else st 0
     else if (90 <? c) then if ((97 <=? c) && (c <=? 122)) then st 43 else st 0 else st 43).
Definition st_case_43 (relaxed : bool) (c : Z) : target :=
  switch c
    [(32, ctr48); (33, st 43); (35, ctr49); (37, st 44); (47, st 26); (58, st 46);
     (61, st 43); (63, ctr52); (94, if relaxed then st 43 else st 0); (95, st 43);
     (123, if relaxed then st 43 else st 0); (125, if relaxed then st 43 else st 0);
     (126, st 43)]
    (if (c <? 65) then
       if ((36 <=? c) && (c <=? 59)) then st 43 else st 0
     else if (90 <? c) then if ((97 <=? c) && (c <=? 122)) then st 43 else st 0 else st 43).
Definition st_case_44 (relaxed : bool) (c : Z) : target :=
  if (c <? 65) then
    if ((48 <=? c) && (c <=? 57)) then st 45 else st 0
  else if (70 <? c) then if ((97 <=? c) && (c <=? 102)) then st 45 else st 0 else st 45.
Definition st_case_45 (relaxed : bool) (c : Z) : target :=
  if (c <? 65) then
    if ((48 <=? c) && (c <=? 57)) then st 43 else st 0
  else if (70 <? c) then if ((97 <=? c) && (c <=? 102)) then st 43 else st 0 else st 43.
Definition st_case_46 (relaxed : bool) (c : Z) : target :=
  switch c
    [(32, ctr48); (35, ctr49); (47, st 26); (63, ctr52)]
    (if ((48 <=? c) && (c <=? 57)) then st 46 else st 0).
Definition st_case_47 (relaxed : bool) (c : Z) : target :=
  switch c
    [(6, st 48); (58, st 167); (118, st 169)]
    (if (c <? 65) then
       if ((48 <=? c) && (c <=? 57)) then st 91 else st 0
     else if (70 <? c) then if ((97 <=? c) && (c <=? 102)) then st 91 else st 0 else st 91).
Definition st_case_48 (relaxed : bool) (c : Z) : target :=
  if (c <? 65) then
    if ((48 <=? c) && (c <=? 57)) then st 49 else st 0
  else if (70 <? c) then if ((97 <=? c) && (c <=? 102)) then st 49 else st 0 else st 49.
Definition st_case_49 (relaxed : bool) (c : Z) : target :=
  if (c =? 58) then
    st 53
  else if (c <? 65) then
    if ((48 <=? c) && (c <=? 57)) then st 50 else st 0
  else if (70 <? c) then if ((97 <=? c) && (c <=? 102)) then st 50 else st 0 else st 50.
Definition st_case_50 (relaxed : bool) (c : Z) : target :=
  if (c =? 58) then
    st 53
  else if (c <? 65) then
    if ((48 <=? c) && (c <=? 57)) then st 51 else st 0
  else if (70 <? c) then if ((97 <=? c) && (c <=? 102)) then st 51 else st 0 else st 51.
Definition st_case_51 (relaxed : bool) (c : Z) : target :=
  if (c =? 58) then
    st 53
  else if (c <? 65) then
    if ((48 <=? c) && (c <=? 57)) then st 52 else st 0
  else if (70 <? c) then if ((97 <=? c) && (c <=? 102)) then st 52 else st 0 else st 52.
Definition st_case_52 (relaxed : bool) (c : Z) : target :=
  if (c =? 58) then st 53 else st 0.
Definition st_case_53 (relaxed : bool) (c : Z) : target :=
  switch c
    [(49, st 84); (50, st 87)]
    (if (c <? 65) then
       if ((48 <=? c) && (c <=? 57)) then st 54 else st 0
     else if (70 <? c) then if ((97 <=? c) && (c <=? 102)) then st 90 else st 0 else st 90).
Definition st_case_54 (relaxed : bool) (c : Z) : target :=
  switch c
    [(46, st 55); (58, st 80)]
    (if (c <? 65) then
       if ((48 <=? c) && (c <=? 57)) then st 77 else st 0
     else if (70 <? c) then if ((97 <=? c) && (c <=? 102)) then st 77 else st 0 else st 77).
Definition st_case_55 (relaxed : bool) (c : Z) : target :=
  switch c
    [(49, st 72); (50, st 74)]
    (if ((48 <=? c) && (c <=? 57)) then st 56 else st 0).
Definition st_case_56 (relaxed : bool) (c : Z) : target :=
  if (c =? 46) then st 57 else st 0.
Definition st_case_57 (relaxed : bool) (c : Z) : target :=
  switch c
    [(49, st 67); (50, st 69)]
    (if ((48 <=? c) && (c <=? 57)) then st 58 else st 0).
Definition st_case_58 (relaxed : bool) (c : Z) : target :=
  if (c =? 46) then st 59 else st 0.
Definition st_case_59 (relaxed : bool) (c : Z) : target :=
  switch c
    [(49, st 62); (50, st 64)]
    (if ((48 <=? c) && (c <=? 57)) then st 60 else st 0).
Definition st_case_60 (relaxed : bool) (c : Z) : target :=
  if (c =? 93) then st 61 else st 0.
Definition st_case_61 (relaxed : bool) (c : Z) : target :=
  switch c
    [(32, ctr48); (35, ctr49); (47, st 26); (58, st 46); (63, ctr52)]
    (st 0).
Definition st_case_62 (relaxed : bool) (c : Z) : target :=
  if (c =? 93) then st 61 else if ((48 <=? c) && (c <=? 57)) then st 63 else st 0.
Definition st_case_63 (relaxed : bool) (c : Z) : target :=
  if (c =? 93) then st 61 else if ((48 <=? c) && (c <=? 57)) then st 60 else st 0.
Definition st_case_64 (relaxed : bool) (c : Z) : target :=
  switch c
    [(48, st 65); (53, st 66); (93, st 61)]
    (st 0).
Definition st_case_65 (relaxed : bool) (c : Z) : target :=
  if ((48 <=? c) && (c <=? 57)) then st 60 else st 0.
Definition st_case_66 (relaxed : bool) (c : Z) : target :=
  if (c =? 48) then st 60 else st 0.
Definition st_case_67 (relaxed : bool) (c : Z) : target :=
  if (c =? 46) then st 59 else if ((48 <=? c) && (c <=? 57)) then st 68 else st 0.
Definition st_case_68 (relaxed : bool) (c : Z) : target :=
  if (c =? 46) then st 59 else if ((48 <=? c) && (c <=? 57)) then st 58 else st 0.
Definition st_case_69 (relaxed : bool) (c : Z) : target :=
  switch c
    [(46, st 59); (48, st 70); (53, st 71)]
    (st 0).
Definition st_case_70 (relaxed : bool) (c : Z) : target :=
  if ((48 <=? c) && (c <=? 57)) then st 58 else st 0.
Definition st_case_71 (relaxed : bool) (c : Z) : target :=
  if (c =? 48) then st 58 else st 0.
Definition st_case_72 (relaxed : bool) (c : Z) : target :=
  if (c =? 46) then st 57 else if ((48 <=? c) && (c <=? 57)) then st 73 else st 0.
Definition st_case_73 (relaxed : bool) (c : Z) : target :=
  if (c =? 46) then st 57 else if ((48 <=? c) && (c <=? 57)) then st 56 else st 0.
Definition st_case_74 (relaxed : bool) (c : Z) : target :=
  switch c
    [(46, st 57); (48, st 75); (53, st 76)]
    (st 0).
Definition st_case_75 (relaxed : bool) (c : Z) : target :=
  if ((48 <=? c) && (c <=? 57)) then st 56 else st 0.
Definition st_case_76 (relaxed : bool) (c : Z) : target :=
  if (c =? 48) then st 56 else st 0.
Definition st_case_77 (relaxed : bool) (c : Z) : target :=
  if (c =? 58) then
    st 80
  else if (c <? 65) then
    if ((48 <=? c) && (c <=? 57)) then st 78 else st 0
  else if (70 <? c) then if ((97 <=? c) && (c <=? 102)) then st 78 else st 0 else st 78.
Definition st_case_78 (relaxed : bool) (c : Z) : target :=
  if (c =? 58) then
    st 80
  else if (c <? 65) then
    if ((48 <=? c) && (c <=? 57)) then st 79 else st 0
  else if (70 <? c) then if ((97 <=? c) && (c <=? 102)) then st 79 else st 0 else st 79.
Definition st_case_79 (relaxed : bool) (c : Z) : target :=
  if (c =? 58) then st 80 else st 0.
Definition st_case_80 (relaxed : bool) (c : Z) : target :=
  if (c <? 65) then
    if ((48 <=? c) && (c <=? 57)) then st 81 else st 0
  else if (70 <? c) then if ((97 <=? c) && (c <=? 102)) then st 81 else st 0 else st 81.
Definition st_case_81 (relaxed : bool) (c : Z) : target :=
  if (c =? 93) then
    st 61
  else if (c <? 65) then
    if ((48 <=? c) && (c <=? 57)) then st 82 else st 0
  else if (70 <? c) then if ((97 <=? c) && (c <=? 102)) then st 82 else st 0 else st 82.
Definition st_case_82 (relaxed : bool) (c : Z) : target :=
  if (c =? 93) then
    st 61
  else if (c <? 65) then
    if ((48 <=? c) && (c <=? 57)) then st 83 else st 0
  else if (70 <? c) then if ((97 <=? c) && (c <=? 102)) then st 83 else st 0 else st 83.
Definition st_case_83 (relaxed : bool) (c : Z) : target :=
  if (c =? 93) then
    st 61
  else if (c <? 65) then
    if ((48 <=? c) && (c <=? 57)) then st 60 else st 0
  else if (70 <? c) then if ((97 <=? c) && (c <=? 102)) then st 60 else st 0 else st 60.
Definition st_case_84 (relaxed : bool) (c : Z) : target :=
  switch c
    [(46, st 55); (58, st 80)]
    (if (c <? 65) then
       if ((48 <=? c) && (c <=? 57)) then st 85 else st 0
     else if (70 <? c) then if ((97 <=? c) && (c <=? 102)) then st 77 else st 0 else st 77).
Definition st_case_85 (relaxed : bool) (c : Z) : target :=
  switch c
    [(46, st 55); (58, st 80)]
    (if (c <? 65) then
       if ((48 <=? c) && (c <=? 57)) then st 86 else st 0
     else if (70 <? c) then if ((97 <=? c) && (c <=? 102)) then st 78 else st 0 else st 78).
Definition st_case_86 (relaxed : bool) (c : Z) : target :=
  switch c
    [(46, st 55); (58, st 80)]
    (if (c <? 65) then
       if ((48 <=? c) && (c <=? 57)) then st 79 else st 0
     else if (70 <? c) then if ((97 <=? c) && (c <=? 102)) then st 79 else st 0 else st 79).
Definition st_case_87 (relaxed : bool) (c : Z) : target :=
  switch c
    [(46, st 55); (48, st 88); (53, st 89); (58, st 80)]
    (if (c <? 65) then
       if ((49 <=? c) && (c <=? 57)) then st 77 else st 0
     else if (70 <? c) then if ((97 <=? c) && (c <=? 102)) then st 77 else st 0 else st 77).
Definition st_case_88 (relaxed : bool) (c : Z) : target :=
  if (c =? 58) then
    st 80
  else if (c <? 65) then
    if ((48 <=? c) && (c <=? 57)) then st 86 else st 0
  else if (70 <? c) then if ((97 <=? c) && (c <=? 102)) then st 78 else st 0 else st 78.
Definition st_case_89 (relaxed : bool) (c : Z) : target :=
  switch c
    [(48, st 86); (58, st 80)]
    (if (c <? 65) then
       if ((49 <=? c) && (c <=? 57)) then st 78 else st 0
     else if (70 <? c) then if ((97 <=? c) && (c <=? 102)) then st 78 else st 0 else st 78).
Definition st_case_90 (relaxed : bool) (c : Z) : target :=
  if (c =? 58) then
    st 80
  else if (c <? 65) then
    if ((48 <=? c) && (c <=? 57)) then st 77 else st 0
  else if (70 <? c) then if ((97 <=? c) && (c <=? 102)) then st 77 else st 0 else st 77.
Definition st_case_91 (relaxed : bool) (c : Z) : target :=
  if (c =? 58) then
    st 95
  else if (c <? 65) then
    if ((48 <=? c) && (c <=? 57)) then st 92 else st 0
  else if (70 <? c) then if ((97 <=? c) && (c <=? 102)) then st 92 else st 0 else st 92.
Definition st_case_92 (relaxed : bool) (c : Z) : target :=
  if (c =? 58) then
    st 95
  else if (c <? 65) then
    if ((48 <=? c) && (c <=? 57)) then st 93 else st 0
  else if (70 <? c) then if ((97 <=? c) && (c <=? 102)) then st 93 else st 0 else st 93.
Definition st_case_93 (relaxed : bool) (c : Z) : target :=
  if (c =? 58) then
    st 95
  else if (c <? 65) then
    if ((48 <=? c) && (c <=? 57)) then st 94 else st 0
  else if (70 <? c) then if ((97 <=? c) && (c <=? 102)) then st 94 else st 0 else st 94.
Definition st_case_94 (relaxed : bool) (c : Z) : target :=
  if (c =? 58) then st 95 else st 0.
Definition st_case_95 (relaxed : bool) (c : Z) : target :=
  if (c =? 58) then
    st 166
  else if (c <? 65) then
    if ((48 <=? c) && (c <=? 57)) then st 96 else st 0
  else if (70 <? c) then if ((97 <=? c) && (c <=? 102)) then st 96 else st 0 else st 96.
Definition st_case_96 (relaxed : bool) (c : Z) : target :=
  if (c =? 58) then
    st 100
  else if (c <? 65) then
    if ((48 <=? c) && (c <=? 57)) then st 97 else st 0
  else if (70 <? c) then if ((97 <=? c) && (c <=? 102)) then st 97 else st 0 else st 97.
Definition st_case_97 (relaxed : bool) (c : Z) : target :=
  if (c =? 58) then
    st 100
  else if (c <? 65) then
    if ((48 <=? c) && (c <=? 57)) then st 98 else st 0
  else if (70 <? c) then if ((97 <=? c) && (c <=? 102)) then st 98 else st 0 else st 98.
Definition st_case_98 (relaxed : bool) (c : Z) : target :=
  if (c =? 58) then
    st 100
  else if (c <? 65) then
    if ((48 <=? c) && (c <=? 57)) then st 99 else st 0
  else if (70 <? c) then if ((97 <=? c) && (c <=? 102)) then st 99 else st 0 else st 99.
Definition st_case_99 (relaxed : bool) (c : Z) : target :=
  if (c =? 58) then st 100 else st 0.
Definition st_case_100 (relaxed : bool) (c : Z) : target :=
  if (c =? 58) then
    st 165
  else if (c <? 65) then
    if ((48 <=? c) && (c <=? 57)) then st 101 else st 0
  else if (70 <? c) then if ((97 <=? c) && (c <=? 102)) then st 101 else st 0 else st 101.
Definition st_case_101 (relaxed : bool) (c : Z) : target :=
  if (c =? 58) then
    st 105
  else if (c <? 65) then
    if ((48 <=? c) && (c <=? 57)) then st 102 else st 0
  else if (70 <? c) then if ((97 <=? c) && (c <=? 102)) then st 102 else st 0 else st 102.
Definition st_case_102 (relaxed : bool) (c : Z) : target :=
  if (c =? 58) then
    st 105
  else if (c <? 65) then
    if ((48 <=? c) && (c <=? 57)) then st 103 else st 0
  else if (70 <? c) then if ((97 <=? c) && (c <=? 102)) then st 103 else st 0 else st 103.
Definition st_case_103 (relaxed : bool) (c : Z) : target :=
  if (c =? 58) then
    st 105
  else if (c <? 65) then
    if ((48 <=? c) && (c <=? 57)) then st 104 else st 0
  else if (70 <? c) then if ((97 <=? c) && (c <=? 102)) then st 104 else st 0 else st 104.
Definition st_case_104 (relaxed : bool) (c : Z) : target :=
  if (c =? 58) then st 105 else st 0.
Definition st_case_105 (relaxed : bool) (c : Z) : target :=
  if (c =? 58) then
    st 164
  else if (c <? 65) then
    if ((48 <=? c) && (c <=? 57)) then st 106 else st 0
  else if (70 <? c) then if ((97 <=? c) && (c <=? 102)) then st 106 else st 0 else st 106.
Definition st_case_106 (relaxed : bool) (c : Z) : target :=
  if (c =? 58) then
    st 110
  else if (c <? 65) then
    if ((48 <=? c) && (c <=? 57)) then st 107 else st 0
  else if (70 <? c) then if ((97 <=? c) && (c <=? 102)) then st 107 else st 0 else st 107.
Definition st_case_107 (relaxed : bool) (c : Z) : target :=
  if (c =? 58) then
    st 110
  else if (c <? 65) then
    if ((48 <=? c) && (c <=? 57)) then st 108 else st 0
  else if (70 <? c) then if ((97 <=? c) && (c <=? 102)) then st 108 else st 0 else st 108.
Definition st_case_108 (relaxed : bool) (c : Z) : target :=
  if (c =? 58) then
    st 110
  else if (c <? 65) then
    if ((48 <=? c) && (c <=? 57)) then st 109 else st 0
  else if (70 <? c) then if ((97 <=? c) && (c <=? 102)) then st 109 else st 0 else st 109.
Definition st_case_109 (relaxed : bool) (c : Z) : target :=
  if (c =? 58) then st 110 else st 0.
Definition st_case_110 (relaxed : bool) (c : Z) : target :=
  if (c =? 58) then
    st 163
  else if (c <? 65) then
    if ((48 <=? c) && (c <=? 57)) then st 111 else st 0
  else if (70 <? c) then if ((97 <=? c) && (c <=? 102)) then st 111 else st 0 else st 111.
Definition st_case_111 (relaxed : bool) (c : Z) : target :=
  if (c =? 58) then
    st 115
  else if (c <? 65) then
    if ((48 <=? c) && (c <=? 57)) then st 112 else st 0
  else if (70 <? c) then if ((97 <=? c) && (c <=? 102)) then st 112 else st 0 else st 112.
Definition st_case_112 (relaxed : bool) (c : Z) : target :=
  if (c =? 58) then
    st 115
  else if (c <? 65) then
    if ((48 <=? c) && (c <=? 57)) then st 113 else st 0
  else if (70 <? c) then if ((97 <=? c) && (c <=? 102)) then st 113 else st 0 else st 113.
Definition st_case_113 (relaxed : bool) (c : Z) : target :=
  if (c =? 58) then
    st 115
  else if (c <? 65) then
    if ((48 <=? c) && (c <=? 57)) then st 114 else st 0
  else if (70 <? c) then if ((97 <=? c) && (c <=? 102)) then st 114 else st 0 else st 114.
Definition st_case_114 (relaxed : bool) (c : Z) : target :=
  if (c =? 58) then st 115 else st 0.
Definition st_case_115 (relaxed : bool) (c : Z) : target :=
  if (c =? 58) then
    st 151
  else if (c <? 65) then
    if ((48 <=? c) && (c <=? 57)) then st 116 else st 0
  else if (70 <? c) then if ((97 <=? c) && (c <=? 102)) then st 116 else st 0 else st 116.
Definition st_case_116 (relaxed : bool) (c : Z) : target :=
  if (c =? 58) then
    st 120
  else if (c <? 65) then
    if ((48 <=? c) && (c <=? 57)) then st 117 else st 0
  else if (70 <? c) then if ((97 <=? c) && (c <=? 102)) then st 117 else st 0 else st 117.
Definition st_case_117 (relaxed : bool) (c : Z) : target :=
  if (c =? 58) then
    st 120
  else if (c <? 65) then
    if ((48 <=? c) && (c <=? 57)) then st 118 else st 0
  else if (70 <? c) then if ((97 <=? c) && (c <=? 102)) then st 118 else st 0 else st 118.
Definition st_case_118 (relaxed : bool) (c : Z) : target :=
  if (c =? 58) then
    st 120
  else if (c <? 65) then
    if ((48 <=? c) && (c <=? 57)) then st 119 else st 0
  else if (70 <? c) then if ((97 <=? c) && (c <=? 102)) then st 119 else st 0 else st 119.
Definition st_case_119 (relaxed : bool) (c : Z) : target :=
  if (c =? 58) then st 120 else st 0.
Definition st_case_120 (relaxed : bool) (c : Z) : target :=
  if (c =? 58) then
    st 150
  else if (c <? 65) then
    if ((48 <=? c) && (c <=? 57)) then st 121 else st 0
  else if (70 <? c) then if ((97 <=? c) && (c <=? 102)) then st 121 else st 0 else st 121.
Definition st_case_121 (relaxed : bool) (c : Z) : target :=
  if (c =? 58) then
    st 125
  else if (c <? 65) then
    if ((48 <=? c) && (c <=? 57)) then st 122 else st 0
  else if (70 <? c) then if ((97 <=? c) && (c <=? 102)) then st 122 else st 0 else st 122.
Definition st_case_122 (relaxed : bool) (c : Z) : target :=
  if (c =? 58) then
    st 125
  else if (c <? 65) then
    if ((48 <=? c) && (c <=? 57)) then st 123 else st 0
  else if (70 <? c) then if ((97 <=? c) && (c <=? 102)) then st 123 else st 0 else st 123.
Definition st_case_123 (relaxed : bool) (c : Z) : target :=
  if (c =? 58) then
    st 125
  else if (c <? 65) then
    if ((48 <=? c) && (c <=? 57)) then st 124 else st 0
  else if (70 <? c) then if ((97 <=? c) && (c <=? 102)) then st 124 else st 0 else st 124.
Definition st_case_124 (relaxed : bool) (c : Z) : target :=
  if (c =? 58) then st 125 else st 0.
Definition st_case_125 (relaxed : bool) (c : Z) : target :=
  if (c =? 58) then
    st 126
  else if (c <? 65) then
    if ((48 <=? c) && (c <=? 57)) then st 121 else st 0
  else if (70 <? c) then if ((97 <=? c) && (c <=? 102)) then st 121 else st 0 else st 121.
Definition st_case_126 (relaxed : bool) (c : Z) : target :=
  switch c
    [(49, st 143); (50, st 146); (93, st 61)]
    (if (c <? 48) then
       if ((2 <=? c) && (c <=? 3)) then st 48 else st 0
     else if (57 <? c) then
       if (70 <? c) then
         if ((97 <=? c) && (c <=? 102)) then st 149 else st 0
       else if (65 <=? c) then st 149 else st 0
     else st 127).
Definition st_case_127 (relaxed : bool) (c : Z) : target :=
  switch c
    [(46, st 55); (58, st 131); (93, st 61)]
    (if (c <? 65) then
       if ((48 <=? c) && (c <=? 57)) then st 128 else st 0
     else if (70 <? c) then if ((97 <=? c) && (c <=? 102)) then st 128 else st 0 else st 128).
Definition st_case_128 (relaxed : bool) (c : Z) : target :=
  switch c
    [(58, st 131); (93, st 61)]
    (if (c <? 65) then
       if ((48 <=? c) && (c <=? 57)) then st 129 else st 0
     else if (70 <? c) then if ((97 <=? c) && (c <=? 102)) then st 129 else st 0 else st 129).
Definition st_case_129 (relaxed : bool) (c : Z) : target :=
  switch c
    [(58, st 131); (93, st 61)]
    (if (c <? 65) then
       if ((48 <=? c) && (c <=? 57)) then st 130 else st 0
     else if (70 <? c) then if ((97 <=? c) && (c <=? 102)) then st 130 else st 0 else st 130).
Definition st_case_130 (relaxed : bool) (c : Z) : target :=
  switch c
    [(58, st 131); (93, st 61)]
    (st 0).
Definition st_case_131 (relaxed : bool) (c : Z) : target :=
  switch c
    [(49, st 136); (50, st 139)]
    (if (c <? 65) then
       if ((48 <=? c) && (c <=? 57)) then st 132 else st 0
     else if (70 <? c) then if ((97 <=? c) && (c <=? 102)) then st 142 else st 0 else st 142).
Definition st_case_132 (relaxed : bool) (c : Z) : target :=
  switch c
    [(46, st 55); (58, st 80); (93, st 61)]
    (if (c <? 65) then
       if ((48 <=? c) && (c <=? 57)) then st 133 else st 0
     else if (70 <? c) then if ((97 <=? c) && (c <=? 102)) then st 133 else st 0 else st 133).
Definition st_case_133 (relaxed : bool) (c : Z) : target :=
  switch c
    [(58, st 80); (93, st 61)]
    (if (c <? 65) then
       if ((48 <=? c) && (c <=? 57)) then st 134 else st 0
     else if (70 <? c) then if ((97 <=? c) && (c <=? 102)) then st 134 else st 0 else st 134).
Definition st_case_134 (relaxed : bool) (c : Z) : target :=
  switch c
    [(58, st 80); (93, st 61)]
    (if (c <? 65) then
       if ((48 <=? c) && (c <=? 57)) then st 135 else st 0
     else if (70 <? c) then if ((97 <=? c) && (c <=? 102)) then st 135 else st 0 else st 135).
Definition st_case_135 (relaxed : bool) (c : Z) : target :=
  switch c
    [(58, st 80); (93, st 61)]
    (st 0).
Definition st_case_136 (relaxed : bool) (c : Z) : target :=
  switch c
    [(46, st 55); (58, st 80); (93, st 61)]
    (if (c <? 65) then
       if ((48 <=? c) && (c <=? 57)) then st 137 else st 0
     else if (70 <? c) then if ((97 <=? c) && (c <=? 102)) then st 133 else st 0 else st 133).
Definition st_case_137 (relaxed : bool) (c : Z) : target :=
  switch c
    [(46, st 55); (58, st 80); (93, st 61)]
    (if (c <? 65) then
       if ((48 <=? c) && (c <=? 57)) then st 138 else st 0
     else if (70 <? c) then if ((97 <=? c) && (c <=? 102)) then st 134 else st 0 else st 134).
Definition st_case_138 (relaxed : bool) (c : Z) : target :=
  switch c
    [(46, st 55); (58, st 80); (93, st 61)]
    (if (c <? 65) then
       if ((48 <=? c) && (c <=? 57)) then st 135 else st 0
     else if (70 <? c) then if ((97 <=? c) && (c <=? 102)) then st 135 else st 0 else st 135).
Definition st_case_139 (relaxed : bool) (c : Z) : target :=
  switch c
    [(46, st 55); (48, st 140); (53, st 141); (58, st 80); (93, st 61)]
    (if (c <? 65) then
       if ((49 <=? c) && (c <=? 57)) then st 133 else st 0
     else if (70 <? c) then if ((97 <=? c) && (c <=? 102)) then st 133 else st 0 else st 133).
Definition st_case_140 (relaxed : bool) (c : Z) : target :=
  switch c
    [(58, st 80); (93, st 61)]
    (if (c <? 65) then
       if ((48 <=? c) && (c <=? 57)) then st 138 else st 0
     else if (70 <? c) then if ((97 <=? c) && (c <=? 102)) then st 134 else st 0 else st 134).
Definition st_case_141 (relaxed : bool) (c : Z) : target :=
  switch c
    [(48, st 138); (58, st 80); (93, st 61)]
    (if (c <? 65) then
       if ((49 <=? c) && (c <=? 57)) then st 134 else st 0
     else if (70 <? c) then if ((97 <=? c) && (c <=? 102)) then st 134 else st 0 else st 134).
Definition st_case_142 (relaxed : bool) (c : Z) : target :=
  switch c
    [(58, st 80); (93, st 61)]
    (if (c <? 65) then
       if ((48 <=? c) && (c <=? 57)) then st 133 else st 0
     else if (70 <? c) then if ((97 <=? c) && (c <=? 102)) then st 133 else st 0 else st 133).
Definition st_case_143 (relaxed : bool) (c : Z) : target :=
  switch c
    [(46, st 55); (58, st 131); (93, st 61)]
    (if (c <? 65) then
       if ((48 <=? c) && (c <=? 57)) then st 144 else st 0
     else if (70 <? c) then if ((97 <=? c) && (c <=? 102)) then st 128 else st 0 else st 128).
Definition st_case_144 (relaxed : bool) (c : Z) : target :=
  switch c
    [(46, st 55); (58, st 131); (93, st 61)]
    (if (c <? 65) then
       if ((48 <=? c) && (c <=? 57)) then st 145 else st 0
     else if (70 <? c) then if ((97 <=? c) && (c <=? 102)) then st 129 else st 0 else st 129).
Definition st_case_145 (relaxed : bool) (c : Z) : target :=
  switch c
    [(46, st 55); (58, st 131); (93, st 61)]
    (if (c <? 65) then
       if ((48 <=? c) && (c <=? 57)) then st 130 else st 0
     else if (70 <? c) then if ((97 <=? c) && (c <=? 102)) then st 130 else st 0 else st 130).
Definition st_case_146 (relaxed : bool) (c : Z) : target :=
  switch c
    [(46, st 55); (48, st 147); (53, st 148); (58, st 131); (93, st 61)]
    (if (c <? 65) then
       if ((49 <=? c) && (c <=? 57)) then st 128 else st 0
     else if (70 <? c) then if ((97 <=? c) && (c <=? 102)) then st 128 else st 0 else st 128).
Definition st_case_147 (relaxed : bool) (c : Z) : target :=
  switch c
    [(58, st 131); (93, st 61)]
    (if (c <? 65) then
       if ((48 <=? c) && (c <=? 57)) then st 145 else st 0
     else if (70 <? c) then if ((97 <=? c) && (c <=? 102)) then st 129 else st 0 else st 129).
Definition st_case_148 (relaxed : bool) (c : Z) : target :=
  switch c
    [(48, st 145); (58, st 131); (93, st 61)]
    (if (c <? 65) then
       if ((49 <=? c) && (c <=? 57)) then st 129 else st 0
     else if (70 <? c) then if ((97 <=? c) && (c <=? 102)) then st 129 else st 0 else st 129).
Definition st_case_149 (relaxed : bool) (c : Z) : target :=
  switch c
    [(58, st 131); (93, st 61)]
    (if (c <? 65) then
       if ((48 <=? c) && (c <=? 57)) then st 128 else st 0
     else if (70 <? c) then if ((97 <=? c) && (c <=? 102)) then st 128 else st 0 else st 128).
Definition st_case_150 (relaxed : bool) (c : Z) : target :=
  switch c
    [(49, st 143); (50, st 146)]
    (if (c <? 48) then
       if ((2 <=? c) && (c <=? 3)) then st 48 else st 0
     else if (57 <? c) then
       if (70 <? c) then
         if ((97 <=? c) && (c <=? 102)) then st 149 else st 0
       else if (65 <=? c) then st 149 else st 0
     else st 127).
Definition st_case_151 (relaxed : bool) (c : Z) : target :=
  switch c
    [(49, st 156); (50, st 159)]
    (if (c <? 48) then
       if ((2 <=? c) && (c <=? 3)) then st 48 else st 0
     else if (57 <? c) then
       if (70 <? c) then
         if ((97 <=? c) && (c <=? 102)) then st 162 else st 0
       else if (65 <=? c) then st 162 else st 0
     else st 152).
Definition st_case_152 (relaxed : bool) (c : Z) : target :=
  switch c
    [(46, st 55); (58, st 131)]
    (if (c <? 65) then
       if ((48 <=? c) && (c <=? 57)) then st 153 else st 0
     else if (70 <? c) then if ((97 <=? c) && (c <=? 102)) then st 153 else st 0 else st 153).
Definition st_case_153 (relaxed : bool) (c : Z) : target :=
  if (c =? 58) then
    st 131
  else if (c <? 65) then
    if ((48 <=? c) && (c <=? 57)) then st 154 else st 0
  else if (70 <? c) then if ((97 <=? c) && (c <=? 102)) then st 154 else st 0 else st 154.
Definition st_case_154 (relaxed : bool) (c : Z) : target :=
  if (c =? 58) then
    st 131
  else if (c <? 65) then
    if ((48 <=? c) && (c <=? 57)) then st 155 else st 0
  else if (70 <? c) then if ((97 <=? c) && (c <=? 102)) then st 155 else st 0 else st 155.
Definition st_case_155 (relaxed : bool) (c : Z) : target :=
  if (c =? 58) then st 131 else st 0.
Definition st_case_156 (relaxed : bool) (c : Z) : target :=
  switch c
    [(46, st 55); (58, st 131)]
    (if (c <? 65) then
       if ((48 <=? c) && (c <=? 57)) then st 157 else st 0
     else if (70 <? c) then if ((97 <=? c) && (c <=? 102)) then st 153 else st 0 else st 153).
Definition st_case_157 (relaxed : bool) (c : Z) : target :=
  switch c
    [(46, st 55); (58, st 131)]
    (if (c <? 65) then
       if ((48 <=? c) && (c <=? 57)) then st 158 else st 0
     else if (70 <? c) then if ((97 <=? c) && (c <=? 102)) then st 154 else st 0 else st 154).
Definition st_case_158 (relaxed : bool) (c : Z) : target :=
  switch c
    [(46, st 55); (58, st 131)]
    (if (c <? 65) then
       if ((48 <=? c) && (c <=? 57)) then st 155 else st 0
     else if (70 <? c) then if ((97 <=? c) && (c <=? 102)) then st 155 else st 0 else st 155).
Definition st_case_159 (relaxed : bool) (c : Z) : target :=
  switch c
    [(46, st 55); (48, st 160); (53, st 161); (58, st 131)]
    (if (c <? 65) then
       if ((49 <=? c) && (c <=? 57)) then st 153 else st 0
     else if (70 <? c) then if ((97 <=? c) && (c <=? 102)) then st 153 else st 0 else st 153).
Definition st_case_160 (relaxed : bool) (c : Z) : target :=
  if (c =? 58) then
    st 131
  else if (c <? 65) then
    if ((48 <=? c) && (c <=? 57)) then st 158 else st 0
  else if (70 <? c) then if ((97 <=? c) && (c <=? 102)) then st 154 else st 0 else st 154.
Definition st_case_161 (relaxed : bool) (c : Z) : target :=
  switch c
    [(48, st 158); (58, st 131)]
    (if (c <? 65) then
       if ((49 <=? c) && (c <=? 57)) then st 154 else st 0
     else if (70 <? c) then if ((97 <=? c) && (c <=? 102)) then st 154 else st 0 else st 154).
Definition st_case_162 (relaxed : bool) (c : Z) : target :=
  if (c =? 58) then
    st 131
  else if (c <? 65) then
    if ((48 <=? c) && (c <=? 57)) then st 153 else st 0
  else if (70 <? c) then if ((97 <=? c) && (c <=? 102)) then st 153 else st 0 else st 153.
Definition st_case_163 (relaxed : bool) (c : Z) : target :=
  if (c <? 48) then
    if ((2 <=? c) && (c <=? 3)) then st 48 else st 0
  else if (57 <? c) then
    if (70 <? c) then
      if ((97 <=? c) && (c <=? 102)) then st 49 else st 0
    else if (65 <=? c) then st 49 else st 0
  else st 49.
Definition st_case_164 (relaxed : bool) (c : Z) : target :=
  if ((2 <=? c) && (c <=? 3)) then st 48 else st 0.
Definition st_case_165 (relaxed : bool) (c : Z) : target :=
  if (c =? 3) then st 48 else st 0.
Definition st_case_166 (relaxed : bool) (c : Z) : target :=
  if (c =? 4) then st 48 else st 0.
Definition st_case_167 (relaxed : bool) (c : Z) : target :=
  if (c =? 58) then st 168 else st 0.
Definition st_case_168 (relaxed : bool) (c : Z) : target :=
  switch c
    [(49, st 143); (50, st 146); (93, st 61)]
    (if (c <? 48) then
       if ((2 <=? c) && (c <=? 5)) then st 48 else st 0
     else if (57 <? c) then
       if (70 <? c) then
         if ((97 <=? c) && (c <=? 102)) then st 149 else st 0
       else if (65 <=? c) then st 149 else st 0
     else st 127).
Definition st_case_169 (relaxed : bool) (c : Z) : target :=
  if (c <? 65) then
    if ((48 <=? c) && (c <=? 57)) then st 170 else st 0
  else if (70 <? c) then if ((97 <=? c) && (c <=? 102)) then st 170 else st 0 else st 170.
Definition st_case_170 (relaxed : bool) (c : Z) : target :=
  if (c =? 46) then
    st 171
  else if (c <? 65) then
    if ((48 <=? c) && (c <=? 57)) then st 170 else st 0
  else if (70 <? c) then if ((97 <=? c) && (c <=? 102)) then st 170 else st 0 else st 170.
Definition st_case_171 (relaxed : bool) (c : Z) : target :=
  switch c
    [(33, st 172); (36, st 172); (61, st 172); (94, if relaxed then st 172 else st 0);
     (95, st 172); (123, if relaxed then st 172 else st 0);
     (125, if relaxed then st 172 else st 0); (126, st 172)]
    (if (c <? 48) then
       if ((38 <=? c) && (c <=? 46)) then st 172 else st 0
     else if (59 <? c) then
       if (90 <? c) then
         if ((97 <=? c) && (c <=? 122)) then st 172 else st 0
       else if (65 <=? c) then st 172 else st 0
     else st 172).
Definition st_case_172 (relaxed : bool) (c : Z) : target :=
  switch c
    [(33, st 172); (36, st 172); (61, st 172); (93, st 61);
     (94, if relaxed then st 172 else st 0); (95, st 172);
     (123, if relaxed then st 172 else st 0); (125, if relaxed then st 172 else st 0);
     (126, st 172)]
    (if (c <? 48) then
       if ((38 <=? c) && (c <=? 46)) then st 172 else st 0
     else if (59 <? c) then
       if (90 <? c) then
         if ((97 <=? c) && (c <=? 122)) then st 172 else st 0
       else if (65 <=? c) then st 172 else st 0
     else st 172).
Definition st_case_173 (relaxed : bool) (c : Z) : target :=
  switch c
    [(32, ctr48); (33, st 19); (35, ctr49); (37, st 24); (43, st 173); (47, st 26);
     (58, st 174); (59, st 19); (61, st 19); (63, ctr52); (64, st 19);
     (94, if relaxed then st 19 else st 0); (95, st 19);
     (123, if relaxed then st 19 else st 0); (125, if relaxed then st 19 else st 0);
     (126, st 19)]
    (if (c <? 45) then
       if (36 <=? c) then st 19 else st 0
     else if (57 <? c) then
       if (90 <? c) then
         if ((97 <=? c) && (c <=? 122)) then st 173 else st 0
       else if (65 <=? c) then st 173 else st 0
     else st 173).
Definition st_case_174 (relaxed : bool) (c : Z) : target :=
  switch c
    [(32, ctr9); (34, st 0); (35, ctr11); (37, ctr227); (47, ctr13); (60, st 0);
     (62, st 0); (63, ctr14); (94, if relaxed then ctr228 else st 0); (96, st 0);
     (124, st 0); (127, st 0)]
    (if (c <? 91) then
       if ((0 <=? c) && (c <=? 31)) then st 0 else ctr226
     else if (93 <? c) then
       if ((123 <=? c) && (c <=? 125)) then if relaxed then ctr228 else st 0 else ctr226
     else st 0).
Definition st_case_175 (relaxed : bool) (c : Z) : target :=
  if (c =? 32) then
    ctr6
  else if (57 <? c) then
    if ((65 <=? c) && (c <=? 90)) then st 176 else st 0
  else if (48 <=? c) then st 176 else st 0.
Definition st_case_176 (relaxed : bool) (c : Z) : target :=
  if (c =? 32) then
    ctr6
  else if (57 <? c) then
    if ((65 <=? c) && (c <=? 90)) then st 177 else st 0
  else if (48 <=? c) then st 177 else st 0.
Definition st_case_177 (relaxed : bool) (c : Z) : target :=
  if (c =? 32) then
    ctr6
  else if (57 <? c) then
    if ((65 <=? c) && (c <=? 90)) then st 178 else st 0
  else if (48 <=? c) then st 178 else st 0.
Definition st_case_178 (relaxed : bool) (c : Z) : target :=
  if (c =? 32) then
    ctr6
  else if (57 <? c) then
    if ((65 <=? c) && (c <=? 90)) then st 179 else st 0
  else if (48 <=? c) then st 179 else st 0.
Definition st_case_179 (relaxed : bool) (c : Z) : target :=
  if (c =? 32) then
    ctr6
  else if (57 <? c) then
    if ((65 <=? c) && (c <=? 90)) then st 180 else st 0
  else if (48 <=? c) then st 180 else st 0.
Definition st_case_180 (relaxed : bool) (c : Z) : target :=
  if (c =? 32) then
    ctr6
  else if (57 <? c) then
    if ((65 <=? c) && (c <=? 90)) then st 181 else st 0
  else if (48 <=? c) then st 181 else st 0.
Definition st_case_181 (relaxed : bool) (c : Z) : target :=
  if (c =? 32) then
    ctr6
  else if (57 <? c) then
    if ((65 <=? c) && (c <=? 90)) then st 182 else st 0
  else if (48 <=? c) then st 182 else st 0.
Definition st_case_182 (relaxed : bool) (c : Z) : target :=
  if (c =? 32) then
    ctr6
  else if (57 <? c) then
    if ((65 <=? c) && (c <=? 90)) then st 183 else st 0
  else if (48 <=? c) then st 183 else st 0.
Definition st_case_183 (relaxed : bool) (c : Z) : target :=
  if (c =? 32) then
    ctr6
  else if (57 <? c) then
    if ((65 <=? c) && (c <=? 90)) then st 184 else st 0
  else if (48 <=? c) then st 184 else st 0.
Definition st_case_184 (relaxed : bool) (c : Z) : target :=
  if (c =? 32) then
    ctr6
  else if (57 <? c) then
    if ((65 <=? c) && (c <=? 90)) then st 185 else st 0
  else if (48 <=? c) then st 185 else st 0.
Definition st_case_185 (relaxed : bool) (c : Z) : target :=
  if (c =? 32) then
    ctr6
  else if (57 <? c) then
    if ((65 <=? c) && (c <=? 90)) then st 186 else st 0
  else if (48 <=? c) then st 186 else st 0.
Definition st_case_186 (relaxed : bool) (c : Z) : target :=
  if (c =? 32) then
    ctr6
  else if (57 <? c) then
    if ((65 <=? c) && (c <=? 90)) then st 187 else st 0
  else if (48 <=? c) then st 187 else st 0.
Definition st_case_187 (relaxed : bool) (c : Z) : target :=
  if (c =? 32) then
    ctr6
  else if (57 <? c) then
    if ((65 <=? c) && (c <=? 90)) then st 188 else st 0
  else if (48 <=? c) then st 188 else st 0.
Definition st_case_188 (relaxed : bool) (c : Z) : target :=
  if (c =? 32) then
    ctr6
  else if (57 <? c) then
    if ((65 <=? c) && (c <=? 90)) then st 189 else st 0
  else if (48 <=? c) then st 189 else st 0.
Definition st_case_189 (relaxed : bool) (c : Z) : target :=
  if (c =? 32) then
    ctr6
  else if (57 <? c) then
    if ((65 <=? c) && (c <=? 90)) then st 190 else st 0
  else if (48 <=? c) then st 190 else st 0.
Definition st_case_190 (relaxed : bool) (c : Z) : target :=
  if (c =? 32) then
    ctr6
  else if (57 <? c) then
    if ((65 <=? c) && (c <=? 90)) then st 191 else st 0
  else if (48 <=? c) then st 191 else st 0.
Definition st_case_191 (relaxed : bool) (c : Z) : target :=
  if (c =? 32) then
    ctr6
  else if (57 <? c) then
    if ((65 <=? c) && (c <=? 90)) then st 192 else st 0
  else if (48 <=? c) then st 192 else st 0.
Definition st_case_192 (relaxed : bool) (c : Z) : target :=
  if (c =? 32) then
    ctr6
  else if (57 <? c) then
    if ((65 <=? c) && (c <=? 90)) then st 193 else st 0
  else if (48 <=? c) then st 193 else st 0.
Definition st_case_193 (relaxed : bool) (c : Z) : target :=
  if (c =? 32) then ctr6 else st 0.
Definition st_case_194 (relaxed : bool) (c : Z) : target :=
  if (c <? 48) then
    if ((45 <=? c) && (c <=? 46)) then st 195 else st 0
  else if (57 <? c) then
    if (90 <? c) then
      if ((97 <=? c) && (c <=? 122)) then st 195 else st 0
    else if (65 <=? c) then st 195 else st 0
  else st 195.
Definition st_case_195 (relaxed : bool) (c : Z) : target :=
  switch c
    [(32, ctr249); (47, ctr249); (62, ctr249)]
    (if (c <? 45) then
       if ((9 <=? c) && (c <=? 13)) then ctr249 else st 0
     else if (57 <? c) then
       if (90 <? c) then
         if ((97 <=? c) && (c <=? 122)) then st 195 else st 0
       else if (65 <=? c) then st 195 else st 0
     else st 195).
Definition st_case_196 (relaxed : bool) (c : Z) : target :=
  if (c =? 62) then st 197 else st 196.
Definition st_case_197 (relaxed : bool) (c : Z) : target :=
  switch c
    [(0, ctr252); (62, st 197)]
    (st 196).
Definition st_case_198 (relaxed : bool) (c : Z) : target :=
  switch c
    [(32, ctr254); (33, st 202); (37, st 203); (47, st 208); (59, st 202); (61, st 202);
     (94, if relaxed then st 202 else st 0); (95, st 202);
     (123, if relaxed then st 202 else st 0); (125, if relaxed then st 202 else st 0);
     (126, st 202)]
    (if (c <? 64) then
       if ((36 <=? c) && (c <=? 57)) then st 202 else st 0
     else if (90 <? c) then if ((97 <=? c) && (c <=? 122)) then st 202 else st 0 else st 202).
Definition st_case_199 (relaxed : bool) (c : Z) : target :=
  if (c =? 123) then ctr260 else st 0.
Definition st_case_200 (relaxed : bool) (c : Z) : target :=
  if (c =? 125) then st 201 else st 200.
Definition st_case_201 (relaxed : bool) (c : Z) : target :=
  switch c
    [(0, ctr263); (125, st 201)]
    (st 200).
Definition st_case_202 (relaxed : bool) (c : Z) : target :=
  switch c
    [(32, ctr254); (33, st 202); (37, st 203); (47, st 205); (59, st 202); (61, st 202);
     (94, if relaxed then st 202 else st 0); (95, st 202);
     (123, if relaxed then st 202 else st 0); (125, if relaxed then st 202 else st 0);
     (126, st 202)]
    (if (c <? 64) then
       if ((36 <=? c) && (c <=? 57)) then st 202 else st 0
     else if (90 <? c) then if ((97 <=? c) && (c <=? 122)) then st 202 else st 0 else st 202).
Definition st_case_203 (relaxed : bool) (c : Z) : target :=
  if (c <? 65) then
    if ((48 <=? c) && (c <=? 57)) then st 204 else st 0
  else if (70 <? c) then if ((97 <=? c) && (c <=? 102)) then st 204 else st 0 else st 204.
Definition st_case_204 (relaxed : bool) (c : Z) : target :=
  if (c <? 65) then
    if ((48 <=? c) && (c <=? 57)) then st 202 else st 0
  else if (70 <? c) then if ((97 <=? c) && (c <=? 102)) then st 202 else st 0 else st 202.
Definition st_case_205 (relaxed : bool) (c : Z) : target :=
  switch c
    [(32, ctr254); (37, st 206); (60, st 0); (94, if relaxed then st 205 else st 0);
     (96, st 0); (124, st 0); (127, st 0)]
    (if (c <? 62) then
       if (31 <? c) then
         if ((34 <=? c) && (c <=? 35)) then st 0 else st 205
       else if (0 <=? c) then st 0 else st 205
     else if (63 <? c) then
       if (93 <? c) then
         if ((123 <=? c) && (c <=? 125)) then if relaxed then st 205 else st 0 else st 205
       else if (91 <=? c) then st 0 else st 205
     else st 0).
Definition st_case_206 (relaxed : bool) (c : Z) : target :=
  if (c <? 65) then
    if ((48 <=? c) && (c <=? 57)) then st 207 else st 0
  else if (70 <? c) then if ((97 <=? c) && (c <=? 102)) then st 207 else st 0 else st 207.
Definition st_case_207 (relaxed : bool) (c : Z) : target :=
  if (c <? 65) then
    if ((48 <=? c) && (c <=? 57)) then st 205 else st 0
  else if (70 <? c) then if ((97 <=? c) && (c <=? 102)) then st 205 else st 0 else st 205.
Definition st_case_208 (relaxed : bool) (c : Z) : target :=
  switch c
    [(32, ctr254); (37, st 206); (47, st 209); (60, st 0);
     (94, if relaxed then st 205 else st 0); (96, st 0); (124, st 0); (127, st 0)]
    (if (c <? 62) then
       if (31 <? c) then
         if ((34 <=? c) && (c <=? 35)) then st 0 else st 205
       else if (0 <=? c) then st 0 else st 205
     else if (63 <? c) then
       if (93 <? c) then
         if ((123 <=? c) && (c <=? 125)) then if relaxed then st 205 else st 0 else st 205
       else if (91 <=? c) then st 0 else st 205
     else st 0).
Definition st_case_209 (relaxed : bool) (c : Z) : target :=
  switch c
    [(32, ctr254); (33, st 210); (37, st 211); (47, st 205); (58, st 213); (61, st 210);
     (64, st 217); (91, st 222); (94, if relaxed then st 210 else st 0); (95, st 210);
     (123, if relaxed then st 210 else st 0); (125, if relaxed then st 210 else st 0);
     (126, st 210)]
    (if (c <? 65) then
       if ((36 <=? c) && (c <=? 59)) then st 210 else st 0
     else if (90 <? c) then if ((97 <=? c) && (c <=? 122)) then st 210 else st 0 else st 210).
Definition st_case_210 (relaxed : bool) (c : Z) : target :=
  switch c
    [(32, ctr254); (33, st 210); (37, st 211); (47, st 205); (58, st 213); (61, st 210);
     (64, st 217); (94, if relaxed then st 210 else st 0); (95, st 210);
     (123, if relaxed then st 210 else st 0); (125, if relaxed then st 210 else st 0);
     (126, st 210)]
    (if (c <? 65) then
       if ((36 <=? c) && (c <=? 59)) then st 210 else st 0
     else if (90 <? c) then if ((97 <=? c) && (c <=? 122)) then st 210 else st 0 else st 210).
Definition st_case_211 (relaxed : bool) (c : Z) : target :=
  if (c <? 65) then
    if ((48 <=? c) && (c <=? 57)) then st 212 else st 0
  else if (70 <? c) then if ((97 <=? c) && (c <=? 102)) then st 212 else st 0 else st 212.
Definition st_case_212 (relaxed : bool) (c : Z) : target :=
  if (c <? 65) then
    if ((48 <=? c) && (c <=? 57)) then st 210 else st 0
  else if (70 <? c) then if ((97 <=? c) && (c <=? 102)) then st 210 else st 0 else st 210.
Definition st_case_213 (relaxed : bool) (c : Z) : target :=
  switch c
    [(32, ctr254); (33, st 214); (37, st 215); (47, st 205); (61, st 214); (64, st 217);
     (94, if relaxed then st 214 else st 0); (95, st 214);
     (123, if relaxed then st 214 else st 0); (125, if relaxed then st 214 else st 0);
     (126, st 214)]
    (if (c <? 58) then
       if (46 <? c) then
         if (48 <=? c) then st 213 else st 0
       else if (36 <=? c) then st 214 else st 0
     else if (59 <? c) then
       if (90 <? c) then
         if ((97 <=? c) && (c <=? 122)) then st 214 else st 0
       else if (65 <=? c) then st 214 else st 0
     else st 214).
Definition st_case_214 (relaxed : bool) (c : Z) : target :=
  switch c
    [(33, st 214); (37, st 215); (61, st 214); (64, st 217);
     (94, if relaxed then st 214 else st 0); (95, st 214);
     (123, if relaxed then st 214 else st 0); (125, if relaxed then st 214 else st 0);
     (126, st 214)]
    (if (c <? 48) then
       if ((36 <=? c) && (c <=? 46)) then st 214 else st 0
     else if (59 <? c) then
       if (90 <? c) then
         if ((97 <=? c) && (c <=? 122)) then st 214 else st 0
       else if (65 <=? c) then st 214 else st 0
     else st 214).
Definition st_case_215 (relaxed : bool) (c : Z) : target :=
  if (c <? 65) then
    if ((48 <=? c) && (c <=? 57)) then st 216 else st 0
  else if (70 <? c) then if ((97 <=? c) && (c <=? 102)) then st 216 else st 0 else st 216.
Definition st_case_216 (relaxed : bool) (c : Z) : target :=
  if (c <? 65) then
    if ((48 <=? c) && (c <=? 57)) then st 214 else st 0
  else if (70 <? c) then if ((97 <=? c) && (c <=? 102)) then st 214 else st 0 else st 214.
Definition st_case_217 (relaxed : bool) (c : Z) : target :=
  switch c
    [(32, ctr254); (33, st 218); (37, st 219); (47, st 205); (58, st 221); (61, st 218);
     (91, st 222); (94, if relaxed then st 218 else st 0); (95, st 218);
     (123, if relaxed then st 218 else st 0); (125, if relaxed then st 218 else st 0);
     (126, st 218)]
    (if (c <? 65) then
       if ((36 <=? c) && (c <=? 59)) then st 218 else st 0
     else if (90 <? c) then if ((97 <=? c) && (c <=? 122)) then st 218 else st 0 else st 218).
Definition st_case_218 (relaxed : bool) (c : Z) : target :=
  switch c
    [(32, ctr254); (33, st 218); (37, st 219); (47, st 205); (58, st 221); (61, st 218);
     (94, if relaxed then st 218 else st 0); (95, st 218);
     (123, if relaxed then st 218 else st 0); (125, if relaxed then st 218 else st 0);
     (126, st 218)]
    (if (c <? 65) then
       if ((36 <=? c) && (c <=? 59)) then st 218 else st 0
     else if (90 <? c) then if ((97 <=? c) && (c <=? 122)) then st 218 else st 0 else st 218).
Definition st_case_219 (relaxed : bool) (c : Z) : target :=
  if (c <? 65) then
    if ((48 <=? c) && (c <=? 57)) then st 220 else st 0
  else if (70 <? c) then if ((97 <=? c) && (c <=? 102)) then st 220 else st 0 else st 220.
Definition st_case_220 (relaxed : bool) (c : Z) : target :=
  if (c <? 65) then
    if ((48 <=? c) && (c <=? 57)) then st 218 else st 0
  else if (70 <? c) then if ((97 <=? c) && (c <=? 102)) then st 218 else st 0 else st 218.
Definition st_case_221 (relaxed : bool) (c : Z) : target :=
  switch c
    [(32, ctr254); (47, st 205)]
    (if ((48 <=? c) && (c <=? 57)) then st 221 else st 0).
Definition st_case_222 (relaxed : bool) (c : Z) : target :=
  switch c
    [(6, st 223); (58, st 342); (118, st 344)]
    (if (c <? 65) then
       if ((48 <=? c) && (c <=? 57)) then st 266 else st 0
     else if (70 <? c) then if ((97 <=? c) && (c <=? 102)) then st 266 else st 0 else st 266).
Definition st_case_223 (relaxed : bool) (c : Z) : target :=
  if (c <? 65) then
    if ((48 <=? c) && (c <=? 57)) then st 224 else st 0
  else if (70 <? c) then if ((97 <=? c) && (c <=? 102)) then st 224 else st 0 else st 224.
Definition st_case_224 (relaxed : bool) (c : Z) : target :=
  if (c =? 58) then
    st 228
  else if (c <? 65) then
    if ((48 <=? c) && (c <=? 57)) then st 225 else st 0
  else if (70 <? c) then if ((97 <=? c) && (c <=? 102)) then st 225 else st 0 else st 225.
Definition st_case_225 (relaxed : bool) (c : Z) : target :=
  if (c =? 58) then
    st 228
  else if (c <? 65) then
    if ((48 <=? c) && (c <=? 57)) then st 226 else st 0
  else if (70 <? c) then if ((97 <=? c) && (c <=? 102)) then st 226 else st 0 else st 226.
Definition st_case_226 (relaxed : bool) (c : Z) : target :=
  if (c =? 58) then
    st 228
  else if (c <? 65) then
    if ((48 <=? c) && (c <=? 57)) then st 227 else st 0
  else if (70 <? c) then if ((97 <=? c) && (c <=? 102)) then st 227 else st 0 else st 227.
Definition st_case_227 (relaxed : bool) (c : Z) : target :=
  if (c =? 58) then st 228 else st 0.
Definition st_case_228 (relaxed : bool) (c : Z) : target :=
  switch c
    [(49, st 259); (50, st 262)]
    (if (c <? 65) then
       if ((48 <=? c) && (c <=? 57)) then st 229 else st 0
     else if (70 <? c) then if ((97 <=? c) && (c <=? 102)) then st 265 else st 0 else st 265).
Definition st_case_229 (relaxed : bool) (c : Z) : target :=
  switch c
    [(46, st 230); (58, st 255)]
    (if (c <? 65) then
       if ((48 <=? c) && (c <=? 57)) then st 252 else st 0
     else if (70 <? c) then if ((97 <=? c) && (c <=? 102)) then st 252 else st 0 else st 252).
Definition st_case_230 (relaxed : bool) (c : Z) : target :=
  switch c
    [(49, st 247); (50, st 249)]
    (if ((48 <=? c) && (c <=? 57)) then st 231 else st 0).
Definition st_case_231 (relaxed : bool) (c : Z) : target :=
  if (c =? 46) then st 232 else st 0.
Definition st_case_232 (relaxed : bool) (c : Z) : target :=
  switch c
    [(49, st 242); (50, st 244)]
    (if ((48 <=? c) && (c <=? 57)) then st 233 else st 0).
Definition st_case_233 (relaxed : bool) (c : Z) : target :=
  if (c =? 46) then st 234 else st 0.
Definition st_case_234 (relaxed : bool) (c : Z) : target :=
  switch c
    [(49, st 237); (50, st 239)]
    (if ((48 <=? c) && (c <=? 57)) then st 235 else st 0).
Definition st_case_235 (relaxed : bool) (c : Z) : target :=
  if (c =? 93) then st 236 else st 0.
Definition st_case_236 (relaxed : bool) (c : Z) : target :=
  switch c
    [(32, ctr254); (47, st 205); (58, st 221)]
    (st 0).
Definition st_case_237 (relaxed : bool) (c : Z) : target :=
  if (c =? 93) then st 236 else if ((48 <=? c) && (c <=? 57)) then st 238 else st 0.
Definition st_case_238 (relaxed : bool) (c : Z) : target :=
  if (c =? 93) then st 236 else if ((48 <=? c) && (c <=? 57)) then st 235 else st 0.
Definition st_case_239 (relaxed : bool) (c : Z) : target :=
  switch c
    [(48, st 240); (53, st 241); (93, st 236)]
    (st 0).
Definition st_case_240 (relaxed : bool) (c : Z) : target :=
  if ((48 <=? c) && (c <=? 57)) then st 235 else st 0.
Definition st_case_241 (relaxed : bool) (c : Z) : target :=
  if (c =? 48) then st 235 else st 0.
Definition st_case_242 (relaxed : bool) (c : Z) : target :=
  if (c =? 46) then st 234 else if ((48 <=? c) && (c <=? 57)) then st 243 else st 0.
Definition st_case_243 (relaxed : bool) (c : Z) : target :=
  if (c =? 46) then st 234 else if ((48 <=? c) && (c <=? 57)) then st 233 else st 0.
Definition st_case_244 (relaxed : bool) (c : Z) : target :=
  switch c
    [(46, st 234); (48, st 245); (53, st 246)]
    (st 0).
Definition st_case_245 (relaxed : bool) (c : Z) : target :=
  if ((48 <=? c) && (c <=? 57)) then st 233 else st 0.
Definition st_case_246 (relaxed : bool) (c : Z) : target :=
  if (c =? 48) then st 233 else st 0.
Definition st_case_247 (relaxed : bool) (c : Z) : target :=
  if (c =? 46) then st 232 else if ((48 <=? c) && (c <=? 57)) then st 248 else st 0.
Definition st_case_248 (relaxed : bool) (c : Z) : target :=
  if (c =? 46) then st 232 else if ((48 <=? c) && (c <=? 57)) then st 231 else st 0.
Definition st_case_249 (relaxed : bool) (c : Z) : target :=
  switch c
    [(46, st 232); (48, st 250); (53, st 251)]
    (st 0).
Definition st_case_250 (relaxed : bool) (c : Z) : target :=
  if ((48 <=? c) && (c <=? 57)) then st 231 else st 0.
Definition st_case_251 (relaxed : bool) (c : Z) : target :=
  if (c =? 48) then st 231 else st 0.
Definition st_case_252 (relaxed : bool) (c : Z) : target :=
  if (c =? 58) then
    st 255
  else if (c <? 65) then
    if ((48 <=? c) && (c <=? 57)) then st 253 else st 0
  else if (70 <? c) then if ((97 <=? c) && (c <=? 102)) then st 253 else st 0 else st 253.
Definition st_case_253 (relaxed : bool) (c : Z) : target :=
  if (c =? 58) then
    st 255
  else if (c <? 65) then
    if ((48 <=? c) && (c <=? 57)) then st 254 else st 0
  else if (70 <? c) then if ((97 <=? c) && (c <=? 102)) then st 254 else st 0 else st 254.
Definition st_case_254 (relaxed : bool) (c : Z) : target :=
  if (c =? 58) then st 255 else st 0.
Definition st_case_255 (relaxed : bool) (c : Z) : target :=
  if (c <? 65) then
    if ((48 <=? c) && (c <=? 57)) then st 256 else st 0
  else if (70 <? c) then if ((97 <=? c) && (c <=? 102)) then st 256 else st 0 else st 256.
Definition st_case_256 (relaxed : bool) (c : Z) : target :=
  if (c =? 93) then
    st 236
  else if (c <? 65) then
    if ((48 <=? c) && (c <=? 57)) then st 257 else st 0
  else if (70 <? c) then if ((97 <=? c) && (c <=? 102)) then st 257 else st 0 else st 257.
Definition st_case_257 (relaxed : bool) (c : Z) : target :=
  if (c =? 93) then
    st 236
  else if (c <? 65) then
    if ((48 <=? c) && (c <=? 57)) then st 258 else st 0
  else if (70 <? c) then if ((97 <=? c) && (c <=? 102)) then st 258 else st 0 else st 258.
Definition st_case_258 (relaxed : bool) (c : Z) : target :=
  if (c =? 93) then
    st 236
  else if (c <? 65) then
    if ((48 <=? c) && (c <=? 57)) then st 235 else st 0
  else if (70 <? c) then if ((97 <=? c) && (c <=? 102)) then st 235 else st 0 else st 235.
Definition st_case_259 (relaxed : bool) (c : Z) : target :=
  switch c
    [(46, st 230); (58, st 255)]
    (if (c <? 65) then
       if ((48 <=? c) && (c <=? 57)) then st 260 else st 0
     else if (70 <? c) then if ((97 <=? c) && (c <=? 102)) then st 252 else st 0 else st 252).
Definition st_case_260 (relaxed : bool) (c : Z) : target :=
  switch c
    [(46, st 230); (58, st 255)]
    (if (c <? 65) then
       if ((48 <=? c) && (c <=? 57)) then st 261 else st 0
     else if (70 <? c) then if ((97 <=? c) && (c <=? 102)) then st 253 else st 0 else st 253).
Definition st_case_261 (relaxed : bool) (c : Z) : target :=
  switch c
    [(46, st 230); (58, st 255)]
    (if (c <? 65) then
       if ((48 <=? c) && (c <=? 57)) then st 254 else st 0
     else if (70 <? c) then if ((97 <=? c) && (c <=? 102)) then st 254 else st 0 else st 254).
Definition st_case_262 (relaxed : bool) (c : Z) : target :=
  switch c
    [(46, st 230); (48, st 263); (53, st 264); (58, st 255)]
    (if (c <? 65) then
       if ((49 <=? c) && (c <=? 57)) then st 252 else st 0
     else if (70 <? c) then if ((97 <=? c) && (c <=? 102)) then st 252 else st 0 else st 252).
Definition st_case_263 (relaxed : bool) (c : Z) : target :=
  if (c =? 58) then
    st 255
  else if (c <? 65) then
    if ((48 <=? c) && (c <=? 57)) then st 261 else st 0
  else if (70 <? c) then if ((97 <=? c) && (c <=? 102)) then st 253 else st 0 else st 253.
Definition st_case_264 (relaxed : bool) (c : Z) : target :=
  switch c
    [(48, st 261); (58, st 255)]
    (if (c <? 65) then
       if ((49 <=? c) && (c <=? 57)) then st 253 else st 0
     else if (70 <? c) then if ((97 <=? c) && (c <=? 102)) then st 253 else st 0 else st 253).
Definition st_case_265 (relaxed : bool) (c : Z) : target :=
  if (c =? 58) then
    st 255
  else if (c <? 65) then
    if ((48 <=? c) && (c <=? 57)) then st 252 else st 0
  else if (70 <? c) then if ((97 <=? c) && (c <=? 102)) then st 252 else st 0 else st 252.
Definition st_case_266 (relaxed : bool) (c : Z) : target :=
  if (c =? 58) then
    st 270
  else if (c <? 65) then
    if ((48 <=? c) && (c <=? 57)) then st 267 else st 0
  else if (70 <? c) then if ((97 <=? c) && (c <=? 102)) then st 267 else st 0 else st 267.
Definition st_case_267 (relaxed : bool) (c : Z) : target :=
  if (c =? 58) then
    st 270
  else if (c <? 65) then
    if ((48 <=? c) && (c <=? 57)) then st 268 else st 0
  else if (70 <? c) then if ((97 <=? c) && (c <=? 102)) then st 268 else st 0 else st 268.
Definition st_case_268 (relaxed : bool) (c : Z) : target :=
  if (c =? 58) then
    st 270
  else if (c <? 65) then
    if ((48 <=? c) && (c <=? 57)) then st 269 else st 0
  else if (70 <? c) then if ((97 <=? c) && (c <=? 102)) then st 269 else st 0 else st 269.
Definition st_case_269 (relaxed : bool) (c : Z) : target :=
  if (c =? 58) then st 270 else st 0.
Definition st_case_270 (relaxed : bool) (c : Z) : target :=
  if (c =? 58) then
    st 341
  else if (c <? 65) then
    if ((48 <=? c) && (c <=? 57)) then st 271 else st 0
  else if (70 <? c) then if ((97 <=? c) && (c <=? 102)) then st 271 else st 0 else st 271.
Definition st_case_271 (relaxed : bool) (c : Z) : target :=
  if (c =? 58) then
    st 275
  else if (c <? 65) then
    if ((48 <=? c) && (c <=? 57)) then st 272 else st 0
  else if (70 <? c) then if ((97 <=? c) && (c <=? 102)) then st 272 else st 0 else st 272.
Definition st_case_272 (relaxed : bool) (c : Z) : target :=
  if (c =? 58) then
    st 275
  else if (c <? 65) then
    if ((48 <=? c) && (c <=? 57)) then st 273 else st 0
  else if (70 <? c) then if ((97 <=? c) && (c <=? 102)) then st 273 else st 0 else st 273.
Definition st_case_273 (relaxed : bool) (c : Z) : target :=
  if (c =? 58) then
    st 275
  else if (c <? 65) then
    if ((48 <=? c) && (c <=? 57)) then st 274 else st 0
  else if (70 <? c) then if ((97 <=? c) && (c <=? 102)) then st 274 else st 0 else st 274.
Definition st_case_274 (relaxed : bool) (c : Z) : target :=
  if (c =? 58) then st 275 else st 0.
Definition st_case_275 (relaxed : bool) (c : Z) : target :=
  if (c =? 58) then
    st 340
  else if (c <? 65) then
    if ((48 <=? c) && (c <=? 57)) then st 276 else st 0
  else if (70 <? c) then if ((97 <=? c) && (c <=? 102)) then st 276 else st 0 else st 276.
Definition st_case_276 (relaxed : bool) (c : Z) : target :=
  if (c =? 58) then
    st 280
  else if (c <? 65) then
    if ((48 <=? c) && (c <=? 57)) then st 277 else st 0
  else if (70 <? c) then if ((97 <=? c) && (c <=? 102)) then st 277 else st 0 else st 277.
Definition st_case_277 (relaxed : bool) (c : Z) : target :=
  if (c =? 58) then
    st 280
  else if (c <? 65) then
    if ((48 <=? c) && (c <=? 57)) then st 278 else st 0
  else if (70 <? c) then if ((97 <=? c) && (c <=? 102)) then st 278 else st 0 else st 278.
Definition st_case_278 (relaxed : bool) (c : Z) : target :=
  if (c =? 58) then
    st 280
  else if (c <? 65) then
    if ((48 <=? c) && (c <=? 57)) then st 279 else st 0
  else if (70 <? c) then if ((97 <=? c) && (c <=? 102)) then st 279 else st 0 else st 279.
Definition st_case_279 (relaxed : bool) (c : Z) : target :=
  if (c =? 58) then st 280 else st 0.
Definition st_case_280 (relaxed : bool) (c : Z) : target :=
  if (c =? 58) then
    st 339
  else if (c <? 65) then
    if ((48 <=? c) && (c <=? 57)) then st 281 else st 0
  else if (70 <? c) then if ((97 <=? c) && (c <=? 102)) then st 281 else st 0 else st 281.
Definition st_case_281 (relaxed : bool) (c : Z) : target :=
  if (c =? 58) then
    st 285
  else if (c <? 65) then
    if ((48 <=? c) && (c <=? 57)) then st 282 else st 0
  else if (70 <? c) then if ((97 <=? c) && (c <=? 102)) then st 282 else st 0 else st 282.
Definition st_case_282 (relaxed : bool) (c : Z) : target :=
  if (c =? 58) then
    st 285
  else if (c <? 65) then
    if ((48 <=? c) && (c <=? 57)) then st 283 else st 0
  else if (70 <? c) then if ((97 <=? c) && (c <=? 102)) then st 283 else st 0 else st 283.
Definition st_case_283 (relaxed : bool) (c : Z) : target :=
  if (c =? 58) then
    st 285
  else if (c <? 65) then
    if ((48 <=? c) && (c <=? 57)) then st 284 else st 0
  else if (70 <? c) then if ((97 <=? c) && (c <=? 102)) then st 284 else st 0 else st 284.
Definition st_case_284 (relaxed : bool) (c : Z) : target :=
  if (c =? 58) then st 285 else st 0.
Definition st_case_285 (relaxed : bool) (c : Z) : target :=
  if (c =? 58) then
    st 338
  else if (c <? 65) then
    if ((48 <=? c) && (c <=? 57)) then st 286 else st 0
  else if (70 <? c) then if ((97 <=? c) && (c <=? 102)) then st 286 else st 0 else st 286.
Definition st_case_286 (relaxed : bool) (c : Z) : target :=
  if (c =? 58) then
    st 290
  else if (c <? 65) then
    if ((48 <=? c) && (c <=? 57)) then st 287 else st 0
  else if (70 <? c) then if ((97 <=? c) && (c <=? 102)) then st 287 else st 0 else st 287.
Definition st_case_287 (relaxed : bool) (c : Z) : target :=
  if (c =? 58) then
    st 290
  else if (c <? 65) then
    if ((48 <=? c) && (c <=? 57)) then st 288 else st 0
  else if (70 <? c) then if ((97 <=? c) && (c <=? 102)) then st 288 else st 0 else st 288.
Definition st_case_288 (relaxed : bool) (c : Z) : target :=
  if (c =? 58) then
    st 290
  else if (c <? 65) then
    if ((48 <=? c) && (c <=? 57)) then st 289 else st 0
  else if (70 <? c) then if ((97 <=? c) && (c <=? 102)) then st 289 else st 0 else st 289.
Definition st_case_289 (relaxed : bool) (c : Z) : target :=
  if (c =? 58) then st 290 else st 0.
Definition st_case_290 (relaxed : bool) (c : Z) : target :=
  if (c =? 58) then
    st 326
  else if (c <? 65) then
    if ((48 <=? c) && (c <=? 57)) then st 291 else st 0
  else if (70 <? c) then if ((97 <=? c) && (c <=? 102)) then st 291 else st 0 else st 291.
Definition st_case_291 (relaxed : bool) (c : Z) : target :=
  if (c =? 58) then
    st 295
  else if (c <? 65) then
    if ((48 <=? c) && (c <=? 57)) then st 292 else st 0
  else if (70 <? c) then if ((97 <=? c) && (c <=? 102)) then st 292 else st 0 else st 292.
Definition st_case_292 (relaxed : bool) (c : Z) : target :=
  if (c =? 58) then
    st 295
  else if (c <? 65) then
    if ((48 <=? c) && (c <=? 57)) then st 293 else st 0
  else if (70 <? c) then if ((97 <=? c) && (c <=? 102)) then st 293 else st 0 else st 293.
Definition st_case_293 (relaxed : bool) (c : Z) : target :=
  if (c =? 58) then
    st 295
  else if (c <? 65) then
    if ((48 <=? c) && (c <=? 57)) then st 294 else st 0
  else if (70 <? c) then if ((97 <=? c) && (c <=? 102)) then st 294 else st 0 else st 294.
Definition st_case_294 (relaxed : bool) (c : Z) : target :=
  if (c =? 58) then st 295 else st 0.
Definition st_case_295 (relaxed : bool) (c : Z) : target :=
  if (c =? 58) then
    st 325
  else if (c <? 65) then
    if ((48 <=? c) && (c <=? 57)) then st 296 else st 0
  else if (70 <? c) then if ((97 <=? c) && (c <=? 102)) then st 296 else st 0 else st 296.
Definition st_case_296 (relaxed : bool) (c : Z) : target :=
  if (c =? 58) then
    st 300
  else if (c <? 65) then
    if ((48 <=? c) && (c <=? 57)) then st 297 else st 0
  else if (70 <? c) then if ((97 <=? c) && (c <=? 102)) then st 297 else st 0 else st 297.
Definition st_case_297 (relaxed : bool) (c : Z) : target :=
  if (c =? 58) then
    st 300
  else if (c <? 65) then
    if ((48 <=? c) && (c <=? 57)) then st 298 else st 0
  else if (70 <? c) then if ((97 <=? c) && (c <=? 102)) then st 298 else st 0 else st 298.
Definition st_case_298 (relaxed : bool) (c : Z) : target :=
  if (c =? 58) then
    st 300
  else if (c <? 65) then
    if ((48 <=? c) && (c <=? 57)) then st 299 else st 0
  else if (70 <? c) then if ((97 <=? c) && (c <=? 102)) then st 299 else st 0 else st 299.
Definition st_case_299 (relaxed : bool) (c : Z) : target :=
  if (c =? 58) then st 300 else st 0.
Definition st_case_300 (relaxed : bool) (c : Z) : target :=
  if (c =? 58) then
    st 301
  else if (c <? 65) then
    if ((48 <=? c) && (c <=? 57)) then st 296 else st 0
  else if (70 <? c) then if ((97 <=? c) && (c <=? 102)) then st 296 else st 0 else st 296.
Definition st_case_301 (relaxed : bool) (c : Z) : target :=
  switch c
    [(49, st 318); (50, st 321); (93, st 236)]
    (if (c <? 48) then
       if ((2 <=? c) && (c <=? 3)) then st 223 else st 0
     else if (57 <? c) then
       if (70 <? c) then
         if ((97 <=? c) && (c <=? 102)) then st 324 else st 0
       else if (65 <=? c) then st 324 else st 0
     else st 302).
Definition st_case_302 (relaxed : bool) (c : Z) : target :=
  switch c
    [(46, st 230); (58, st 306); (93, st 236)]
    (if (c <? 65) then
       if ((48 <=? c) && (c <=? 57)) then st 303 else st 0
     else if (70 <? c) then if ((97 <=? c) && (c <=? 102)) then st 303 else st 0 else st 303).
Definition st_case_303 (relaxed : bool) (c : Z) : target :=
  switch c
    [(58, st 306); (93, st 236)]
    (if (c <? 65) then
       if ((48 <=? c) && (c <=? 57)) then st 304 else st 0
     else if (70 <? c) then if ((97 <=? c) && (c <=? 102)) then st 304 else st 0 else st 304).
Definition st_case_304 (relaxed : bool) (c : Z) : target :=
  switch c
    [(58, st 306); (93, st 236)]
    (if (c <? 65) then
       if ((48 <=? c) && (c <=? 57)) then st 305 else st 0
     else if (70 <? c) then if ((97 <=? c) && (c <=? 102)) then st 305 else st 0 else st 305).
Definition st_case_305 (relaxed : bool) (c : Z) : target :=
  switch c
    [(58, st 306); (93, st 236)]
    (st 0).
Definition st_case_306 (relaxed : bool) (c : Z) : target :=
  switch c
    [(49, st 311); (50, st 314)]
    (if (c <? 65) then
       if ((48 <=? c) && (c <=? 57)) then st 307 else st 0
     else if (70 <? c) then if ((97 <=? c) && (c <=? 102)) then st 317 else st 0 else st 317).
Definition st_case_307 (relaxed : bool) (c : Z) : target :=
  switch c
    [(46, st 230); (58, st 255); (93, st 236)]
    (if (c <? 65) then
       if ((48 <=? c) && (c <=? 57)) then st 308 else st 0
     else if (70 <? c) then if ((97 <=? c) && (c <=? 102)) then st 308 else st 0 else st 308).
Definition st_case_308 (relaxed : bool) (c : Z) : target :=
  switch c
    [(58, st 255); (93, st 236)]
    (if (c <? 65) then
       if ((48 <=? c) && (c <=? 57)) then st 309 else st 0
     else if (70 <? c) then if ((97 <=? c) && (c <=? 102)) then st 309 else st 0 else st 309).
Definition st_case_309 (relaxed : bool) (c : Z) : target :=
  switch c
    [(58, st 255); (93, st 236)]
    (if (c <? 65) then
       if ((48 <=? c) && (c <=? 57)) then st 310 else st 0
     else if (70 <? c) then if ((97 <=? c) && (c <=? 102)) then st 310 else st 0 else st 310).
Definition st_case_310 (relaxed : bool) (c : Z) : target :=
  switch c
    [(58, st 255); (93, st 236)]
    (st 0).
Definition st_case_311 (relaxed : bool) (c : Z) : target :=
  switch c
    [(46, st 230); (58, st 255); (93, st 236)]
    (if (c <? 65) then
       if ((48 <=? c) && (c <=? 57)) then st 312 else st 0
     else if (70 <? c) then if ((97 <=? c) && (c <=? 102)) then st 308 else st 0 else st 308).
Definition st_case_312 (relaxed : bool) (c : Z) : target :=
  switch c
    [(46, st 230); (58, st 255); (93, st 236)]
    (if (c <? 65) then
       if ((48 <=? c) && (c <=? 57)) then st 313 else st 0
     else if (70 <? c) then if ((97 <=? c) && (c <=? 102)) then st 309 else st 0 else st 309).
Definition st_case_313 (relaxed : bool) (c : Z) : target :=
  switch c
    [(46, st 230); (58, st 255); (93, st 236)]
    (if (c <? 65) then
       if ((48 <=? c) && (c <=? 57)) then st 310 else st 0
     else if (70 <? c) then if ((97 <=? c) && (c <=? 102)) then st 310 else st 0 else st 310).
Definition st_case_314 (relaxed : bool) (c : Z) : target :=
  switch c
    [(46, st 230); (48, st 315); (53, st 316); (58, st 255); (93, st 236)]
    (if (c <? 65) then
       if ((49 <=? c) && (c <=? 57)) then st 308 else st 0
     else if (70 <? c) then if ((97 <=? c) && (c <=? 102)) then st 308 else st 0 else st 308).
Definition st_case_315 (relaxed : bool) (c : Z) : target :=
  switch c
    [(58, st 255); (93, st 236)]
    (if (c <? 65) then
       if ((48 <=? c) && (c <=? 57)) then st 313 else st 0
     else if (70 <? c) then if ((97 <=? c) && (c <=? 102)) then st 309 else st 0 else st 309).
Definition st_case_316 (relaxed : bool) (c : Z) : target :=
  switch c
    [(48, st 313); (58, st 255); (93, st 236)]
    (if (c <? 65) then
       if ((49 <=? c) && (c <=? 57)) then st 309 else st 0
     else if (70 <? c) then if ((97 <=? c) && (c <=? 102)) then st 309 else st 0 else st 309).
Definition st_case_317 (relaxed : bool) (c : Z) : target :=
  switch c
    [(58, st 255); (93, st 236)]
    (if (c <? 65) then
       if ((48 <=? c) && (c <=? 57)) then st 308 else st 0
     else if (70 <? c) then if ((97 <=? c) && (c <=? 102)) then st 308 else st 0 else st 308).
Definition st_case_318 (relaxed : bool) (c : Z) : target :=
  switch c
    [(46, st 230); (58, st 306); (93, st 236)]
    (if (c <? 65) then
       if ((48 <=? c) && (c <=? 57)) then st 319 else st 0
     else if (70 <? c) then if ((97 <=? c) && (c <=? 102)) then st 303 else st 0 else st 303).
Definition st_case_319 (relaxed : bool) (c : Z) : target :=
  switch c
    [(46, st 230); (58, st 306); (93, st 236)]
    (if (c <? 65) then
       if ((48 <=? c) && (c <=? 57)) then st 320 else st 0
     else if (70 <? c) then if ((97 <=? c) && (c <=? 102)) then st 304 else st 0 else st 304).
Definition st_case_320 (relaxed : bool) (c : Z) : target :=
  switch c
    [(46, st 230); (58, st 306); (93, st 236)]
    (if (c <? 65) then
       if ((48 <=? c) && (c <=? 57)) then st 305 else st 0
     else if (70 <? c) then if ((97 <=? c) && (c <=? 102)) then st 305 else st 0 else st 305).
Definition st_case_321 (relaxed : bool) (c : Z) : target :=
  switch c
    [(46, st 230); (48, st 322); (53, st 323); (58, st 306); (93, st 236)]
    (if (c <? 65) then
       if ((49 <=? c) && (c <=? 57)) then st 303 else st 0
     else if (70 <? c) then if ((97 <=? c) && (c <=? 102)) then st 303 else st 0 else st 303).
Definition st_case_322 (relaxed : bool) (c : Z) : target :=
  switch c
    [(58, st 306); (93, st 236)]
    (if (c <? 65) then
       if ((48 <=? c) && (c <=? 57)) then st 320 else st 0
     else if (70 <? c) then if ((97 <=? c) && (c <=? 102)) then st 304 else st 0 else st 304).
Definition st_case_323 (relaxed : bool) (c : Z) : target :=
  switch c
    [(48, st 320); (58, st 306); (93, st 236)]
    (if (c <? 65) then
       if ((49 <=? c) && (c <=? 57)) then st 304 else st 0
     else if (70 <? c) then if ((97 <=? c) && (c <=? 102)) then st 304 else st 0 else st 304).
Definition st_case_324 (relaxed : bool) (c : Z) : target :=
  switch c
    [(58, st 306); (93, st 236)]
    (if (c <? 65) then
       if ((48 <=? c) && (c <=? 57)) then st 303 else st 0
     else if (70 <? c) then if ((97 <=? c) && (c <=? 102)) then st 303 else st 0 else st 303).
Definition st_case_325 (relaxed : bool) (c : Z) : target :=
  switch c
    [(49, st 318); (50, st 321)]
    (if (c <? 48) then
       if ((2 <=? c) && (c <=? 3)) then st 223 else st 0
     else if (57 <? c) then
       if (70 <? c) then
         if ((97 <=? c) && (c <=? 102)) then st 324 else st 0
       else if (65 <=? c) then st 324 else st 0
     else st 302).
Definition st_case_326 (relaxed : bool) (c : Z) : target :=
  switch c
    [(49, st 331); (50, st 334)]
    (if (c <? 48) then
       if ((2 <=? c) && (c <=? 3)) then st 223 else st 0
     else if (57 <? c) then
       if (70 <? c) then
         if ((97 <=? c) && (c <=? 102)) then st 337 else st 0
       else if (65 <=? c) then st 337 else st 0
     else st 327).
Definition st_case_327 (relaxed : bool) (c : Z) : target :=
  switch c
    [(46, st 230); (58, st 306)]
    (if (c <? 65) then
       if ((48 <=? c) && (c <=? 57)) then st 328 else st 0
     else if (70 <? c) then if ((97 <=? c) && (c <=? 102)) then st 328 else st 0 else st 328).
Definition st_case_328 (relaxed : bool) (c : Z) : target :=
  if (c =? 58) then
    st 306
  else if (c <? 65) then
    if ((48 <=? c) && (c <=? 57)) then st 329 else st 0
  else if (70 <? c) then if ((97 <=? c) && (c <=? 102)) then st 329 else st 0 else st 329.
Definition st_case_329 (relaxed : bool) (c : Z) : target :=
  if (c =? 58) then
    st 306
  else if (c <? 65) then
    if ((48 <=? c) && (c <=? 57)) then st 330 else st 0
  else if (70 <? c) then if ((97 <=? c) && (c <=? 102)) then st 330 else st 0 else st 330.
Definition st_case_330 (relaxed : bool) (c : Z) : target :=
  if (c =? 58) then st 306 else st 0.
Definition st_case_331 (relaxed : bool) (c : Z) : target :=
  switch c
    [(46, st 230); (58, st 306)]
    (if (c <? 65) then
       if ((48 <=? c) && (c <=? 57)) then st 332 else st 0
     else if (70 <? c) then if ((97 <=? c) && (c <=? 102)) then st 328 else st 0 else st 328).
Definition st_case_332 (relaxed : bool) (c : Z) : target :=
  switch c
    [(46, st 230); (58, st 306)]
    (if (c <? 65) then
       if ((48 <=? c) && (c <=? 57)) then st 333 else st 0
     else if (70 <? c) then if ((97 <=? c) && (c <=? 102)) then st 329 else st 0 else st 329).
Definition st_case_333 (relaxed : bool) (c : Z) : target :=
  switch c
    [(46, st 230); (58, st 306)]
    (if (c <? 65) then
       if ((48 <=? c) && (c <=? 57)) then st 330 else st 0
     else if (70 <? c) then if ((97 <=? c) && (c <=? 102)) then st 330 else st 0 else st 330).
Definition st_case_334 (relaxed : bool) (c : Z) : target :=
  switch c
    [(46, st 230); (48, st 335); (53, st 336); (58, st 306)]
    (if (c <? 65) then
       if ((49 <=? c) && (c <=? 57)) then st 328 else st 0
     else if (70 <? c) then if ((97 <=? c) && (c <=? 102)) then st 328 else st 0 else st 328).
Definition st_case_335 (relaxed : bool) (c : Z) : target :=
  if (c =? 58) then
    st 306
  else if (c <? 65) then
    if ((48 <=? c) && (c <=? 57)) then st 333 else st 0
  else if (70 <? c) then if ((97 <=? c) && (c <=? 102)) then st 329 else st 0 else st 329.
Definition st_case_336 (relaxed : bool) (c : Z) : target :=
  switch c
    [(48, st 333); (58, st 306)]
    (if (c <? 65) then
       if ((49 <=? c) && (c <=? 57)) then st 329 else st 0
     else if (70 <? c) then if ((97 <=? c) && (c <=? 102)) then st 329 else st 0 else st 329).
Definition st_case_337 (relaxed : bool) (c : Z) : target :=
  if (c =? 58) then
    st 306
  else if (c <? 65) then
    if ((48 <=? c) && (c <=? 57)) then st 328 else st 0
  else if (70 <? c) then if ((97 <=? c) && (c <=? 102)) then st 328 else st 0 else st 328.
Definition st_case_338 (relaxed : bool) (c : Z) : target :=
  if (c <? 48) then
    if ((2 <=? c) && (c <=? 3)) then st 223 else st 0
  else if (57 <? c) then
    if (70 <? c) then
      if ((97 <=? c) && (c <=? 102)) then st 224 else st 0
    else if (65 <=? c) then st 224 else st 0
  else st 224.
Definition st_case_339 (relaxed : bool) (c : Z) : target :=
  if ((2 <=? c) && (c <=? 3)) then st 223 else st 0.
Definition st_case_340 (relaxed : bool) (c : Z) : target :=
  if (c =? 3) then st 223 else st 0.
Definition st_case_341 (relaxed : bool) (c : Z) : target :=
  if (c =? 4) then st 223 else st 0.
Definition st_case_342 (relaxed : bool) (c : Z) : target :=
  if (c =? 58) then st 343 else st 0.
Definition st_case_343 (relaxed : bool) (c : Z) : target :=
  switch c
    [(49, st 318); (50, st 321); (93, st 236)]
    (if (c <? 48) then
       if ((2 <=? c) && (c <=? 5)) then st 223 else st 0
     else if (57 <? c) then
       if (70 <? c) then
         if ((97 <=? c) && (c <=? 102)) then st 324 else st 0
       else if (65 <=? c) then st 324 else st 0
     else st 302).
Definition st_case_344 (relaxed : bool) (c : Z) : target :=
  if (c <? 65) then
    if ((48 <=? c) && (c <=? 57)) then st 345 else st 0
  else if (70 <? c) then if ((97 <=? c) && (c <=? 102)) then st 345 else st 0 else st 345.
Definition st_case_345 (relaxed : bool) (c : Z) : target :=
  if (c =? 46) then
    st 346
  else if (c <? 65) then
    if ((48 <=? c) && (c <=? 57)) then st 345 else st 0
  else if (70 <? c) then if ((97 <=? c) && (c <=? 102)) then st 345 else st 0 else st 345.
Definition st_case_346 (relaxed : bool) (c : Z) : target :=
  switch c
    [(33, st 347); (36, st 347); (61, st 347); (94, if relaxed then st 347 else st 0);
     (95, st 347); (123, if relaxed then st 347 else st 0);
     (125, if relaxed then st 347 else st 0); (126, st 347)]
    (if (c <? 48) then
       if ((38 <=? c) && (c <=? 46)) then st 347 else st 0
     else if (59 <? c) then
       if (90 <? c) then
         if ((97 <=? c) && (c <=? 122)) then st 347 else st 0
       else if (65 <=? c) then st 347 else st 0
     else st 347).
Definition st_case_347 (relaxed : bool) (c : Z) : target :=
  switch c
    [(33, st 347); (36, st 347); (61, st 347); (93, st 236);
     (94, if relaxed then st 347 else st 0); (95, st 347);
     (123, if relaxed then st 347 else st 0); (125, if relaxed then st 347 else st 0);
     (126, st 347)]
    (if (c <? 48) then
       if ((38 <=? c) && (c <=? 46)) then st 347 else st 0
     else if (59 <? c) then
       if (90 <? c) then
         if ((97 <=? c) && (c <=? 122)) then st 347 else st 0
       else if (65 <=? c) then st 347 else st 0
     else st 347).
Definition st_case_348 (relaxed : bool) (c : Z) : target :=
  switch c
    [(33, st 14); (58, ctr35); (124, st 14); (126, st 14)]
    (if (c <? 42) then
       if (c <? 10) then
         if ((1 <=? c) && (c <=? 8)) then st 14 else st 0
       else if (31 <? c) then if ((35 <=? c) && (c <=? 39)) then st 14 else st 0 else st 14
     else if (43 <? c) then
       if (c <? 48) then
         if ((45 <=? c) && (c <=? 46)) then st 14 else st 0
       else if (57 <? c) then
         if (90 <? c) then
           if ((94 <=? c) && (c <=? 122)) then st 14 else st 0
         else if (65 <=? c) then st 14 else st 0
       else st 14
     else st 14).
Definition st_case_349 (relaxed : bool) (c : Z) : target :=
  st 0.

(** The [switch (cs)] that enters the machine; [None] for the error state and
    for the numbers of no state. *)
Definition st_case (cs : Z) (relaxed : bool) (c : Z) : option target :=
  match cs with
  | 1 => Some (st_case_1 relaxed c)
  | 2 => Some (st_case_2 relaxed c)
  | 3 => Some (st_case_3 relaxed c)
  | 4 => Some (st_case_4 relaxed c)
  | 5 => Some (st_case_5 relaxed c)
  | 6 => Some (st_case_6 relaxed c)
  | 7 => Some (st_case_7 relaxed c)
  | 8 => Some (st_case_8 relaxed c)
  | 9 => Some (st_case_9 relaxed c)
  | 10 => Some (st_case_10 relaxed c)
  | 11 => Some (st_case_11 relaxed c)
  | 12 => Some (st_case_12 relaxed c)
  | 13 => Some (st_case_13 relaxed c)
  | 14 => Some (st_case_14 relaxed c)
  | 15 => Some (st_case_15 relaxed c)
  | 16 => Some (st_case_16 relaxed c)
  | 17 => Some (st_case_17 relaxed c)
  | 18 => Some (st_case_18 relaxed c)
  | 19 => Some (st_case_19 relaxed c)
  | 20 => Some (st_case_20 relaxed c)
  | 21 => Some (st_case_21 relaxed c)
  | 22 => Some (st_case_22 relaxed c)
  | 23 => Some (st_case_23 relaxed c)
  | 24 => Some (st_case_24 relaxed c)
  | 25 => Some (st_case_25 relaxed c)
  | 26 => Some (st_case_26 relaxed c)
  | 27 => Some (st_case_27 relaxed c)
  | 28 => Some (st_case_28 relaxed c)
  | 29 => Some (st_case_29 relaxed c)
  | 30 => Some (st_case_30 relaxed c)
  | 31 => Some (st_case_31 relaxed c)
  | 32 => Some (st_case_32 relaxed c)
  | 33 => Some (st_case_33 relaxed c)
  | 34 => Some (st_case_34 relaxed c)
  | 35 => Some (st_case_35 relaxed c)
  | 36 => Some (st_case_36 relaxed c)
  | 37 => Some (st_case_37 relaxed c)
  | 38 => Some (st_case_38 relaxed c)
  | 39 => Some (st_case_39 relaxed c)
  | 40 => Some (st_case_40 relaxed c)
  | 41 => Some (st_case_41 relaxed c)
  | 42 => Some (st_case_42 relaxed c)
  | 43 => Some (st_case_43 relaxed c)
  | 44 => Some (st_case_44 relaxed c)
  | 45 => Some (st_case_45 relaxed c)
  | 46 => Some (st_case_46 relaxed c)
  | 47 => Some (st_case_47 relaxed c)
  | 48 => Some (st_case_48 relaxed c)
  | 49 => Some (st_case_49 relaxed c)
  | 50 => Some (st_case_50 relaxed c)
  | 51 => Some (st_case_51 relaxed c)
  | 52 => Some (st_case_52 relaxed c)
  | 53 => Some (st_case_53 relaxed c)
  | 54 => Some (st_case_54 relaxed c)
  | 55 => Some (st_case_55 relaxed c)
  | 56 => Some (st_case_56 relaxed c)
  | 57 => Some (st_case_57 relaxed c)
  | 58 => Some (st_case_58 relaxed c)
  | 59 => Some (st_case_59 relaxed c)
  | 60 => Some (st_case_60 relaxed c)
  | 61 => Some (st_case_61 relaxed c)
  | 62 => Some (st_case_62 relaxed c)
  | 63 => Some (st_case_63 relaxed c)
  | 64 => Some (st_case_64 relaxed c)
  | 65 => Some (st_case_65 relaxed c)
  | 66 => Some (st_case_66 relaxed c)
  | 67 => Some (st_case_67 relaxed c)
  | 68 => Some (st_case_68 relaxed c)
  | 69 => Some (st_case_69 relaxed c)
  | 70 => Some (st_case_70 relaxed c)
  | 71 => Some (st_case_71 relaxed c)
  | 72 => Some (st_case_72 relaxed c)
  | 73 => Some (st_case_73 relaxed c)
  | 74 => Some (st_case_74 relaxed c)
  | 75 => Some (st_case_75 relaxed c)
  | 76 => Some (st_case_76 relaxed c)
  | 77 => Some (st_case_77 relaxed c)
  | 78 => Some (st_case_78 relaxed c)
  | 79 => Some (st_case_79 relaxed c)
  | 80 => Some (st_case_80 relaxed c)
  | 81 => Some (st_case_81 relaxed c)
  | 82 => Some (st_case_82 relaxed c)
  | 83 => Some (st_case_83 relaxed c)
  | 84 => Some (st_case_84 relaxed c)
  | 85 => Some (st_case_85 relaxed c)
  | 86 => Some (st_case_86 relaxed c)
  | 87 => Some (st_case_87 relaxed c)
  | 88 => Some (st_case_88 relaxed c)
  | 89 => Some (st_case_89 relaxed c)
  | 90 => Some (st_case_90 relaxed c)
  | 91 => Some (st_case_91 relaxed c)
  | 92 => Some (st_case_92 relaxed c)
  | 93 => Some (st_case_93 relaxed c)
  | 94 => Some (st_case_94 relaxed c)
  | 95 => Some (st_case_95 relaxed c)
  | 96 => Some (st_case_96 relaxed c)
  | 97 => Some (st_case_97 relaxed c)
  | 98 => Some (st_case_98 relaxed c)
  | 99 => Some (st_case_99 relaxed c)
  | 100 => Some (st_case_100 relaxed c)
  | 101 => Some (st_case_101 relaxed c)
  | 102 => Some (st_case_102 relaxed c)
  | 103 => Some (st_case_103 relaxed c)
  | 104 => Some (st_case_104 relaxed c)
  | 105 => Some (st_case_105 relaxed c)
  | 106 => Some (st_case_106 relaxed c)
  | 107 => Some (st_case_107 relaxed c)
  | 108 => Some (st_case_108 relaxed c)
  | 109 => Some (st_case_109 relaxed c)
  | 110 => Some (st_case_110 relaxed c)
  | 111 => Some (st_case_111 relaxed c)
  | 112 => Some (st_case_112 relaxed c)
  | 113 => Some (st_case_113 relaxed c)
  | 114 => Some (st_case_114 relaxed c)
  | 115 => Some (st_case_115 relaxed c)
  | 116 => Some (st_case_116 relaxed c)
  | 117 => Some (st_case_117 relaxed c)
  | 118 => Some (st_case_118 relaxed c)
  | 119 => Some (st_case_119 relaxed c)
  | 120 => Some (st_case_120 relaxed c)
  | 121 => Some (st_case_121 relaxed c)
  | 122 => Some (st_case_122 relaxed c)
  | 123 => Some (st_case_123 relaxed c)
  | 124 => Some (st_case_124 relaxed c)
  | 125 => Some (st_case_125 relaxed c)
  | 126 => Some (st_case_126 relaxed c)
  | 127 => Some (st_case_127 relaxed c)
  | 128 => Some (st_case_128 relaxed c)
  | 129 => Some (st_case_129 relaxed c)
  | 130 => Some (st_case_130 relaxed c)
  | 131 => Some (st_case_131 relaxed c)
  | 132 => Some (st_case_132 relaxed c)
  | 133 => Some (st_case_133 relaxed c)
  | 134 => Some (st_case_134 relaxed c)
  | 135 => Some (st_case_135 relaxed c)
  | 136 => Some (st_case_136 relaxed c)
  | 137 => Some (st_case_137 relaxed c)
  | 138 => Some (st_case_138 relaxed c)
  | 139 => Some (st_case_139 relaxed c)
  | 140 => Some (st_case_140 relaxed c)
  | 141 => Some (st_case_141 relaxed c)
  | 142 => Some (st_case_142 relaxed c)
  | 143 => Some (st_case_143 relaxed c)
  | 144 => Some (st_case_144 relaxed c)
  | 145 => Some (st_case_145 relaxed c)
  | 146 => Some (st_case_146 relaxed c)
  | 147 => Some (st_case_147 relaxed c)
  | 148 => Some (st_case_148 relaxed c)
  | 149 => Some (st_case_149 relaxed c)
  | 150 => Some (st_case_150 relaxed c)
  | 151 => Some (st_case_151 relaxed c)
  | 152 => Some (st_case_152 relaxed c)
  | 153 => Some (st_case_153 relaxed c)
  | 154 => Some (st_case_154 relaxed c)
  | 155 => Some (st_case_155 relaxed c)
  | 156 => Some (st_case_156 relaxed c)
  | 157 => Some (st_case_157 relaxed c)
  | 158 => Some (st_case_158 relaxed c)
  | 159 => Some (st_case_159 relaxed c)
  | 160 => Some (st_case_160 relaxed c)
  | 161 => Some (st_case_161 relaxed c)
  | 162 => Some (st_case_162 relaxed c)
  | 163 => Some (st_case_163 relaxed c)
  | 164 => Some (st_case_164 relaxed c)
  | 165 => Some (st_case_165 relaxed c)
  | 166 => Some (st_case_166 relaxed c)
  | 167 => Some (st_case_167 relaxed c)
  | 168 => Some (st_case_168 relaxed c)
  | 169 => Some (st_case_169 relaxed c)
  | 170 => Some (st_case_170 relaxed c)
  | 171 => Some (st_case_171 relaxed c)
  | 172 => Some (st_case_172 relaxed c)
  | 173 => Some (st_case_173 relaxed c)
  | 174 => Some (st_case_174 relaxed c)
  | 175 => Some (st_case_175 relaxed c)
  | 176 => Some (st_case_176 relaxed c)
  | 177 => Some (st_case_177 relaxed c)
  | 178 => Some (st_case_178 relaxed c)
  | 179 => Some (st_case_179 relaxed c)
  | 180 => Some (st_case_180 relaxed c)
  | 181 => Some (st_case_181 relaxed c)
  | 182 => Some (st_case_182 relaxed c)
  | 183 => Some (st_case_183 relaxed c)
  | 184 => Some (st_case_184 relaxed c)
  | 185 => Some (st_case_185 relaxed c)
  | 186 => Some (st_case_186 relaxed c)
  | 187 => Some (st_case_187 relaxed c)
  | 188 => Some (st_case_188 relaxed c)
  | 189 => Some (st_case_189 relaxed c)
  | 190 => Some (st_case_190 relaxed c)
  | 191 => Some (st_case_191 relaxed c)
  | 192 => Some (st_case_192 relaxed c)
  | 193 => Some (st_case_193 relaxed c)
  | 194 => Some (st_case_194 relaxed c)
  | 195 => Some (st_case_195 relaxed c)
  | 196 => Some (st_case_196 relaxed c)
  | 197 => Some (st_case_197 relaxed c)
  | 198 => Some (st_case_198 relaxed c)
  | 199 => Some (st_case_199 relaxed c)
  | 200 => Some (st_case_200 relaxed c)
  | 201 => Some (st_case_201 relaxed c)
  | 202 => Some (st_case_202 relaxed c)
  | 203 => Some (st_case_203 relaxed c)
  | 204 => Some (st_case_204 relaxed c)
  | 205 => Some (st_case_205 relaxed c)
  | 206 => Some (st_case_206 relaxed c)
  | 207 => Some (st_case_207 relaxed c)
  | 208 => Some (st_case_208 relaxed c)
  | 209 => Some (st_case_209 relaxed c)
  | 210 => Some (st_case_210 relaxed c)
  | 211 => Some (st_case_211 relaxed c)
  | 212 => Some (st_case_212 relaxed c)
  | 213 => Some (st_case_213 relaxed c)
  | 214 => Some (st_case_214 relaxed c)
  | 215 => Some (st_case_215 relaxed c)
  | 216 => Some (st_case_216 relaxed c)
  | 217 => Some (st_case_217 relaxed c)
  | 218 => Some (st_case_218 relaxed c)
  | 219 => Some (st_case_219 relaxed c)
  | 220 => Some (st_case_220 relaxed c)
  | 221 => Some (st_case_221 relaxed c)
  | 222 => Some (st_case_222 relaxed c)
  | 223 => Some (st_case_223 relaxed c)
  | 224 => Some (st_case_224 relaxed c)
  | 225 => Some (st_case_225 relaxed c)
  | 226 => Some (st_case_226 relaxed c)
  | 227 => Some (st_case_227 relaxed c)
  | 228 => Some (st_case_228 relaxed c)
  | 229 => Some (st_case_229 relaxed c)
  | 230 => Some (st_case_230 relaxed c)
  | 231 => Some (st_case_231 relaxed c)
  | 232 => Some (st_case_232 relaxed c)
  | 233 => Some (st_case_233 relaxed c)
  | 234 => Some (st_case_234 relaxed c)
  | 235 => Some (st_case_235 relaxed c)
  | 236 => Some (st_case_236 relaxed c)
  | 237 => Some (st_case_237 relaxed c)
  | 238 => Some (st_case_238 relaxed c)
  | 239 => Some (st_case_239 relaxed c)
  | 240 => Some (st_case_240 relaxed c)
  | 241 => Some (st_case_241 relaxed c)
  | 242 => Some (st_case_242 relaxed c)
  | 243 => Some (st_case_243 relaxed c)
  | 244 => Some (st_case_244 relaxed c)
  | 245 => Some (st_case_245 relaxed c)
  | 246 => Some (st_case_246 relaxed c)
  | 247 => Some (st_case_247 relaxed c)
  | 248 => Some (st_case_248 relaxed c)
  | 249 => Some (st_case_249 relaxed c)
  | 250 => Some (st_case_250 relaxed c)
  | 251 => Some (st_case_251 relaxed c)
  | 252 => Some (st_case_252 relaxed c)
  | 253 => Some (st_case_253 relaxed c)
  | 254 => Some (st_case_254 relaxed c)
  | 255 => Some (st_case_255 relaxed c)
  | 256 => Some (st_case_256 relaxed c)
  | 257 => Some (st_case_257 relaxed c)
  | 258 => Some (st_case_258 relaxed c)
  | 259 => Some (st_case_259 relaxed c)
  | 260 => Some (st_case_260 relaxed c)
  | 261 => Some (st_case_261 relaxed c)
  | 262 => Some (st_case_262 relaxed c)
  | 263 => Some (st_case_263 relaxed c)
  | 264 => Some (st_case_264 relaxed c)
  | 265 => Some (st_case_265 relaxed c)
  | 266 => Some (st_case_266 relaxed c)
  | 267 => Some (st_case_267 relaxed c)
  | 268 => Some (st_case_268 relaxed c)
  | 269 => Some (st_case_269 relaxed c)
  | 270 => Some (st_case_270 relaxed c)
  | 271 => Some (st_case_271 relaxed c)
  | 272 => Some (st_case_272 relaxed c)
  | 273 => Some (st_case_273 relaxed c)
  | 274 => Some (st_case_274 relaxed c)
  | 275 => Some (st_case_275 relaxed c)
  | 276 => Some (st_case_276 relaxed c)
  | 277 => Some (st_case_277 relaxed c)
  | 278 => Some (st_case_278 relaxed c)
  | 279 => Some (st_case_279 relaxed c)
  | 280 => Some (st_case_280 relaxed c)
  | 281 => Some (st_case_281 relaxed c)
  | 282 => Some (st_case_282 relaxed c)
  | 283 => Some (st_case_283 relaxed c)
  | 284 => Some (st_case_284 relaxed c)
  | 285 => Some (st_case_285 relaxed c)
  | 286 => Some (st_case_286 relaxed c)
  | 287 => Some (st_case_287 relaxed c)
  | 288 => Some (st_case_288 relaxed c)
  | 289 => Some (st_case_289 relaxed c)
  | 290 => Some (st_case_290 relaxed c)
  | 291 => Some (st_case_291 relaxed c)
  | 292 => Some (st_case_292 relaxed c)
  | 293 => Some (st_case_293 relaxed c)
  | 294 => Some (st_case_294 relaxed c)
  | 295 => Some (st_case_295 relaxed c)
  | 296 => Some (st_case_296 relaxed c)
  | 297 => Some (st_case_297 relaxed c)
  | 298 => Some (st_case_298 relaxed c)
  | 299 => Some (st_case_299 relaxed c)
  | 300 => Some (st_case_300 relaxed c)
  | 301 => Some (st_case_301 relaxed c)
  | 302 => Some (st_case_302 relaxed c)
  | 303 => Some (st_case_303 relaxed c)
  | 304 => Some (st_case_304 relaxed c)
  | 305 => Some (st_case_305 relaxed c)
  | 306 => Some (st_case_306 relaxed c)
  | 307 => Some (st_case_307 relaxed c)
  | 308 => Some (st_case_308 relaxed c)
  | 309 => Some (st_case_309 relaxed c)
  | 310 => Some (st_case_310 relaxed c)
  | 311 => Some (st_case_311 relaxed c)
  | 312 => Some (st_case_312 relaxed c)
  | 313 => Some (st_case_313 relaxed c)
  | 314 => Some (st_case_314 relaxed c)
  | 315 => Some (st_case_315 relaxed c)
  | 316 => Some (st_case_316 relaxed c)
  | 317 => Some (st_case_317 relaxed c)
  | 318 => Some (st_case_318 relaxed c)
  | 319 => Some (st_case_319 relaxed c)
  | 320 => Some (st_case_320 relaxed c)
  | 321 => Some (st_case_321 relaxed c)
  | 322 => Some (st_case_322 relaxed c)
  | 323 => Some (st_case_323 relaxed c)
  | 324 => Some (st_case_324 relaxed c)
  | 325 => Some (st_case_325 relaxed c)
  | 326 => Some (st_case_326 relaxed c)
  | 327 => Some (st_case_327 relaxed c)
  | 328 => Some (st_case_328 relaxed c)
  | 329 => Some (st_case_329 relaxed c)
  | 330 => Some (st_case_330 relaxed c)
  | 331 => Some (st_case_331 relaxed c)
  | 332 => Some (st_case_332 relaxed c)
  | 333 => Some (st_case_333 relaxed c)
  | 334 => Some (st_case_334 relaxed c)
  | 335 => Some (st_case_335 relaxed c)
  | 336 => Some (st_case_336 relaxed c)
  | 337 => Some (st_case_337 relaxed c)
  | 338 => Some (st_case_338 relaxed c)
  | 339 => Some (st_case_339 relaxed c)
  | 340 => Some (st_case_340 relaxed c)
  | 341 => Some (st_case_341 relaxed c)
  | 342 => Some (st_case_342 relaxed c)
  | 343 => Some (st_case_343 relaxed c)
  | 344 => Some (st_case_344 relaxed c)
  | 345 => Some (st_case_345 relaxed c)
  | 346 => Some (st_case_346 relaxed c)
  | 347 => Some (st_case_347 relaxed c)
  | 348 => Some (st_case_348 relaxed c)
  | 349 => Some (st_case_349 relaxed c)
  | _ => None
  end.
