(* ===== verification/Http11Parser.v ===== *)
(** Running the request machine: [http_parser_init], [http_parser_execute] and
    the tests of packages/http11/http11_parser.rl.cpp.

    A pointer into the buffer is its offset.  The callbacks the user installs
    are a function [on] from a call, with its pointers and lengths, to a change
    of the user's data, which may throw. *)

From S2P Require Import Prelude Http Ragel Http11Machine.

#[local] Open Scope Z_scope.

Record http_parser := mkHP {
  hp_cs : Z;
  hp_body_start : Z;
  hp_content_len : Z;
  hp_nread : Z;
  hp_mark : Z;
  hp_field_start : Z;
  hp_field_len : Z;
  hp_query_start : Z;
  hp_xml_sent : Z;
  hp_json_sent : Z;
  hp_uri_relaxed : Z;
}.

Definition http_parser_start : Z := 1.
Definition http_parser_first_final : Z := 348.
Definition http_parser_error : Z := 0.

Definition with_cs (v : Z) (s : http_parser) : http_parser :=
  mkHP v (hp_body_start s) (hp_content_len s) (hp_nread s) (hp_mark s) (hp_field_start s)
    (hp_field_len s) (hp_query_start s) (hp_xml_sent s) (hp_json_sent s) (hp_uri_relaxed s).
Definition with_body (start len : Z) (s : http_parser) : http_parser :=
  mkHP (hp_cs s) start len (hp_nread s) (hp_mark s) (hp_field_start s)
    (hp_field_len s) (hp_query_start s) (hp_xml_sent s) (hp_json_sent s) (hp_uri_relaxed s).
Definition with_nread (v : Z) (s : http_parser) : http_parser :=
  mkHP (hp_cs s) (hp_body_start s) (hp_content_len s) v (hp_mark s) (hp_field_start s)
    (hp_field_len s) (hp_query_start s) (hp_xml_sent s) (hp_json_sent s) (hp_uri_relaxed s).
Definition with_marks (mark field_start field_len query_start : Z) (s : http_parser)
    : http_parser :=
  mkHP (hp_cs s) (hp_body_start s) (hp_content_len s) (hp_nread s) mark field_start
    field_len query_start (hp_xml_sent s) (hp_json_sent s) (hp_uri_relaxed s).
Definition with_sent (xml json : Z) (s : http_parser) : http_parser :=
  mkHP (hp_cs s) (hp_body_start s) (hp_content_len s) (hp_nread s) (hp_mark s)
    (hp_field_start s) (hp_field_len s) (hp_query_start s) xml json (hp_uri_relaxed s).

(** [http_parser_init] does not set [query_start] and [uri_relaxed]: they keep
    what the memory [s] held. *)
Definition http_parser_init (s : http_parser) : http_parser :=
  mkHP http_parser_start 0 0 0 0 0 0 (hp_query_start s) 0 0 (hp_uri_relaxed s).

Definition http_parser_has_error (s : http_parser) : bool := hp_cs s =? http_parser_error.
Definition http_parser_is_finished (s : http_parser) : bool :=
  http_parser_first_final <=? hp_cs s.
Definition http_parser_finish (s : http_parser) : Z :=
  if http_parser_has_error s then -1
  else if http_parser_is_finished s then 1 else 0.

(** A call of a callback: [at] is an offset in the buffer. *)
Inductive call :=
| call_http_field (field flen value vlen : Z)
| call_request_method (at_ len : Z)
| call_request_uri (at_ len : Z)
| call_fragment (at_ len : Z)
| call_request_path (at_ len : Z)
| call_query_string (at_ len : Z)
| call_http_version (at_ len : Z)
| call_header_done (at_ len : Z).

(** [LEN(AT, FPC)]: the pointer difference becomes a [size_t]. *)
Definition LEN (at_ p : Z) : Z := u64 (p - at_).

Section exec.
Context {D : Type} (on : call → D → outcome D).

(** One action at the character [p]; [pe] is the end of the buffer. *)
Definition act (a : action) (p pe : Z) (s : http_parser) (d : D) : outcome (http_parser * D) :=
  let calls c := let! d := on c d in Ret (s, d) in
  match a with
  | mark | start_value =>
      Ret (with_marks p (hp_field_start s) (hp_field_len s) (hp_query_start s) s, d)
  | start_field => Ret (with_marks (hp_mark s) p (hp_field_len s) (hp_query_start s) s, d)
  | write_field =>
      Ret (with_marks (hp_mark s) (hp_field_start s) (LEN (hp_field_start s) p)
             (hp_query_start s) s, d)
  | start_query => Ret (with_marks (hp_mark s) (hp_field_start s) (hp_field_len s) p s, d)
  | write_value =>
      calls (call_http_field (hp_field_start s) (hp_field_len s) (hp_mark s) (LEN (hp_mark s) p))
  | request_method => calls (call_request_method (hp_mark s) (LEN (hp_mark s) p))
  | request_uri => calls (call_request_uri (hp_mark s) (LEN (hp_mark s) p))
  | fragment => calls (call_fragment (hp_mark s) (LEN (hp_mark s) p))
  | query_string => calls (call_query_string (hp_query_start s) (LEN (hp_query_start s) p))
  | http_version => calls (call_http_version (hp_mark s) (LEN (hp_mark s) p))
  | request_path => calls (call_request_path (hp_mark s) (LEN (hp_mark s) p))
  | done =>
      if negb (hp_xml_sent s =? 0) || negb (hp_json_sent s =? 0)
      then Ret (with_body (hp_mark s) (i32 (u64 (p - hp_mark s + 1))) s, d)
      else
        let! d := on (call_header_done (p + 1) (u64 (pe - p - 1))) d in
        Ret (with_body (p + 1) (hp_content_len s) s, d)
  | xml => Ret (with_sent 1 (hp_json_sent s) s, d)
  | json => Ret (with_sent (hp_xml_sent s) 1 s, d)
  end.

Fixpoint acts (l : list action) (p pe : Z) (s : http_parser) (d : D)
    : outcome (http_parser * D) :=
  match l with
  | [] => Ret (s, d)
  | a :: l => let! (s, d) := act a p pe s d in acts l p pe s d
  end.

(** [fbreak] of the action [done] leaves the machine after the character. *)
Definition breaks (l : list action) : bool :=
  existsb (λ a, match a with done => true | _ => false end) l.

(** The machine in state [cs] at the character [p], with [rest] from there to
    [pe]: it stops at the end of the buffer, on an error (at the character
    that no transition takes), or after [done].  The result is [p] and [cs]. *)
Fixpoint run (rest : text) (p pe cs : Z) (s : http_parser) (d : D)
    : outcome (Z * Z * http_parser * D) :=
  match rest with
  | [] => Ret (p, cs, s, d)
  | c :: rest =>
      match st_case cs (negb (hp_uri_relaxed s =? 0)) (schar c) with
      | None => Ret (p, (if cs =? 0 then 0 else 1), s, d)
      | Some (l, n) =>
          if n =? 0 then Ret (p, 0, s, d)
          else
            let! (s, d) := acts l p pe s d in
            if breaks l then Ret (p + 1, n, s, d) else run rest (p + 1) pe n s d
      end
  end.

Definition assert_that (b : bool) : outcome unit := if b then Ret tt else Fault AssertFailed.

(** [http_parser_execute]: the number of bytes read.  The parser's own [cs] is
    stored unless it was in error before. *)
Definition http_parser_execute (buffer : text) (len off : Z) (s : http_parser) (d : D)
    : outcome (Z * http_parser * D) :=
  if len =? 0 then Ret (0, s, d)
  else
    let s := with_nread 0 (with_marks 0 0 0 (hp_query_start s) s) in
    let! _ := assert_that (off <=? len) in
    let! _ := assert_that (len - off =? i32 (i32 len - i32 off)) in
    let! (p, cs, s, d) :=
      run (drop (Z.to_nat off) (take (Z.to_nat len) buffer)) off len (hp_cs s) s d in
    let! _ := assert_that (p <=? len) in
    let s := if negb (http_parser_has_error s) then with_cs cs s else s in
    let s := with_nread (u64 (hp_nread s + (p - off))) s in
    let! _ := assert_that (hp_nread s <=? len) in
    let! _ := assert_that (hp_body_start s <=? len) in
    let! _ := assert_that (hp_mark s <? len) in
    let! _ := assert_that (hp_field_len s <=? len) in
    let! _ := assert_that (hp_field_start s <? len) in
    Ret (hp_nread s, s, d).

End exec.
