(* ===== verification/HttpClientMachine.v ===== *)
(** The state machine of the response parser:
    packages/http11/httpclient_parser.rl.cpp.

    As in Http11Machine, one definition per label of the code: [st_case_n] for
    the code that looks at the character [c] in state [n], [ctrn] for the block
    at [_ctrn]. *)

From S2P Require Import Prelude Ragel.

(** The actions of the grammar, in its order. *)
Inductive action :=
| mark
| start_field
| write_field
| start_value
| write_content_len
| write_connection_close
| write_value
| reason_phrase
| status_code
| http_version
| chunk_size
| trans_chunked
| done.

(** A [goto]: the actions of a transition and the state it enters. *)
Abbreviation target := (list action * Z)%type.
Definition st (n : Z) : target := ([], n).

(** ** Transitions with actions *)

Definition ctr2 : target := ([mark], 2).
Definition ctr3 : target := ([mark], 8).
Definition ctr5 : target := ([chunk_size; done], 120).
Definition ctr6 : target := ([chunk_size], 3).
Definition ctr7 : target := ([chunk_size], 4).
Definition ctr9 : target := ([done], 120).
Definition ctr11 : target := ([start_field], 5).
Definition ctr13 : target := ([write_field; start_value; write_value; done], 120).
Definition ctr14 : target := ([write_field; start_value; write_value], 3).
Definition ctr15 : target := ([write_field; start_value; write_value], 4).
Definition ctr16 : target := ([write_field; start_value], 6).
Definition ctr18 : target := ([start_value], 7).
Definition ctr20 : target := ([write_value; done], 120).
Definition ctr21 : target := ([write_value], 3).
Definition ctr22 : target := ([write_value], 4).
Definition ctr31 : target := ([http_version], 16).
Definition ctr33 : target := ([mark], 17).
Definition ctr35 : target := ([status_code], 18).
Definition ctr37 : target := ([mark], 19).
Definition ctr39 : target := ([reason_phrase], 20).
Definition ctr40 : target := ([reason_phrase], 24).
Definition ctr42 : target := ([start_field], 21).
Definition ctr43 : target := ([start_field], 25).
Definition ctr44 : target := ([start_field], 44).
Definition ctr46 : target := ([write_field], 22).
Definition ctr48 : target := ([start_value], 23).
Definition ctr49 : target := ([start_value], 22).
Definition ctr50 : target := ([start_value; write_value], 20).
Definition ctr51 : target := ([start_value; write_value], 24).
Definition ctr53 : target := ([write_value], 20).
Definition ctr54 : target := ([write_value], 24).
Definition ctr67 : target := ([write_field], 35).
Definition ctr69 : target := ([start_value], 35).
Definition ctr70 : target := ([start_value; write_value], 36).
Definition ctr71 : target := ([start_value; write_value], 95).
Definition ctr72 : target := ([start_value], 96).
Definition ctr75 : target := ([done], 122).
Definition ctr77 : target := ([start_field], 90).
Definition ctr85 : target := ([write_connection_close; done], 120).
Definition ctr86 : target := ([write_connection_close], 3).
Definition ctr87 : target := ([write_connection_close; start_field], 21).
Definition ctr88 : target := ([write_connection_close; start_field], 25).
Definition ctr89 : target := ([write_connection_close; start_field], 44).
Definition ctr107 : target := ([write_field], 61).
Definition ctr109 : target := ([start_value], 61).
Definition ctr110 : target := ([start_value; write_value], 62).
Definition ctr111 : target := ([start_value; write_value], 80).
Definition ctr112 : target := ([start_value], 81).
Definition ctr115 : target := ([done], 121).
Definition ctr117 : target := ([start_value; start_field], 73).
Definition ctr118 : target := ([start_value], 64).
Definition ctr126 : target := ([write_value; trans_chunked], 20).
Definition ctr127 : target := ([write_value], 71).
Definition ctr129 : target := ([trans_chunked], 20).
Definition ctr156 : target := ([write_value], 43).
Definition ctr157 : target := ([write_value], 88).
Definition ctr168 : target := ([write_field], 112).
Definition ctr170 : target := ([start_value], 112).
Definition ctr171 : target := ([start_value; write_value], 113).
Definition ctr172 : target := ([start_value; write_value], 118).
Definition ctr173 : target := ([start_value], 119).
Definition ctr176 : target := ([done], 123).
Definition ctr178 : target := ([start_value; start_field], 117).
Definition ctr179 : target := ([start_value], 115).
Definition ctr181 : target := ([write_content_len; write_value], 20).
Definition ctr182 : target := ([write_content_len; write_value], 24).

(** ** States *)

Definition st_case_1 (c : Z) : target :=
  if (c =? 72) then
    ctr3
  else if (c <? 65) then
    if ((48 <=? c) && (c <=? 57)) then ctr2 else st 0
  else if (70 <? c) then if ((97 <=? c) && (c <=? 102)) then ctr2 else st 0 else ctr2.
Definition st_case_2 (c : Z) : target :=
  switch c
    [(10, ctr5); (13, ctr6); (59, ctr7)]
    (if (c <? 65) then
       if ((48 <=? c) && (c <=? 57)) then st 2 else st 0
     else if (70 <? c) then if ((97 <=? c) && (c <=? 102)) then st 2 else st 0 else st 2).
Definition st_case_3 (c : Z) : target :=
  if (c =? 10) then ctr9 else st 0.
Definition st_case_4 (c : Z) : target :=
  switch c
    [(33, ctr11); (124, ctr11); (126, ctr11)]
    (if (c <? 45) then
       if (39 <? c) then
         if ((42 <=? c) && (c <=? 43)) then ctr11 else st 0
       else if (35 <=? c) then ctr11 else st 0
     else if (46 <? c) then
       if (c <? 65) then
         if ((48 <=? c) && (c <=? 57)) then ctr11 else st 0
       else if (90 <? c) then if ((94 <=? c) && (c <=? 122)) then ctr11 else st 0 else ctr11
     else ctr11).
Definition st_case_5 (c : Z) : target :=
  switch c
    [(10, ctr13); (13, ctr14); (33, st 5); (59, ctr15); (61, ctr16); (124, st 5);
     (126, st 5)]
    (if (c <? 45) then
       if (39 <? c) then
         if ((42 <=? c) && (c <=? 43)) then st 5 else st 0
       else if (35 <=? c) then st 5 else st 0
     else if (46 <? c) then
       if (c <? 65) then
         if ((48 <=? c) && (c <=? 57)) then st 5 else st 0
       else if (90 <? c) then if ((94 <=? c) && (c <=? 122)) then st 5 else st 0 else st 5
     else st 5).
Definition st_case_6 (c : Z) : target :=
  switch c
    [(33, ctr18); (124, ctr18); (126, ctr18)]
    (if (c <? 45) then
       if (39 <? c) then
         if ((42 <=? c) && (c <=? 43)) then ctr18 else st 0
       else if (35 <=? c) then ctr18 else st 0
     else if (46 <? c) then
       if (c <? 65) then
         if ((48 <=? c) && (c <=? 57)) then ctr18 else st 0
       else if (90 <? c) then if ((94 <=? c) && (c <=? 122)) then ctr18 else st 0 else ctr18
     else ctr18).
Definition st_case_7 (c : Z) : target :=
  switch c
    [(10, ctr20); (13, ctr21); (33, st 7); (59, ctr22); (124, st 7); (126, st 7)]
    (if (c <? 45) then
       if (39 <? c) then
         if ((42 <=? c) && (c <=? 43)) then st 7 else st 0
       else if (35 <=? c) then st 7 else st 0
     else if (46 <? c) then
       if (c <? 65) then
         if ((48 <=? c) && (c <=? 57)) then st 7 else st 0
       else if (90 <? c) then if ((94 <=? c) && (c <=? 122)) then st 7 else st 0 else st 7
     else st 7).
Definition st_case_8 (c : Z) : target :=
  if (c =? 84) then st 9 else st 0.
Definition st_case_9 (c : Z) : target :=
  if (c =? 84) then st 10 else st 0.
Definition st_case_10 (c : Z) : target :=
  if (c =? 80) then st 11 else st 0.
Definition st_case_11 (c : Z) : target :=
  if (c =? 47) then st 12 else st 0.
Definition st_case_12 (c : Z) : target :=
  if ((48 <=? c) && (c <=? 57)) then st 13 else st 0.
Definition st_case_13 (c : Z) : target :=
  if (c =? 46) then st 14 else if ((48 <=? c) && (c <=? 57)) then st 13 else st 0.
Definition st_case_14 (c : Z) : target :=
  if ((48 <=? c) && (c <=? 57)) then st 15 else st 0.
Definition st_case_15 (c : Z) : target :=
  if (c =? 32) then ctr31 else if ((48 <=? c) && (c <=? 57)) then st 15 else st 0.
Definition st_case_16 (c : Z) : target :=
  if ((48 <=? c) && (c <=? 57)) then ctr33 else st 0.
Definition st_case_17 (c : Z) : target :=
  if (c =? 32) then ctr35 else if ((48 <=? c) && (c <=? 57)) then st 17 else st 0.
Definition st_case_18 (c : Z) : target :=
  if (c =? 10) then st 0 else ctr37.
Definition st_case_19 (c : Z) : target :=
  switch c
    [(10, ctr39); (13, ctr40)]
    (st 19).
Definition st_case_20 (c : Z) : target :=
  switch c
    [(10, ctr9); (13, st 3); (33, ctr42); (67, ctr43); (84, ctr44); (99, ctr43);
     (116, ctr44); (124, ctr42); (126, ctr42)]
    (if (c <? 45) then
       if (39 <? c) then
         if ((42 <=? c) && (c <=? 43)) then ctr42 else st 0
       else if (35 <=? c) then ctr42 else st 0
     else if (46 <? c) then
       if (c <? 65) then
         if ((48 <=? c) && (c <=? 57)) then ctr42 else st 0
       else if (90 <? c) then if ((94 <=? c) && (c <=? 122)) then ctr42 else st 0 else ctr42
     else ctr42).
Definition st_case_21 (c : Z) : target :=
  switch c
    [(33, st 21); (58, ctr46); (124, st 21); (126, st 21)]
    (if (c <? 45) then
       if (39 <? c) then
         if ((42 <=? c) && (c <=? 43)) then st 21 else st 0
       else if (35 <=? c) then st 21 else st 0
     else if (46 <? c) then
       if (c <? 65) then
         if ((48 <=? c) && (c <=? 57)) then st 21 else st 0
       else if (90 <? c) then if ((94 <=? c) && (c <=? 122)) then st 21 else st 0 else st 21
     else st 21).
Definition st_case_22 (c : Z) : target :=
  switch c
    [(10, ctr50); (13, ctr51); (32, ctr49)]
    (if ((9 <=? c) && (c <=? 12)) then ctr49 else ctr48).
Definition st_case_23 (c : Z) : target :=
  switch c
    [(10, ctr53); (13, ctr54)]
    (st 23).
Definition st_case_24 (c : Z) : target :=
  if (c =? 10) then st 20 else st 0.
Definition st_case_25 (c : Z) : target :=
  switch c
    [(33, st 21); (58, ctr46); (79, st 26); (111, st 26); (124, st 21); (126, st 21)]
    (if (c <? 45) then
       if (39 <? c) then
         if ((42 <=? c) && (c <=? 43)) then st 21 else st 0
       else if (35 <=? c) then st 21 else st 0
     else if (46 <? c) then
       if (c <? 65) then
         if ((48 <=? c) && (c <=? 57)) then st 21 else st 0
       else if (90 <? c) then if ((94 <=? c) && (c <=? 122)) then st 21 else st 0 else st 21
     else st 21).
Definition st_case_26 (c : Z) : target :=
  switch c
    [(33, st 21); (58, ctr46); (78, st 27); (110, st 27); (124, st 21); (126, st 21)]
    (if (c <? 45) then
       if (39 <? c) then
         if ((42 <=? c) && (c <=? 43)) then st 21 else st 0
       else if (35 <=? c) then st 21 else st 0
     else if (46 <? c) then
       if (c <? 65) then
         if ((48 <=? c) && (c <=? 57)) then st 21 else st 0
       else if (90 <? c) then if ((94 <=? c) && (c <=? 122)) then st 21 else st 0 else st 21
     else st 21).
Definition st_case_27 (c : Z) : target :=
  switch c
    [(33, st 21); (58, ctr46); (78, st 28); (84, st 101); (110, st 28); (116, st 101);
     (124, st 21); (126, st 21)]
    (if (c <? 45) then
       if (39 <? c) then
         if ((42 <=? c) && (c <=? 43)) then st 21 else st 0
       else if (35 <=? c) then st 21 else st 0
     else if (46 <? c) then
       if (c <? 65) then
         if ((48 <=? c) && (c <=? 57)) then st 21 else st 0
       else if (90 <? c) then if ((94 <=? c) && (c <=? 122)) then st 21 else st 0 else st 21
     else st 21).
Definition st_case_28 (c : Z) : target :=
  switch c
    [(33, st 21); (58, ctr46); (69, st 29); (101, st 29); (124, st 21); (126, st 21)]
    (if (c <? 45) then
       if (39 <? c) then
         if ((42 <=? c) && (c <=? 43)) then st 21 else st 0
       else if (35 <=? c) then st 21 else st 0
     else if (46 <? c) then
       if (c <? 65) then
         if ((48 <=? c) && (c <=? 57)) then st 21 else st 0
       else if (90 <? c) then if ((94 <=? c) && (c <=? 122)) then st 21 else st 0 else st 21
     else st 21).
Definition st_case_29 (c : Z) : target :=
  switch c
    [(33, st 21); (58, ctr46); (67, st 30); (99, st 30); (124, st 21); (126, st 21)]
    (if (c <? 45) then
       if (39 <? c) then
         if ((42 <=? c) && (c <=? 43)) then st 21 else st 0
       else if (35 <=? c) then st 21 else st 0
     else if (46 <? c) then
       if (c <? 65) then
         if ((48 <=? c) && (c <=? 57)) then st 21 else st 0
       else if (90 <? c) then if ((94 <=? c) && (c <=? 122)) then st 21 else st 0 else st 21
     else st 21).
Definition st_case_30 (c : Z) : target :=
  switch c
    [(33, st 21); (58, ctr46); (84, st 31); (116, st 31); (124, st 21); (126, st 21)]
    (if (c <? 45) then
       if (39 <? c) then
         if ((42 <=? c) && (c <=? 43)) then st 21 else st 0
       else if (35 <=? c) then st 21 else st 0
     else if (46 <? c) then
       if (c <? 65) then
         if ((48 <=? c) && (c <=? 57)) then st 21 else st 0
       else if (90 <? c) then if ((94 <=? c) && (c <=? 122)) then st 21 else st 0 else st 21
     else st 21).
Definition st_case_31 (c : Z) : target :=
  switch c
    [(33, st 21); (58, ctr46); (73, st 32); (105, st 32); (124, st 21); (126, st 21)]
    (if (c <? 45) then
       if (39 <? c) then
         if ((42 <=? c) && (c <=? 43)) then st 21 else st 0
       else if (35 <=? c) then st 21 else st 0
     else if (46 <? c) then
       if (c <? 65) then
         if ((48 <=? c) && (c <=? 57)) then st 21 else st 0
       else if (90 <? c) then if ((94 <=? c) && (c <=? 122)) then st 21 else st 0 else st 21
     else st 21).
Definition st_case_32 (c : Z) : target :=
  switch c
    [(33, st 21); (58, ctr46); (79, st 33); (111, st 33); (124, st 21); (126, st 21)]
    (if (c <? 45) then
       if (39 <? c) then
         if ((42 <=? c) && (c <=? 43)) then st 21 else st 0
       else if (35 <=? c) then st 21 else st 0
     else if (46 <? c) then
       if (c <? 65) then
         if ((48 <=? c) && (c <=? 57)) then st 21 else st 0
       else if (90 <? c) then if ((94 <=? c) && (c <=? 122)) then st 21 else st 0 else st 21
     else st 21).
Definition st_case_33 (c : Z) : target :=
  switch c
    [(33, st 21); (58, ctr46); (78, st 34); (110, st 34); (124, st 21); (126, st 21)]
    (if (c <? 45) then
       if (39 <? c) then
         if ((42 <=? c) && (c <=? 43)) then st 21 else st 0
       else if (35 <=? c) then st 21 else st 0
     else if (46 <? c) then
       if (c <? 65) then
         if ((48 <=? c) && (c <=? 57)) then st 21 else st 0
       else if (90 <? c) then if ((94 <=? c) && (c <=? 122)) then st 21 else st 0 else st 21
     else st 21).
Definition st_case_34 (c : Z) : target :=
  switch c
    [(33, st 21); (58, ctr67); (124, st 21); (126, st 21)]
    (if (c <? 45) then
       if (39 <? c) then
         if ((42 <=? c) && (c <=? 43)) then st 21 else st 0
       else if (35 <=? c) then st 21 else st 0
     else if (46 <? c) then
       if (c <? 65) then
         if ((48 <=? c) && (c <=? 57)) then st 21 else st 0
       else if (90 <? c) then if ((94 <=? c) && (c <=? 122)) then st 21 else st 0 else st 21
     else st 21).
Definition st_case_35 (c : Z) : target :=
  switch c
    [(10, ctr70); (13, ctr71); (32, ctr69); (67, ctr72); (99, ctr72)]
    (if ((9 <=? c) && (c <=? 12)) then ctr69 else ctr48).
Definition st_case_36 (c : Z) : target :=
  switch c
    [(10, ctr75); (13, st 89); (32, st 37); (33, ctr42); (67, ctr77); (84, ctr44);
     (99, ctr77); (116, ctr44); (124, ctr42); (126, ctr42)]
    (if (c <? 45) then
       if (c <? 35) then
         if ((9 <=? c) && (c <=? 12)) then st 37 else st 0
       else if (39 <? c) then if ((42 <=? c) && (c <=? 43)) then ctr42 else st 0 else ctr42
     else if (46 <? c) then
       if (c <? 65) then
         if ((48 <=? c) && (c <=? 57)) then ctr42 else st 0
       else if (90 <? c) then if ((94 <=? c) && (c <=? 122)) then ctr42 else st 0 else ctr42
     else ctr42).
Definition st_case_37 (c : Z) : target :=
  switch c
    [(32, st 37); (67, st 38); (99, st 38)]
    (if ((9 <=? c) && (c <=? 13)) then st 37 else st 0).
Definition st_case_38 (c : Z) : target :=
  switch c
    [(76, st 39); (108, st 39)]
    (st 0).
Definition st_case_39 (c : Z) : target :=
  switch c
    [(79, st 40); (111, st 40)]
    (st 0).
Definition st_case_40 (c : Z) : target :=
  switch c
    [(83, st 41); (115, st 41)]
    (st 0).
Definition st_case_41 (c : Z) : target :=
  switch c
    [(69, st 42); (101, st 42)]
    (st 0).
Definition st_case_42 (c : Z) : target :=
  switch c
    [(10, st 43); (13, st 88)]
    (st 0).
Definition st_case_43 (c : Z) : target :=
  switch c
    [(10, ctr85); (13, ctr86); (33, ctr87); (67, ctr88); (84, ctr89); (99, ctr88);
     (116, ctr89); (124, ctr87); (126, ctr87)]
    (if (c <? 45) then
       if (39 <? c) then
         if ((42 <=? c) && (c <=? 43)) then ctr87 else st 0
       else if (35 <=? c) then ctr87 else st 0
     else if (46 <? c) then
       if (c <? 65) then
         if ((48 <=? c) && (c <=? 57)) then ctr87 else st 0
       else if (90 <? c) then if ((94 <=? c) && (c <=? 122)) then ctr87 else st 0 else ctr87
     else ctr87).
Definition st_case_44 (c : Z) : target :=
  switch c
    [(33, st 21); (58, ctr46); (82, st 45); (114, st 45); (124, st 21); (126, st 21)]
    (if (c <? 45) then
       if (39 <? c) then
         if ((42 <=? c) && (c <=? 43)) then st 21 else st 0
       else if (35 <=? c) then st 21 else st 0
     else if (46 <? c) then
       if (c <? 65) then
         if ((48 <=? c) && (c <=? 57)) then st 21 else st 0
       else if (90 <? c) then if ((94 <=? c) && (c <=? 122)) then st 21 else st 0 else st 21
     else st 21).
Definition st_case_45 (c : Z) : target :=
  switch c
    [(33, st 21); (58, ctr46); (65, st 46); (97, st 46); (124, st 21); (126, st 21)]
    (if (c <? 45) then
       if (39 <? c) then
         if ((42 <=? c) && (c <=? 43)) then st 21 else st 0
       else if (35 <=? c) then st 21 else st 0
     else if (46 <? c) then
       if (c <? 66) then
         if ((48 <=? c) && (c <=? 57)) then st 21 else st 0
       else if (90 <? c) then if ((94 <=? c) && (c <=? 122)) then st 21 else st 0 else st 21
     else st 21).
Definition st_case_46 (c : Z) : target :=
  switch c
    [(33, st 21); (58, ctr46); (78, st 47); (110, st 47); (124, st 21); (126, st 21)]
    (if (c <? 45) then
       if (39 <? c) then
         if ((42 <=? c) && (c <=? 43)) then st 21 else st 0
       else if (35 <=? c) then st 21 else st 0
     else if (46 <? c) then
       if (c <? 65) then
         if ((48 <=? c) && (c <=? 57)) then st 21 else st 0
       else if (90 <? c) then if ((94 <=? c) && (c <=? 122)) then st 21 else st 0 else st 21
     else st 21).
Definition st_case_47 (c : Z) : target :=
  switch c
    [(33, st 21); (58, ctr46); (83, st 48); (115, st 48); (124, st 21); (126, st 21)]
    (if (c <? 45) then
       if (39 <? c) then
         if ((42 <=? c) && (c <=? 43)) then st 21 else st 0
       else if (35 <=? c) then st 21 else st 0
     else if (46 <? c) then
       if (c <? 65) then
         if ((48 <=? c) && (c <=? 57)) then st 21 else st 0
       else if (90 <? c) then if ((94 <=? c) && (c <=? 122)) then st 21 else st 0 else st 21
     else st 21).
Definition st_case_48 (c : Z) : target :=
  switch c
    [(33, st 21); (58, ctr46); (70, st 49); (102, st 49); (124, st 21); (126, st 21)]
    (if (c <? 45) then
       if (39 <? c) then
         if ((42 <=? c) && (c <=? 43)) then st 21 else st 0
       else if (35 <=? c) then st 21 else st 0
     else if (46 <? c) then
       if (c <? 65) then
         if ((48 <=? c) && (c <=? 57)) then st 21 else st 0
       else if (90 <? c) then if ((94 <=? c) && (c <=? 122)) then st 21 else st 0 else st 21
     else st 21).
Definition st_case_49 (c : Z) : target :=
  switch c
    [(33, st 21); (58, ctr46); (69, st 50); (101, st 50); (124, st 21); (126, st 21)]
    (if (c <? 45) then
       if (39 <? c) then
         if ((42 <=? c) && (c <=? 43)) then st 21 else st 0
       else if (35 <=? c) then st 21 else st 0
     else if (46 <? c) then
       if (c <? 65) then
         if ((48 <=? c) && (c <=? 57)) then st 21 else st 0
       else if (90 <? c) then if ((94 <=? c) && (c <=? 122)) then st 21 else st 0 else st 21
     else st 21).
Definition st_case_50 (c : Z) : target :=
  switch c
    [(33, st 21); (58, ctr46); (82, st 51); (114, st 51); (124, st 21); (126, st 21)]
    (if (c <? 45) then
       if (39 <? c) then
         if ((42 <=? c) && (c <=? 43)) then st 21 else st 0
       else if (35 <=? c) then st 21 else st 0
     else if (46 <? c) then
       if (c <? 65) then
         if ((48 <=? c) && (c <=? 57)) then st 21 else st 0
       else if (90 <? c) then if ((94 <=? c) && (c <=? 122)) then st 21 else st 0 else st 21
     else st 21).
Definition st_case_51 (c : Z) : target :=
  switch c
    [(33, st 21); (45, st 52); (46, st 21); (58, ctr46); (124, st 21); (126, st 21)]
    (if (c <? 48) then
       if (39 <? c) then
         if ((42 <=? c) && (c <=? 43)) then st 21 else st 0
       else if (35 <=? c) then st 21 else st 0
     else if (57 <? c) then
       if (90 <? c) then
         if ((94 <=? c) && (c <=? 122)) then st 21 else st 0
       else if (65 <=? c) then st 21 else st 0
     else st 21).
Definition st_case_52 (c : Z) : target :=
  switch c
    [(33, st 21); (58, ctr46); (69, st 53); (101, st 53); (124, st 21); (126, st 21)]
    (if (c <? 45) then
       if (39 <? c) then
         if ((42 <=? c) && (c <=? 43)) then st 21 else st 0
       else if (35 <=? c) then st 21 else st 0
     else if (46 <? c) then
       if (c <? 65) then
         if ((48 <=? c) && (c <=? 57)) then st 21 else st 0
       else if (90 <? c) then if ((94 <=? c) && (c <=? 122)) then st 21 else st 0 else st 21
     else st 21).
Definition st_case_53 (c : Z) : target :=
  switch c
    [(33, st 21); (58, ctr46); (78, st 54); (110, st 54); (124, st 21); (126, st 21)]
    (if (c <? 45) then
       if (39 <? c) then
         if ((42 <=? c) && (c <=? 43)) then st 21 else st 0
       else if (35 <=? c) then st 21 else st 0
     else if (46 <? c) then
       if (c <? 65) then
         if ((48 <=? c) && (c <=? 57)) then st 21 else st 0
       else if (90 <? c) then if ((94 <=? c) && (c <=? 122)) then st 21 else st 0 else st 21
     else st 21).
Definition st_case_54 (c : Z) : target :=
  switch c
    [(33, st 21); (58, ctr46); (67, st 55); (99, st 55); (124, st 21); (126, st 21)]
    (if (c <? 45) then
       if (39 <? c) then
         if ((42 <=? c) && (c <=? 43)) then st 21 else st 0
       else if (35 <=? c) then st 21 else st 0
     else if (46 <? c) then
       if (c <? 65) then
         if ((48 <=? c) && (c <=? 57)) then st 21 else st 0
       else if (90 <? c) then if ((94 <=? c) && (c <=? 122)) then st 21 else st 0 else st 21
     else st 21).
Definition st_case_55 (c : Z) : target :=
  switch c
    [(33, st 21); (58, ctr46); (79, st 56); (111, st 56); (124, st 21); (126, st 21)]
    (if (c <? 45) then
       if (39 <? c) then
         if ((42 <=? c) && (c <=? 43)) then st 21 else st 0
       else if (35 <=? c) then st 21 else st 0
     else if (46 <? c) then
       if (c <? 65) then
         if ((48 <=? c) && (c <=? 57)) then st 21 else st 0
       else if (90 <? c) then if ((94 <=? c) && (c <=? 122)) then st 21 else st 0 else st 21
     else st 21).
Definition st_case_56 (c : Z) : target :=
  switch c
    [(33, st 21); (58, ctr46); (68, st 57); (100, st 57); (124, st 21); (126, st 21)]
    (if (c <? 45) then
       if (39 <? c) then
         if ((42 <=? c) && (c <=? 43)) then st 21 else st 0
       else if (35 <=? c) then st 21 else st 0
     else if (46 <? c) then
       if (c <? 65) then
         if ((48 <=? c) && (c <=? 57)) then st 21 else st 0
       else if (90 <? c) then if ((94 <=? c) && (c <=? 122)) then st 21 else st 0 else st 21
     else st 21).
Definition st_case_57 (c : Z) : target :=
  switch c
    [(33, st 21); (58, ctr46); (73, st 58); (105, st 58); (124, st 21); (126, st 21)]
    (if (c <? 45) then
       if (39 <? c) then
         if ((42 <=? c) && (c <=? 43)) then st 21 else st 0
       else if (35 <=? c) then st 21 else st 0
     else if (46 <? c) then
       if (c <? 65) then
         if ((48 <=? c) && (c <=? 57)) then st 21 else st 0
       else if (90 <? c) then if ((94 <=? c) && (c <=? 122)) then st 21 else st 0 else st 21
     else st 21).
Definition st_case_58 (c : Z) : target :=
  switch c
    [(33, st 21); (58, ctr46); (78, st 59); (110, st 59); (124, st 21); (126, st 21)]
    (if (c <? 45) then
       if (39 <? c) then
         if ((42 <=? c) && (c <=? 43)) then st 21 else st 0
       else if (35 <=? c) then st 21 else st 0
     else if (46 <? c) then
       if (c <? 65) then
         if ((48 <=? c) && (c <=? 57)) then st 21 else st 0
       else if (90 <? c) then if ((94 <=? c) && (c <=? 122)) then st 21 else st 0 else st 21
     else st 21).
Definition st_case_59 (c : Z) : target :=
  switch c
    [(33, st 21); (58, ctr46); (71, st 60); (103, st 60); (124, st 21); (126, st 21)]
    (if (c <? 45) then
       if (39 <? c) then
         if ((42 <=? c) && (c <=? 43)) then st 21 else st 0
       else if (35 <=? c) then st 21 else st 0
     else if (46 <? c) then
       if (c <? 65) then
         if ((48 <=? c) && (c <=? 57)) then st 21 else st 0
       else if (90 <? c) then if ((94 <=? c) && (c <=? 122)) then st 21 else st 0 else st 21
     else st 21).
Definition st_case_60 (c : Z) : target :=
  switch c
    [(33, st 21); (58, ctr107); (124, st 21); (126, st 21)]
    (if (c <? 45) then
       if (39 <? c) then
         if ((42 <=? c) && (c <=? 43)) then st 21 else st 0
       else if (35 <=? c) then st 21 else st 0
     else if (46 <? c) then
       if (c <? 65) then
         if ((48 <=? c) && (c <=? 57)) then st 21 else st 0
       else if (90 <? c) then if ((94 <=? c) && (c <=? 122)) then st 21 else st 0 else st 21
     else st 21).
Definition st_case_61 (c : Z) : target :=
  switch c
    [(10, ctr110); (13, ctr111); (32, ctr109); (67, ctr112); (99, ctr112)]
    (if ((9 <=? c) && (c <=? 12)) then ctr109 else ctr48).
Definition st_case_62 (c : Z) : target :=
  switch c
    [(10, ctr115); (13, st 72); (32, st 63); (33, ctr42); (67, ctr117); (84, ctr44);
     (99, ctr117); (116, ctr44); (124, ctr42); (126, ctr42)]
    (if (c <? 45) then
       if (c <? 35) then
         if ((9 <=? c) && (c <=? 12)) then st 63 else st 0
       else if (39 <? c) then if ((42 <=? c) && (c <=? 43)) then ctr42 else st 0 else ctr42
     else if (46 <? c) then
       if (c <? 65) then
         if ((48 <=? c) && (c <=? 57)) then ctr42 else st 0
       else if (90 <? c) then if ((94 <=? c) && (c <=? 122)) then ctr42 else st 0 else ctr42
     else ctr42).
Definition st_case_63 (c : Z) : target :=
  switch c
    [(32, st 63); (67, ctr118); (99, ctr118)]
    (if ((9 <=? c) && (c <=? 13)) then st 63 else st 0).
Definition st_case_64 (c : Z) : target :=
  switch c
    [(72, st 65); (104, st 65)]
    (st 0).
Definition st_case_65 (c : Z) : target :=
  switch c
    [(85, st 66); (117, st 66)]
    (st 0).
Definition st_case_66 (c : Z) : target :=
  switch c
    [(78, st 67); (110, st 67)]
    (st 0).
Definition st_case_67 (c : Z) : target :=
  switch c
    [(75, st 68); (107, st 68)]
    (st 0).
Definition st_case_68 (c : Z) : target :=
  switch c
    [(69, st 69); (101, st 69)]
    (st 0).
Definition st_case_69 (c : Z) : target :=
  switch c
    [(68, st 70); (100, st 70)]
    (st 0).
Definition st_case_70 (c : Z) : target :=
  switch c
    [(10, ctr126); (13, ctr127)]
    (st 0).
Definition st_case_71 (c : Z) : target :=
  if (c =? 10) then ctr129 else st 0.
Definition st_case_72 (c : Z) : target :=
  switch c
    [(10, ctr115); (32, st 63); (67, ctr118); (99, ctr118)]
    (if ((9 <=? c) && (c <=? 13)) then st 63 else st 0).
Definition st_case_73 (c : Z) : target :=
  switch c
    [(33, st 21); (58, ctr46); (72, st 74); (79, st 26); (104, st 74); (111, st 26);
     (124, st 21); (126, st 21)]
    (if (c <? 45) then
       if (39 <? c) then
         if ((42 <=? c) && (c <=? 43)) then st 21 else st 0
       else if (35 <=? c) then st 21 else st 0
     else if (46 <? c) then
       if (c <? 65) then
         if ((48 <=? c) && (c <=? 57)) then st 21 else st 0
       else if (90 <? c) then if ((94 <=? c) && (c <=? 122)) then st 21 else st 0 else st 21
     else st 21).
Definition st_case_74 (c : Z) : target :=
  switch c
    [(33, st 21); (58, ctr46); (85, st 75); (117, st 75); (124, st 21); (126, st 21)]
    (if (c <? 45) then
       if (39 <? c) then
         if ((42 <=? c) && (c <=? 43)) then st 21 else st 0
       else if (35 <=? c) then st 21 else st 0
     else if (46 <? c) then
       if (c <? 65) then
         if ((48 <=? c) && (c <=? 57)) then st 21 else st 0
       else if (90 <? c) then if ((94 <=? c) && (c <=? 122)) then st 21 else st 0 else st 21
     else st 21).
Definition st_case_75 (c : Z) : target :=
  switch c
    [(33, st 21); (58, ctr46); (78, st 76); (110, st 76); (124, st 21); (126, st 21)]
    (if (c <? 45) then
       if (39 <? c) then
         if ((42 <=? c) && (c <=? 43)) then st 21 else st 0
       else if (35 <=? c) then st 21 else st 0
     else if (46 <? c) then
       if (c <? 65) then
         if ((48 <=? c) && (c <=? 57)) then st 21 else st 0
       else if (90 <? c) then if ((94 <=? c) && (c <=? 122)) then st 21 else st 0 else st 21
     else st 21).
Definition st_case_76 (c : Z) : target :=
  switch c
    [(33, st 21); (58, ctr46); (75, st 77); (107, st 77); (124, st 21); (126, st 21)]
    (if (c <? 45) then
       if (39 <? c) then
         if ((42 <=? c) && (c <=? 43)) then st 21 else st 0
       else if (35 <=? c) then st 21 else st 0
     else if (46 <? c) then
       if (c <? 65) then
         if ((48 <=? c) && (c <=? 57)) then st 21 else st 0
       else if (90 <? c) then if ((94 <=? c) && (c <=? 122)) then st 21 else st 0 else st 21
     else st 21).
Definition st_case_77 (c : Z) : target :=
  switch c
    [(33, st 21); (58, ctr46); (69, st 78); (101, st 78); (124, st 21); (126, st 21)]
    (if (c <? 45) then
       if (39 <? c) then
         if ((42 <=? c) && (c <=? 43)) then st 21 else st 0
       else if (35 <=? c) then st 21 else st 0
     else if (46 <? c) then
       if (c <? 65) then
         if ((48 <=? c) && (c <=? 57)) then st 21 else st 0
       else if (90 <? c) then if ((94 <=? c) && (c <=? 122)) then st 21 else st 0 else st 21
     else st 21).
Definition st_case_78 (c : Z) : target :=
  switch c
    [(33, st 21); (58, ctr46); (68, st 79); (100, st 79); (124, st 21); (126, st 21)]
    (if (c <? 45) then
       if (39 <? c) then
         if ((42 <=? c) && (c <=? 43)) then st 21 else st 0
       else if (35 <=? c) then st 21 else st 0
     else if (46 <? c) then
       if (c <? 65) then
         if ((48 <=? c) && (c <=? 57)) then st 21 else st 0
       else if (90 <? c) then if ((94 <=? c) && (c <=? 122)) then st 21 else st 0 else st 21
     else st 21).
Definition st_case_79 (c : Z) : target :=
  switch c
    [(10, ctr126); (13, ctr127); (33, st 21); (58, ctr46); (124, st 21); (126, st 21)]
    (if (c <? 45) then
       if (39 <? c) then
         if ((42 <=? c) && (c <=? 43)) then st 21 else st 0
       else if (35 <=? c) then st 21 else st 0
     else if (46 <? c) then
       if (c <? 65) then
         if ((48 <=? c) && (c <=? 57)) then st 21 else st 0
       else if (90 <? c) then if ((94 <=? c) && (c <=? 122)) then st 21 else st 0 else st 21
     else st 21).
Definition st_case_80 (c : Z) : target :=
  switch c
    [(10, st 62); (32, st 63); (67, ctr118); (99, ctr118)]
    (if ((9 <=? c) && (c <=? 13)) then st 63 else st 0).
Definition st_case_81 (c : Z) : target :=
  switch c
    [(10, ctr53); (13, ctr54); (72, st 82); (104, st 82)]
    (st 23).
Definition st_case_82 (c : Z) : target :=
  switch c
    [(10, ctr53); (13, ctr54); (85, st 83); (117, st 83)]
    (st 23).
Definition st_case_83 (c : Z) : target :=
  switch c
    [(10, ctr53); (13, ctr54); (78, st 84); (110, st 84)]
    (st 23).
Definition st_case_84 (c : Z) : target :=
  switch c
    [(10, ctr53); (13, ctr54); (75, st 85); (107, st 85)]
    (st 23).
Definition st_case_85 (c : Z) : target :=
  switch c
    [(10, ctr53); (13, ctr54); (69, st 86); (101, st 86)]
    (st 23).
Definition st_case_86 (c : Z) : target :=
  switch c
    [(10, ctr53); (13, ctr54); (68, st 87); (100, st 87)]
    (st 23).
Definition st_case_87 (c : Z) : target :=
  switch c
    [(10, ctr126); (13, ctr127)]
    (st 23).
Definition st_case_88 (c : Z) : target :=
  if (c =? 10) then st 43 else st 0.
Definition st_case_89 (c : Z) : target :=
  switch c
    [(10, ctr75); (32, st 37); (67, st 38); (99, st 38)]
    (if ((9 <=? c) && (c <=? 13)) then st 37 else st 0).
Definition st_case_90 (c : Z) : target :=
  switch c
    [(33, st 21); (58, ctr46); (76, st 91); (79, st 26); (108, st 91); (111, st 26);
     (124, st 21); (126, st 21)]
    (if (c <? 45) then
       if (39 <? c) then
         if ((42 <=? c) && (c <=? 43)) then st 21 else st 0
       else if (35 <=? c) then st 21 else st 0
     else if (46 <? c) then
       if (c <? 65) then
         if ((48 <=? c) && (c <=? 57)) then st 21 else st 0
       else if (90 <? c) then if ((94 <=? c) && (c <=? 122)) then st 21 else st 0 else st 21
     else st 21).
Definition st_case_91 (c : Z) : target :=
  switch c
    [(33, st 21); (58, ctr46); (79, st 92); (111, st 92); (124, st 21); (126, st 21)]
    (if (c <? 45) then
       if (39 <? c) then
         if ((42 <=? c) && (c <=? 43)) then st 21 else st 0
       else if (35 <=? c) then st 21 else st 0
     else if (46 <? c) then
       if (c <? 65) then
         if ((48 <=? c) && (c <=? 57)) then st 21 else st 0
       else if (90 <? c) then if ((94 <=? c) && (c <=? 122)) then st 21 else st 0 else st 21
     else st 21).
Definition st_case_92 (c : Z) : target :=
  switch c
    [(33, st 21); (58, ctr46); (83, st 93); (115, st 93); (124, st 21); (126, st 21)]
    (if (c <? 45) then
       if (39 <? c) then
         if ((42 <=? c) && (c <=? 43)) then st 21 else st 0
       else if (35 <=? c) then st 21 else st 0
     else if (46 <? c) then
       if (c <? 65) then
         if ((48 <=? c) && (c <=? 57)) then st 21 else st 0
       else if (90 <? c) then if ((94 <=? c) && (c <=? 122)) then st 21 else st 0 else st 21
     else st 21).
Definition st_case_93 (c : Z) : target :=
  switch c
    [(33, st 21); (58, ctr46); (69, st 94); (101, st 94); (124, st 21); (126, st 21)]
    (if (c <? 45) then
       if (39 <? c) then
         if ((42 <=? c) && (c <=? 43)) then st 21 else st 0
       else if (35 <=? c) then st 21 else st 0
     else if (46 <? c) then
       if (c <? 65) then
         if ((48 <=? c) && (c <=? 57)) then st 21 else st 0
       else if (90 <? c) then if ((94 <=? c) && (c <=? 122)) then st 21 else st 0 else st 21
     else st 21).
Definition st_case_94 (c : Z) : target :=
  switch c
    [(10, st 43); (13, st 88); (33, st 21); (58, ctr46); (124, st 21); (126, st 21)]
    (if (c <? 45) then
       if (39 <? c) then
         if ((42 <=? c) && (c <=? 43)) then st 21 else st 0
       else if (35 <=? c) then st 21 else st 0
     else if (46 <? c) then
       if (c <? 65) then
         if ((48 <=? c) && (c <=? 57)) then st 21 else st 0
       else if (90 <? c) then if ((94 <=? c) && (c <=? 122)) then st 21 else st 0 else st 21
     else st 21).
Definition st_case_95 (c : Z) : target :=
  switch c
    [(10, st 36); (32, st 37); (67, st 38); (99, st 38)]
    (if ((9 <=? c) && (c <=? 13)) then st 37 else st 0).
Definition st_case_96 (c : Z) : target :=
  switch c
    [(10, ctr53); (13, ctr54); (76, st 97); (108, st 97)]
    (st 23).
Definition st_case_97 (c : Z) : target :=
  switch c
    [(10, ctr53); (13, ctr54); (79, st 98); (111, st 98)]
    (st 23).
Definition st_case_98 (c : Z) : target :=
  switch c
    [(10, ctr53); (13, ctr54); (83, st 99); (115, st 99)]
    (st 23).
Definition st_case_99 (c : Z) : target :=
  switch c
    [(10, ctr53); (13, ctr54); (69, st 100); (101, st 100)]
    (st 23).
Definition st_case_100 (c : Z) : target :=
  switch c
    [(10, ctr156); (13, ctr157)]
    (st 23).
Definition st_case_101 (c : Z) : target :=
  switch c
    [(33, st 21); (58, ctr46); (69, st 102); (101, st 102); (124, st 21); (126, st 21)]
    (if (c <? 45) then
       if (39 <? c) then
         if ((42 <=? c) && (c <=? 43)) then st 21 else st 0
       else if (35 <=? c) then st 21 else st 0
     else if (46 <? c) then
       if (c <? 65) then
         if ((48 <=? c) && (c <=? 57)) then st 21 else st 0
       else if (90 <? c) then if ((94 <=? c) && (c <=? 122)) then st 21 else st 0 else st 21
     else st 21).
Definition st_case_102 (c : Z) : target :=
  switch c
    [(33, st 21); (58, ctr46); (78, st 103); (110, st 103); (124, st 21); (126, st 21)]
    (if (c <? 45) then
       if (39 <? c) then
         if ((42 <=? c) && (c <=? 43)) then st 21 else st 0
       else if (35 <=? c) then st 21 else st 0
     else if (46 <? c) then
       if (c <? 65) then
         if ((48 <=? c) && (c <=? 57)) then st 21 else st 0
       else if (90 <? c) then if ((94 <=? c) && (c <=? 122)) then st 21 else st 0 else st 21
     else st 21).
Definition st_case_103 (c : Z) : target :=
  switch c
    [(33, st 21); (58, ctr46); (84, st 104); (116, st 104); (124, st 21); (126, st 21)]
    (if (c <? 45) then
       if (39 <? c) then
         if ((42 <=? c) && (c <=? 43)) then st 21 else st 0
       else if (35 <=? c) then st 21 else st 0
     else if (46 <? c) then
       if (c <? 65) then
         if ((48 <=? c) && (c <=? 57)) then st 21 else st 0
       else if (90 <? c) then if ((94 <=? c) && (c <=? 122)) then st 21 else st 0 else st 21
     else st 21).
Definition st_case_104 (c : Z) : target :=
  switch c
    [(33, st 21); (45, st 105); (46, st 21); (58, ctr46); (124, st 21); (126, st 21)]
    (if (c <? 48) then
       if (39 <? c) then
         if ((42 <=? c) && (c <=? 43)) then st 21 else st 0
       else if (35 <=? c) then st 21 else st 0
     else if (57 <? c) then
       if (90 <? c) then
         if ((94 <=? c) && (c <=? 122)) then st 21 else st 0
       else if (65 <=? c) then st 21 else st 0
     else st 21).
Definition st_case_105 (c : Z) : target :=
  switch c
    [(33, st 21); (58, ctr46); (76, st 106); (108, st 106); (124, st 21); (126, st 21)]
    (if (c <? 45) then
       if (39 <? c) then
         if ((42 <=? c) && (c <=? 43)) then st 21 else st 0
       else if (35 <=? c) then st 21 else st 0
     else if (46 <? c) then
       if (c <? 65) then
         if ((48 <=? c) && (c <=? 57)) then st 21 else st 0
       else if (90 <? c) then if ((94 <=? c) && (c <=? 122)) then st 21 else st 0 else st 21
     else st 21).
Definition st_case_106 (c : Z) : target :=
  switch c
    [(33, st 21); (58, ctr46); (69, st 107); (101, st 107); (124, st 21); (126, st 21)]
    (if (c <? 45) then
       if (39 <? c) then
         if ((42 <=? c) && (c <=? 43)) then st 21 else st 0
       else if (35 <=? c) then st 21 else st 0
     else if (46 <? c) then
       if (c <? 65) then
         if ((48 <=? c) && (c <=? 57)) then st 21 else st 0
       else if (90 <? c) then if ((94 <=? c) && (c <=? 122)) then st 21 else st 0 else st 21
     else st 21).
Definition st_case_107 (c : Z) : target :=
  switch c
    [(33, st 21); (58, ctr46); (78, st 108); (110, st 108); (124, st 21); (126, st 21)]
    (if (c <? 45) then
       if (39 <? c) then
         if ((42 <=? c) && (c <=? 43)) then st 21 else st 0
       else if (35 <=? c) then st 21 else st 0
     else if (46 <? c) then
       if (c <? 65) then
         if ((48 <=? c) && (c <=? 57)) then st 21 else st 0
       else if (90 <? c) then if ((94 <=? c) && (c <=? 122)) then st 21 else st 0 else st 21
     else st 21).
Definition st_case_108 (c : Z) : target :=
  switch c
    [(33, st 21); (58, ctr46); (71, st 109); (103, st 109); (124, st 21); (126, st 21)]
    (if (c <? 45) then
       if (39 <? c) then
         if ((42 <=? c) && (c <=? 43)) then st 21 else st 0
       else if (35 <=? c) then st 21 else st 0
     else if (46 <? c) then
       if (c <? 65) then
         if ((48 <=? c) && (c <=? 57)) then st 21 else st 0
       else if (90 <? c) then if ((94 <=? c) && (c <=? 122)) then st 21 else st 0 else st 21
     else st 21).
Definition st_case_109 (c : Z) : target :=
  switch c
    [(33, st 21); (58, ctr46); (84, st 110); (116, st 110); (124, st 21); (126, st 21)]
    (if (c <? 45) then
       if (39 <? c) then
         if ((42 <=? c) && (c <=? 43)) then st 21 else st 0
       else if (35 <=? c) then st 21 else st 0
     else if (46 <? c) then
       if (c <? 65) then
         if ((48 <=? c) && (c <=? 57)) then st 21 else st 0
       else if (90 <? c) then if ((94 <=? c) && (c <=? 122)) then st 21 else st 0 else st 21
     else st 21).
Definition st_case_110 (c : Z) : target :=
  switch c
    [(33, st 21); (58, ctr46); (72, st 111); (104, st 111); (124, st 21); (126, st 21)]
    (if (c <? 45) then
       if (39 <? c) then
         if ((42 <=? c) && (c <=? 43)) then st 21 else st 0
       else if (35 <=? c) then st 21 else st 0
     else if (46 <? c) then
       if (c <? 65) then
         if ((48 <=? c) && (c <=? 57)) then st 21 else st 0
       else if (90 <? c) then if ((94 <=? c) && (c <=? 122)) then st 21 else st 0 else st 21
     else st 21).
Definition st_case_111 (c : Z) : target :=
  switch c
    [(33, st 21); (58, ctr168); (124, st 21); (126, st 21)]
    (if (c <? 45) then
       if (39 <? c) then
         if ((42 <=? c) && (c <=? 43)) then st 21 else st 0
       else if (35 <=? c) then st 21 else st 0
     else if (46 <? c) then
       if (c <? 65) then
         if ((48 <=? c) && (c <=? 57)) then st 21 else st 0
       else if (90 <? c) then if ((94 <=? c) && (c <=? 122)) then st 21 else st 0 else st 21
     else st 21).
Definition st_case_112 (c : Z) : target :=
  switch c
    [(10, ctr171); (13, ctr172); (32, ctr170)]
    (if (12 <? c) then
       if ((48 <=? c) && (c <=? 57)) then ctr173 else ctr48
     else if (9 <=? c) then ctr170 else ctr48).
Definition st_case_113 (c : Z) : target :=
  switch c
    [(10, ctr176); (13, st 116); (32, st 114); (33, ctr42); (67, ctr43); (84, ctr44);
     (99, ctr43); (116, ctr44); (124, ctr42); (126, ctr42)]
    (if (c <? 45) then
       if (c <? 35) then
         if ((9 <=? c) && (c <=? 12)) then st 114 else st 0
       else if (39 <? c) then if ((42 <=? c) && (c <=? 43)) then ctr42 else st 0 else ctr42
     else if (46 <? c) then
       if (c <? 65) then
         if ((48 <=? c) && (c <=? 57)) then ctr178 else st 0
       else if (90 <? c) then if ((94 <=? c) && (c <=? 122)) then ctr42 else st 0 else ctr42
     else ctr42).
Definition st_case_114 (c : Z) : target :=
  if (c =? 32) then
    st 114
  else if (13 <? c) then
    if ((48 <=? c) && (c <=? 57)) then ctr179 else st 0
  else if (9 <=? c) then st 114 else st 0.
Definition st_case_115 (c : Z) : target :=
  switch c
    [(10, ctr181); (13, ctr182)]
    (if ((48 <=? c) && (c <=? 57)) then st 115 else st 0).
Definition st_case_116 (c : Z) : target :=
  switch c
    [(10, ctr176); (32, st 114)]
    (if (13 <? c) then
       if ((48 <=? c) && (c <=? 57)) then ctr179 else st 0
     else if (9 <=? c) then st 114 else st 0).
Definition st_case_117 (c : Z) : target :=
  switch c
    [(10, ctr181); (13, ctr182); (33, st 21); (58, ctr46); (124, st 21); (126, st 21)]
    (if (c <? 45) then
       if (39 <? c) then
         if ((42 <=? c) && (c <=? 43)) then st 21 else st 0
       else if (35 <=? c) then st 21 else st 0
     else if (46 <? c) then
       if (c <? 65) then
         if ((48 <=? c) && (c <=? 57)) then st 117 else st 0
       else if (90 <? c) then if ((94 <=? c) && (c <=? 122)) then st 21 else st 0 else st 21
     else st 21).
Definition st_case_118 (c : Z) : target :=
  switch c
    [(10, st 113); (32, st 114)]
    (if (13 <? c) then
       if ((48 <=? c) && (c <=? 57)) then ctr179 else st 0
     else if (9 <=? c) then st 114 else st 0).
Definition st_case_119 (c : Z) : target :=
  switch c
    [(10, ctr181); (13, ctr182)]
    (if ((48 <=? c) && (c <=? 57)) then st 119 else st 23).
Definition st_case_120 (c : Z) : target :=
  st 0.
Definition st_case_121 (c : Z) : target :=
  switch c
    [(32, st 63); (67, ctr118); (99, ctr118)]
    (if ((9 <=? c) && (c <=? 13)) then st 63 else st 0).
Definition st_case_122 (c : Z) : target :=
  switch c
    [(32, st 37); (67, st 38); (99, st 38)]
    (if ((9 <=? c) && (c <=? 13)) then st 37 else st 0).
Definition st_case_123 (c : Z) : target :=
  if (c =? 32) then
    st 114
  else if (13 <? c) then
    if ((48 <=? c) && (c <=? 57)) then ctr179 else st 0
  else if (9 <=? c) then st 114 else st 0.

(** The [switch (cs)] that enters the machine; [None] for the error state and
    for the numbers of no state. *)
Definition st_case (cs : Z) (c : Z) : option target :=
  match cs with
  | 1 => Some (st_case_1 c)
  | 2 => Some (st_case_2 c)
  | 3 => Some (st_case_3 c)
  | 4 => Some (st_case_4 c)
  | 5 => Some (st_case_5 c)
  | 6 => Some (st_case_6 c)
  | 7 => Some (st_case_7 c)
  | 8 => Some (st_case_8 c)
  | 9 => Some (st_case_9 c)
  | 10 => Some (st_case_10 c)
  | 11 => Some (st_case_11 c)
  | 12 => Some (st_case_12 c)
  | 13 => Some (st_case_13 c)
  | 14 => Some (st_case_14 c)
  | 15 => Some (st_case_15 c)
  | 16 => Some (st_case_16 c)
  | 17 => Some (st_case_17 c)
  | 18 => Some (st_case_18 c)
  | 19 => Some (st_case_19 c)
  | 20 => Some (st_case_20 c)
  | 21 => Some (st_case_21 c)
  | 22 => Some (st_case_22 c)
  | 23 => Some (st_case_23 c)
  | 24 => Some (st_case_24 c)
  | 25 => Some (st_case_25 c)
  | 26 => Some (st_case_26 c)
  | 27 => Some (st_case_27 c)
  | 28 => Some (st_case_28 c)
  | 29 => Some (st_case_29 c)
  | 30 => Some (st_case_30 c)
  | 31 => Some (st_case_31 c)
  | 32 => Some (st_case_32 c)
  | 33 => Some (st_case_33 c)
  | 34 => Some (st_case_34 c)
  | 35 => Some (st_case_35 c)
  | 36 => Some (st_case_36 c)
  | 37 => Some (st_case_37 c)
  | 38 => Some (st_case_38 c)
  | 39 => Some (st_case_39 c)
  | 40 => Some (st_case_40 c)
  | 41 => Some (st_case_41 c)
  | 42 => Some (st_case_42 c)
  | 43 => Some (st_case_43 c)
  | 44 => Some (st_case_44 c)
  | 45 => Some (st_case_45 c)
  | 46 => Some (st_case_46 c)
  | 47 => Some (st_case_47 c)
  | 48 => Some (st_case_48 c)
  | 49 => Some (st_case_49 c)
  | 50 => Some (st_case_50 c)
  | 51 => Some (st_case_51 c)
  | 52 => Some (st_case_52 c)
  | 53 => Some (st_case_53 c)
  | 54 => Some (st_case_54 c)
  | 55 => Some (st_case_55 c)
  | 56 => Some (st_case_56 c)
  | 57 => Some (st_case_57 c)
  | 58 => Some (st_case_58 c)
  | 59 => Some (st_case_59 c)
  | 60 => Some (st_case_60 c)
  | 61 => Some (st_case_61 c)
  | 62 => Some (st_case_62 c)
  | 63 => Some (st_case_63 c)
  | 64 => Some (st_case_64 c)
  | 65 => Some (st_case_65 c)
  | 66 => Some (st_case_66 c)
  | 67 => Some (st_case_67 c)
  | 68 => Some (st_case_68 c)
  | 69 => Some (st_case_69 c)
  | 70 => Some (st_case_70 c)
  | 71 => Some (st_case_71 c)
  | 72 => Some (st_case_72 c)
  | 73 => Some (st_case_73 c)
  | 74 => Some (st_case_74 c)
  | 75 => Some (st_case_75 c)
  | 76 => Some (st_case_76 c)
  | 77 => Some (st_case_77 c)
  | 78 => Some (st_case_78 c)
  | 79 => Some (st_case_79 c)
  | 80 => Some (st_case_80 c)
  | 81 => Some (st_case_81 c)
  | 82 => Some (st_case_82 c)
  | 83 => Some (st_case_83 c)
  | 84 => Some (st_case_84 c)
  | 85 => Some (st_case_85 c)
  | 86 => Some (st_case_86 c)
  | 87 => Some (st_case_87 c)
  | 88 => Some (st_case_88 c)
  | 89 => Some (st_case_89 c)
  | 90 => Some (st_case_90 c)
  | 91 => Some (st_case_91 c)
  | 92 => Some (st_case_92 c)
  | 93 => Some (st_case_93 c)
  | 94 => Some (st_case_94 c)
  | 95 => Some (st_case_95 c)
  | 96 => Some (st_case_96 c)
  | 97 => Some (st_case_97 c)
  | 98 => Some (st_case_98 c)
  | 99 => Some (st_case_99 c)
  | 100 => Some (st_case_100 c)
  | 101 => Some (st_case_101 c)
  | 102 => Some (st_case_102 c)
  | 103 => Some (st_case_103 c)
  | 104 => Some (st_case_104 c)
  | 105 => Some (st_case_105 c)
  | 106 => Some (st_case_106 c)
  | 107 => Some (st_case_107 c)
  | 108 => Some (st_case_108 c)
  | 109 => Some (st_case_109 c)
  | 110 => Some (st_case_110 c)
  | 111 => Some (st_case_111 c)
  | 112 => Some (st_case_112 c)
  | 113 => Some (st_case_113 c)
  | 114 => Some (st_case_114 c)
  | 115 => Some (st_case_115 c)
  | 116 => Some (st_case_116 c)
  | 117 => Some (st_case_117 c)
  | 118 => Some (st_case_118 c)
  | 119 => Some (st_case_119 c)
  | 120 => Some (st_case_120 c)
  | 121 => Some (st_case_121 c)
  | 122 => Some (st_case_122 c)
  | 123 => Some (st_case_123 c)
  | _ => None
  end.
