(* ===== verification/HttpClientParser.v ===== *)
(** Running the response machine: [httpclient_parser_init],
    [httpclient_parser_execute] and the tests of
    packages/http11/httpclient_parser.rl.cpp, as in Http11Parser. *)

From S2P Require Import Prelude Http Ragel HttpClientMachine CString.

#[local] Open Scope Z_scope.

Record httpclient_parser := mkCP {
  cp_cs : Z;
  cp_body_start : Z;
  cp_content_len : Z;
  cp_status : Z;
  cp_chunked : Z;
  cp_chunks_done : Z;
  cp_close : Z;
  cp_nread : Z;
  cp_mark : Z;
  cp_field_start : Z;
  cp_field_len : Z;
}.

Definition httpclient_parser_start : Z := 1.
Definition httpclient_parser_first_final : Z := 120.
Definition httpclient_parser_error : Z := 0.

Definition cp_with_pos (cs nread body_start : Z) (s : httpclient_parser) : httpclient_parser :=
  mkCP cs body_start (cp_content_len s) (cp_status s) (cp_chunked s) (cp_chunks_done s)
    (cp_close s) nread (cp_mark s) (cp_field_start s) (cp_field_len s).
Definition cp_with_marks (mark field_start field_len : Z) (s : httpclient_parser)
    : httpclient_parser :=
  mkCP (cp_cs s) (cp_body_start s) (cp_content_len s) (cp_status s) (cp_chunked s)
    (cp_chunks_done s) (cp_close s) (cp_nread s) mark field_start field_len.
Definition cp_with_meta (content_len status chunked chunks_done close : Z)
    (s : httpclient_parser) : httpclient_parser :=
  mkCP (cp_cs s) (cp_body_start s) content_len status chunked chunks_done close
    (cp_nread s) (cp_mark s) (cp_field_start s) (cp_field_len s).

(** [httpclient_parser_init] does not set [status]. *)
Definition httpclient_parser_init (s : httpclient_parser) : httpclient_parser :=
  mkCP httpclient_parser_start 0 (-1) (cp_status s) 0 0 0 0 0 0 0.

Definition httpclient_parser_has_error (s : httpclient_parser) : bool :=
  cp_cs s =? httpclient_parser_error.
Definition httpclient_parser_is_finished (s : httpclient_parser) : bool :=
  cp_cs s =? httpclient_parser_first_final.
Definition httpclient_parser_finish (s : httpclient_parser) : Z :=
  if httpclient_parser_has_error s then -1
  else if httpclient_parser_is_finished s then 1 else 0.

Inductive response_call :=
| call_field (field flen value vlen : Z)
| call_reason_phrase (at_ len : Z)
| call_status_code (at_ len : Z)
| call_chunk_size (at_ len : Z)
| call_version (at_ len : Z)
| call_done (at_ len : Z)
| call_last_chunk (at_ len : Z).

Definition CLEN (at_ p : Z) : Z := u64 (p - at_).

Section exec.
Context {D : Type} (on : response_call → D → outcome D) (buffer : text).

(** [strtol(PTR_TO(mark), NULL, base)] stored in an [int]. *)
Definition number_at (base at_ : Z) : Z := i32 (strtol base (drop (Z.to_nat at_) buffer)).

Definition cp_act (a : action) (p pe : Z) (s : httpclient_parser) (d : D)
    : outcome (httpclient_parser * D) :=
  match a with
  | mark | start_value => Ret (cp_with_marks p (cp_field_start s) (cp_field_len s) s, d)
  | start_field => Ret (cp_with_marks (cp_mark s) p (cp_field_len s) s, d)
  | write_field =>
      Ret (cp_with_marks (cp_mark s) (cp_field_start s) (CLEN (cp_field_start s) p) s, d)
  | write_content_len =>
      Ret (cp_with_meta (number_at 10 (cp_mark s)) (cp_status s) (cp_chunked s)
             (cp_chunks_done s) (cp_close s) s, d)
  | write_connection_close =>
      Ret (cp_with_meta (cp_content_len s) (cp_status s) (cp_chunked s)
             (cp_chunks_done s) 1 s, d)
  | write_value =>
      let! d := on (call_field (cp_field_start s) (cp_field_len s) (cp_mark s)
                      (CLEN (cp_mark s) p)) d in
      Ret (s, d)
  | reason_phrase =>
      let! d := on (call_reason_phrase (cp_mark s) (CLEN (cp_mark s) p)) d in Ret (s, d)
  | status_code =>
      let s := cp_with_meta (cp_content_len s) (number_at 10 (cp_mark s)) (cp_chunked s)
                 (cp_chunks_done s) (cp_close s) s in
      let! d := on (call_status_code (cp_mark s) (CLEN (cp_mark s) p)) d in Ret (s, d)
  | http_version =>
      let! d := on (call_version (cp_mark s) (CLEN (cp_mark s) p)) d in Ret (s, d)
  | chunk_size =>
      let n := number_at 16 (cp_mark s) in
      let last := n <=? 0 in
      let s := cp_with_meta n (cp_status s) 1 (if last then 1 else 0) (cp_close s) s in
      let! d := on ((if last then call_last_chunk else call_chunk_size)
                      (cp_mark s) (CLEN (cp_mark s) p)) d in
      Ret (s, d)
  | trans_chunked =>
      Ret (cp_with_meta (cp_content_len s) (cp_status s) 1 (cp_chunks_done s) (cp_close s) s, d)
  | done =>
      let s := cp_with_pos (cp_cs s) (cp_nread s) (p + 1) s in
      let! d := on (call_done (p + 1) (u64 (pe - p - 1))) d in Ret (s, d)
  end.

Fixpoint cp_acts (l : list action) (p pe : Z) (s : httpclient_parser) (d : D)
    : outcome (httpclient_parser * D) :=
  match l with
  | [] => Ret (s, d)
  | a :: l => let! (s, d) := cp_act a p pe s d in cp_acts l p pe s d
  end.

Definition cp_breaks (l : list action) : bool :=
  existsb (λ a, match a with done => true | _ => false end) l.

Fixpoint cp_run (rest : text) (p pe cs : Z) (s : httpclient_parser) (d : D)
    : outcome (Z * Z * httpclient_parser * D) :=
  match rest with
  | [] => Ret (p, cs, s, d)
  | c :: rest =>
      match st_case cs (schar c) with
      | None => Ret (p, (if cs =? 0 then 0 else 1), s, d)
      | Some (l, n) =>
          if n =? 0 then Ret (p, 0, s, d)
          else
            let! (s, d) := cp_acts l p pe s d in
            if cp_breaks l then Ret (p + 1, n, s, d) else cp_run rest (p + 1) pe n s d
      end
  end.

Definition cp_assert (b : bool) : outcome unit := if b then Ret tt else Fault AssertFailed.

(** [httpclient_parser_execute]: the bytes read, or -1.  The byte at [pe] must
    be a NUL. *)
Definition httpclient_parser_execute (len off : Z) (s : httpclient_parser) (d : D)
    : outcome (Z * httpclient_parser * D) :=
  let s := cp_with_pos (cp_cs s) 0 (cp_body_start s) (cp_with_marks 0 0 0 s) in
  let! _ := cp_assert (off <=? len) in
  let! _ := match buffer !! Z.to_nat len with
            | None => Fault OutOfBounds
            | Some c => cp_assert (bool_decide (c = NUL))
            end in
  let! _ := cp_assert (len - off =? i32 (i32 len - i32 off)) in
  let! (p, cs, s, d) :=
    cp_run (drop (Z.to_nat off) (take (Z.to_nat len) buffer)) off len (cp_cs s) s d in
  let s := cp_with_pos cs (u64 (cp_nread s + (p - off))) (cp_body_start s) s in
  let! _ := cp_assert (p <=? len) in
  let! _ := cp_assert (cp_nread s <=? len) in
  let! _ := cp_assert (cp_body_start s <=? len) in
  if (cp_mark s <? len) && (cp_field_len s <=? len) && (cp_field_start s <? len)
  then Ret (i32 (cp_nread s), s, d)
  else Ret (-1, s, d).

End exec.
