(* ===== verification/HttpParser.v ===== *)
(** [HttpRequestParer] and [HttpResponseParer]: http/http_parser.h and
    http_parser.cpp, the callbacks that build a message from what the machines
    of packages/http11 find.

    [boost::lexical_cast<uint64_t>] is an argument [cast], [None] when it
    throws. *)

From S2P Require Import Prelude Http CString Http11Parser HttpClientParser.

#[local] Open Scope string_scope.
#[local] Open Scope list_scope.
#[local] Open Scope Z_scope.

(** * Settings *)

(** The sizes kept from the settings [http.request.buffer_size] and
    [http.request.max_body_size], and what the listeners do. *)
Record request_sizes := mkSizes {
  s_http_request_buffer_size : Z;
  s_http_request_max_body_size : Z;
}.
Definition RequestSizeIniter (buffer_size max_body_size : Z) : request_sizes :=
  mkSizes buffer_size max_body_size.
Definition on_buffer_size (ov nv : Z) (s : request_sizes) : request_sizes :=
  mkSizes nv (s_http_request_max_body_size s).
Definition on_max_body_size (ov nv : Z) (s : request_sizes) : request_sizes :=
  mkSizes (s_http_request_buffer_size s) nv.

(** * Requests *)

(** The memory at the pointer [buffer + at]. *)
Definition at_ptr (buffer : text) (at_ : Z) : text := drop (Z.to_nat at_) buffer.

(** What the callbacks change: the request and [m_error]. *)
Abbreviation request_data := (HttpRequest * Z)%type.

(** The message of the warning is built too, and may throw. *)
Definition on_request_method (at_ : text) (len : Z) (d : request_data) : outcome request_data :=
  let! m := CharsToHttpMethod at_ in
  if m =? HIT_INVALID_METHOD then let! _ := std_string at_ len in Ret (fst d, 1000)
  else Ret (setMethod m (fst d), snd d).

Definition on_request_uri (d : request_data) : outcome request_data := Ret d.

Definition on_request_fragment (at_ : text) (len : Z) (d : request_data) : outcome request_data :=
  let! v := std_string at_ len in Ret (setFragment v (fst d), snd d).
Definition on_request_path (at_ : text) (len : Z) (d : request_data) : outcome request_data :=
  let! v := std_string at_ len in Ret (setPath v (fst d), snd d).
Definition on_request_query (at_ : text) (len : Z) (d : request_data) : outcome request_data :=
  let! v := std_string at_ len in Ret (setQuery v (fst d), snd d).

Definition on_request_version (at_ : text) (len : Z) (d : request_data) : outcome request_data :=
  if strncmp_eq at_ (str "HTTP/1.1") len then Ret (setVersion 17 (fst d), snd d)
  else if strncmp_eq at_ (str "HTTP/1.0") len then Ret (setVersion 16 (fst d), snd d)
  else let! _ := std_string at_ len in Ret (fst d, 1001).

Definition on_request_header_done (d : request_data) : outcome request_data := Ret d.

Definition on_request_http_field (field : text) (flen : Z) (value : text) (vlen : Z)
    (d : request_data) : outcome request_data :=
  let! k := std_string field flen in
  let! v := std_string value vlen in
  Ret (setHeader k v (fst d), snd d).

(** The callbacks the constructor installs. *)
Definition on_request (buffer : text) (c : call) (d : request_data) : outcome request_data :=
  match c with
  | call_request_method a n => on_request_method (at_ptr buffer a) n d
  | call_request_uri _ _ => on_request_uri d
  | call_fragment a n => on_request_fragment (at_ptr buffer a) n d
  | call_request_path a n => on_request_path (at_ptr buffer a) n d
  | call_query_string a n => on_request_query (at_ptr buffer a) n d
  | call_http_version a n => on_request_version (at_ptr buffer a) n d
  | call_header_done _ _ => on_request_header_done d
  | call_http_field f n v k => on_request_http_field (at_ptr buffer f) n (at_ptr buffer v) k d
  end.

Record HttpRequestParer := mkRequestParer {
  rp_parser : http_parser;
  rp_data : HttpRequest;
  rp_error : Z;
}.

(** [HttpRequestParer::HttpRequestParer], in the memory [mem]. *)
Definition HttpRequestParer_new (mem : http_parser) : HttpRequestParer :=
  mkRequestParer (http_parser_init mem) (HttpRequest_new 17 true) 0.

Definition setError (v : Z) (p : HttpRequestParer) : HttpRequestParer :=
  mkRequestParer (rp_parser p) (rp_data p) v.

(** [HttpRequestParer::execute] on the array [data]: the bytes read, the array
    after [memmove], and the parser. *)
Definition execute (data : text) (len : Z) (p : HttpRequestParer)
    : outcome (Z * text * HttpRequestParer) :=
  let! (offset, s, (r, e)) :=
    http_parser_execute (on_request data) data len 0 (rp_parser p) (rp_data p, rp_error p) in
  let! data := memmove_front data offset (len - offset) in
  Ret (offset, data, mkRequestParer s r e).

Definition isFinished (p : HttpRequestParer) : Z := http_parser_finish (rp_parser p).
Definition hasError (p : HttpRequestParer) : bool :=
  negb (rp_error p =? 0) || http_parser_has_error (rp_parser p).
Definition getContentLength (cast : text → option Z) (p : HttpRequestParer) : Z :=
  getAs cast (m_headers (rp_data p)) (str "content-length") 0.

(** * Responses *)

Abbreviation response_data := (HttpResponse * Z)%type.

Definition on_response_reason (at_ : text) (len : Z) (d : response_data) : outcome response_data :=
  let! v := std_string at_ len in Ret (response_setReason v (fst d), snd d).

Definition on_response_status (at_ : text) (d : response_data) : outcome response_data :=
  Ret (response_setStatus (atoi at_) (fst d), snd d).

Definition on_response_version (at_ : text) (len : Z) (d : response_data)
    : outcome response_data :=
  if strncmp_eq at_ (str "HTTP/1.1") len then Ret (response_setVersion 17 (fst d), snd d)
  else if strncmp_eq at_ (str "HTTP/1.0") len then Ret (response_setVersion 16 (fst d), snd d)
  else let! _ := std_string at_ len in Ret (fst d, 1001).

Definition on_response_chunk (d : response_data) : outcome response_data := Ret d.
Definition on_response_header_done (d : response_data) : outcome response_data := Ret d.
Definition on_response_last_chunk (d : response_data) : outcome response_data := Ret d.

(** A field without a name is an error, and is stored all the same. *)
Definition on_response_header_field (field : text) (flen : Z) (value : text) (vlen : Z)
    (d : response_data) : outcome response_data :=
  let e := if flen =? 0 then 1002 else snd d in
  let! k := std_string field flen in
  let! v := std_string value vlen in
  Ret (response_setHeader k v (fst d), e).

Definition on_response (buffer : text) (c : response_call) (d : response_data)
    : outcome response_data :=
  match c with
  | call_reason_phrase a n => on_response_reason (at_ptr buffer a) n d
  | call_status_code a _ => on_response_status (at_ptr buffer a) d
  | call_chunk_size _ _ => on_response_chunk d
  | call_version a n => on_response_version (at_ptr buffer a) n d
  | call_done _ _ => on_response_header_done d
  | call_last_chunk _ _ => on_response_last_chunk d
  | call_field f n v k => on_response_header_field (at_ptr buffer f) n (at_ptr buffer v) k d
  end.

Record HttpResponseParer := mkResponseParer {
  sp_parser : httpclient_parser;
  sp_data : HttpResponse;
  sp_error : Z;
}.

Definition HttpResponseParer_new (mem : httpclient_parser) : HttpResponseParer :=
  mkResponseParer (httpclient_parser_init mem) (HttpResponse_new 17 true) 0.

Definition response_setError (v : Z) (p : HttpResponseParer) : HttpResponseParer :=
  mkResponseParer (sp_parser p) (sp_data p) v.

(** [HttpResponseParer::execute]: the [int] result becomes a [size_t]. *)
Definition response_execute (data : text) (len : Z) (p : HttpResponseParer)
    : outcome (Z * text * HttpResponseParer) :=
  let! (rt, s, (r, e)) :=
    httpclient_parser_execute (on_response data) data len 0 (sp_parser p)
      (sp_data p, sp_error p) in
  let offset := u64 rt in
  let! data := memmove_front data offset (u64 (len - offset)) in
  Ret (offset, data, mkResponseParer s r e).

(** [httpclient_parser_is_finished], not [httpclient_parser_finish]. *)
Definition response_isFinished (p : HttpResponseParer) : bool :=
  httpclient_parser_is_finished (sp_parser p).
Definition response_hasError (p : HttpResponseParer) : bool :=
  negb (sp_error p =? 0) || httpclient_parser_has_error (sp_parser p).
Definition response_getContentLength (cast : text → option Z) (p : HttpResponseParer) : Z :=
  getAs cast (rs_headers (sp_data p)) (str "content-length") 0.
