(* ===== verification/Http11Run.v ===== *)
(** Runs of the request machine.

    How a run goes over a piece of text: one character, a loop that stays in a
    state, a piece of a URI with its escapes.  What the transitions do on a
    class of characters is decided by computing them on all 256 characters. *)

From S2P Require Import Prelude Http Ragel Http11Machine Http11Parser.
From Stdlib Require Import Ascii.

#[local] Open Scope Z_scope.

#[export] Instance action_eq_dec : EqDecision action.
Proof. solve_decision. Defined.

(** * Classes of characters *)

Definition all_ascii : list ascii := ascii_of_nat <$> seq 0 256.

Lemma all_ascii_In c : c ∈ all_ascii.
Proof.
  unfold all_ascii. rewrite <- (ascii_nat_embedding c). apply list_elem_of_fmap_2, elem_of_seq.
  pose proof (nat_ascii_bounded c). lia.
Qed.

Lemma ascii_check (P : ascii → bool) : forallb P all_ascii = true → ∀ c, P c = true.
Proof. rewrite forallb_forall. intros H c. apply H, list_elem_of_In, all_ascii_In. Qed.

Definition code (c : ascii) : Z := Z.of_N (N_of_ascii c).
Definition between (a b : Z) (c : ascii) : bool := (a <=? code c) && (code c <=? b).
Definition among (l : list Z) (c : ascii) : bool := existsb (Z.eqb (code c)) l.

(** The classes of the grammar (http11_parser.rl), after RFC 3986. *)
Definition alpha (c : ascii) : bool := between 65 90 c || between 97 122 c.
Definition digit (c : ascii) : bool := between 48 57 c.
Definition xdigit (c : ascii) : bool := digit c || between 65 70 c || between 97 102 c.
Definition unreserved (c : ascii) : bool := alpha c || digit c || among [45; 46; 95; 126] c.
Definition sub_delim (c : ascii) : bool := among [33; 36; 38; 39; 40; 41; 42; 43; 44; 59; 61] c.
Definition pchar (c : ascii) : bool :=
  between 128 255 c || unreserved c || sub_delim c || among [58; 64] c.
Definition path_char (c : ascii) : bool := pchar c || among [47] c.
Definition query_char (c : ascii) : bool := path_char c || among [63] c.

(** A name of a header: printable ASCII but no separator. *)
Definition separator (c : ascii) : bool :=
  among [40; 41; 60; 62; 64; 44; 59; 58; 92; 34; 47; 91; 93; 63; 61; 123; 125; 32; 9] c.
Definition token_char (c : ascii) : bool := between 33 126 c && negb (separator c).
(** A character of a header's value, and one it may start with. *)
Definition value_char (c : ascii) : bool := between 32 126 c || between 128 255 c.
Definition value_start (c : ascii) : bool := value_char c && negb (among [32] c).

(** Text of a URI over a class: its characters, and escapes. *)
Fixpoint uri_text (cls : ascii → bool) (s : text) : bool :=
  match s with
  | [] => true
  | c :: s' =>
      if among [37] c then
        match s' with
        | a :: b :: s'' => xdigit a && xdigit b && uri_text cls s''
        | _ => false
        end
      else cls c && uri_text cls s'
  end.

(** On every character of [cls] the state [n] does [l] and goes to [m]. *)
Definition class_check (cls : ascii → bool) (n : Z) (l : list action) (m : Z) : bool :=
  forallb (λ c, negb (cls c) ||
    (bool_decide (st_case n true (schar c) = Some (l, m)) &&
     bool_decide (st_case n false (schar c) = Some (l, m)))) all_ascii.

Lemma class_jump cls n l m :
  class_check cls n l m = true →
  ∀ rel c, cls c = true → st_case n rel (schar c) = Some (l, m).
Proof.
  intros H rel c Hc. pose proof (ascii_check _ H c) as Hb. cbv beta in Hb.
  rewrite Hc in Hb. cbn [negb orb] in Hb. apply andb_true_iff in Hb as [H1 H2].
  apply bool_decide_eq_true in H1, H2. by destruct rel.
Qed.

(** * Runs *)

Section run.
Context {D : Type} (on : call → D → outcome D) (pe : Z).

Abbreviation relaxed s := (negb (hp_uri_relaxed s =? 0)).

(** What no action changes. *)
Definition kept (s s' : http_parser) : Prop :=
  hp_uri_relaxed s' = hp_uri_relaxed s ∧ hp_nread s' = hp_nread s ∧ hp_cs s' = hp_cs s.

#[global] Instance kept_preorder : PreOrder kept.
Proof. unfold kept. split; [done|]. intros ? ? ? (? & ? & ?) (? & ? & ?). split_and!; congruence. Qed.

Lemma act_kept a p s d s' d' : act on a p pe s d = Ret (s', d') → kept s s'.
Proof.
  destruct a; cbn [act]; try (by intros [= <- _]);
    try (destruct (on _ _); cbn [obind]; by intros [= <- _]).
  destruct (_ || _); [by intros [= <- _]|].
  destruct (on _ _); cbn [obind]; by intros [= <- _].
Qed.

Lemma acts_kept l p s d s' d' : acts on l p pe s d = Ret (s', d') → kept s s'.
Proof.
  revert s d. induction l as [|a l IH]; intros s d; cbn [acts]; [by intros [= <- _]|].
  destruct (act on a p pe s d) as [[s1 d1]| |] eqn:E; try done. cbn [obind]. intros H.
  etrans; [by eapply act_kept|by eapply IH].
Qed.

Lemma run_kept rest p n s d p' n' s' d' :
  run on rest p pe n s d = Ret (p', n', s', d') → kept s s'.
Proof.
  revert p n s d. induction rest as [|c rest IH]; intros p n s d; cbn [run]; [by intros [= _ _ <- _]|].
  destruct (st_case _ _ _) as [[l m]|]; [|by intros [= _ _ <- _]].
  destruct (m =? 0); [by intros [= _ _ <- _]|].
  destruct (acts on l p pe s d) as [[s1 d1]| |] eqn:E; try done. cbn [obind].
  apply acts_kept in E. destruct (breaks l); [by intros [= _ _ <- _]|].
  intros H. etrans; [done|by eapply IH].
Qed.

(** One character. *)
Lemma run_step c rest p n l m s d :
  st_case n (relaxed s) (schar c) = Some (l, m) → m ≠ 0 → breaks l = false →
  run on (c :: rest) p pe n s d =
    let! (s, d) := acts on l p pe s d in run on rest (p + 1) pe m s d.
Proof. intros Hj Hm Hb. cbn [run]. rewrite Hj. apply Z.eqb_neq in Hm. by rewrite Hm, Hb. Qed.

(** [n0] does [l] and then what [n] does. *)
Lemma run_enter c rest p n0 n l m s d :
  st_case n0 (relaxed s) (schar c) = Some (l, m) →
  st_case n (relaxed s) (schar c) = Some ([], m) → m ≠ 0 → breaks l = false →
  run on (c :: rest) p pe n0 s d =
    let! (s, d) := acts on l p pe s d in run on (c :: rest) p pe n s d.
Proof.
  intros H0 Hn Hm Hb. rewrite (run_step _ _ _ _ _ _ _ _ H0) by done.
  destruct (acts on l p pe s d) as [[s1 d1]| |] eqn:E; try done. cbn [obind].
  apply acts_kept in E as (E & _). rewrite (run_step _ _ _ n [] m) by (by rewrite ?E). done.
Qed.

(** A loop without actions. *)
Lemma run_loop cls n w rest p s d :
  class_check cls n [] n = true → n ≠ 0 → forallb cls w = true →
  run on (w ++ rest) p pe n s d = run on rest (p + Zlen w) pe n s d.
Proof.
  intros Hc Hn. revert p. induction w as [|c w IH]; intros p Hw.
  { f_equal. unfold Zlen. simpl. lia. }
  cbn [forallb] in Hw. apply andb_true_iff in Hw as [H1 H2]. cbn [app].
  rewrite (run_step _ _ _ _ [] n) by (by try apply (class_jump cls)). cbn [acts obind].
  rewrite IH by done. f_equal. unfold Zlen. simpl. lia.
Qed.

(** A text of a URI: the state loops on the class, and an escape takes it
    through two states and back. *)
Lemma run_uri cls n n1 n2 w rest p s d :
  class_check cls n [] n = true → class_check (among [37]) n [] n1 = true →
  class_check xdigit n1 [] n2 = true → class_check xdigit n2 [] n = true →
  n ≠ 0 → n1 ≠ 0 → n2 ≠ 0 → uri_text cls w = true →
  run on (w ++ rest) p pe n s d = run on rest (p + Zlen w) pe n s d.
Proof.
  intros Hc H37 Hx1 Hx2 Hn Hn1 Hn2. revert p.
  induction w as [w IH] using (induction_ltof1 _ length). intros p Hw.
  destruct w as [|c w]; [f_equal; unfold Zlen; simpl; lia|]. cbn [uri_text] in Hw.
  destruct (among [37] c) eqn:E37.
  - destruct w as [|a [|b w]]; try done.
    apply andb_true_iff in Hw as [[Ha Hb]%andb_true_iff Hw]. cbn [app].
    rewrite (run_step _ _ _ _ [] n1) by (by try apply (class_jump _ _ _ _ H37)).
    cbn [acts obind]. rewrite (run_step _ _ _ _ [] n2) by (by try apply (class_jump _ _ _ _ Hx1)).
    cbn [acts obind]. rewrite (run_step _ _ _ _ [] n) by (by try apply (class_jump _ _ _ _ Hx2)).
    cbn [acts obind]. rewrite IH; [|unfold ltof; simpl; lia|done].
    f_equal. unfold Zlen. simpl. lia.
  - apply andb_true_iff in Hw as [H1 Hw]. cbn [app].
    rewrite (run_step _ _ _ _ [] n) by (by try apply (class_jump _ _ _ _ Hc)).
    cbn [acts obind]. rewrite IH; [|unfold ltof; simpl; lia|done].
    f_equal. unfold Zlen. simpl. lia.
Qed.

End run.
