(* ===== verification/Http11Safety.v ===== *)
(** The request machine stays inside its buffer.

    The marks are behind the current character; in the states of a header's
    value the name lies behind it too, and in the states of a query its start
    does; in the states of the method the mark is the start of the buffer.  That every transition keeps this is checked by computing all of
    them on all characters. *)

From S2P Require Import Prelude Http Ragel Http11Machine Http11Parser Http11Run.
From Stdlib Require Import Ascii.

#[local] Open Scope Z_scope.

(** States after a header's name, inside a query, and inside the method. *)
Definition value_state (n : Z) : bool := (n =? 15) || (n =? 16).
Definition query_state (n : Z) : bool := (n =? 30) || (n =? 31) || (n =? 32).
Definition method_state (n : Z) : bool := (n =? 2) || ((175 <=? n) && (n <=? 193)).
Definition is_state (n : Z) : bool := (1 <=? n) && (n <=? 349).

(** What is known of the name, of the query's start and of the mark, through
    actions; [first]: the character is the first of the buffer. *)
Record known := mkKnown { k_name : bool; k_query : bool; k_zero : bool }.
Definition flow (first : bool) (a : action) (f : known) : option known :=
  match a with
  | mark | start_value => Some (mkKnown (k_name f) (k_query f) first)
  | write_field => Some (mkKnown true (k_query f) (k_zero f))
  | start_field => Some (mkKnown false (k_query f) (k_zero f))
  | start_query => Some (mkKnown (k_name f) true (k_zero f))
  | write_value => if k_name f then Some f else None
  | query_string => if k_query f then Some f else None
  | request_method => if k_zero f then Some f else None
  | _ => Some f
  end.
Fixpoint flows (first : bool) (l : list action) (f : known) : option known :=
  match l with
  | [] => Some f
  | a :: l => match flow first a f with Some f => flows first l f | None => None end
  end.
(** What is known in a state; the start state has only the first character. *)
Definition known_in (n : Z) : known := mkKnown (value_state n) (query_state n) (method_state n).
Definition start_state (n : Z) : bool := n =? http_parser_start.

Definition sound_jump (n : Z) (t : option (list action * Z)) : bool :=
  match t with
  | None => false
  | Some (l, m) =>
      (m =? 0) ||
      (is_state m && negb (start_state m) &&
       match flows (start_state n) l (known_in n) with
       | Some f => implb (value_state m) (k_name f) && implb (query_state m) (k_query f) &&
                   implb (method_state m) (k_zero f)
       | None => false
       end)
  end.

Definition all_states : list Z := Z.of_nat <$> seq 1 349.

Lemma sound_jumps :
  forallb (λ n, forallb (λ c, sound_jump n (st_case n true (schar c)) &&
                              sound_jump n (st_case n false (schar c))) all_ascii) all_states
  = true.
Proof. by vm_compute. Qed.

Lemma all_states_In n : is_state n = true → In n all_states.
Proof.
  intros Hn. apply list_elem_of_In. unfold all_states, is_state in *.
  rewrite <- (Z2Nat.id n) by lia. apply list_elem_of_fmap_2, elem_of_seq. lia.
Qed.

Lemma jump_sound n rel c : is_state n = true → sound_jump n (st_case n rel (schar c)) = true.
Proof.
  intros Hn. pose proof sound_jumps as H. rewrite forallb_forall in H.
  specialize (H n (all_states_In n Hn)). rewrite forallb_forall in H.
  specialize (H c (proj1 (list_elem_of_In _ _) (all_ascii_In c))). cbv beta in H.
  apply andb_true_iff in H as [H1 H2]. by destruct rel.
Qed.

(** * The invariant *)

Record marks_ok (f : known) (p pe : Z) (s : http_parser) : Prop := {
  ok_mark : 0 ≤ hp_mark s ≤ p ∧ hp_mark s < pe;
  ok_field : 0 ≤ hp_field_start s ≤ p ∧ hp_field_start s < pe;
  ok_flen : 0 ≤ hp_field_len s ≤ p;
  ok_name : k_name f = true → hp_field_start s + hp_field_len s ≤ p;
  ok_query : k_query f = true → 0 ≤ hp_query_start s ≤ p;
  ok_body : 0 ≤ hp_body_start s ≤ pe;
  ok_zero : k_zero f = true → hp_mark s = 0;
}.

(** The bytes a callback may read lie in the buffer; the method starts it. *)
Definition in_range (pe : Z) (c : call) : Prop :=
  match c with
  | call_http_field f n v k => 0 ≤ f ∧ 0 ≤ n ∧ f + n ≤ pe ∧ 0 ≤ v ∧ 0 ≤ k ∧ v + k ≤ pe
  | call_request_method a n => a = 0 ∧ 0 ≤ n ∧ a + n ≤ pe
  | call_request_uri a n | call_fragment a n
  | call_request_path a n | call_query_string a n | call_http_version a n
  | call_header_done a n => 0 ≤ a ∧ 0 ≤ n ∧ a + n ≤ pe
  end.

Section safety.
Context {D : Type} (on : call → D → outcome D) (pe : Z).
Hypothesis pe_small : pe < 2 ^ 31.
Hypothesis on_ok : ∀ c d, in_range pe c → ∃ d', on c d = Ret d'.

Lemma LEN_small a p : 0 ≤ a ≤ p → p ≤ pe → LEN a p = p - a.
Proof. intros. unfold LEN, u64. apply wrapU_id. unfold in_u. lia. Qed.

Lemma act_ok first a f f' p s d :
  flow first a f = Some f' → (first = true → p = 0) → 0 ≤ p < pe → marks_ok f p pe s →
  ∃ s' d', act on a p pe s d = Ret (s', d') ∧ marks_ok f' p pe s'.
Proof.
  intros Hf Hfirst Hp [Hm Hfs Hfl Hn Hq Hb Hz].
  assert (LEN (hp_mark s) p = p - hp_mark s) as E1 by (apply LEN_small; lia).
  assert (LEN (hp_field_start s) p = p - hp_field_start s) as E2 by (apply LEN_small; lia).
  destruct f as [v q z]. cbn [k_name k_query k_zero] in *. destruct a; cbn [act flow k_name k_query k_zero] in *;
    try (injection Hf as <-; eexists _, _; split; [reflexivity|];
         split; cbn; rewrite ?E2; intros; first [lia | by auto | done]);
    try (match type of Hf with (if ?b then _ else _) = _ =>
           destruct b; [|done]; try specialize (Hn eq_refl); try specialize (Hq eq_refl);
           try specialize (Hz eq_refl) end);
    try (injection Hf as <-);
    try (match goal with |- context [on ?c d] => destruct (on_ok c d) as [d' ->] end;
         [cbn; rewrite ?E1; try rewrite LEN_small by lia; lia|]; cbn [obind]; eexists _, _;
         split; [reflexivity|]; split; cbn; intros; first [lia | by auto | done]).
  destruct (_ || _).
  - eexists _, _. split; [reflexivity|]. split; cbn; intros; first [lia | by auto | done].
  - match goal with |- context [on ?c d] => destruct (on_ok c d) as [d' ->] end.
    { cbn. unfold u64. rewrite wrapU_id by (unfold in_u; lia). lia. }
    cbn [obind]. eexists _, _. split; [reflexivity|]. split; cbn; intros; first [lia | by auto | done].
Qed.

Lemma acts_ok first l f f' p s d :
  flows first l f = Some f' → (first = true → p = 0) → 0 ≤ p < pe → marks_ok f p pe s →
  ∃ s' d', acts on l p pe s d = Ret (s', d') ∧ marks_ok f' p pe s'.
Proof.
  intros Hf Hfirst Hp. revert f s d Hf. induction l as [|a l IH]; intros f s d Hf Hs; cbn [flows acts] in *.
  { injection Hf as <-. by exists s, d. }
  destruct (flow first a f) as [f1|] eqn:E; [|done].
  destruct (act_ok first a f f1 p s d E Hfirst Hp Hs) as (s1 & d1 & -> & H1). cbn [obind]. by apply (IH f1).
Qed.

Lemma marks_ok_weaken f f' p p' s :
  marks_ok f p pe s → p ≤ p' → (k_name f' = true → k_name f = true) →
  (k_query f' = true → k_query f = true) → (k_zero f' = true → k_zero f = true) →
  marks_ok f' p' pe s.
Proof.
  intros [Hm Hfs Hfl Hn Hq Hb Hz] Hp Hv Hq' Hz'. split; try lia; [| |by auto].
  - intros H. specialize (Hn (Hv H)). lia.
  - intros H. specialize (Hq (Hq' H)). lia.
Qed.

Definition nothing_known : known := mkKnown false false false.

Lemma run_ok rest p n s d :
  is_state n = true → (start_state n = true → p = 0) → 0 ≤ p → p + Zlen rest = pe → 0 < pe →
  marks_ok (known_in n) p pe s →
  ∃ p' n' s' d', run on rest p pe n s d = Ret (p', n', s', d') ∧
    p ≤ p' ≤ pe ∧ (n' = 0 ∨ is_state n' = true) ∧ marks_ok nothing_known pe pe s'.
Proof.
  revert p n s d. induction rest as [|c rest IH]; intros p n s d Hn H0 Hp Hpe Hpos Hs; cbn [run].
  { unfold Zlen in Hpe. simpl in Hpe. eexists _, _, _, _. split; [reflexivity|].
    split; [lia|]. split; [by right|]. apply (marks_ok_weaken _ _ p _ _ Hs); [lia|done..]. }
  assert (p + 1 + Zlen rest = pe) as Hpe' by (unfold Zlen in *; simpl in Hpe; lia).
  pose proof (Zlen_nonneg rest).
  pose proof (jump_sound n (negb (hp_uri_relaxed s =? 0)) c Hn) as Hj.
  destruct (st_case n _ (schar c)) as [[l m]|]; [|done]. cbn [sound_jump] in Hj.
  destruct (m =? 0) eqn:Em; cbn [orb] in Hj.
  { eexists _, _, _, _. split; [reflexivity|]. split; [lia|]. split; [by left|].
    apply (marks_ok_weaken _ _ p _ _ Hs); [lia|done..]. }
  apply andb_true_iff in Hj as [[Hm Hm1]%andb_true_iff Hj].
  destruct (flows _ l _) as [f|] eqn:Ef; [|done].
  apply andb_true_iff in Hj as [[Hv Hq]%andb_true_iff Hz].
  destruct (acts_ok _ l _ _ p s d Ef H0) as (s1 & d1 & -> & H1); [lia|done|]. cbn [obind].
  destruct (breaks l).
  { eexists _, _, _, _. split; [reflexivity|]. split; [lia|]. split; [by right|].
    apply (marks_ok_weaken _ _ p _ _ H1); [lia|done..]. }
  destruct (IH (p + 1) m s1 d1) as (p' & n' & s' & d' & -> & Hp' & Hn' & Hs');
    [done|by apply negb_true_iff in Hm1 as ->|lia|lia|done| |].
  { apply (marks_ok_weaken _ _ p _ _ H1); [lia|..]; cbn [known_in k_name k_query k_zero];
      intros E; [rewrite E in Hv|rewrite E in Hq|rewrite E in Hz]; by destruct f as [[] [] []]. }
  eexists _, _, _, _. split; [reflexivity|]. split; [lia|done].
Qed.

(** [http_parser_execute] returns, on any bytes. *)
Lemma execute_ok buffer s d :
  pe ≤ Zlen buffer → 0 < pe → is_state (hp_cs s) = true → query_state (hp_cs s) = false →
  0 ≤ hp_body_start s ≤ pe →
  ∃ n s' d', http_parser_execute on buffer pe 0 s d = Ret (n, s', d') ∧
    0 ≤ n ≤ pe ∧ (hp_cs s' = 0 ∨ is_state (hp_cs s') = true).
Proof.
  intros Hpe Hpos Hcs Hq Hb. unfold http_parser_execute.
  destruct (Z.eqb_spec pe 0); [lia|]. cbn zeta.
  set (s0 := with_nread 0 _).
  assert (assert_that (0 <=? pe) = Ret tt) as -> by (unfold assert_that; by rewrite (proj2 (Z.leb_le 0 pe)) by lia).
  cbn [obind].
  assert (assert_that (pe - 0 =? i32 (i32 pe - i32 0)) = Ret tt) as ->.
  { unfold assert_that, i32. rewrite !(wrapS_id 32) by (try rewrite !(wrapS_id 32); unfold in_s; lia).
    by rewrite Z.eqb_refl. }
  cbn [obind]. change (Z.to_nat 0) with 0%nat. rewrite drop_0.
  assert (Zlen (take (Z.to_nat pe) buffer) = pe) as Htk
    by (unfold Zlen in *; rewrite length_take; lia).
  destruct (run_ok (take (Z.to_nat pe) buffer) 0 (hp_cs s) s0 d) as (p' & n' & s' & d' & Hrun & Hp' & Hn' & Hs');
    [done|done|lia|lia|lia| |].
  { split; cbn; try lia; rewrite ?Hq; try done; lia. }
  change (hp_cs s0) with (hp_cs s). rewrite Hrun. cbn [obind].
  destruct Hs' as [Hm Hf Hfl _ _ Hbd _].
  assert (∃ s2, (if negb (http_parser_has_error s') then with_cs n' s' else s') = s2 ∧
    hp_mark s2 = hp_mark s' ∧ hp_field_start s2 = hp_field_start s' ∧
    hp_field_len s2 = hp_field_len s' ∧ hp_body_start s2 = hp_body_start s' ∧
    hp_nread s2 = hp_nread s' ∧ (hp_cs s2 = 0 ∨ is_state (hp_cs s2) = true))
    as (s2 & -> & E1 & E2 & E3 & E4 & E5 & Hcs2).
  { unfold http_parser_has_error. destruct (Z.eqb_spec (hp_cs s') http_parser_error) as [E|E];
      eexists; (split; [reflexivity|]); repeat split; [by left|done]. }
  assert (hp_nread s' = 0) as Hnr by (by destruct (run_kept _ _ _ _ _ _ _ _ _ _ _ Hrun) as (_ & -> & _)).
  replace (hp_nread s2 + (p' - 0)) with p' by lia.
  unfold u64. rewrite wrapU_id by (unfold in_u; lia).
  cbn [hp_nread hp_mark hp_field_start hp_field_len hp_body_start with_nread].
  rewrite E1, E2, E3, E4. unfold assert_that.
  rewrite !(proj2 (Z.leb_le _ _)), !(proj2 (Z.ltb_lt _ _)) by lia. cbn [obind].
  eexists _, _, _. split; [reflexivity|]. split; [lia|]. done.
Qed.

End safety.

(** ** The start of the body *)

(** Only [done] sets it, and it goes to a final state. *)
Lemma done_jumps :
  forallb (λ n, forallb (λ c, match st_case n true (schar c), st_case n false (schar c) with
                              | Some (l, m), Some (l', m') =>
                                  implb (breaks l) (http_parser_first_final <=? m) &&
                                  implb (breaks l') (http_parser_first_final <=? m')
                              | _, _ => false
                              end) all_ascii) all_states = true.
Proof. by vm_compute. Qed.

Lemma jump_done n rel c l m :
  is_state n = true → st_case n rel (schar c) = Some (l, m) → breaks l = true →
  http_parser_first_final ≤ m.
Proof.
  intros Hn Hj Hb. pose proof done_jumps as H. rewrite forallb_forall in H.
  specialize (H n (all_states_In n Hn)). rewrite forallb_forall in H.
  specialize (H c (proj1 (list_elem_of_In _ _) (all_ascii_In c))). cbv beta in H.
  destruct (st_case n true (schar c)) as [[l1 m1]|] eqn:E1; [|done].
  destruct (st_case n false (schar c)) as [[l2 m2]|] eqn:E2; [|done].
  apply andb_true_iff in H as [H1 H2].
  destruct rel; [rewrite E1 in Hj|rewrite E2 in Hj]; injection Hj as -> ->;
    [rewrite Hb in H1|rewrite Hb in H2]; by apply Z.leb_le.
Qed.

Section body.
Context {D : Type} (on : call → D → outcome D) (pe : Z).

Lemma acts_body l p s d s' d' :
  acts on l p pe s d = Ret (s', d') → breaks l = false → hp_body_start s' = hp_body_start s.
Proof.
  revert s d. induction l as [|a l IH]; intros s d; cbn [acts]; [by intros [= <- _]|].
  destruct (act on a p pe s d) as [[s1 d1]| |] eqn:E; try done. cbn [obind].
  unfold breaks. cbn [existsb]. intros H [Ha Hl]%orb_false_iff. rewrite (IH _ _ H Hl).
  revert E. destruct a; try done; cbn [act];
    first [by intros [= <- _] | destruct (on _ _); [|done|done]; cbn [obind]; by intros [= <- _]].
Qed.

Lemma run_body rest p n s d p' n' s' d' :
  is_state n = true → run on rest p pe n s d = Ret (p', n', s', d') →
  hp_body_start s' = hp_body_start s ∨ http_parser_first_final ≤ n'.
Proof.
  revert p n s d. induction rest as [|c rest IH]; intros p n s d Hn; cbn [run].
  { intros [= _ _ <- _]. by left. }
  pose proof (jump_sound n (negb (hp_uri_relaxed s =? 0)) c Hn) as Hj.
  destruct (st_case n _ (schar c)) as [[l m]|] eqn:Ej; [|done]. cbn [sound_jump] in Hj.
  destruct (m =? 0); [intros [= _ _ <- _]; by left|].
  apply andb_true_iff in Hj as [[Hm _]%andb_true_iff _].
  destruct (acts on l p pe s d) as [[s1 d1]| |] eqn:Ea; try done. cbn [obind].
  destruct (breaks l) eqn:Eb.
  - intros [= _ <- _ _]. right. by apply (jump_done _ _ _ _ _ Hn Ej Eb).
  - intros H. rewrite <- (acts_body _ _ _ _ _ _ Ea Eb). by eapply IH.
Qed.

End body.

(** [http_parser_execute] leaves the start of the body alone up to the end of
    the message. *)
Lemma execute_body {D} (on : call → D → outcome D) buffer pe s d n s' d' :
  is_state (hp_cs s) = true → http_parser_execute on buffer pe 0 s d = Ret (n, s', d') →
  hp_body_start s' = hp_body_start s ∨ http_parser_first_final ≤ hp_cs s'.
Proof.
  intros Hs. unfold http_parser_execute. destruct (pe =? 0); [intros [= _ <- _]; by left|].
  cbn zeta. destruct (assert_that _); try done. cbn [obind].
  destruct (assert_that _); try done. cbn [obind].
  destruct (run on _ _ _ _ _ _) as [[[[p n0] s1] d1]| |] eqn:E; try done. cbn [obind].
  pose proof (run_kept _ _ _ _ _ _ _ _ _ _ _ E) as (_ & _ & Hk).
  apply run_body in E; [|done]. cbn in E, Hk.
  unfold http_parser_has_error. rewrite Hk.
  destruct (Z.eqb_spec (hp_cs s) http_parser_error) as [E0|_].
  { rewrite E0 in Hs. by vm_compute in Hs. }
  cbn [negb]. repeat (destruct (assert_that _); [|done|done]; cbn [obind]).
  by intros [= _ <- _].
Qed.
