(* ===== verification/Decimal.v ===== *)
(** Decimal numbers: what [os << n] prints is digits, and they read back. *)

From S2P Require Import Prelude Http CString Http11Run.
From Stdlib Require Import Ascii.
From stdpp Require Import pretty.

#[local] Open Scope Z_scope.

Lemma digit_char_value n :
  (n < 10)%N → digit_value (pretty_N_char n) = Some (Z.of_N n) ∧ digit (pretty_N_char n) = true.
Proof.
  intros Hn. assert (n = 0 ∨ n = 1 ∨ n = 2 ∨ n = 3 ∨ n = 4 ∨ n = 5 ∨ n = 6 ∨ n = 7 ∨ n = 8 ∨ n = 9)%N
    as H by lia.
  repeat (destruct H as [-> |H]; [by vm_compute|]). subst n. by vm_compute.
Qed.

Lemma digits_go x s rest :
  digits 10 0 (str (pretty_N_go x s) ++ rest) = digits 10 (Z.of_N x) (str s ++ rest).
Proof.
  revert s. induction (N.lt_wf_0 x) as [x _ IH]. intros s.
  destruct (decide (0 < x)%N) as [Hx|Hx].
  - rewrite pretty_N_go_step by done. rewrite IH by (by apply N.div_lt).
    destruct (digit_char_value (x `mod` 10)) as [E _]; [by apply N.mod_lt|].
    cbn [str String.list_ascii_of_string app digits]. rewrite E.
    destruct (Z.ltb_spec (Z.of_N (x `mod` 10)) 10) as [_|Hge].
    + f_equal. rewrite N2Z.inj_div, N2Z.inj_mod. pose proof (Z.div_mod (Z.of_N x) 10). lia.
    + pose proof (N.mod_lt x 10). lia.
  - assert (x = 0)%N as -> by lia. by rewrite pretty_N_go_0.
Qed.

(** The digits of a printed number give the number. *)
Lemma digits_dec n rest :
  0 ≤ n → (∀ c s, rest = c :: s → digit_value c = None) →
  digits 10 0 (dec n ++ rest) = n.
Proof.
  intros Hn Hr. unfold dec, pretty, pretty_N.
  assert (∀ acc, digits 10 acc rest = acc) as Hend.
  { destruct rest as [|c s]; [done|]. intros acc. cbn [digits]. by rewrite (Hr c s). }
  destruct (decide _) as [E|E].
  - change (digits 10 0 rest = n). rewrite Hend. lia.
  - rewrite digits_go. cbn [str String.list_ascii_of_string app]. rewrite Hend. lia.
Qed.

Lemma dec_digits n : forallb digit (dec n) = true ∧ dec n ≠ [].
Proof.
  unfold dec, pretty, pretty_N. destruct (decide _) as [E|E]; [by vm_compute|].
  assert (∀ x s, forallb digit (str s) = true → (0 < x)%N →
    forallb digit (str (pretty_N_go x s)) = true ∧ str (pretty_N_go x s) ≠ []) as Hgo;
    [|apply Hgo; [done|lia]].
  intros x. induction (N.lt_wf_0 x) as [x _ IH]. intros s Hs Hx.
  rewrite pretty_N_go_step by done.
  destruct (digit_char_value (x `mod` 10)) as [_ Hd]; [by apply N.mod_lt|].
  assert (forallb digit (str (String (pretty_N_char (x `mod` 10)) s)) = true) as Hs'
    by (change (digit (pretty_N_char (x `mod` 10)) && forallb digit (str s) = true);
        by rewrite Hd, Hs).
  destruct (decide (0 < x `div` 10)%N) as [Hp|Hp].
  - apply IH; [by apply N.div_lt|done|done].
  - apply N.nlt_ge, N.le_0_r in Hp. rewrite Hp. by rewrite pretty_N_go_0.
Qed.
