(* ===== verification/RequestRun.v ===== *)
(** What the request parser does on each piece of a request: the callbacks of
    http_parser.cpp on a run of the machine.

    The buffer is written as [pre ++ piece ++ rest], with the machine at the
    start of the piece.  After the piece the request has its new value and the
    parser differs in its marks only ([frame]). *)

From S2P Require Import Prelude Http HttpTheorems CString Ragel Http11Machine Http11Parser.
From S2P Require Import Http11Run HttpParser.
From Stdlib Require Import Ascii.

#[local] Open Scope string_scope.
#[local] Open Scope list_scope.
#[local] Open Scope Z_scope.

Definition frame (s s' : http_parser) : Prop := ∃ m f fl q, s' = with_marks m f fl q s.

#[global] Instance frame_preorder : PreOrder frame.
Proof.
  split.
  - intros s. exists (hp_mark s), (hp_field_start s), (hp_field_len s), (hp_query_start s).
    by destruct s.
  - intros s1 s2 s3 (m & f & fl & q & ->) (m' & f' & fl' & q' & ->). by exists m', f', fl', q'.
Qed.

Lemma frame_marks m f fl q s : frame s (with_marks m f fl q s).
Proof. by exists m, f, fl, q. Qed.

Lemma frame_relaxed s s' : frame s s' → hp_uri_relaxed s' = hp_uri_relaxed s.
Proof. by intros (? & ? & ? & ? & ->). Qed.

#[export] Hint Resolve frame_marks : cpp.

(** ** Words the machine reads without an action *)

Fixpoint walk (n : Z) (w : text) : option Z :=
  match w with
  | [] => Some n
  | c :: w =>
      match st_case n true (schar c), st_case n false (schar c) with
      | Some ([], m), Some ([], m') =>
          if (m =? m') && negb (m =? 0) then walk m w else None
      | _, _ => None
      end
  end.

Lemma run_walk {D} (on : call → D → outcome D) pe n w m rest p s d :
  walk n w = Some m →
  run on (w ++ rest) p pe n s d = run on rest (p + Zlen w) pe m s d.
Proof.
  revert n p. induction w as [|c w IH]; intros n p; cbn [walk].
  { intros [= ->]. f_equal. unfold Zlen. simpl. lia. }
  destruct (st_case n true (schar c)) as [[[|] m1]|] eqn:E1; try done.
  destruct (st_case n false (schar c)) as [[[|] m2]|] eqn:E2; try done.
  destruct ((m1 =? m2) && negb (m1 =? 0)) eqn:E; [|done]. intros Hw.
  apply andb_true_iff in E as [->%Z.eqb_eq Hne%negb_true_iff%Z.eqb_neq].
  cbn [app]. rewrite (run_step _ _ _ _ _ _ [] m2) by (try done; by destruct (negb _)).
  cbn [acts obind]. rewrite (IH _ _ Hw). f_equal. unfold Zlen. simpl. lia.
Qed.

(** * Pieces of the buffer *)

Lemma Zlen_cons {A} (x : A) l : Zlen (x :: l) = 1 + Zlen l.
Proof. unfold Zlen. simpl. lia. Qed.

Lemma at_ptr_app (pre post : text) : at_ptr (pre ++ post) (Zlen pre) = post.
Proof. unfold at_ptr, Zlen. by rewrite Nat2Z.id, drop_app_length. Qed.

Lemma std_string_mid (pre w post : text) :
  Zlen (pre ++ w ++ post) < 2 ^ 31 →
  std_string (at_ptr (pre ++ w ++ post) (Zlen pre)) (LEN (Zlen pre) (Zlen pre + Zlen w)) = Ret w.
Proof.
  intros Hl. rewrite !Zlen_app in Hl. pose proof (Zlen_nonneg pre).
  pose proof (Zlen_nonneg w). pose proof (Zlen_nonneg post). unfold LEN.
  replace (Zlen pre + Zlen w - Zlen pre) with (Zlen w) by lia. unfold u64.
  rewrite wrapU_id by (unfold in_u; lia). rewrite at_ptr_app. unfold std_string.
  rewrite Zlen_app. destruct (Z.ltb_spec (2 ^ 63 - 2) (Zlen w)); [lia|].
  destruct (Z.ltb_spec (Zlen w + Zlen post) (Zlen w)); [lia|].
  unfold Zlen. rewrite Nat2Z.id. by rewrite take_app_length.
Qed.

Section pieces.
Context (buffer : text) (pe : Z).
(** What the array holds after the bytes that are parsed. *)
Context (after : text).
Hypothesis small : Zlen buffer < 2 ^ 31.

Abbreviation RUN := (run (on_request buffer)).

(** A piece of the buffer, as a callback receives it. *)
Lemma buffer_piece pre w post :
  buffer = pre ++ w ++ post →
  std_string (at_ptr buffer (Zlen pre)) (LEN (Zlen pre) (Zlen pre + Zlen w)) = Ret w.
Proof. intros E. rewrite E in small |- *. by apply std_string_mid. Qed.

(** One character of a class, with its actions. *)
Lemma run_char cls c rest p n l m s d :
  class_check cls n l m = true → cls c = true → m ≠ 0 → breaks l = false →
  RUN (c :: rest) p pe n s d =
    let! (s, d) := acts (on_request buffer) l p pe s d in RUN rest (p + 1) pe m s d.
Proof. intros Hc Hcl Hm Hb. apply run_step; [|done|done]. by apply (class_jump cls). Qed.

(** ** A header line *)

Definition header_line (name sp value : text) : text := name ++ str ":" ++ sp ++ value ++ crlf.

Definition wf_name (name : text) : bool :=
  match name with [] => false | _ => forallb token_char name end.
Definition wf_value (value : text) : bool :=
  match value with [] => true | c :: _ => value_start c && forallb value_char value end.

Lemma run_name (pre : text) name rest s d :
  wf_name name = true →
  ∃ s', frame s s' ∧ hp_field_start s' = Zlen pre ∧
    hp_field_len s' = LEN (Zlen pre) (Zlen pre + Zlen name) ∧
    RUN (name ++ str ":" ++ rest) (Zlen pre) pe 13 s d =
      RUN rest (Zlen pre + Zlen name + 1) pe 15 s' d.
Proof.
  intros Hw. destruct name as [|c name]; [done|].
  cbn [wf_name forallb] in Hw. apply andb_true_iff in Hw as [Hc Hw]. cbn [app].
  rewrite (run_char token_char _ _ _ 13 [start_field] 14) by (by vm_compute || done).
  cbn [acts act obind]. rewrite (run_loop _ _ token_char) by (by vm_compute || done).
  change (str ":" ++ rest) with (":"%char :: rest).
  rewrite (run_char (among [58]) _ _ _ 14 [write_field] 15) by (by vm_compute || done).
  cbn [acts act obind]. eexists. split; [|split; [|split]]; [..|f_equal].
  - eexists _, _, _, _. reflexivity.
  - done.
  - cbn. rewrite Zlen_cons. f_equal. lia.
  - rewrite Zlen_cons. lia.
Qed.

(** The value, after the blanks [sp]. *)
Lemma run_value q0 value rest s d :
  wf_value value = true →
  ∃ s', frame s s' ∧ hp_field_start s' = hp_field_start s ∧ hp_field_len s' = hp_field_len s ∧
    RUN (value ++ crlf ++ rest) q0 pe 15 s d =
      let! d := on_request buffer (call_http_field (hp_field_start s) (hp_field_len s) q0
                                     (LEN q0 (q0 + Zlen value))) d in
      RUN rest (q0 + Zlen value + 2) pe 13 s' d.
Proof.
  intros Hw. change (crlf ++ rest) with (CR :: LF :: rest).
  destruct value as [|c value].
  - cbn [app]. rewrite (run_char (among [13]) _ _ _ 15 [start_value; write_value] 17)
      by (by vm_compute || done).
    cbn [acts act obind hp_mark hp_field_start hp_field_len hp_query_start with_marks].
    eexists. split; [apply frame_marks|]. split; [|split]; [..|]; [reflexivity|reflexivity|].
    replace (q0 + Zlen []) with q0 by (unfold Zlen; simpl; lia).
    destruct (on_request _ _ _) as [d'| |]; [|done|done]. cbn [obind].
    rewrite (run_char (among [10]) _ _ _ 17 [] 13) by (by vm_compute || done).
    cbn [acts obind]. f_equal. lia.
  - cbn [wf_value forallb] in Hw. apply andb_true_iff in Hw as [Hc Hw].
    apply andb_true_iff in Hw as [_ Hw]. cbn [app].
    rewrite (run_char value_start _ _ _ 15 [start_value] 16) by (by vm_compute || done).
    cbn [acts act obind]. rewrite (run_loop _ _ value_char) by (by vm_compute || done).
    rewrite (run_char (among [13]) _ _ _ 16 [write_value] 17) by (by vm_compute || done).
    cbn [acts act obind hp_mark hp_field_start hp_field_len hp_query_start with_marks].
    eexists. split; [apply frame_marks|]. split; [|split]; [reflexivity|reflexivity|].
    rewrite Zlen_cons. replace (q0 + (1 + Zlen value)) with (q0 + 1 + Zlen value) by lia.
    destruct (on_request _ _ _) as [d'| |]; [|done|done]. cbn [obind].
    rewrite (run_char (among [10]) _ _ _ 17 [] 13) by (by vm_compute || done).
    cbn [acts obind]. f_equal. lia.
Qed.

Lemma run_blank rest p s d :
  ∃ s', frame s s' ∧ hp_field_start s' = hp_field_start s ∧ hp_field_len s' = hp_field_len s ∧
    RUN (str " " ++ rest) p pe 15 s d = RUN rest (p + 1) pe 15 s' d.
Proof.
  change (str " " ++ rest) with (" "%char :: rest).
  rewrite (run_char (among [32]) _ _ _ 15 [start_value] 15) by (by vm_compute || done).
  cbn [acts act obind]. eexists. split; [apply frame_marks|]. by repeat split.
Qed.

Lemma run_header pre name sp value rest s r e :
  wf_name name = true → wf_value value = true → sp = [] ∨ sp = str " " →
  buffer = pre ++ header_line name sp value ++ rest ++ after →
  ∃ s', frame s s' ∧
    RUN (header_line name sp value ++ rest) (Zlen pre) pe 13 s (r, e) =
      RUN rest (Zlen (pre ++ header_line name sp value)) pe 13 s' (setHeader name value r, e).
Proof.
  intros Hn Hv Hsp Hb. unfold header_line in *. rewrite <- !app_assoc in *.
  destruct (run_name pre name (sp ++ value ++ crlf ++ rest) s (r, e) Hn)
    as (s1 & F1 & Hfs & Hfl & ->).
  assert (∃ s2, frame s1 s2 ∧ hp_field_start s2 = hp_field_start s1 ∧
    hp_field_len s2 = hp_field_len s1 ∧
    RUN (sp ++ value ++ crlf ++ rest) (Zlen pre + Zlen name + 1) pe 15 s1 (r, e) =
    RUN (value ++ crlf ++ rest) (Zlen pre + Zlen name + 1 + Zlen sp) pe 15 s2 (r, e))
    as (s2 & F2 & Hfs2 & Hfl2 & ->).
  { destruct Hsp as [-> | ->].
    - exists s1. rewrite Z.add_0_r. by repeat split.
    - apply run_blank. }
  set (q0 := Zlen pre + Zlen name + 1 + Zlen sp).
  destruct (run_value q0 value rest s2 (r, e) Hv) as (s3 & F3 & _ & _ & ->).
  exists s3. split; [by etrans; [|etrans]|].
  rewrite Hfs2, Hfl2, Hfs, Hfl. cbn [on_request]. unfold on_request_http_field.
  rewrite (buffer_piece _ _ _ Hb). cbn [obind].
  assert (std_string (at_ptr buffer q0) (LEN q0 (q0 + Zlen value)) = Ret value) as ->.
  { assert (q0 = Zlen (pre ++ name ++ str ":" ++ sp)) as ->
      by (unfold q0; rewrite !Zlen_app; change (Zlen (str ":")) with 1; lia).
    apply (buffer_piece _ _ (crlf ++ rest ++ after)). by rewrite Hb, <- !app_assoc. }
  cbn [obind fst snd]. f_equal. unfold q0. rewrite !Zlen_app.
  change (Zlen (str ":")) with 1. change (Zlen crlf) with 2. lia.
Qed.

(** Lines of headers. *)
Definition field_lines (l : list (text * text * text)) : text :=
  concat ((λ '(name, sp, value), header_line name sp value) <$> l).
Definition set_fields (l : list (text * text * text)) (r : HttpRequest) : HttpRequest :=
  foldl (λ r '(name, _, value), setHeader name value r) r l.
Definition wf_field (f : text * text * text) : Prop :=
  let '(name, sp, value) := f in
  wf_name name = true ∧ wf_value value = true ∧ (sp = [] ∨ sp = str " ").

Lemma run_headers pre l rest s r e :
  Forall wf_field l → buffer = pre ++ field_lines l ++ rest ++ after →
  ∃ s', frame s s' ∧
    RUN (field_lines l ++ rest) (Zlen pre) pe 13 s (r, e) =
      RUN rest (Zlen (pre ++ field_lines l)) pe 13 s' (set_fields l r, e).
Proof.
  intros Hl. revert pre s r. induction Hl as [|[[name sp] value] l (Hn & Hv & Hsp) Hl IH];
    intros pre s r Hb.
  { exists s. unfold field_lines. cbn [fmap list_fmap concat app]. by rewrite app_nil_r. }
  unfold field_lines in *. cbn [fmap list_fmap concat] in *. rewrite <- app_assoc in *.
  destruct (run_header pre name sp value (concat ((λ '(name, sp, value), header_line name sp value) <$> l)
    ++ rest) s r e Hn Hv Hsp) as (s1 & F1 & ->); [by rewrite Hb, <- !app_assoc|].
  destruct (IH (pre ++ header_line name sp value) s1 (setHeader name value r)) as (s2 & F2 & E).
  { by rewrite Hb, <- !app_assoc. }
  exists s2. split; [by etrans|]. rewrite E. by rewrite <- app_assoc.
Qed.

(** The empty line. *)
Lemma run_end rest p s d :
  hp_xml_sent s = 0 → hp_json_sent s = 0 →
  ∃ s', frame s s' ∧
    RUN (crlf ++ rest) p pe 13 s d =
      Ret (p + 2, 348, with_body (p + 2) (hp_content_len s) s', d).
Proof.
  intros Hx Hj. change (crlf ++ rest) with (CR :: LF :: rest).
  rewrite (run_char (among [13]) _ _ _ 13 [start_field] 18) by (by vm_compute || done).
  cbn [acts act obind]. set (s' := with_marks _ _ _ _ s). exists s'.
  split; [apply frame_marks|]. cbn [run].
  rewrite (class_jump (among [10]) 18 [done] 348) by (by vm_compute).
  cbn [Z.eqb acts act obind on_request]. unfold on_request_header_done.
  subst s'. cbn [hp_xml_sent hp_json_sent with_marks hp_content_len]. rewrite Hx, Hj.
  cbn [Z.eqb negb orb obind]. by replace (p + 1 + 1) with (p + 2) by lia.
Qed.

(** ** The version *)

Definition version_text (v : Z) : text := str "HTTP/1." ++ dec (Z.land v 15).

Lemma run_version pre v rest s r e :
  v = 16 ∨ v = 17 → buffer = pre ++ version_text v ++ crlf ++ rest ++ after →
  ∃ s', frame s s' ∧
    RUN (version_text v ++ crlf ++ rest) (Zlen pre) pe 4 s (r, e) =
      RUN rest (Zlen (pre ++ version_text v ++ crlf)) pe 13 s' (setVersion v r, e).
Proof.
  intros Hv Hb. set (w := tail (version_text v)).
  assert (version_text v = "H"%char :: w) as Ev by (destruct Hv as [-> | ->]; by vm_compute).
  assert (walk 5 w = Some 12) as Hw by (subst w; destruct Hv as [-> | ->]; by vm_compute).
  assert (Zlen (version_text v) = 8) as Hl by (destruct Hv as [-> | ->]; by vm_compute).
  assert (RUN (version_text v ++ crlf ++ rest) = RUN ("H"%char :: w ++ CR :: LF :: rest)) as ->
    by (by rewrite Ev).
  rewrite (run_char (among [72]) _ _ _ 4 [mark] 5) by (by vm_compute || done).
  cbn [acts act obind]. rewrite (run_walk _ _ _ _ _ _ _ _ _ Hw).
  rewrite (run_char (among [13]) _ _ _ 12 [http_version] 17) by (by vm_compute || done).
  cbn [acts act obind hp_mark with_marks on_request].
  assert (on_request_version (at_ptr buffer (Zlen pre))
    (LEN (Zlen pre) (Zlen pre + 1 + Zlen w)) (r, e) = Ret (setVersion v r, e)) as ->.
  { assert (LEN (Zlen pre) (Zlen pre + 1 + Zlen w) = 8) as ->.
    { rewrite Ev, Zlen_cons in Hl. unfold LEN. by replace (_ - _) with 8 by lia. }
    rewrite Hb, at_ptr_app. destruct Hv as [-> | ->]; by vm_compute. }
  cbn [obind]. eexists. split; [apply frame_marks|].
  rewrite (run_char (among [10]) _ _ _ 17 [] 13) by (by vm_compute || done).
  cbn [acts obind]. f_equal. rewrite !Zlen_app, Hl. rewrite Ev, Zlen_cons in Hl.
  change (Zlen crlf) with 2. lia.
Qed.

(** ** The method *)

Definition readable_method (m : Z) : bool := (0 <=? m) && (m <=? 33) && negb (m =? 24).

(** Every name of the table but one is a word of the machine. *)
Definition method_word (name : text) : bool :=
  match name with
  | [] => false
  | c :: w =>
      bool_decide (st_case 1 true (schar c) = Some ([mark], 2)) &&
      bool_decide (st_case 1 false (schar c) = Some ([mark], 2)) &&
      match walk 2 w with
      | Some m => class_check (among [32]) m [request_method] 3
      | None => false
      end
  end.

Lemma method_words :
  Forall (λ e, readable_method (fst e) = true → method_word (str (snd e)) = true)
    HTTP_METHOD_MAP.
Proof. repeat (constructor; [vm_compute; (done || by intros)|]). constructor. Qed.

Lemma run_method m rest s r e :
  readable_method m = true → buffer = HttpMethodToString m ++ str " " ++ rest ++ after →
  ∃ s', frame s s' ∧
    RUN (HttpMethodToString m ++ str " " ++ rest) 0 pe 1 s (r, e) =
      RUN rest (Zlen (HttpMethodToString m ++ str " ")) pe 3 s' (setMethod m r, e).
Proof.
  intros Hm Hb. assert (∃ x, x ∈ HTTP_METHOD_MAP ∧ fst x = m ∧ HttpMethodToString m = str (snd x))
    as (x & Hx & <- & Hname).
  { unfold readable_method in Hm. unfold HttpMethodToString. unfold u32.
    rewrite wrapU_id by (unfold in_u; lia).
    assert (∃ k, m = Z.of_nat k ∧ (k < 34)%nat) as (k & -> & Hk)
      by (exists (Z.to_nat m); lia).
    rewrite Nat2Z.id. clear -Hk.
    do 34 (destruct k as [|k]; [eexists; split; [by repeat constructor|by split]|]). lia. }
  rewrite Hname in *.
  pose proof (proj1 (Forall_forall _ _) method_words x Hx Hm) as Hw.
  pose proof (proj1 (Forall_forall _ _) method_rows_prefix x Hx (str " " ++ rest ++ after)) as Hc.
  cbv beta in Hc. rewrite <- Hb in Hc.
  destruct (str (snd x)) as [|c w] eqn:Es; [done|]. cbn [method_word] in Hw.
  apply andb_true_iff in Hw as [[H1 H2]%andb_true_iff Hw].
  apply bool_decide_eq_true in H1, H2. destruct (walk 2 w) as [n|] eqn:Ew; [|done].
  cbn [app]. rewrite (run_step _ _ _ _ _ 1 [mark] 2)
    by (try done; by destruct (negb (hp_uri_relaxed s =? 0))).
  cbn [acts act obind]. rewrite (run_walk _ _ _ _ _ _ _ _ _ Ew).
  change (str " " ++ rest) with (" "%char :: rest).
  rewrite (run_char (among [32]) _ _ _ n [request_method] 3) by done.
  cbn [acts act obind hp_mark with_marks on_request].
  unfold at_ptr, on_request_method. cbn [Z.to_nat drop]. rewrite drop_0, Hc. cbn [obind].
  destruct (Z.eqb_spec (fst x) HIT_INVALID_METHOD) as [E|_].
  { rewrite E in Hm. by vm_compute in Hm. }
  cbn [obind fst snd]. eexists. split; [apply frame_marks|]. f_equal.
  rewrite Zlen_cons, Zlen_app. change (Zlen (str " ")) with 1. lia.
Qed.

(** ** The URI *)

(** Two states that agree on a character. *)
Lemma run_same c rest p n0 n t s d :
  st_case n0 (negb (hp_uri_relaxed s =? 0)) (schar c) = Some t →
  st_case n (negb (hp_uri_relaxed s =? 0)) (schar c) = Some t →
  RUN (c :: rest) p pe n0 s d = RUN (c :: rest) p pe n s d.
Proof. intros H0 H1. cbn [run]. by rewrite H0, H1. Qed.

(** After the first slash the machine is where it is after any other, but for
    a second slash. *)
Lemma after_slash rel c :
  among [47] c = false → ∃ t, st_case 33 rel (schar c) = Some t ∧ st_case 26 rel (schar c) = Some t.
Proof.
  intros Hc. exists (st_case_26 rel (schar c)). split; [|done].
  assert (∀ c, implb (negb (among [47] c))
    (bool_decide (st_case 33 true (schar c) = Some (st_case_26 true (schar c))) &&
     bool_decide (st_case 33 false (schar c) = Some (st_case_26 false (schar c)))) = true) as H
    by (apply ascii_check; by vm_compute).
  specialize (H c). rewrite Hc in H. cbn [negb implb] in H.
  apply andb_true_iff in H as [H1%bool_decide_eq_true H2%bool_decide_eq_true]. by destruct rel.
Qed.

Definition wf_path (path : text) : bool :=
  match path with
  | c :: w => among [47] c && uri_text path_char w &&
              match w with d :: _ => negb (among [47] d) | [] => true end
  | [] => false
  end.

Lemma run_path p path c rest s d :
  wf_path path = true → among [32; 35; 63] c = true →
  ∃ s', frame s s' ∧ hp_mark s' = p ∧
    RUN (path ++ c :: rest) p pe 3 s d =
      RUN (c :: rest) (p + Zlen path) pe 26 s' d.
Proof.
  intros Hw Hc. destruct path as [|x w]; [done|]. cbn [wf_path] in Hw.
  apply andb_true_iff in Hw as [[Hx Hu]%andb_true_iff Hh]. cbn [app].
  rewrite (run_char (among [47]) _ _ _ 3 [mark] 33) by (by vm_compute || done).
  cbn [acts act obind]. set (s' := with_marks _ _ _ _ s). exists s'.
  split; [apply frame_marks|]. split; [done|].
  assert (∃ y t, w ++ c :: rest = y :: t ∧ among [47] y = false) as (y & t & E & Hy).
  { destruct w as [|y w]; [|by exists y, (w ++ c :: rest); split; [|apply negb_true_iff]].
    exists c, rest. split; [done|]. revert Hc. unfold among. cbn [existsb].
    destruct (Z.eqb_spec (code c) 47) as [->|]; [by vm_compute|done]. }
  rewrite E. destruct (after_slash (negb (hp_uri_relaxed s' =? 0)) y Hy) as (tt' & H1 & H2).
  rewrite (run_same _ _ _ 33 26 tt') by done. rewrite <- E.
  rewrite (run_uri _ _ path_char 26 27 28) by (by vm_compute || done).
  f_equal. rewrite Zlen_cons. lia.
Qed.

(** The query, from the question mark and what follows it. *)
Lemma run_query p query rest s d :
  uri_text query_char query = true → query ≠ [] →
  ∃ s', frame s s' ∧ hp_mark s' = hp_mark s ∧ hp_query_start s' = p + 1 ∧
    RUN (str "?" ++ query ++ rest) p pe 26 s d =
      let! d := on_request buffer (call_request_path (hp_mark s) (LEN (hp_mark s) p)) d in
      RUN rest (p + 1 + Zlen query) pe 30 s' d.
Proof.
  intros Hu Hne. change (str "?" ++ query ++ rest) with ("?"%char :: query ++ rest).
  rewrite (run_char (among [63]) _ _ _ 26 [request_path] 29) by (by vm_compute || done).
  cbn [acts act obind]. eexists. split; [apply frame_marks|].
  split; [reflexivity|]. split; [reflexivity|].
  destruct (on_request buffer _ d) as [d'| |]; [|done|done]. cbn [obind].
  destruct query as [|x w]; [done|]. cbn [app].
  assert (∃ m, st_case 29 (negb (hp_uri_relaxed s =? 0)) (schar x) = Some ([start_query], m) ∧
    st_case 30 (negb (hp_uri_relaxed s =? 0)) (schar x) = Some ([], m) ∧ m ≠ 0)
    as (m & H29 & H30 & Hm).
  { cbn [uri_text] in Hu. destruct (among [37] x) eqn:E.
    - exists 31. by split_and!; [apply (class_jump (among [37]))..|]; try by vm_compute.
    - apply andb_true_iff in Hu as [Hx _]. exists 30.
      by split_and!; [apply (class_jump query_char)..|]; try by vm_compute. }
  rewrite (run_enter _ _ _ _ _ _ 30 _ m) by done. cbn [acts act obind].
  change (x :: w ++ rest) with ((x :: w) ++ rest).
  rewrite (run_uri _ _ query_char 30 31 32) by (by vm_compute || done). done.
Qed.

(** The fragment, after the number sign, and the blank. *)
Lemma run_fragment pre frag rest s r e :
  uri_text query_char frag = true → frag ≠ [] → buffer = pre ++ frag ++ str " " ++ rest ++ after →
  ∃ s', frame s s' ∧
    RUN (frag ++ str " " ++ rest) (Zlen pre) pe 20 s (r, e) =
      RUN rest (Zlen (pre ++ frag ++ str " ")) pe 4 s' (setFragment frag r, e).
Proof.
  intros Hu Hne Hb. pose proof (buffer_piece _ _ _ Hb) as Hp.
  destruct frag as [|x w]; [done|]. cbn [app].
  assert (∃ m, st_case 20 (negb (hp_uri_relaxed s =? 0)) (schar x) = Some ([mark], m) ∧
    st_case 21 (negb (hp_uri_relaxed s =? 0)) (schar x) = Some ([], m) ∧ m ≠ 0)
    as (m & H20 & H21 & Hm).
  { cbn [uri_text] in Hu. destruct (among [37] x) eqn:E.
    - exists 22. by split_and!; [apply (class_jump (among [37]))..|]; try by vm_compute.
    - apply andb_true_iff in Hu as [Hx _]. exists 21.
      by split_and!; [apply (class_jump query_char)..|]; try by vm_compute. }
  rewrite (run_enter _ _ _ _ _ _ 21 _ m) by done. cbn [acts act obind].
  change (x :: w ++ str " " ++ rest) with ((x :: w) ++ " "%char :: rest).
  rewrite (run_uri _ _ query_char 21 22 23) by (by vm_compute || done).
  rewrite (run_char (among [32]) _ _ _ 21 [fragment] 4) by (by vm_compute || done).
  cbn [acts act obind hp_mark with_marks on_request]. unfold on_request_fragment.
  rewrite Hp. cbn [obind fst snd]. eexists. split; [apply frame_marks|]. f_equal.
  change (x :: w ++ str " ") with ((x :: w) ++ str " ").
  rewrite !Zlen_app. change (Zlen (str " ")) with 1. lia.
Qed.

Definition query_part (query : text) : text :=
  match query with [] => [] | _ => str "?" ++ query end.
Definition fragment_part (frag : text) : text :=
  match frag with [] => [] | _ => str "#" ++ frag end.

(** The path and the query: up to the blank or the number sign [c], at which
    the machine is in a state that ends the URI. *)
Lemma run_target pre path query c rest s r e :
  wf_path path = true → uri_text query_char query = true → among [32; 35] c = true →
  m_query r = [] → buffer = pre ++ path ++ query_part query ++ c :: rest ++ after →
  ∃ s', frame s s' ∧
    RUN (path ++ query_part query ++ c :: rest) (Zlen pre) pe 3 s (r, e) =
      RUN rest (Zlen (pre ++ path ++ query_part query) + 1) pe
        (if among [32] c then 4 else 20) s' (setQuery query (setPath path r), e).
Proof.
  intros Hp Hq Hc Hr Hb.
  assert (class_check (λ x, bool_decide (x = c)) 26 [request_path; request_uri]
            (if among [32] c then 4 else 20) = true ∧
          class_check (λ x, bool_decide (x = c)) 30 [query_string; request_uri]
            (if among [32] c then 4 else 20) = true ∧ c ≠ "?"%char) as (H26 & H30 & Hnq).
  { assert (c = " "%char ∨ c = "#"%char) as [-> | ->]; [|by vm_compute..].
    revert Hc. clear. revert c.
    assert (∀ c, implb (among [32; 35] c) (bool_decide (c = " "%char ∨ c = "#"%char)) = true) as H
      by (apply ascii_check; by vm_compute).
    intros c Hc. specialize (H c). rewrite Hc in H. by apply bool_decide_eq_true in H. }
  assert ((if among [32] c then 4 else 20) ≠ 0) as Hne by (by destruct (among [32] c)).
  destruct query as [|x w].
  - cbn [query_part app] in *.
    destruct (run_path (Zlen pre) path c rest s (r, e)) as (s1 & F1 & Hm & ->); [done| |].
    { revert Hc. unfold among. cbn [existsb]. by destruct (code c =? 32), (code c =? 35). }
    rewrite (run_char _ c _ _ _ _ _ _ _ H26) by (by try apply bool_decide_eq_true).
    cbn [acts act on_request]. rewrite Hm. unfold on_request_path.
    rewrite (buffer_piece _ _ _ Hb). cbn [obind fst snd]. unfold on_request_uri. cbn [obind].
    exists s1. split; [done|]. f_equal; [rewrite app_nil_r, Zlen_app; lia|].
    f_equal. unfold setQuery, setPath. cbn. by rewrite Hr.
  - set (query := x :: w) in *. change (query_part query) with (str "?" ++ query) in *.
    destruct (run_path (Zlen pre) path "?"%char (query ++ c :: rest) s (r, e))
      as (s1 & F1 & Hm & E1); [done|done|].
    change ("?"%char :: query ++ c :: rest) with (str "?" ++ query ++ c :: rest) in E1.
    rewrite <- app_assoc. rewrite E1. clear E1.
    destruct (run_query (Zlen pre + Zlen path) query (c :: rest) s1 (r, e))
      as (s2 & F2 & Hm2 & Hqs & ->); [done|done|].
    cbn [on_request]. rewrite Hm. unfold on_request_path.
    rewrite (buffer_piece pre path ((str "?" ++ query) ++ c :: rest ++ after)) by done.
    cbn [obind fst snd].
    rewrite (run_char _ c _ _ _ _ _ _ _ H30) by (by try apply bool_decide_eq_true).
    cbn [acts act on_request]. rewrite Hqs. unfold on_request_query.
    assert (Zlen pre + Zlen path + 1 = Zlen (pre ++ path ++ str "?")) as ->
      by (rewrite !Zlen_app; change (Zlen (str "?")) with 1; lia).
    rewrite (buffer_piece _ query (c :: rest ++ after)) by (by rewrite Hb, <- !app_assoc).
    cbn [obind fst snd]. unfold on_request_uri. cbn [obind].
    exists s2. split; [by etrans|]. f_equal. rewrite !Zlen_app. lia.
Qed.

Lemma run_uri_ref pre path query frag rest s r e :
  wf_path path = true → uri_text query_char query = true → uri_text query_char frag = true →
  m_query r = [] → m_fragment r = [] →
  let u := path ++ query_part query ++ fragment_part frag ++ str " " in
  buffer = pre ++ u ++ rest ++ after →
  ∃ s', frame s s' ∧
    RUN (u ++ rest) (Zlen pre) pe 3 s (r, e) =
      RUN rest (Zlen (pre ++ u)) pe 4 s'
        (setFragment frag (setQuery query (setPath path r)), e).
Proof.
  intros Hp Hq Hf Hrq Hrf u Hb. unfold u in *. clear u. rewrite <- !app_assoc in *.
  destruct frag as [|x w].
  - cbn [fragment_part app] in *.
    destruct (run_target pre path query " "%char rest s r e) as (s1 & F1 & E1); try done.
    change (str " " ++ rest) with (" "%char :: rest). rewrite E1. exists s1. split; [done|].
    f_equal.
    + rewrite !Zlen_app. change (Zlen (str " ")) with 1. lia.
    + f_equal. unfold setFragment, setQuery, setPath. cbn. by rewrite Hrf.
  - set (frag := x :: w) in *. change (fragment_part frag) with (str "#" ++ frag) in *.
    rewrite <- !app_assoc in *.
    destruct (run_target pre path query "#"%char (frag ++ str " " ++ rest) s r e)
      as (s1 & F1 & E1); [done|done|done|done|by rewrite Hb, <- !app_assoc|].
    change (str "#" ++ frag ++ str " " ++ rest) with ("#"%char :: frag ++ str " " ++ rest).
    rewrite E1.
    destruct (run_fragment (pre ++ path ++ query_part query ++ str "#") frag rest s1
      (setQuery query (setPath path r)) e) as (s2 & F2 & E2); [done|done| |].
    { by rewrite Hb, <- !app_assoc. }
    change (if among [32] "#" then 4 else 20) with 20.
    assert (Zlen (pre ++ path ++ query_part query) + 1 =
      Zlen (pre ++ path ++ query_part query ++ str "#")) as ->
      by (rewrite !Zlen_app; change (Zlen (str "#")) with 1; lia).
    rewrite E2. exists s2. split; [by etrans|]. by rewrite <- !app_assoc.
Qed.

End pieces.
