(* ===== verification/HttpParserTheorems.v ===== *)
(** Correctness of the request parser: the callbacks of http_parser.cpp over
    the machine of packages/http11.

    It returns on every input, it reads back what [HttpRequest::dump] prints,
    and what goes wrong when a request comes in pieces. *)

From S2P Require Import Prelude Http HttpTheorems CString Ragel Http11Machine Http11Parser.
From S2P Require Import Http11Run Http11Safety HttpParser Decimal RequestRun.
From Stdlib Require Import Ascii.

#[local] Open Scope string_scope.
#[local] Open Scope list_scope.
#[local] Open Scope Z_scope.

(** * Any input *)

Lemma std_string_ok (buffer : text) a n :
  0 ≤ a → 0 ≤ n → a + n ≤ Zlen buffer → Zlen buffer < 2 ^ 31 →
  ∃ v, std_string (at_ptr buffer a) n = Ret v.
Proof.
  intros Ha Hn Hl Hs. unfold std_string, at_ptr.
  assert (Zlen (drop (Z.to_nat a) buffer) = Zlen buffer - a) as E
    by (unfold Zlen in *; rewrite length_drop; lia).
  rewrite E. destruct (Z.ltb_spec (2 ^ 63 - 2) n); [lia|].
  destruct (Z.ltb_spec (Zlen buffer - a) n); [lia|]. by eexists.
Qed.

(** The comparisons with the names of the methods end inside the memory. *)
Definition method_compares (buffer : text) : Prop := ∃ m, CharsToHttpMethod buffer = Ret m.

Lemma named_compares m rest :
  readable_method m = true → method_compares (HttpMethodToString m ++ rest).
Proof.
  intros Hm. unfold readable_method in Hm. exists m. apply method_names_roundtrip.
  change methods with (Z.of_nat <$> seq 0 34). rewrite <- (Z2Nat.id m) by lia.
  apply list_elem_of_fmap_2, elem_of_seq. lia.
Qed.

(** A callback whose pointers are in the buffer returns. *)
Lemma on_request_ok buffer c d :
  method_compares buffer → Zlen buffer < 2 ^ 31 → in_range (Zlen buffer) c → ∃ d', on_request buffer c d = Ret d'.
Proof.
  intros [m0 Hm0] Hs Hr. destruct c; cbn [in_range on_request] in *;
    unfold on_request_http_field, on_request_method, on_request_fragment, on_request_path,
      on_request_query, on_request_version; try (by eexists);
    try (match goal with |- context [std_string (at_ptr buffer ?a) ?n] =>
           destruct (std_string_ok buffer a n) as [v ->]; [lia..|] end; cbn [obind]; by eexists).
  - destruct (std_string_ok buffer field flen) as [v ->]; [lia..|]. cbn [obind].
    destruct (std_string_ok buffer value vlen) as [v' ->]; [lia..|]. by eexists.
  - destruct Hr as (-> & ? & ?). unfold at_ptr. cbn [Z.to_nat]. rewrite drop_0, Hm0. cbn [obind].
    destruct (_ =? _); [|by eexists].
    destruct (std_string_ok buffer 0 len) as [v E]; [lia..|].
    unfold at_ptr in E. cbn [Z.to_nat] in E. rewrite drop_0 in E. rewrite E. by eexists.
  - destruct (strncmp_eq _ _ _); [by eexists|]. destruct (strncmp_eq _ _ _); [by eexists|].
    destruct (std_string_ok buffer at_ len) as [v ->]; [lia..|]. by eexists.
Qed.

(** What [http_parser_execute] returns, from the run. *)
Lemma execute_value {D} (on : call → D → outcome D) buffer pe s d p n s' d' k s'' d'' :
  run on (take (Z.to_nat pe) buffer) 0 pe (hp_cs s)
    (with_nread 0 (with_marks 0 0 0 (hp_query_start s) s)) d = Ret (p, n, s', d') →
  http_parser_execute on buffer pe 0 s d = Ret (k, s'', d'') →
  0 < pe < 2 ^ 31 → hp_cs s ≠ 0 → 0 ≤ p ≤ pe →
  k = p ∧ d'' = d' ∧ s'' = with_nread p (with_cs n s').
Proof.
  intros Hrun Hex Hb Hcs Hp. revert Hex. unfold http_parser_execute.
  destruct (Z.eqb_spec pe 0); [lia|]. cbn zeta. destruct (assert_that _); try done. cbn [obind].
  destruct (assert_that _); try done. cbn [obind]. change (Z.to_nat 0) with 0%nat.
  rewrite drop_0. change (hp_cs (with_nread 0 (with_marks 0 0 0 (hp_query_start s) s))) with (hp_cs s).
  rewrite Hrun. cbn [obind]. destruct (run_kept _ _ _ _ _ _ _ _ _ _ _ Hrun) as (_ & Hnr & Hk).
  cbn [hp_nread hp_cs with_nread with_marks] in Hnr, Hk.
  unfold http_parser_has_error. rewrite Hk.
  destruct (Z.eqb_spec (hp_cs s) http_parser_error) as [E|_]; [done|]. cbn [negb].
  cbn [hp_nread with_cs]. rewrite Hnr, Z.sub_0_r, Z.add_0_l.
  unfold u64. rewrite wrapU_id by (unfold in_u; lia).
  repeat (destruct (assert_that _); [|done|done]; cbn [obind]).
  by intros [= <- <- <-].
Qed.

(** The parser between two reads: it is in a state of its machine that is not
    inside a query, and it has seen no end of a message. *)
Record between_reads (s : http_parser) : Prop := {
  br_state : is_state (hp_cs s) = true;
  br_query : query_state (hp_cs s) = false;
  br_body : hp_body_start s = 0;
}.

Lemma init_between_reads mem : between_reads (http_parser_init mem).
Proof. by split. Qed.

Lemma memmove_front_ok (data : text) len n :
  0 ≤ n ≤ len → len ≤ Zlen data →
  ∃ data', memmove_front data n (len - n) = Ret data' ∧ length data' = length data ∧
    take (Z.to_nat (len - n)) data' = drop (Z.to_nat n) (take (Z.to_nat len) data).
Proof.
  intros Hn Hl. unfold memmove_front, Zlen in *.
  rewrite !(proj2 (Z.leb_le _ _)) by lia. cbn [andb]. eexists. split; [reflexivity|].
  assert (take (Z.to_nat (len - n)) (drop (Z.to_nat n) data) =
    drop (Z.to_nat n) (take (Z.to_nat len) data)) as ->.
  { rewrite take_drop_commute. do 2 f_equal. lia. }
  assert (length (drop (Z.to_nat n) (take (Z.to_nat len) data)) = Z.to_nat (len - n)) as El
    by (rewrite length_drop, length_take; lia).
  split.
  - rewrite length_app, El, length_drop. lia.
  - rewrite <- El at 1. by rewrite take_app_length.
Qed.

Lemma in_range_le pe pe' c : in_range pe c → pe ≤ pe' → in_range pe' c.
Proof. destruct c; cbn [in_range]; lia. Qed.

Lemma execute_returns data len p :
  method_compares data → 0 ≤ len ≤ Zlen data → Zlen data < 2 ^ 31 → between_reads (rp_parser p) →
  ∃ n data' p',
    execute data len p = Ret (n, data', p') ∧ 0 ≤ n ≤ len ∧ length data' = length data ∧
    take (Z.to_nat (len - n)) data' = drop (Z.to_nat n) (take (Z.to_nat len) data) ∧
    (hp_cs (rp_parser p') = 0 ∨ is_state (hp_cs (rp_parser p')) = true) ∧
    (isFinished p' = 0 → hp_body_start (rp_parser p') = 0).
Proof.
  intros Hmc Hlen Hl [Hs Hq Hb]. unfold execute.
  destruct (Z.eqb_spec len 0) as [->|Hpos].
  { unfold http_parser_execute. cbn [Z.eqb obind].
    destruct (memmove_front_ok data 0 0) as (data' & Hm & Hld & Ht); [lia|lia|].
    change (0 - 0) with 0 in *. rewrite Hm. cbn [obind].
    eexists _, _, _. split; [reflexivity|]. cbn [rp_parser].
    split_and!; [lia|lia|done|done|by right|done]. }
  destruct (execute_ok (on_request data) len ltac:(lia)
    (λ c d H, on_request_ok data c d Hmc Hl (in_range_le _ _ _ H (proj2 Hlen)))
    data (rp_parser p) (rp_data p, rp_error p)) as (n & s' & [r' e'] & E & Hn & Hs');
    [lia|lia|done|done|lia|].
  rewrite E. cbn [obind]. destruct (memmove_front_ok data len n) as (data' & -> & Hld & Ht); [lia|lia|].
  cbn [obind]. eexists _, _, _. split; [reflexivity|]. cbn [rp_parser].
  split_and!; try done; try lia. unfold isFinished. cbn [rp_parser].
  intros Hf. destruct (execute_body _ _ _ _ _ _ _ _ Hs E) as [Hb'|Hb']; [by rewrite Hb'|].
  exfalso. revert Hf. unfold http_parser_finish, http_parser_has_error, http_parser_is_finished.
  destruct Hs' as [Hs'|Hs'].
  - unfold http_parser_first_final in Hb'. lia.
  - unfold http_parser_error, http_parser_first_final in *.
    destruct (Z.eqb_spec (hp_cs s') 0); [lia|]. by rewrite (proj2 (Z.leb_le _ _)) by lia.
Qed.

(** The memory a fresh parser starts to run with. *)
Definition start_of (mem : http_parser) : http_parser :=
  with_nread 0 (with_marks 0 0 0 (hp_query_start mem) (http_parser_init mem)).

(** [execute] of a fresh parser on the first bytes [b] of an array, from the
    run of its machine. *)
Lemma fresh_execute mem b after p n s' r' e' :
  run (on_request (b ++ after)) b 0 (Zlen b) 1 (start_of mem) (HttpRequest_new 17 true, 0) =
    Ret (p, n, s', (r', e')) →
  method_compares (b ++ after) → 0 < Zlen b → Zlen (b ++ after) < 2 ^ 31 → 0 ≤ p ≤ Zlen b →
  ∃ data,
    execute (b ++ after) (Zlen b) (HttpRequestParer_new mem) =
      Ret (p, data, mkRequestParer (with_nread p (with_cs n s')) r' e') ∧
    length data = length (b ++ after) ∧
    take (Z.to_nat (Zlen b - p)) data = drop (Z.to_nat p) b.
Proof.
  intros Hrun Hmc Hpos Hl Hp. set (p0 := HttpRequestParer_new mem).
  pose proof (Zlen_nonneg after) as Haf. pose proof Hl as Hl'. rewrite Zlen_app in Hl'.
  assert (take (Z.to_nat (Zlen b)) (b ++ after) = b) as Etk
    by (unfold Zlen; by rewrite Nat2Z.id, take_app_length).
  assert (Zlen b ≤ Zlen (b ++ after)) as Hle by (rewrite Zlen_app; lia).
  destruct (execute_ok (on_request (b ++ after)) (Zlen b) ltac:(lia)
    (λ c d H, on_request_ok (b ++ after) c d Hmc Hl (in_range_le _ _ _ H Hle)) (b ++ after)
    (rp_parser p0) (rp_data p0, rp_error p0))
    as (k & s2 & [r2 e2] & E & Hk & _); [done|lia|done|done|cbn; lia|].
  pose proof (f_equal (λ x, run (on_request (b ++ after)) x 0 (Zlen b) 1 (start_of mem)
    (HttpRequest_new 17 true, 0)) Etk) as Erun. cbv beta in Erun. rewrite Hrun in Erun.
  destruct (execute_value (on_request (b ++ after)) (b ++ after) (Zlen b) (rp_parser p0)
    (rp_data p0, rp_error p0) p n s' (r', e') _ _ _ Erun E) as (-> & Ed & ->); [lia|done|lia|].
  pose proof (f_equal fst Ed) as Er. pose proof (f_equal snd Ed) as Ee.
  cbn [fst snd] in Er, Ee. subst r2 e2.
  unfold execute. rewrite E. cbn [obind].
  destruct (memmove_front_ok (b ++ after) (Zlen b) p) as (data & -> & Hd & Ht); [lia|done|].
  rewrite Etk in Ht. by exists data.
Qed.

(** * What is printed *)

(** Setting the entries of a sorted list: they come before what was there. *)
Lemma assoc_set_all (l m : MapType) key :
  sorted_map l → sorted_map m →
  assoc key (foldl (λ m '(k, v), map_set k v m) m l) =
    match assoc key l with Some v => Some v | None => assoc key m end.
Proof.
  intros Hl. revert m. induction Hl as [|[k v] l Hs IH Hall]; intros m Hm; [done|].
  cbn [foldl]. rewrite IH by (by apply map_set_sorted). rewrite assoc_set by done.
  cbn [assoc]. destruct (decide (same_key k key)) as [E|_]; [|done].
  rewrite assoc_above; [done|]. eapply Forall_impl; [exact Hall|]. intros x Hx. cbn in Hx.
  by rewrite <- E.
Qed.

Lemma set_all_sorted (l m : MapType) :
  sorted_map m → sorted_map (foldl (λ m '(k, v), map_set k v m) m l).
Proof.
  revert m. induction l as [|[k v] l IH]; intros m Hm; [done|]. by apply IH, map_set_sorted.
Qed.

(** The headers [dump] prints. *)
Definition other_headers (h : MapType) : MapType :=
  filter (λ x, is_connection (fst x) = false) h.

Lemma other_headers_sorted h : sorted_map h → sorted_map (other_headers h).
Proof.
  induction 1 as [|x h Hs IH Hall]; [constructor|]. unfold other_headers in *.
  destruct (decide (is_connection (fst x) = false)).
  - rewrite filter_cons_True by done. constructor; [done|].
    apply Forall_forall. intros y [_ Hy]%list_elem_of_filter.
    by apply (proj1 (Forall_forall _ _) Hall).
  - by rewrite filter_cons_False by done.
Qed.

Lemma assoc_other_headers key h :
  assoc key (other_headers h) =
    if decide (same_key (str "connection") key) then None else assoc key h.
Proof.
  unfold other_headers, same_key. induction h as [|[k v] h IH]; [by destruct (decide _)|].
  destruct (is_connection k) eqn:E; unfold is_connection in E.
  - apply bool_decide_eq_true in E. rewrite filter_cons_False
      by (cbn; unfold is_connection; by rewrite bool_decide_true).
    rewrite IH. cbn [assoc]. unfold same_key. repeat destruct (decide _); congruence.
  - apply bool_decide_eq_false in E. rewrite filter_cons_True
      by (cbn; unfold is_connection; by rewrite bool_decide_false).
    cbn [assoc]. unfold same_key. rewrite IH. repeat destruct (decide _); congruence.
Qed.

Definition close_text (close : bool) : text :=
  if close then str "close" else str "keep-alive".

(** The fields of the printed head, with the blank before their value. *)
Definition length_fields (body : text) : list (text * text * text) :=
  match body with [] => [] | _ => [(str "content-length", str " ", dec (Zlen body))] end.
Definition printed_fields (sep : text) (h : MapType) : list (text * text * text) :=
  (λ '(k, v), (k, sep, v)) <$> other_headers h.
Definition request_fields (r : HttpRequest) : list (text * text * text) :=
  (str "connection", str " ", close_text (m_close r)) ::
  printed_fields [] (m_headers r) ++ length_fields (m_body r).

Lemma field_lines_app l l' : field_lines (l ++ l') = field_lines l ++ field_lines l'.
Proof. unfold field_lines. by rewrite fmap_app, concat_app. Qed.

Lemma printed_fields_lines sep h :
  field_lines (printed_fields sep h) = header_lines (str ":" ++ sep) h.
Proof.
  rewrite header_lines_texts. unfold header_texts, field_lines, printed_fields, other_headers.
  rewrite <- !list_fmap_compose. f_equal. apply list_fmap_ext. intros _ [k v] _.
  unfold compose, header_line. cbn [fst snd]. by rewrite <- !app_assoc.
Qed.

Lemma length_fields_lines body empty :
  empty = crlf → field_lines (length_fields body) ++ crlf ++ body = body_part body empty.
Proof.
  intros ->. destruct body as [|c b]; [done|]. unfold length_fields, field_lines, body_part.
  cbn [fmap list_fmap concat]. unfold header_line. rewrite app_nil_r, <- !app_assoc.
  by rewrite !(assoc_L (++) (str "content-length")).
Qed.

(** The printed request, in the pieces the parser reads. *)
Lemma request_dump_pieces r :
  m_version r = 16 ∨ m_version r = 17 →
  request_dump r =
    HttpMethodToString (m_method r) ++ str " " ++
    (m_path r ++ query_part (m_query r) ++ fragment_part (m_fragment r) ++ str " ") ++
    version_text (m_version r) ++ crlf ++ field_lines (request_fields r) ++ crlf ++ m_body r.
Proof.
  intros Hv. unfold request_dump, request_line, request_fields.
  rewrite (app_comm_cons _ _ (_, _, _)), field_lines_app.
  rewrite <- (length_fields_lines _ _ eq_refl).
  change ((str "connection", str " ", close_text (m_close r)) :: printed_fields [] (m_headers r))
    with ([(str "connection", str " ", close_text (m_close r))] ++ printed_fields [] (m_headers r)).
  rewrite field_lines_app, printed_fields_lines, app_nil_r.
  assert (str " HTTP/" ++ dec (Z.shiftr (m_version r) 4) ++ str "." ++
    dec (Z.land (m_version r) 15) = str " " ++ version_text (m_version r)) as Ev
    by (destruct Hv as [-> | ->]; by vm_compute).
  unfold query_part, fragment_part. rewrite <- !app_assoc. do 2 f_equal.
  f_equal. f_equal. f_equal.
  assert (∀ x : text, str " HTTP/" ++ dec (Z.shiftr (m_version r) 4) ++ str "." ++
    dec (Z.land (m_version r) 15) ++ x = str " " ++ version_text (m_version r) ++ x) as Ev'.
  { intros x. apply (f_equal (λ y, y ++ x)) in Ev. by rewrite <- !app_assoc in Ev. }
  rewrite Ev'. do 3 f_equal. unfold connection_line, field_lines, close_text.
  cbn [fmap list_fmap concat]. unfold header_line. rewrite app_nil_r, <- !app_assoc.
  by rewrite !(assoc_L (++) (str "connection")).
Qed.

(** A request whose parts are of the grammar. *)
Record wf_request (r : HttpRequest) : Prop := {
  wr_method : readable_method (m_method r) = true;
  wr_version : m_version r = 16 ∨ m_version r = 17;
  wr_path : wf_path (m_path r) = true;
  wr_query : uri_text query_char (m_query r) = true;
  wr_fragment : uri_text query_char (m_fragment r) = true;
  wr_headers : Forall (λ x, wf_name (fst x) = true ∧ wf_value (snd x) = true) (m_headers r);
  wr_sorted : sorted_map (m_headers r);
}.

Lemma digit_name s : s ≠ [] → forallb digit s = true → wf_value s = true.
Proof.
  intros Hne Hd.
  assert (∀ c, implb (digit c) (value_start c && value_char c) = true) as Hc
    by (apply ascii_check; by vm_compute).
  assert (forallb value_char s = true) as Hall.
  { revert Hd. rewrite !forallb_forall. intros Hd c Hin. specialize (Hc c).
    rewrite (Hd c Hin) in Hc. by apply andb_true_iff in Hc as [_ ?]. }
  destruct s as [|c s]; [done|]. cbn [wf_value]. rewrite Hall, andb_true_r.
  cbn [forallb] in Hd. apply andb_true_iff in Hd as [Hd _]. specialize (Hc c).
  rewrite Hd in Hc. by apply andb_true_iff in Hc as [? _].
Qed.

Lemma length_fields_wf body : Forall wf_field (length_fields body).
Proof.
  destruct body as [|c b]; [constructor|]. constructor; [|constructor]. split_and!.
  - by vm_compute.
  - apply digit_name; apply dec_digits.
  - by right.
Qed.

Lemma printed_fields_wf sep h :
  sep = [] ∨ sep = str " " →
  Forall (λ x, wf_name (fst x) = true ∧ wf_value (snd x) = true) h →
  Forall wf_field (printed_fields sep h).
Proof.
  intros Hsep Hh. unfold printed_fields. apply Forall_fmap, Forall_forall.
  intros [k v] [_ Hin]%list_elem_of_filter.
  apply (proj1 (Forall_forall _ _) Hh) in Hin as [Hk Hv]. by repeat split.
Qed.

Lemma request_fields_wf r : wf_request r → Forall wf_field (request_fields r).
Proof.
  intros Hr. constructor.
  - unfold close_text. split_and!; [by vm_compute|by destruct (m_close r); vm_compute|by right].
  - apply Forall_app. split; [|apply length_fields_wf].
    apply printed_fields_wf; [by left|apply Hr].
Qed.

(** The request once its first line is read. *)
Definition parsed_line (r : HttpRequest) : HttpRequest :=
  setVersion (m_version r) (setFragment (m_fragment r) (setQuery (m_query r)
    (setPath (m_path r) (setMethod (m_method r) (HttpRequest_new 17 true))))).

(** The parser's run over the whole printed request. *)
Lemma run_printed r after s :
  wf_request r → Zlen (request_dump r ++ after) < 2 ^ 31 → hp_xml_sent s = 0 → hp_json_sent s = 0 →
  let pe := Zlen (request_dump r) in
  ∃ s', frame s s' ∧
    run (on_request (request_dump r ++ after)) (request_dump r) 0 pe 1 s
        (HttpRequest_new 17 true, 0) =
      Ret (pe - Zlen (m_body r), 348,
           with_body (pe - Zlen (m_body r)) (hp_content_len s) s',
           (set_fields (request_fields r) (parsed_line r), 0)).
Proof.
  intros Hr Hl Hx Hj pe. pose proof (request_dump_pieces r (wr_version r Hr)) as E.
  fold pe. set (b := request_dump r ++ after) in *. set (u := m_path r ++ _) in *.
  set (M := HttpMethodToString (m_method r)) in *.
  pose proof (f_equal (run (on_request b)) E) as Eb. rewrite Eb. clear Eb.
  assert (b = M ++ str " " ++ u ++ version_text (m_version r) ++ crlf ++
    field_lines (request_fields r) ++ crlf ++ m_body r ++ after) as E0
    by (unfold b; by rewrite E, <- !app_assoc).
  destruct (run_method b pe after (m_method r)
    (u ++ version_text (m_version r) ++ crlf ++ field_lines (request_fields r) ++ crlf ++ m_body r)
    s (HttpRequest_new 17 true) 0 (wr_method r Hr)) as (s1 & F1 & E1);
    [by rewrite E0, <- !app_assoc|].
  fold M in E1. rewrite E1. clear E1. set (p1 := M ++ str " ") in *.
  destruct (run_uri_ref b pe after Hl p1 (m_path r) (m_query r) (m_fragment r)
    (version_text (m_version r) ++ crlf ++ field_lines (request_fields r) ++ crlf ++ m_body r)
    s1 (setMethod (m_method r) (HttpRequest_new 17 true)) 0) as (s2 & F2 & E2);
    [apply Hr|apply Hr|apply Hr|done|done| |].
  { fold u. subst p1. by rewrite E0, <- !app_assoc. }
  fold u in E2. rewrite E2. clear E2. set (p2 := p1 ++ u) in *.
  destruct (run_version b pe after p2 (m_version r)
    (field_lines (request_fields r) ++ crlf ++ m_body r)
    s2 (setFragment (m_fragment r) (setQuery (m_query r) (setPath (m_path r)
      (setMethod (m_method r) (HttpRequest_new 17 true))))) 0) as (s3 & F3 & E3); [apply Hr| |].
  { subst p2 p1. by rewrite E0, <- !app_assoc. }
  rewrite E3. clear E3. fold (parsed_line r). set (p3 := p2 ++ _) in *.
  destruct (run_headers b pe after Hl p3 (request_fields r) (crlf ++ m_body r) s3 (parsed_line r) 0)
    as (s4 & F4 & E4); [by apply request_fields_wf| |].
  { subst p3 p2 p1. by rewrite E0, <- !app_assoc. }
  rewrite E4. clear E4. set (p4 := p3 ++ _) in *.
  assert (frame s s4) as F by (etrans; [|etrans; [|etrans]]; eassumption).
  destruct (run_end b pe (m_body r) (Zlen p4) s4
    (set_fields (request_fields r) (parsed_line r), 0)) as (s5 & F5 & E5);
    [by destruct F as (? & ? & ? & ? & ->)..|].
  rewrite E5. exists s5. split; [by etrans|].
  assert (Zlen p4 + 2 = pe - Zlen (m_body r)) as ->.
  { unfold pe. rewrite E. subst p4 p3 p2 p1. rewrite !Zlen_app. change (Zlen crlf) with 2. lia. }
  by destruct F as (? & ? & ? & ? & ->).
Qed.

(** The headers after the fields are set. *)
Lemma set_fields_headers l r :
  m_headers (set_fields l r) =
    foldl (λ m '(k, v), map_set k v m) (m_headers r) ((λ '(k, _, v), (k, v)) <$> l).
Proof.
  unfold set_fields. revert r. induction l as [|[[k sp] v] l IH]; intros r; [done|].
  cbn [foldl fmap list_fmap]. by rewrite IH.
Qed.

Lemma set_fields_rest l r :
  let r' := set_fields l r in
  m_method r' = m_method r ∧ m_version r' = m_version r ∧ m_close r' = m_close r ∧
  m_path r' = m_path r ∧ m_query r' = m_query r ∧ m_fragment r' = m_fragment r ∧
  m_body r' = m_body r.
Proof.
  unfold set_fields. revert r. induction l as [|[[k sp] v] l IH]; intros r; [done|].
  cbn [foldl]. destruct (IH (setHeader k v r)) as (-> & -> & -> & -> & -> & -> & ->). done.
Qed.

Lemma printed_fields_pairs sep h :
  (λ '(k, _, v), (k, v)) <$> printed_fields sep h = other_headers h.
Proof.
  unfold printed_fields. rewrite <- list_fmap_compose. rewrite <- (list_fmap_id (other_headers h)) at 2.
  apply list_fmap_ext. by intros _ [k v] _.
Qed.

(** What a peer finds under a key of a printed request. *)
Definition printed_header (r : HttpRequest) (key : text) : option text :=
  if decide (m_body r ≠ [] ∧ same_key (str "content-length") key)
  then Some (dec (Zlen (m_body r)))
  else if decide (same_key (str "connection") key) then Some (close_text (m_close r))
  else map_find key (m_headers r).

Lemma request_headers_read r key :
  sorted_map (m_headers r) →
  map_find key (m_headers (set_fields (request_fields r) (parsed_line r))) = printed_header r key.
Proof.
  intros Hs. rewrite set_fields_headers. unfold request_fields.
  cbn [fmap list_fmap foldl]. rewrite fmap_app, printed_fields_pairs, foldl_app.
  set (m0 := map_set _ _ _). assert (sorted_map m0) as Hm0 by (apply map_set_sorted; constructor).
  pose proof (other_headers_sorted _ Hs) as Ho.
  pose proof (set_all_sorted (other_headers (m_headers r)) m0 Hm0) as Hm1.
  rewrite map_find_assoc by (by apply set_all_sorted).
  rewrite assoc_set_all; [|by destruct (m_body r); repeat constructor|done].
  rewrite assoc_set_all by done. rewrite assoc_other_headers. unfold m0.
  rewrite assoc_set by constructor. unfold printed_header. rewrite map_find_assoc by done.
  destruct (m_body r) as [|c b] eqn:Eb; cbn [length_fields fmap list_fmap assoc].
  - destruct (decide (_ ∧ _)) as [[? _]|_]; [done|].
    destruct (decide (same_key (str "connection") key)); [done|]. by destruct (assoc key _).
  - destruct (decide (_ ∧ _)) as [[_ Hk]|Hk].
    + by rewrite decide_True by done.
    + rewrite decide_False by (intros Hk'; by apply Hk).
      destruct (decide (same_key (str "connection") key)); [done|]. by destruct (assoc key _).
Qed.

(** The body is the end of the text. *)
Lemma request_dump_body r :
  drop (Z.to_nat (Z.of_nat (length (request_dump r)) - Z.of_nat (length (m_body r))))
    (request_dump r) = m_body r.
Proof.
  assert (∃ h, request_dump r = h ++ m_body r) as [h ->].
  { unfold request_dump. rewrite <- (length_fields_lines _ _ eq_refl). rewrite !app_assoc.
    by eexists. }
  rewrite length_app. replace (Z.to_nat _) with (length h) by lia. by rewrite drop_app_length.
Qed.

Lemma request_dump_length r :
  wf_request r → 0 < Zlen (request_dump r) ∧ Zlen (m_body r) ≤ Zlen (request_dump r).
Proof.
  intros Hr. rewrite (request_dump_pieces r (wr_version r Hr)), !Zlen_app.
  change (Zlen (str " ")) with 1. unfold Zlen. lia.
Qed.

(** A read that ends inside the query. *)
Lemma run_cut_query m path query s :
  readable_method m = true → wf_path path = true → uri_text query_char query = true →
  query ≠ [] →
  let head := HttpMethodToString m ++ str " " ++ path ++ str "?" ++ query in
  Zlen head < 2 ^ 31 →
  ∃ s' r', frame s s' ∧ hp_query_start s' = Zlen head - Zlen query ∧
    run (on_request head) head 0 (Zlen head) 1 s (HttpRequest_new 17 true, 0) =
      Ret (Zlen head, 30, s', (r', 0)).
Proof.
  intros Hm Hp Hq Hne head Hl.
  destruct (run_method head (Zlen head) [] m (path ++ str "?" ++ query) s (HttpRequest_new 17 true) 0)
    as (s1 & F1 & E1); [done|unfold head; by rewrite app_nil_r|].
  pose proof (f_equal (run (on_request head)) (eq_refl head)) as Eb.
  unfold head in Eb at 4. rewrite Eb. clear Eb. rewrite E1. clear E1.
  set (pre := HttpMethodToString m ++ str " ").
  change (str "?" ++ query) with ("?"%char :: query).
  destruct (run_path head (Zlen head) (Zlen pre) path "?"%char query s1
    (setMethod m (HttpRequest_new 17 true), 0)) as (s2 & F2 & Hmk & ->); [done|done|].
  destruct (run_query head (Zlen head) (Zlen pre + Zlen path) query [] s2
    (setMethod m (HttpRequest_new 17 true), 0)) as (s3 & F3 & _ & Hqs & E3); [done|done|].
  rewrite app_nil_r in E3. change (str "?" ++ query) with ("?"%char :: query) in E3.
  rewrite E3. clear E3. cbn [on_request]. rewrite Hmk. unfold on_request_path.
  rewrite (buffer_piece head Hl pre path (str "?" ++ query))
    by (unfold head, pre; by rewrite <- !app_assoc).
  cbn [obind run fst snd].
  assert (Zlen pre + Zlen path + 1 + Zlen query = Zlen head) as El
    by (unfold head, pre; rewrite !Zlen_app; change (Zlen (str "?")) with 1; lia).
  eexists s3, _. split; [by etrans; [|etrans]|]. split; [rewrite Hqs; lia|].
  by rewrite El.
Qed.

(** The next read, when it starts with the blank. *)
Lemma stale_query_throws (rest : text) s d :
  hp_cs s = 30 → 0 < hp_query_start s < 2 ^ 31 → Zlen rest < 2 ^ 31 - 1 →
  http_parser_execute (on_request (str " " ++ rest)) (str " " ++ rest) (Zlen (str " " ++ rest))
    0 s d = Throw std_length_error.
Proof.
  intros Hcs Hq Hr. unfold http_parser_execute. pose proof (Zlen_nonneg rest).
  assert (Zlen (str " " ++ rest) = 1 + Zlen rest) as El by (by rewrite Zlen_app).
  rewrite El. destruct (Z.eqb_spec (1 + Zlen rest) 0); [lia|]. cbn zeta.
  assert (assert_that (0 <=? 1 + Zlen rest) = Ret tt) as ->
    by (unfold assert_that; by rewrite (proj2 (Z.leb_le _ _)) by lia).
  assert (assert_that (1 + Zlen rest - 0 =? i32 (i32 (1 + Zlen rest) - i32 0)) = Ret tt) as ->.
  { unfold assert_that, i32. rewrite !(wrapS_id 32) by (try rewrite !(wrapS_id 32); unfold in_s; lia).
    by rewrite Z.eqb_refl. }
  cbn [obind]. change (Z.to_nat 0) with 0%nat.
  rewrite drop_0, take_ge by (unfold Zlen in *; rewrite length_app; simpl; lia).
  cbn [hp_cs with_nread with_marks]. rewrite Hcs.
  change (str " " ++ rest) with (" "%char :: rest).
  rewrite (run_char _ _ (among [32]) _ _ _ 30 [query_string; request_uri] 4)
    by (by vm_compute || done).
  cbn [acts act on_request hp_query_start with_nread with_marks]. unfold on_request_query.
  assert (std_string (at_ptr (" "%char :: rest) (hp_query_start s)) (LEN (hp_query_start s) 0)
    = Throw std_length_error) as ->; [|done].
  unfold std_string, LEN, u64, wrapU.
  assert ((0 - hp_query_start s) `mod` 2 ^ 64 = 2 ^ 64 - hp_query_start s) as ->.
  { symmetry. apply (Z.mod_unique _ _ (-1)); lia. }
  destruct (Z.ltb_spec (2 ^ 63 - 2) (2 ^ 64 - hp_query_start s)); [done|lia].
Qed.

(** [execute] on a printed request, with the whole result. *)
Lemma parse_printed mem r after :
  wf_request r → Zlen (request_dump r ++ after) < 2 ^ 31 →
  ∃ data s,
    execute (request_dump r ++ after) (Zlen (request_dump r)) (HttpRequestParer_new mem)
      = Ret (Zlen (request_dump r) - Zlen (m_body r), data,
             mkRequestParer (with_nread (Zlen (request_dump r) - Zlen (m_body r)) (with_cs 348 s))
               (set_fields (request_fields r) (parsed_line r)) 0) ∧
    length data = length (request_dump r ++ after) ∧
    take (length (m_body r)) data = m_body r.
Proof.
  intros Hr Hl. pose proof (request_dump_length r Hr) as Hpos.
  pose proof (Zlen_nonneg (m_body r)) as Hbody.
  destruct (run_printed r after (start_of mem)) as (s' & F & Hrun); [done..|].
  destruct (fresh_execute _ _ _ _ _ _ _ _ Hrun) as (data & E & Hd & Ht); [|lia|done|lia|].
  { rewrite (request_dump_pieces r (wr_version r Hr)), <- (assoc_L (++)). apply named_compares, Hr. }
  exists data. eexists. split; [exact E|]. split; [done|].
  replace (Zlen (request_dump r) - (Zlen (request_dump r) - Zlen (m_body r)))
    with (Zlen (m_body r)) in Ht by lia.
  unfold Zlen at 1 in Ht. rewrite Nat2Z.id in Ht. rewrite Ht. apply request_dump_body.
Qed.

(** * Properties *)

(** C12. The request parser does not fail on its input: on any bytes in an
    array of at least 11 (and fewer than 2^31), from a fresh parser or from one
    a read left in a state outside a query, without error and before the end
    of the head, [execute] returns; it consumes a prefix and moves exactly the
    bytes it did not consume to the front of the buffer.  No pointer it keeps
    leaves the buffer, no comparison with the name of a method reads past the
    array, and none of its assertions fails.  The parser is again in such a
    state unless it has an error, has finished or is inside a query; from
    inside a query the next [execute] can throw ([split_query_throws]). *)
Theorem request_parser_returns (data : text) (len : Z) (p : HttpRequestParer) :
  0 ≤ len ≤ Zlen data → 11 ≤ Zlen data < 2 ^ 31 → between_reads (rp_parser p) →
  ∃ n data' p',
    execute data len p = Ret (n, data', p') ∧ 0 ≤ n ≤ len ∧ length data' = length data ∧
    take (Z.to_nat (len - n)) data' = drop (Z.to_nat n) (take (Z.to_nat len) data) ∧
    (hasError p' = false → isFinished p' = 0 → query_state (hp_cs (rp_parser p')) = false →
     between_reads (rp_parser p')).
Proof.
  intros Hlen [Hmin Hl] Hp.
  destruct (execute_returns data len p
    (CharsToHttpMethod_reads data ltac:(unfold Zlen in Hmin; lia)) Hlen Hl Hp)
    as (n & data' & p' & E & Hn & Hd & Ht & Hs & Hb).
  exists n, data', p'. split_and!; [done|lia|lia|done|done|]. intros He Hf Hq.
  split; [|done|by apply Hb]. destruct Hs as [Hs|Hs]; [|done].
  unfold hasError, http_parser_has_error in He. rewrite Hs in He. by rewrite orb_true_r in He.
Qed.

(** C2. A printed request is parsed back: for every request whose parts are
    of the grammar, [execute] on the bytes of [dump] finishes without an error,
    consumes exactly the head and leaves the body at the front of the buffer.
    Method, version, path, query and fragment are those of the request, and
    under every key, in any case, the headers hold what was printed: the
    connection line says [m_close], the content length is that of the body,
    all others are the request's. *)
Theorem printed_request_parses (mem : http_parser) (r : HttpRequest) (after : text) :
  wf_request r → Zlen (request_dump r ++ after) < 2 ^ 31 →
  ∃ data p,
    execute (request_dump r ++ after) (Zlen (request_dump r)) (HttpRequestParer_new mem)
      = Ret (Zlen (request_dump r) - Zlen (m_body r), data, p) ∧
    isFinished p = 1 ∧ hasError p = false ∧
    take (length (m_body r)) data = m_body r ∧
    m_method (rp_data p) = m_method r ∧ m_version (rp_data p) = m_version r ∧
    m_path (rp_data p) = m_path r ∧ m_query (rp_data p) = m_query r ∧
    m_fragment (rp_data p) = m_fragment r ∧
    ∀ key, map_find key (m_headers (rp_data p)) = printed_header r key.
Proof.
  intros Hr Hl. destruct (parse_printed mem r after Hr Hl) as (data & s & E & _ & Ht).
  exists data. eexists. split; [exact E|]. cbn [rp_data].
  destruct (set_fields_rest (request_fields r) (parsed_line r))
    as (-> & -> & _ & -> & -> & -> & _).
  split_and!; try done. intros key. by apply request_headers_read, Hr.
Qed.

(** A query cut by the end of a read: when a read ends inside the query
    of a request, the parser goes on waiting for the rest without an error;
    but it has kept an offset into the bytes that are gone, and if the next
    read starts with the blank after the query, [execute] throws the length
    error of std::string. *)
Theorem split_query_throws (mem : http_parser) (m : Z) (path query : text) :
  readable_method m = true → wf_path path = true → uri_text query_char query = true →
  query ≠ [] →
  let head := HttpMethodToString m ++ str " " ++ path ++ str "?" ++ query in
  Zlen head < 2 ^ 31 →
  ∃ data p,
    execute head (Zlen head) (HttpRequestParer_new mem) = Ret (Zlen head, data, p) ∧
    isFinished p = 0 ∧ hasError p = false ∧
    ∀ rest, Zlen rest < 2 ^ 31 - 1 →
      execute (str " " ++ rest) (Zlen (str " " ++ rest)) p = Throw std_length_error.
Proof.
  intros Hm Hp Hq Hne head Hl.
  destruct (run_cut_query m path query (start_of mem)) as (s' & r' & F & Hqs & Hrun); [done..|].
  fold head in Hqs, Hrun. assert (0 < Zlen head - Zlen query ∧ 0 ≤ Zlen query) as Hpos.
  { unfold head. rewrite !Zlen_app. change (Zlen (str " ")) with 1. unfold Zlen. lia. }
  pose proof (fresh_execute mem head []) as HF. rewrite app_nil_r in HF.
  destruct (HF _ _ _ _ _ Hrun) as (data & E & _); [by apply named_compares|lia|lia|lia|].
  exists data. eexists. split; [exact E|]. split; [done|]. split; [done|].
  intros rest Hr. unfold execute. cbn [rp_parser rp_data rp_error].
  rewrite stale_query_throws; [done|done| |done]. cbn. lia.
Qed.

(** * Witnesses *)

Definition blank_memory : http_parser := mkHP 0 0 0 0 0 0 0 0 0 0 0.

(** An array of two bytes is too short: the comparison with the name that has
    blanks in it reads the byte behind them. *)
Lemma short_array_over_read :
  execute (str "M ") 2 (HttpRequestParer_new blank_memory) = Fault OutOfBounds.
Proof. by vm_compute. Qed.

Lemma request_parser_returns_witness :
  ∃ x, execute (str "BREW /pot    ") 9 (HttpRequestParer_new blank_memory) = Ret x.
Proof.
  destruct (request_parser_returns (str "BREW /pot    ") 9 (HttpRequestParer_new blank_memory))
    as (n & data & p & E & _); [by vm_compute|by vm_compute|by split|].
  exists (n, data, p). exact E.
Defined.

Lemma printed_request_parses_witness :
  ∃ p, isFinished p = 1 ∧ m_path (rp_data p) = str "/index" ∧
    map_find (str "HOST") (m_headers (rp_data p)) = Some (str "a.b").
Proof.
  destruct (printed_request_parses blank_memory demo_request [])
    as (data & p & _ & Hf & _ & _ & _ & _ & Hp & _ & _ & Hh).
  - split; try by vm_compute.
    + by right.
    + by repeat constructor.
    + by repeat constructor.
  - by vm_compute.
  - exists p. split; [exact Hf|]. split; [exact Hp|]. rewrite Hh. by vm_compute.
Defined.

Lemma split_query_throws_witness :
  ∃ p, hasError p = false ∧
    execute (str " HTTP/1.1") 9 p = Throw std_length_error.
Proof.
  destruct (split_query_throws blank_memory 1 (str "/") (str "id=7"))
    as (data & p & _ & _ & He & Hr); [by vm_compute..|].
  exists p. split; [exact He|]. apply (Hr (str "HTTP/1.1")). by vm_compute.
Defined.
