(* ===== verification/ResponseSafety.v ===== *)
(** The response machine and its buffer.

    The marks are behind the current character, but the grammar lets a line
    end stand between a header's name and its value, so the machine may take
    the text of a value for the start of a name, and then hand over the new
    start with the old length: for the values it knows (of Content-Length and
    Transfer-Encoding) that is at most 17 bytes behind the current one.  What
    is known in each state is checked against all transitions by computing
    them. *)

From S2P Require Import Prelude Http CString Ragel Http11Run HttpClientMachine HttpClientParser.
From Stdlib Require Import Ascii.

#[local] Open Scope Z_scope.

(** What is known in a state: whether the name lies behind the current
    character, how many characters it began before it at most, and whether its
    length is at most 17. *)
Record known := mkKnown { k_name : bool; k_since : option Z; k_short : bool }.

Definition in_states (l : list (Z * Z)) (n : Z) : bool :=
  existsb (λ r, (fst r <=? n) && (n <=? snd r)) l.

(** The states inside a name the machine knows, with the state before its
    first character. *)
Definition keywords : list (Z * Z * Z) :=
  [(25, 34, 24); (44, 60, 43); (73, 79, 72); (90, 94, 89); (101, 111, 97)].

Definition since (n : Z) : option Z :=
  match list_find (λ '(a, b, _), a ≤ n ≤ b) keywords with
  | Some (_, (_, _, z)) => Some (n - z)
  | None => None
  end.

Definition known_at (n : Z) : known :=
  mkKnown
    (in_states [(6, 7); (22, 23); (35, 42); (61, 70); (72, 72); (80, 87); (89, 89); (95, 100);
                (112, 116); (118, 119); (121, 123)] n)
    (since n)
    (in_states [(35, 43); (61, 100); (112, 119); (121, 123)] n).

Definition flow (a : action) (f : known) : option known :=
  match a with
  | start_field => Some (mkKnown false (Some 0) (k_short f))
  | write_field =>
      Some (mkKnown true (k_since f)
              match k_since f with Some k => k <=? 17 | None => false end)
  | write_value => if k_name f || k_short f then Some f else None
  | _ => Some f
  end.
Fixpoint flows (l : list action) (f : known) : option known :=
  match l with
  | [] => Some f
  | a :: l => match flow a f with Some f => flows l f | None => None end
  end.

(** [f] one character on gives what is known in state [m]. *)
Definition gives (f : known) (m : Z) : bool :=
  let g := known_at m in
  implb (k_name g) (k_name f) && implb (k_short g) (k_short f) &&
  match k_since g with
  | Some k => match k_since f with Some j => j + 1 <=? k | None => false end
  | None => true
  end.

Definition is_state (n : Z) : bool := (1 <=? n) && (n <=? 123).

Definition sound_jump (n : Z) (t : option (list action * Z)) : bool :=
  match t with
  | None => false
  | Some (l, m) =>
      (m =? 0) ||
      (is_state m && match flows l (known_at n) with Some f => gives f m | None => false end &&
       implb (cp_breaks l) (httpclient_parser_first_final <=? m))
  end.

Definition all_states : list Z := Z.of_nat <$> seq 1 123.

Lemma response_sound_jumps :
  forallb (λ n, forallb (λ c, sound_jump n (st_case n (schar c))) all_ascii) all_states = true.
Proof. by vm_compute. Qed.

Lemma response_all_states_In n : is_state n = true → In n all_states.
Proof.
  intros Hn. apply list_elem_of_In. unfold all_states, is_state in *.
  rewrite <- (Z2Nat.id n) by lia. apply list_elem_of_fmap_2, elem_of_seq. lia.
Qed.

Lemma response_jump_sound n c : is_state n = true → sound_jump n (st_case n (schar c)) = true.
Proof.
  intros Hn. pose proof response_sound_jumps as H. rewrite forallb_forall in H.
  specialize (H n (response_all_states_In n Hn)). rewrite forallb_forall in H.
  by specialize (H c (proj1 (list_elem_of_In _ _) (all_ascii_In c))).
Qed.

(** * The invariant *)

Record marks_ok (f : known) (p pe : Z) (s : httpclient_parser) : Prop := {
  ok_mark : 0 ≤ cp_mark s ≤ p ∧ cp_mark s < pe;
  ok_field : 0 ≤ cp_field_start s ≤ p ∧ cp_field_start s < pe;
  ok_flen : 0 ≤ cp_field_len s ≤ p;
  ok_name : k_name f = true → cp_field_start s + cp_field_len s ≤ p;
  ok_since : ∀ k, k_since f = Some k → p - cp_field_start s ≤ k;
  ok_short : k_short f = true → cp_field_len s ≤ 17;
  ok_body : 0 ≤ cp_body_start s ≤ pe;
}.

(** The bytes a callback may read lie in the buffer, or right behind it. *)
Definition in_range (pe : Z) (c : response_call) : Prop :=
  match c with
  | call_field f n v k => 0 ≤ f ∧ 0 ≤ n ∧ f + n ≤ pe + 17 ∧ 0 ≤ v ∧ 0 ≤ k ∧ v + k ≤ pe
  | call_reason_phrase a n | call_status_code a n | call_chunk_size a n
  | call_version a n | call_done a n | call_last_chunk a n => 0 ≤ a ∧ 0 ≤ n ∧ a + n ≤ pe
  end.

Section safety.
Context {D : Type} (on : response_call → D → outcome D) (buffer : text) (pe : Z).
Hypothesis pe_small : pe < 2 ^ 31.

Lemma CLEN_small a p : 0 ≤ a ≤ p → p ≤ pe → CLEN a p = p - a.
Proof. intros. unfold CLEN, u64. apply wrapU_id. unfold in_u. lia. Qed.

(** The actions keep it. *)
Lemma act_marks a f f' p s d s' d' :
  flow a f = Some f' → 0 ≤ p < pe → marks_ok f p pe s →
  cp_act on buffer a p pe s d = Ret (s', d') → marks_ok f' p pe s'.
Proof.
  intros Hf Hp [Hm Hfs Hfl Hn Hs Hsh Hb].
  assert (CLEN (cp_field_start s) p = p - cp_field_start s) as E2 by (apply CLEN_small; lia).
  destruct a; cbn [cp_act flow] in *;
    try (match type of Hf with Some _ = Some _ => injection Hf as <- end);
    try (destruct (on _ d) as [d1| |]; try done); cbn [obind]; intros [= <- _];
    try (split; cbn; rewrite ?E2; intros; first [lia | by auto | by simplify_eq; lia | done]; fail).
  - split; cbn; rewrite ?E2; intros; try lia; try done.
    + by apply Hs.
    + destruct (k_since f) as [k|] eqn:E; [|done]. specialize (Hs k eq_refl). lia.
  - destruct (k_name f || k_short f); [|done]. injection Hf as <-. by split.
Qed.

Lemma acts_marks l f f' p s d s' d' :
  flows l f = Some f' → 0 ≤ p < pe → marks_ok f p pe s →
  cp_acts on buffer l p pe s d = Ret (s', d') → marks_ok f' p pe s'.
Proof.
  revert f s d. induction l as [|a l IH]; intros f s d Hf Hp Hs; cbn [flows cp_acts] in *.
  { injection Hf as <-. by intros [= <- _]. }
  destruct (flow a f) as [f1|] eqn:E; [|done].
  destruct (cp_act on buffer a p pe s d) as [[s1 d1]| |] eqn:Ea; try done. cbn [obind].
  apply (IH f1); [done|done|]. by eapply act_marks.
Qed.

Lemma marks_ok_next f m p s : marks_ok f p pe s → gives f m = true → marks_ok (known_at m) (p + 1) pe s.
Proof.
  intros [Hm Hfs Hfl Hn Hs Hsh Hb] Hg. unfold gives in Hg.
  apply andb_true_iff in Hg as [[Hg1 Hg2]%andb_true_iff Hg3]. split; try lia.
  - intros E. rewrite E in Hg1. specialize (Hn Hg1). lia.
  - intros k E. rewrite E in Hg3. destruct (k_since f) as [j|]; [|done].
    specialize (Hs j eq_refl). lia.
  - intros E. rewrite E in Hg2. by apply Hsh.
Qed.

(** What is left of it at the end of a run. *)
Definition nothing : known := mkKnown false None false.

Lemma marks_ok_end f p s : marks_ok f p pe s → p ≤ pe → marks_ok nothing pe pe s.
Proof. intros [Hm Hfs Hfl Hn Hs Hsh Hb] Hp. by split; cbn; try lia. Qed.

(** A jump of the machine, in the terms above. *)
Lemma jump_cases n c :
  is_state n = true →
  ∃ l m, st_case n (schar c) = Some (l, m) ∧
    (m = 0 ∨ m ≠ 0 ∧ is_state m = true ∧ (cp_breaks l = true → httpclient_parser_first_final ≤ m) ∧
     ∃ f, flows l (known_at n) = Some f ∧ gives f m = true).
Proof.
  intros Hn. pose proof (response_jump_sound n c Hn) as Hj.
  destruct (st_case n (schar c)) as [[l m]|]; [|done]. exists l, m. split; [done|].
  cbn [sound_jump] in Hj. destruct (Z.eqb_spec m 0) as [|Hm]; [by left|]. right. cbn [orb] in Hj.
  apply andb_true_iff in Hj as [[H1 H2]%andb_true_iff H3]. split_and!; try done.
  - intros E. rewrite E in H3. by apply Z.leb_le.
  - destruct (flows l _) as [f|]; [|done]. by exists f.
Qed.

Lemma run_marks rest p n s d p' n' s' d' :
  is_state n = true → 0 ≤ p → p + Zlen rest = pe → 0 < pe → marks_ok (known_at n) p pe s →
  cp_run on buffer rest p pe n s d = Ret (p', n', s', d') →
  p ≤ p' ≤ pe ∧ (n' = 0 ∨ is_state n' = true) ∧ marks_ok nothing pe pe s'.
Proof.
  revert p n s d. induction rest as [|c rest IH]; intros p n s d Hn Hp Hpe Hpos Hs; cbn [cp_run].
  { unfold Zlen in Hpe. simpl in Hpe. intros [= <- <- <- _].
    split; [lia|]. split; [by right|]. eapply marks_ok_end; [done|lia]. }
  assert (p + 1 + Zlen rest = pe) as Hpe' by (unfold Zlen in *; simpl in Hpe; lia).
  pose proof (Zlen_nonneg rest).
  destruct (jump_cases n c Hn) as (l & m & -> & [-> |(Hm0 & Hm & _ & f & Ef & Hg)]).
  { intros [= <- <- <- _]. split; [lia|]. split; [by left|]. eapply marks_ok_end; [done|lia]. }
  rewrite (proj2 (Z.eqb_neq m 0)) by done.
  destruct (cp_acts on buffer l p pe s d) as [[s1 d1]| |] eqn:Ea; try done. cbn [obind].
  assert (marks_ok f p pe s1) as H1 by (eapply acts_marks; [done|lia|done|done]).
  destruct (cp_breaks l).
  { intros [= <- <- <- _]. split; [lia|]. split; [by right|]. eapply marks_ok_end; [done|lia]. }
  intros Hrun. destruct (IH (p + 1) m s1 d1 Hm) as (? & ? & ?); [lia|lia|done| |done|].
  { by eapply marks_ok_next. }
  split; [lia|done].
Qed.

(** ** Callbacks that return *)

Hypothesis on_ok : ∀ c d, in_range pe c → ∃ d', on c d = Ret d'.

Lemma act_returns a f f' p s d :
  flow a f = Some f' → 0 ≤ p < pe → marks_ok f p pe s →
  ∃ s' d', cp_act on buffer a p pe s d = Ret (s', d').
Proof.
  intros Hf Hp [Hm Hfs Hfl Hn Hs Hsh Hb].
  assert (CLEN (cp_mark s) p = p - cp_mark s) as E1 by (apply CLEN_small; lia).
  destruct a; cbn [cp_act flow] in *; try (by eexists _, _);
    try (match goal with |- context [on ?c d] => destruct (on_ok c d) as [d' ->] end;
         [cbn; rewrite ?E1; lia|]; cbn [obind]; by eexists _, _).
  - destruct (k_name f || k_short f) eqn:E; [|done].
    match goal with |- context [on ?c d] => destruct (on_ok c d) as [d' ->] end;
      [|cbn [obind]; by eexists _, _].
    cbn. rewrite E1. apply orb_true_iff in E as [E|E]; [specialize (Hn E)|specialize (Hsh E)]; lia.
  - match goal with |- context [on ?c d] => assert (in_range pe c) as Hc end.
    { destruct (_ <=? 0); cbn; rewrite E1; lia. }
    match goal with |- context [on ?c d] => destruct (on_ok c d Hc) as [d' ->] end.
    cbn [obind]. by eexists _, _.
  - match goal with |- context [on ?c d] => destruct (on_ok c d) as [d' ->] end;
      [|cbn [obind]; by eexists _, _].
    cbn. unfold u64. rewrite wrapU_id by (unfold in_u; lia). lia.
Qed.

Lemma acts_returns l f f' p s d :
  flows l f = Some f' → 0 ≤ p < pe → marks_ok f p pe s →
  ∃ s' d', cp_acts on buffer l p pe s d = Ret (s', d').
Proof.
  revert f s d. induction l as [|a l IH]; intros f s d Hf Hp Hs; cbn [flows cp_acts] in *; [by eexists _, _|].
  destruct (flow a f) as [f1|] eqn:E; [|done].
  destruct (act_returns a f f1 p s d E Hp Hs) as (s1 & d1 & Ea). rewrite Ea. cbn [obind].
  apply (IH f1); [done|done|]. by eapply act_marks.
Qed.

Lemma run_returns rest p n s d :
  is_state n = true → 0 ≤ p → p + Zlen rest = pe → 0 < pe → marks_ok (known_at n) p pe s →
  ∃ p' n' s' d', cp_run on buffer rest p pe n s d = Ret (p', n', s', d').
Proof.
  revert p n s d. induction rest as [|c rest IH]; intros p n s d Hn Hp Hpe Hpos Hs; cbn [cp_run];
    [by eexists _, _, _, _|].
  assert (p + 1 + Zlen rest = pe) as Hpe' by (unfold Zlen in *; simpl in Hpe; lia).
  pose proof (Zlen_nonneg rest).
  destruct (jump_cases n c Hn) as (l & m & -> & [-> |(Hm0 & Hm & _ & f & Ef & Hg)]);
    [by eexists _, _, _, _|].
  rewrite (proj2 (Z.eqb_neq m 0)) by done.
  destruct (acts_returns l _ _ p s d Ef) as (s1 & d1 & Ea); [lia|done|]. rewrite Ea. cbn [obind].
  destruct (cp_breaks l); [by eexists _, _, _, _|].
  apply IH; [done|lia|lia|done|]. eapply marks_ok_next; [|done].
  eapply acts_marks; [exact Ef|lia|done|exact Ea].
Qed.
End safety.

(** * What no action changes *)

Section kept.
Context {D : Type} (on : response_call → D → outcome D) (buffer : text) (pe : Z).

Definition kept (s s' : httpclient_parser) : Prop := cp_nread s' = cp_nread s ∧ cp_cs s' = cp_cs s.

#[global] Instance kept_preorder : PreOrder kept.
Proof. unfold kept. split; [done|]. intros ? ? ? (? & ?) (? & ?). split; congruence. Qed.

Lemma response_act_kept a p s d s' d' :
  cp_act on buffer a p pe s d = Ret (s', d') →
  kept s s' ∧ (cp_breaks [a] = false → cp_body_start s' = cp_body_start s).
Proof.
  destruct a; cbn [cp_act]; try (by intros [= <- _]);
    try (destruct (on _ _); cbn [obind]; by intros [= <- _]).
Qed.

Lemma response_acts_kept l p s d s' d' :
  cp_acts on buffer l p pe s d = Ret (s', d') →
  kept s s' ∧ (cp_breaks l = false → cp_body_start s' = cp_body_start s).
Proof.
  revert s d. induction l as [|a l IH]; intros s d; cbn [cp_acts]; [by intros [= <- _]|].
  destruct (cp_act on buffer a p pe s d) as [[s1 d1]| |] eqn:E; try done. cbn [obind]. intros H.
  destruct (response_act_kept _ _ _ _ _ _ E) as [K B]. destruct (IH _ _ H) as [K' B'].
  split; [by etrans|]. cbn [cp_breaks existsb]. intros [Ha Hl]%orb_false_iff.
  rewrite (B' Hl). apply B. cbn. by rewrite Ha.
Qed.

Lemma response_run_kept rest p n s d p' n' s' d' :
  is_state n = true → cp_run on buffer rest p pe n s d = Ret (p', n', s', d') →
  kept s s' ∧ (cp_body_start s' = cp_body_start s ∨ httpclient_parser_first_final ≤ n').
Proof.
  revert p n s d. induction rest as [|c rest IH]; intros p n s d Hn; cbn [cp_run].
  { intros [= _ _ <- _]. split; [done|by left]. }
  destruct (jump_cases n c Hn) as (l & m & -> & [-> |(Hm0 & Hm & Hd & _)]).
  { intros [= _ _ <- _]. split; [done|by left]. }
  rewrite (proj2 (Z.eqb_neq m 0)) by done.
  destruct (cp_acts on buffer l p pe s d) as [[s1 d1]| |] eqn:E; try done. cbn [obind].
  destruct (response_acts_kept _ _ _ _ _ _ E) as [K B]. destruct (cp_breaks l).
  - intros [= _ <- <- _]. split; [done|]. right. by apply Hd.
  - intros H. destruct (IH _ _ _ _ Hm H) as [K' B']. split; [by etrans|].
    rewrite <- (B eq_refl). done.
Qed.
End kept.

(** * [httpclient_parser_execute] *)

(** The parser as [execute] starts to run it. *)
Definition started (s : httpclient_parser) : httpclient_parser :=
  cp_with_pos (cp_cs s) 0 (cp_body_start s) (cp_with_marks 0 0 0 s).

Section execute.
Context {D : Type} (on : response_call → D → outcome D) (buffer : text) (pe : Z).
Hypothesis pe_pos : 0 < pe < 2 ^ 31.
Hypothesis nul : buffer !! Z.to_nat pe = Some NUL.

Lemma take_pe : Zlen (take (Z.to_nat pe) buffer) = pe.
Proof. apply lookup_lt_Some in nul. unfold Zlen. rewrite length_take. lia. Qed.

Lemma started_marks s :
  0 ≤ cp_body_start s ≤ pe → marks_ok (known_at (cp_cs s)) 0 pe (started s).
Proof.
  intros Hb. split; cbn; try lia. intros k. unfold since, keywords.
  destruct (list_find _ _) as [[i [[a b] z]]|] eqn:E; [|done]. intros [= <-].
  apply list_find_Some in E as (E & Hr & _). revert E Hr.
  do 5 (destruct i as [|i]; [intros [= <- <- <-]; lia|]). done.
Qed.

(** It returns what the run of the machine finds. *)
Lemma response_execute_run s d p n s' d' :
  is_state (cp_cs s) = true → 0 ≤ cp_body_start s ≤ pe →
  cp_run on buffer (take (Z.to_nat pe) buffer) 0 pe (cp_cs s) (started s) d = Ret (p, n, s', d') →
  httpclient_parser_execute on buffer pe 0 s d
    = Ret (p, cp_with_pos n p (cp_body_start s') s', d') ∧
  0 ≤ p ≤ pe ∧ (n = 0 ∨ is_state n = true) ∧
  (cp_body_start s' = cp_body_start s ∨ httpclient_parser_first_final ≤ n).
Proof.
  intros Hs Hb Hrun. pose proof take_pe as Htk.
  destruct (run_marks on buffer pe (proj2 pe_pos) (take (Z.to_nat pe) buffer) 0 (cp_cs s)
    (started s) d p n s' d' Hs) as (Hp & Hn & Hok); [lia|lia|lia|by apply started_marks|exact Hrun|].
  destruct (response_run_kept _ _ _ _ _ _ _ _ _ _ _ _ Hs Hrun) as [[Hnr _] Hbd].
  split; [|split_and!; try lia; done].
  unfold httpclient_parser_execute. cbn zeta. fold (started s).
  change (cp_cs (started s)) with (cp_cs s).
  assert (∀ b : bool, b = true → cp_assert b = Ret tt) as Hassert by (by intros b ->).
  rewrite Hassert by (apply Z.leb_le; lia). cbn [obind]. rewrite nul. cbn [obind].
  rewrite Hassert by (by apply bool_decide_eq_true). cbn [obind].
  rewrite Hassert.
  2: { unfold i32. rewrite !(wrapS_id 32) by (try rewrite !(wrapS_id 32); unfold in_s; lia).
       by rewrite Z.eqb_refl. }
  cbn [obind]. change (Z.to_nat 0) with 0%nat. rewrite drop_0, Hrun. cbn [obind].
  assert (u64 (cp_nread s' + (p - 0)) = p) as ->.
  { rewrite Hnr. cbn. unfold u64. rewrite wrapU_id by (unfold in_u; lia). lia. }
  destruct Hok as [Hm Hf Hfl _ _ _ Hbo].
  cbn [cp_nread cp_body_start cp_with_pos cp_mark cp_field_len cp_field_start].
  rewrite !Hassert by (apply Z.leb_le; lia). cbn [obind].
  rewrite !(proj2 (Z.leb_le _ _)), !(proj2 (Z.ltb_lt _ _)) by lia. cbn [andb].
  unfold i32. by rewrite (wrapS_id 32) by (unfold in_s; lia).
Qed.

(** With callbacks that return, the run does. *)
Lemma execute_runs s d :
  (∀ c d, in_range pe c → ∃ d', on c d = Ret d') →
  is_state (cp_cs s) = true → 0 ≤ cp_body_start s ≤ pe →
  ∃ p n s' d',
    cp_run on buffer (take (Z.to_nat pe) buffer) 0 pe (cp_cs s) (started s) d = Ret (p, n, s', d').
Proof.
  intros Hon Hs Hb. pose proof take_pe.
  apply run_returns; [lia|done|done|lia|lia|lia|by apply started_marks].
Qed.
End execute.
