(* ===== verification/ResponseRun.v ===== *)
(** What the response parser does on each piece of a response.

    The machine looks for three headers (Connection, Content-Length,
    Transfer-Encoding) while it reads the names and values of all, so a name or
    a value is read in many states.  A phase is the set of states in which the
    machine may be at one kind of place of the text; that a class of characters
    leads from one phase to another, with the same actions, is decided by
    computing all transitions.  The fields that only record what those three
    headers say ([cp_with_meta]) are left out of account: [crun] is the run up
    to them. *)

From S2P Require Import Prelude Http HttpTheorems CString Ragel Http11Run RequestRun Decimal.
From S2P Require Import HttpClientMachine HttpClientParser HttpParser ResponseSafety.
From Stdlib Require Import Ascii.

#[local] Open Scope string_scope.
#[local] Open Scope list_scope.
#[local] Open Scope Z_scope.

#[export] Instance response_action_eq_dec : EqDecision action.
Proof. solve_decision. Defined.

(** * Runs up to the records of the three headers *)

Definition canon (s : httpclient_parser) : httpclient_parser := cp_with_meta 0 0 0 0 0 s.

(** The actions that only record what a header says. *)
Definition records (a : action) : bool :=
  match a with write_content_len | write_connection_close | trans_chunked => true | _ => false end.

Definition strip (l : list action) : list action := filter (λ a, records a = false) l.

Definition canon_pair {D} (x : outcome (httpclient_parser * D)) : outcome (httpclient_parser * D) :=
  let! (s, d) := x in Ret (canon s, d).

Section crun.
Context {D : Type} (on : response_call → D → outcome D) (buffer : text) (pe : Z).
Implicit Types (s : httpclient_parser) (d : D).

(** Two parsers that differ only in the records. *)
Definition alike s s' : Prop := canon s = canon s'.

Lemma canon_Ret s s' d d' : Ret (canon s, d) = Ret (canon s', d') → alike s s' ∧ d = d'.
Proof. unfold alike. intros H. split; congruence. Qed.

Lemma act_alike a p s s' d :
  alike s s' → canon_pair (cp_act on buffer a p pe s d) = canon_pair (cp_act on buffer a p pe s' d).
Proof.
  unfold alike. destruct s, s'. intros [= -> -> -> -> -> ->].
  destruct a; cbn; try done; by destruct (on _ d).
Qed.

Lemma act_records a p s d :
  records a = true → ∃ s', cp_act on buffer a p pe s d = Ret (s', d) ∧ alike s s'.
Proof. destruct a; try done; intros _; cbn; by eexists. Qed.

Lemma acts_alike l p s s' d :
  alike s s' →
  canon_pair (cp_acts on buffer l p pe s d) = canon_pair (cp_acts on buffer (strip l) p pe s' d).
Proof.
  revert s s' d. induction l as [|a l IH]; intros s s' d Hs; cbn [cp_acts strip]; [cbn; by rewrite Hs|].
  destruct (records a) eqn:E.
  - unfold strip. rewrite filter_cons_False by (by rewrite E).
    destruct (act_records a p s d E) as (s1 & -> & H1). cbn [obind]. apply IH.
    unfold alike in *. congruence.
  - unfold strip. rewrite filter_cons_True by done. cbn [cp_acts].
    pose proof (act_alike a p s s' d Hs) as Ha.
    destruct (cp_act on buffer a p pe s d) as [[s1 d1]| |], (cp_act on buffer a p pe s' d) as [[s2 d2]| |];
      cbn [canon_pair obind] in Ha; try done; [|by simplify_eq..]. apply canon_Ret in Ha as [H1 ->]. cbn [obind]. by apply IH.
Qed.

Definition canon_end (x : outcome (Z * Z * httpclient_parser * D)) :
    outcome (Z * Z * httpclient_parser * D) :=
  let! (p, n, s, d) := x in Ret (p, n, canon s, d).

Definition crun (rest : text) (p n : Z) s d : outcome (Z * Z * httpclient_parser * D) :=
  canon_end (cp_run on buffer rest p pe n s d).

Lemma crun_alike rest p n s s' d : alike s s' → crun rest p n s d = crun rest p n s' d.
Proof.
  unfold crun. revert p n s s' d. induction rest as [|c rest IH]; intros p n s s' d Hs; cbn [cp_run].
  { cbn. by rewrite Hs. }
  destruct (st_case n (schar c)) as [[l m]|]; [|cbn; by rewrite Hs].
  destruct (m =? 0); [cbn; by rewrite Hs|].
  pose proof (acts_alike l p s s' d Hs) as H1. pose proof (acts_alike l p s' s' d eq_refl) as H2.
  rewrite <- H2 in H1. clear H2.
  destruct (cp_acts on buffer l p pe s d) as [[s1 d1]| |], (cp_acts on buffer l p pe s' d) as [[s2 d2]| |];
    cbn [canon_pair obind] in H1; try done; [|by simplify_eq..]. apply canon_Ret in H1 as [H1 ->]. cbn [obind].
  destruct (cp_breaks l); [cbn; by rewrite H1|]. by apply IH.
Qed.

(** One character. *)
Lemma crun_step c rest p n l m s d :
  st_case n (schar c) = Some (l, m) → m ≠ 0 → cp_breaks l = false →
  crun (c :: rest) p n s d =
    let! (s, d) := cp_acts on buffer (strip l) p pe s d in crun rest (p + 1) m s d.
Proof.
  intros Hj Hm Hb. unfold crun at 1. cbn [cp_run]. rewrite Hj, Hb. apply Z.eqb_neq in Hm.
  rewrite Hm. pose proof (acts_alike l p s s d eq_refl) as H1.
  destruct (cp_acts on buffer l p pe s d) as [[s1 d1]| |],
    (cp_acts on buffer (strip l) p pe s d) as [[s2 d2]| |]; cbn [canon_pair obind] in H1; try done; [|by simplify_eq..].
  apply canon_Ret in H1 as [H1 ->]. cbn [obind]. by apply crun_alike.
Qed.

(** * Phases *)

(** On every character of [cls] the states of [from] do one of [ls] and go
    to [to]. *)
Definition phase_check (cls : ascii → bool) (from : list Z) (ls : list (list action)) (to : list Z) : bool :=
  forallb (λ n, forallb (λ c, negb (cls c) ||
    match st_case n (schar c) with
    | Some (l, m) => bool_decide (strip l ∈ ls) && bool_decide (m ∈ to) && negb (m =? 0) &&
                     negb (cp_breaks l)
    | None => false
    end) all_ascii) from.

Lemma crun_char cls from ls to c rest p n s d :
  phase_check cls from ls to = true → n ∈ from → cls c = true →
  ∃ l m, l ∈ ls ∧ m ∈ to ∧
    crun (c :: rest) p n s d = let! (s, d) := cp_acts on buffer l p pe s d in crun rest (p + 1) m s d.
Proof.
  intros H Hn Hc. unfold phase_check in H. rewrite forallb_forall in H.
  specialize (H n (proj1 (list_elem_of_In _ _) Hn)). pose proof (ascii_check _ H c) as Hj.
  cbv beta in Hj. rewrite Hc in Hj. cbn [negb orb] in Hj.
  destruct (st_case n (schar c)) as [[l m]|] eqn:E; [|done].
  apply andb_true_iff in Hj as [[[Hl Hm]%andb_true_iff Hz]%andb_true_iff Hb].
  apply bool_decide_eq_true in Hl, Hm. apply negb_true_iff in Hz, Hb. apply Z.eqb_neq in Hz.
  exists (strip l), m. split; [done|]. split; [done|]. by apply crun_step.
Qed.

(** The same with one list of actions. *)
Lemma crun_char1 cls from l to c rest p n s d :
  phase_check cls from [l] to = true → n ∈ from → cls c = true →
  ∃ m, m ∈ to ∧
    crun (c :: rest) p n s d = let! (s, d) := cp_acts on buffer l p pe s d in crun rest (p + 1) m s d.
Proof.
  intros H Hn Hc. destruct (crun_char cls from [l] to c rest p n s d H Hn Hc)
    as (l' & m & ->%list_elem_of_singleton & Hm & E). by exists m.
Qed.

(** The same between two states. *)
Lemma crun_one cls n l m c rest p s d :
  phase_check cls [n] [l] [m] = true → cls c = true →
  crun (c :: rest) p n s d = let! (s, d) := cp_acts on buffer l p pe s d in crun rest (p + 1) m s d.
Proof.
  intros H Hc. by destruct (crun_char1 cls [n] l [m] c rest p n s d H) as (? & ->%list_elem_of_singleton & ->);
    [by left|done|].
Qed.

(** A loop without actions inside a phase. *)
Lemma crun_loop cls from w rest p n s d :
  phase_check cls from [[]] from = true → n ∈ from → forallb cls w = true →
  ∃ m, m ∈ from ∧ crun (w ++ rest) p n s d = crun rest (p + Zlen w) m s d.
Proof.
  intros H. revert p n. induction w as [|c w IH]; intros p n Hn Hw.
  { exists n. split; [done|]. f_equal. unfold Zlen. simpl. lia. }
  cbn [forallb] in Hw. apply andb_true_iff in Hw as [H1 H2]. cbn [app].
  destruct (crun_char1 cls from [] from c (w ++ rest) p n s d H Hn H1) as (m & Hm & ->).
  cbn [cp_acts obind]. destruct (IH (p + 1) m Hm H2) as (m' & Hm' & ->).
  exists m'. split; [done|]. f_equal. rewrite Zlen_cons. lia.
Qed.
End crun.

(** The phases of a head: at the start of a line after a header whose value was
    empty or not, in a name, before a value, in a value, after the CR of a line,
    after the CR of the empty line. *)
Definition line_start : list Z := [20; 36; 43; 62; 113].
Definition line_start_full : list Z := [20; 43].
Definition in_name : list Z :=
  [21; 25; 26; 27; 28; 29; 30; 31; 32; 33; 34; 44; 45; 46; 47; 48; 49; 50; 51; 52; 53; 54; 55; 56;
   57; 58; 59; 60; 73; 74; 75; 76; 77; 78; 79; 90; 91; 92; 93; 94; 101; 102; 103; 104; 105; 106;
   107; 108; 109; 110; 111; 117].
Definition before_value : list Z := [22; 35; 61; 112].
Definition in_value : list Z := [23; 81; 82; 83; 84; 85; 86; 87; 96; 97; 98; 99; 100; 119].
Definition line_end_empty : list Z := [24; 80; 95; 118].
Definition line_end_full : list Z := [24; 71; 88].

(** Each is decided by computing. *)
Lemma phase_name : phase_check token_char line_start [[start_field]; [start_value; start_field]] in_name = true.
Proof. by vm_compute. Qed.
Lemma phase_in_name : phase_check token_char in_name [[]] in_name = true.
Proof. by vm_compute. Qed.
Lemma phase_colon : phase_check (among [58]) in_name [[write_field]] before_value = true.
Proof. by vm_compute. Qed.
Lemma phase_blank : phase_check (among [32]) before_value [[start_value]] before_value = true.
Proof. by vm_compute. Qed.
Lemma phase_value : phase_check value_start before_value [[start_value]] in_value = true.
Proof. by vm_compute. Qed.
Lemma phase_in_value : phase_check value_char in_value [[]] in_value = true.
Proof. by vm_compute. Qed.
Lemma phase_empty_end :
  phase_check (among [13]) before_value [[start_value; write_value]] line_end_empty = true.
Proof. by vm_compute. Qed.
Lemma phase_value_end : phase_check (among [13]) in_value [[write_value]] line_end_full = true.
Proof. by vm_compute. Qed.
Lemma phase_empty_line : phase_check (among [10]) line_end_empty [[]] line_start = true.
Proof. by vm_compute. Qed.
Lemma phase_full_line : phase_check (among [10]) line_end_full [[]] line_start_full = true.
Proof. by vm_compute. Qed.
Lemma phase_last : phase_check (among [13]) line_start_full [[]] [3] = true.
Proof. by vm_compute. Qed.

(** * The pieces of a response *)

Section pieces.
Context (buffer : text) (pe : Z) (after : text).
Hypothesis small : Zlen buffer < 2 ^ 31.

Abbreviation RUN := (crun (on_response buffer) buffer pe).

(** A piece of the buffer, as a callback receives it. *)
Lemma response_piece pre w post :
  buffer = pre ++ w ++ post →
  std_string (at_ptr buffer (Zlen pre)) (CLEN (Zlen pre) (Zlen pre + Zlen w)) = Ret w.
Proof. intros E. rewrite E in small |- *. by apply std_string_mid. Qed.

(** ** A header line *)

Lemma crun_name p n name rest s d :
  n ∈ line_start → wf_name name = true →
  ∃ m s', m ∈ before_value ∧ cp_field_start s' = p ∧ cp_field_len s' = CLEN p (p + Zlen name) ∧
    RUN (name ++ str ":" ++ rest) p n s d = RUN rest (p + Zlen name + 1) m s' d.
Proof.
  intros Hn Hw. destruct name as [|c name]; [done|].
  cbn [wf_name forallb] in Hw. apply andb_true_iff in Hw as [Hc Hw]. cbn [app].
  destruct (crun_char (on_response buffer) buffer pe token_char line_start _ in_name c
    (name ++ str ":" ++ rest) p n s d phase_name Hn Hc) as (l & m & Hl & Hm & ->).
  assert (∃ s1, cp_acts (on_response buffer) buffer l p pe s d = Ret (s1, d) ∧ cp_field_start s1 = p)
    as (s1 & -> & H1).
  { apply elem_of_cons in Hl as [-> |[-> | []%not_elem_of_nil]%elem_of_cons]; by eexists. }
  cbn [obind].
  destruct (crun_loop (on_response buffer) buffer pe token_char in_name name (str ":" ++ rest)
    (p + 1) m s1 d phase_in_name Hm Hw) as (m2 & Hm2 & ->).
  change (str ":" ++ rest) with (":"%char :: rest).
  destruct (crun_char1 (on_response buffer) buffer pe (among [58]) in_name _ before_value ":"%char
    rest (p + 1 + Zlen name) m2 s1 d phase_colon Hm2 eq_refl) as (m3 & Hm3 & ->).
  cbn [cp_acts cp_act obind]. exists m3, (cp_with_marks (cp_mark s1) (cp_field_start s1)
    (CLEN (cp_field_start s1) (p + 1 + Zlen name)) s1). split; [done|]. split; [cbn; exact H1|].
  rewrite Zlen_cons. split; [cbn; rewrite H1; f_equal; lia|]. f_equal. lia.
Qed.

Lemma crun_blank p n rest s d :
  n ∈ before_value →
  ∃ m s', m ∈ before_value ∧ cp_field_start s' = cp_field_start s ∧ cp_field_len s' = cp_field_len s ∧
    RUN (str " " ++ rest) p n s d = RUN rest (p + 1) m s' d.
Proof.
  intros Hn. change (str " " ++ rest) with (" "%char :: rest).
  destruct (crun_char1 (on_response buffer) buffer pe (among [32]) before_value _ before_value " "%char
    rest p n s d phase_blank Hn eq_refl) as (m & Hm & ->).
  cbn [cp_acts cp_act obind]. exists m, (cp_with_marks p (cp_field_start s) (cp_field_len s) s).
  by split_and!.
Qed.

(** The value, after the blank: where the next line starts says whether it was
    empty. *)
Lemma crun_value q0 n value rest s d :
  n ∈ before_value → wf_value value = true →
  ∃ m s', m ∈ line_start ∧ (value ≠ [] → m ∈ line_start_full) ∧
    RUN (value ++ crlf ++ rest) q0 n s d =
      let! d := on_response buffer (call_field (cp_field_start s) (cp_field_len s) q0
                                      (CLEN q0 (q0 + Zlen value))) d in
      RUN rest (q0 + Zlen value + 2) m s' d.
Proof.
  intros Hn Hw. change (crlf ++ rest) with (CR :: LF :: rest).
  destruct value as [|c value].
  - cbn [app]. destruct (crun_char1 (on_response buffer) buffer pe (among [13]) before_value _
      line_end_empty CR (LF :: rest) q0 n s d phase_empty_end Hn eq_refl) as (m & Hm & ->).
    cbn [cp_acts cp_act obind cp_mark cp_field_start cp_field_len cp_with_marks].
    set (s' := cp_with_marks _ _ _ s).
    destruct (crun_char1 (on_response buffer) buffer pe (among [10]) line_end_empty [] line_start LF
      rest (q0 + 1) m s' d phase_empty_line Hm eq_refl) as (m2 & Hm2 & _).
    replace (q0 + Zlen []) with q0 by (unfold Zlen; simpl; lia).
    destruct (on_response buffer _ d) as [d'| |] eqn:Eon; [|by exists m2, s'..]. cbn [obind].
    destruct (crun_char1 (on_response buffer) buffer pe (among [10]) line_end_empty [] line_start LF
      rest (q0 + 1) m s' d' phase_empty_line Hm eq_refl) as (m3 & Hm3 & ->).
    exists m3, s'. split; [done|]. split; [done|]. cbn [cp_acts obind]. f_equal. lia.
  - cbn [wf_value forallb] in Hw. apply andb_true_iff in Hw as [Hc Hw].
    apply andb_true_iff in Hw as [_ Hw]. cbn [app].
    destruct (crun_char1 (on_response buffer) buffer pe value_start before_value _ in_value c
      (value ++ CR :: LF :: rest) q0 n s d phase_value Hn Hc) as (m & Hm & ->).
    cbn [cp_acts cp_act obind]. set (s' := cp_with_marks _ _ _ s).
    destruct (crun_loop (on_response buffer) buffer pe value_char in_value value (CR :: LF :: rest)
      (q0 + 1) m s' d phase_in_value Hm Hw) as (m2 & Hm2 & ->).
    destruct (crun_char1 (on_response buffer) buffer pe (among [13]) in_value _ line_end_full CR
      (LF :: rest) (q0 + 1 + Zlen value) m2 s' d phase_value_end Hm2 eq_refl) as (m3 & Hm3 & ->).
    cbn [cp_acts cp_act obind]. change (cp_mark s') with q0.
    change (cp_field_start s') with (cp_field_start s). change (cp_field_len s') with (cp_field_len s).
    rewrite Zlen_cons. replace (q0 + (1 + Zlen value)) with (q0 + 1 + Zlen value) by lia.
    destruct (on_response buffer _ d) as [d'| |] eqn:Eon;
      [|exists 20, s'; split_and!; [by left|by left|done]..]. cbn [obind].
    destruct (crun_char1 (on_response buffer) buffer pe (among [10]) line_end_full [] line_start_full LF
      rest (q0 + 1 + Zlen value + 1) m3 s' d' phase_full_line Hm3 eq_refl) as (m4 & Hm4 & ->).
    exists m4, s'. split; [|split; [done|]].
    + clear -Hm4. unfold line_start, line_start_full in *. set_solver.
    + cbn [cp_acts obind]. f_equal. lia.
Qed.

Lemma crun_header pre n name value rest s r e :
  n ∈ line_start → wf_name name = true → wf_value value = true →
  buffer = pre ++ header_line name (str " ") value ++ rest ++ after →
  ∃ m s', m ∈ line_start ∧ (value ≠ [] → m ∈ line_start_full) ∧
    RUN (header_line name (str " ") value ++ rest) (Zlen pre) n s (r, e) =
      RUN rest (Zlen (pre ++ header_line name (str " ") value)) m s'
        (response_setHeader name value r, e).
Proof.
  intros Hn Hnm Hv Hb. unfold header_line in *. rewrite <- !app_assoc in *.
  destruct (crun_name (Zlen pre) n name (str " " ++ value ++ crlf ++ rest) s (r, e) Hn Hnm)
    as (m1 & s1 & Hm1 & Hfs & Hfl & ->).
  destruct (crun_blank (Zlen pre + Zlen name + 1) m1 (value ++ crlf ++ rest) s1 (r, e) Hm1)
    as (m2 & s2 & Hm2 & Hfs2 & Hfl2 & ->).
  set (q0 := Zlen pre + Zlen name + 1 + 1).
  destruct (crun_value q0 m2 value rest s2 (r, e) Hm2 Hv) as (m3 & s3 & Hm3 & Hf3 & ->).
  exists m3, s3. split; [done|]. split; [done|].
  rewrite Hfs2, Hfl2, Hfs, Hfl. cbn [on_response]. unfold on_response_header_field.
  rewrite (response_piece _ _ _ Hb). cbn [obind].
  assert (std_string (at_ptr buffer q0) (CLEN q0 (q0 + Zlen value)) = Ret value) as ->.
  { assert (q0 = Zlen (pre ++ name ++ str ":" ++ str " ")) as ->
      by (unfold q0; rewrite !Zlen_app; change (Zlen (str ":")) with 1; change (Zlen (str " ")) with 1; lia).
    apply (response_piece _ _ (crlf ++ rest ++ after)). by rewrite Hb, <- !app_assoc. }
  cbn [obind fst snd].
  assert ((CLEN (Zlen pre) (Zlen pre + Zlen name) =? 0) = false) as ->.
  { rewrite Hb, !Zlen_app in small. pose proof (Zlen_nonneg pre). unfold CLEN, u64.
    rewrite wrapU_id by (unfold in_u, Zlen in *; lia). destruct name as [|c w]; [done|].
    apply Z.eqb_neq. rewrite Zlen_cons. pose proof (Zlen_nonneg w). lia. }
  f_equal. unfold q0. rewrite !Zlen_app.
  change (Zlen (str ":")) with 1. change (Zlen (str " ")) with 1. change (Zlen crlf) with 2. lia.
Qed.
(** Lines of headers. *)
Definition response_set_fields (l : list (text * text * text)) (r : HttpResponse) : HttpResponse :=
  foldl (λ r '(name, _, value), response_setHeader name value r) r l.
Definition wf_line (f : text * text * text) : Prop :=
  let '(name, sp, value) := f in wf_name name = true ∧ wf_value value = true ∧ sp = str " ".

Lemma crun_headers pre n l rest s r e :
  n ∈ line_start → Forall wf_line l → buffer = pre ++ field_lines l ++ rest ++ after →
  ∃ m s', m ∈ line_start ∧
    RUN (field_lines l ++ rest) (Zlen pre) n s (r, e) =
      RUN rest (Zlen (pre ++ field_lines l)) m s' (response_set_fields l r, e).
Proof.
  intros Hn Hl. revert pre n s r Hn.
  induction Hl as [|[[name sp] value] l (Hnm & Hv & ->) Hl IH]; intros pre n s r Hn Hb.
  { exists n, s. split; [done|]. unfold field_lines. cbn [fmap list_fmap concat app].
    by rewrite app_nil_r. }
  unfold field_lines in *. cbn [fmap list_fmap concat] in *. rewrite <- app_assoc in *.
  destruct (crun_header pre n name value (concat ((λ '(name, sp, value), header_line name sp value) <$> l)
    ++ rest) s r e Hn Hnm Hv) as (m1 & s1 & Hm1 & _ & ->); [by rewrite Hb, <- !app_assoc|].
  destruct (IH (pre ++ header_line name (str " ") value) m1 s1 (response_setHeader name value r) Hm1)
    as (m2 & s2 & Hm2 & E).
  { by rewrite Hb, <- !app_assoc. }
  exists m2, s2. split; [done|]. rewrite E. by rewrite <- app_assoc.
Qed.

(** The empty line, after a header whose value is not empty. *)
Lemma crun_end rest p n s d :
  n ∈ line_start_full → ∃ s', RUN (crlf ++ rest) p n s d = Ret (p + 2, 120, s', d).
Proof.
  intros Hn. change (crlf ++ rest) with (CR :: LF :: rest).
  destruct (crun_char1 (on_response buffer) buffer pe (among [13]) line_start_full _ [3] CR
    (LF :: rest) p n s d phase_last Hn eq_refl) as (m & ->%list_elem_of_singleton & ->).
  cbn [cp_acts obind]. eexists. unfold crun. cbn [cp_run].
  change (st_case 3 (schar LF)) with (Some ([done], 120)).
  cbn [Z.eqb cp_acts cp_act obind on_response]. unfold on_response_header_done.
  cbn [obind cp_breaks existsb orb canon_end]. replace (p + 1 + 1) with (p + 2) by lia. reflexivity.
Qed.

(** ** The status line *)

Definition reason_char (c : ascii) : bool := negb (among [10; 13] c).
Definition wf_reason (reason : text) : bool :=
  match reason with [] => false | _ => forallb reason_char reason end.

Lemma crun_version v rest s r e :
  v = 16 ∨ v = 17 → buffer = version_text v ++ str " " ++ rest ++ after →
  ∃ s', RUN (version_text v ++ str " " ++ rest) 0 1 s (r, e) =
      RUN rest (Zlen (version_text v ++ str " ")) 16 s' (response_setVersion v r, e).
Proof.
  intros Hv Hb.
  assert (∃ x, version_text v = str "HTTP/1." ++ [x] ∧ digit x = true) as (x & Ev & Hx)
    by (destruct Hv as [-> | ->]; eexists; by split).
  assert (on_response_version (at_ptr buffer 0) (CLEN 0 8) (r, e) = Ret (response_setVersion v r, e)) as Hon.
  { rewrite Hb. destruct Hv as [-> | ->]; by vm_compute. }
  rewrite Ev. change (RUN ((str "HTTP/1." ++ [x]) ++ str " " ++ rest)) with
    (RUN ("H" :: "T" :: "T" :: "P" :: "/" :: "1" :: "." :: x :: " " :: rest)%char).
  rewrite (crun_one _ _ _ (among [72]) 1 [mark] 8) by (by vm_compute). cbn [cp_acts cp_act obind].
  rewrite (crun_one _ _ _ (among [84]) 8 [] 9) by (by vm_compute). cbn [cp_acts obind].
  rewrite (crun_one _ _ _ (among [84]) 9 [] 10) by (by vm_compute). cbn [cp_acts obind].
  rewrite (crun_one _ _ _ (among [80]) 10 [] 11) by (by vm_compute). cbn [cp_acts obind].
  rewrite (crun_one _ _ _ (among [47]) 11 [] 12) by (by vm_compute). cbn [cp_acts obind].
  rewrite (crun_one _ _ _ (among [49]) 12 [] 13) by (by vm_compute). cbn [cp_acts obind].
  rewrite (crun_one _ _ _ (among [46]) 13 [] 14) by (by vm_compute). cbn [cp_acts obind].
  rewrite (crun_one _ _ _ digit 14 [] 15) by (by vm_compute || done). cbn [cp_acts obind].
  rewrite (crun_one _ _ _ (among [32]) 15 [http_version] 16) by (by vm_compute).
  cbn [cp_acts cp_act obind cp_mark cp_with_marks on_response].
  change (0 + 1 + 1 + 1 + 1 + 1 + 1 + 1 + 1) with 8. rewrite Hon. cbn [obind]. by eexists.
Qed.

(** The number at the start of a text. *)
Lemma atoi_dec n rest :
  0 ≤ n < 2 ^ 31 → atoi (dec n ++ str " " ++ rest) = n.
Proof.
  intros Hn. destruct (dec_digits n) as [Hd Hne].
  assert (∀ c, implb (digit c) (negb (isspace c) && negb (bool_decide (c = ascii_of_N 45)) &&
    negb (bool_decide (c = ascii_of_N 43)) && negb (bool_decide (c = NUL))) = true) as Hc
    by (apply ascii_check; by vm_compute).
  assert (c_str (dec n ++ str " " ++ rest) = dec n ++ str " " ++ c_str rest) as Ecs.
  { revert Hd. generalize (dec n). intros w. induction w as [|c w IH]; intros Hw.
    - done.
    - cbn [forallb] in Hw. apply andb_true_iff in Hw as [H1 H2]. specialize (Hc c).
      rewrite H1 in Hc. cbn [implb] in Hc. apply andb_true_iff in Hc as [_ Hz].
      apply negb_true_iff, bool_decide_eq_false in Hz.
      cbn [app c_str]. rewrite decide_False by done. f_equal. by apply IH. }
  assert (strtol 10 (dec n ++ str " " ++ rest) = Z.min (digits 10 0 (c_str (dec n ++ str " " ++ rest))) (2 ^ 63 - 1)) as E.
  { clear Ecs. revert Hd Hne. destruct (dec n) as [|c w]; [done|]. intros Hd _.
    cbn [forallb] in Hd. apply andb_true_iff in Hd as [H1 _]. specialize (Hc c). rewrite H1 in Hc.
    cbn [implb] in Hc. apply andb_true_iff in Hc as [[[Hs H45]%andb_true_iff H43]%andb_true_iff _].
    apply negb_true_iff in Hs, H45, H43. unfold strtol. cbn [app skip_spaces]. rewrite Hs.
    cbv iota. rewrite H45, H43. cbv iota. f_equal. f_equal. unfold skip_0x.
    by destruct (c_str _) as [|? [|? [|? ?]]]. }
  unfold atoi. rewrite E, Ecs, digits_dec; [|lia|by intros ? ? [= <- _]].
  rewrite Z.min_l by lia. unfold i32. apply wrapS_id; unfold in_s; lia.
Qed.

Lemma crun_status pre n rest s r e :
  0 ≤ n < 2 ^ 31 → buffer = pre ++ dec n ++ str " " ++ rest ++ after →
  ∃ s', RUN (dec n ++ str " " ++ rest) (Zlen pre) 16 s (r, e) =
      RUN rest (Zlen (pre ++ dec n ++ str " ")) 18 s' (response_setStatus n r, e).
Proof.
  intros Hn Hb. pose proof (atoi_dec n (rest ++ after) Hn) as Ha.
  assert (at_ptr buffer (Zlen pre) = dec n ++ str " " ++ rest ++ after) as Hat
    by (rewrite Hb; apply at_ptr_app).
  rewrite <- Hat in Ha. destruct (dec_digits n) as [Hd Hne]. rewrite !Zlen_app.
  destruct (dec n) as [|c w]; [done|].
  cbn [forallb] in Hd. apply andb_true_iff in Hd as [H1 H2]. cbn [app].
  rewrite (crun_one _ _ _ digit 16 [mark] 17) by (by vm_compute || done). cbn [cp_acts cp_act obind].
  destruct (crun_loop (on_response buffer) buffer pe digit [17] w (str " " ++ rest)
    (Zlen pre + 1) 17 (cp_with_marks (Zlen pre) (cp_field_start s) (cp_field_len s) s) (r, e))
    as (m & ->%list_elem_of_singleton & ->); [by vm_compute|by left|done|].
  change (str " " ++ rest) with (" "%char :: rest).
  rewrite (crun_one _ _ _ (among [32]) 17 [status_code] 18) by (by vm_compute).
  cbn [cp_acts cp_act obind cp_mark cp_with_marks cp_with_meta on_response].
  unfold on_response_status. rewrite Ha. cbn [obind fst snd]. eexists. f_equal.
  rewrite Zlen_cons. change (Zlen (str " ")) with 1. lia.
Qed.

Lemma crun_reason pre reason rest s r e :
  wf_reason reason = true → buffer = pre ++ reason ++ crlf ++ rest ++ after →
  ∃ s', RUN (reason ++ crlf ++ rest) (Zlen pre) 18 s (r, e) =
      RUN rest (Zlen (pre ++ reason ++ crlf)) 20 s' (response_setReason reason r, e).
Proof.
  intros Hw Hb. pose proof (response_piece _ _ _ Hb) as Hp.
  rewrite !Zlen_app. change (crlf ++ rest) with (CR :: LF :: rest).
  destruct reason as [|c w]; [done|].
  cbn [wf_reason forallb] in Hw. apply andb_true_iff in Hw as [H1 H2]. cbn [app].
  rewrite (crun_one _ _ _ reason_char 18 [mark] 19) by (by vm_compute || done). cbn [cp_acts cp_act obind].
  destruct (crun_loop (on_response buffer) buffer pe reason_char [19] w (CR :: LF :: rest)
    (Zlen pre + 1) 19 (cp_with_marks (Zlen pre) (cp_field_start s) (cp_field_len s) s) (r, e))
    as (m & ->%list_elem_of_singleton & ->); [by vm_compute|by left|done|].
  rewrite (crun_one _ _ _ (among [13]) 19 [reason_phrase] 24) by (by vm_compute).
  cbn [cp_acts cp_act obind cp_mark cp_with_marks on_response]. unfold on_response_reason.
  rewrite Zlen_cons in Hp.
  replace (Zlen pre + 1 + Zlen w) with (Zlen pre + (1 + Zlen w)) by lia. rewrite Hp.
  cbn [obind fst snd]. rewrite (crun_one _ _ _ (among [10]) 24 [] 20) by (by vm_compute).
  cbn [cp_acts obind]. eexists. f_equal. rewrite Zlen_cons. change (Zlen crlf) with 2. lia.
Qed.
End pieces.
