(* ===== verification/HttpResponseTheorems.v ===== *)
(** Correctness of the response parser: the callbacks of http_parser.cpp over
    the response machine of packages/http11.

    It reads back what [HttpResponse::dump] prints; it returns on every input
    whose array is a little longer than the bytes it is given, and it may read
    behind them; and some responses are never seen as finished. *)

From S2P Require Import Prelude Http HttpTheorems CString Ragel Http11Run HttpParser Decimal.
From S2P Require Import RequestRun HttpParserTheorems.
From S2P Require Import HttpClientMachine HttpClientParser ResponseSafety ResponseRun.
From Stdlib Require Import Ascii.

#[local] Open Scope string_scope.
#[local] Open Scope list_scope.
#[local] Open Scope Z_scope.

(** * Any input *)

Lemma on_response_ok buffer pe c d :
  pe + 17 ≤ Zlen buffer → Zlen buffer < 2 ^ 31 → in_range pe c →
  ∃ d', on_response buffer c d = Ret d'.
Proof.
  intros Hb Hs Hr. destruct c; cbn [in_range on_response] in *;
    unfold on_response_header_field, on_response_reason, on_response_status, on_response_version,
      on_response_chunk, on_response_header_done, on_response_last_chunk; try (by eexists).
  - destruct (std_string_ok buffer field flen) as [v ->]; [lia..|]. cbn [obind].
    destruct (std_string_ok buffer value vlen) as [v' ->]; [lia..|]. by eexists.
  - destruct (std_string_ok buffer at_ len) as [v ->]; [lia..|]. by eexists.
  - destruct (strncmp_eq _ _ _); [by eexists|]. destruct (strncmp_eq _ _ _); [by eexists|].
    destruct (std_string_ok buffer at_ len) as [v ->]; [lia..|]. by eexists.
Qed.

(** [execute], from the run of the machine. *)
Lemma response_execute_value data len p n m s' r' e' :
  0 < len → data !! Z.to_nat len = Some NUL → Zlen data < 2 ^ 31 →
  is_state (cp_cs (sp_parser p)) = true → 0 ≤ cp_body_start (sp_parser p) ≤ len →
  cp_run (on_response data) data (take (Z.to_nat len) data) 0 len (cp_cs (sp_parser p))
    (started (sp_parser p)) (sp_data p, sp_error p) = Ret (n, m, s', (r', e')) →
  ∃ data',
    response_execute data len p =
      Ret (n, data', mkResponseParer (cp_with_pos m n (cp_body_start s') s') r' e') ∧
    0 ≤ n ≤ len ∧ length data' = length data ∧
    take (Z.to_nat (len - n)) data' = drop (Z.to_nat n) (take (Z.to_nat len) data) ∧
    (m = 0 ∨ is_state m = true) ∧
    (cp_body_start s' = cp_body_start (sp_parser p) ∨ httpclient_parser_first_final ≤ m).
Proof.
  intros Hpos Hnul Hl Hs Hb Hrun.
  assert (len < Zlen data) as Hlen by (apply lookup_lt_Some in Hnul; unfold Zlen; lia).
  destruct (response_execute_run (on_response data) data len ltac:(lia) Hnul _ _ _ _ _ _ Hs Hb Hrun)
    as (E & Hn & Hm & Hbd).
  destruct (memmove_front_ok data len n) as (data' & Hmv & Hd & Ht); [lia|lia|].
  exists data'. split_and!; try done; try lia.
  unfold response_execute. rewrite E. cbn [obind].
  assert (u64 n = n) as -> by (apply u64_small; lia).
  assert (u64 (len - n) = len - n) as -> by (apply u64_small; lia).
  by rewrite Hmv.
Qed.

(** The parser between two reads. *)
Record response_between_reads (s : httpclient_parser) : Prop := {
  rb_state : is_state (cp_cs s) = true;
  rb_body : cp_body_start s = 0;
}.

(** * What is printed *)

Definition printed_reason (r : HttpResponse) : text :=
  match rs_reason r with [] => HttpStatusToString (rs_status r) | s => s end.

(** What [dump] prints after the head. *)
Definition response_rest (r : HttpResponse) : text :=
  match rs_body r with [] => crlf | body => body end.

(** The lines of the head: the headers, the connection, the length. *)
Definition response_fields (r : HttpResponse) : list (text * text * text) :=
  printed_fields (str " ") (rs_headers r).
Definition last_fields (r : HttpResponse) : list (text * text * text) :=
  (str "connection", str " ", close_text (rs_close r)) :: length_fields (rs_body r).

Lemma status_reason_wf n : wf_reason (HttpStatusToString n) = true.
Proof.
  assert (Forall (λ e, wf_reason (str (snd e)) = true) HTTP_STATUS_MAP) as H
    by (repeat (constructor; [by vm_compute|]); constructor).
  unfold HttpStatusToString. destruct (list_find _ _) as [[i e]|] eqn:E; [|by vm_compute].
  apply list_find_Some in E as (E & _ & _). by apply (Forall_lookup_1 _ _ _ _ H E).
Qed.

Record wf_response (r : HttpResponse) : Prop := {
  ws_version : rs_version r = 16 ∨ rs_version r = 17;
  ws_status : 0 ≤ rs_status r < 2 ^ 31;
  ws_reason : forallb reason_char (rs_reason r) = true;
  ws_headers : Forall (λ x, wf_name (fst x) = true ∧ wf_value (snd x) = true) (rs_headers r);
  ws_sorted : sorted_map (rs_headers r);
}.

Lemma printed_reason_wf r : wf_response r → wf_reason (printed_reason r) = true.
Proof.
  intros Hr. unfold printed_reason. pose proof (ws_reason r Hr) as Hw.
  destruct (rs_reason r) as [|c w]; [apply status_reason_wf|]. done.
Qed.

Lemma response_fields_wf r : wf_response r → Forall wf_line (response_fields r).
Proof.
  intros Hr. apply Forall_forall. intros [[k sp] v] ([k' v'] & [= -> -> ->] & Hin)%list_elem_of_fmap.
  apply list_elem_of_filter in Hin as [_ Hin].
  by destruct (proj1 (Forall_forall _ _) (ws_headers r Hr) _ Hin).
Qed.

Lemma response_dump_pieces r :
  wf_response r →
  response_dump r =
    (version_text (rs_version r) ++ str " ") ++ (dec (rs_status r) ++ str " ") ++
    (printed_reason r ++ crlf) ++ field_lines (response_fields r) ++
    field_lines (last_fields r) ++ crlf ++ response_rest r.
Proof.
  intros Hr. unfold response_dump, status_line. fold (printed_reason r).
  assert (u32 (rs_status r) = rs_status r) as ->.
  { pose proof (ws_status r Hr). unfold u32. apply wrapU_id. unfold in_u. lia. }
  assert (str "HTTP/" ++ dec (Z.shiftr (rs_version r) 4) ++ str "." ++ dec (Z.land (rs_version r) 15)
    = version_text (rs_version r)) as Ev by (destruct (ws_version r Hr) as [-> | ->]; by vm_compute).
  rewrite <- Ev. unfold response_fields. rewrite printed_fields_lines. rewrite <- !app_assoc.
  change (str ":" ++ str " ") with (str ": "). do 9 f_equal.
  unfold last_fields.
  change ((str "connection", str " ", close_text (rs_close r)) :: length_fields (rs_body r))
    with ([(str "connection", str " ", close_text (rs_close r))] ++ length_fields (rs_body r)).
  rewrite field_lines_app, <- !app_assoc. f_equal. apply (f_equal2 app).
  - unfold connection_line, field_lines, close_text. cbn [fmap list_fmap concat].
    unfold header_line. by rewrite app_nil_r.
  - unfold response_rest. destruct (rs_body r) as [|c b]; [done|].
    by rewrite (length_fields_lines _ _ eq_refl).
Qed.

Lemma close_text_wf b : wf_value (close_text b) = true.
Proof. by destruct b; vm_compute. Qed.

(** The last two lines, which leave the machine where the head may end. *)
Lemma run_last_fields buffer pe after pre n r rest s r' e :
  Zlen buffer < 2 ^ 31 → n ∈ line_start →
  buffer = pre ++ field_lines (last_fields r) ++ rest ++ after →
  ∃ m s', m ∈ line_start_full ∧
    crun (on_response buffer) buffer pe (field_lines (last_fields r) ++ rest) (Zlen pre) n s (r', e) =
      crun (on_response buffer) buffer pe rest (Zlen (pre ++ field_lines (last_fields r))) m s'
        (response_set_fields (last_fields r) r', e).
Proof.
  intros Hl Hn Hb. unfold last_fields, field_lines in *. cbn [fmap list_fmap concat] in *.
  rewrite <- app_assoc in *.
  destruct (crun_header buffer pe after Hl pre n (str "connection") (close_text (rs_close r))
    (concat ((λ '(name, sp, value), header_line name sp value) <$> length_fields (rs_body r)) ++ rest)
    s r' e Hn) as (m1 & s1 & Hm1 & Hf1 & ->); [by vm_compute|apply close_text_wf|by rewrite Hb, <- !app_assoc|].
  unfold length_fields in *. destruct (rs_body r) as [|c b].
  - exists m1, s1. split; [apply Hf1; by destruct (rs_close r)|].
    cbn [fmap list_fmap concat app]. by rewrite app_nil_r.
  - set (v := dec (Zlen (c :: b))) in *. cbn [fmap list_fmap concat] in *. rewrite app_nil_r in *.
    destruct (dec_digits (Zlen (c :: b))) as [Hd Hne]. fold v in Hd, Hne.
    destruct (crun_header buffer pe after Hl
      (pre ++ header_line (str "connection") (str " ") (close_text (rs_close r))) m1
      (str "content-length") v rest s1
      (response_setHeader (str "connection") (close_text (rs_close r)) r') e Hm1)
      as (m2 & s2 & Hm2 & Hf2 & ->); [by vm_compute|by apply digit_name|by rewrite Hb, <- !app_assoc|].
    exists m2, s2. split; [by apply Hf2|]. by rewrite <- app_assoc.
Qed.

(** The response after its status line. *)
Definition parsed_status (r : HttpResponse) : HttpResponse :=
  response_setReason (printed_reason r) (response_setStatus (rs_status r)
    (response_setVersion (rs_version r) (HttpResponse_new 17 true))).

Definition parsed_response (r : HttpResponse) : HttpResponse :=
  response_set_fields (last_fields r) (response_set_fields (response_fields r) (parsed_status r)).

(** The run over a printed response. *)
Lemma run_printed_response r after s :
  wf_response r → let b := response_dump r ++ after in Zlen b < 2 ^ 31 →
  let pe := Zlen (response_dump r) in
  ∃ s', crun (on_response b) b pe (response_dump r) 0 1 s (HttpResponse_new 17 true, 0) =
    Ret (pe - Zlen (response_rest r), 120, s', (parsed_response r, 0)).
Proof.
  intros Hr b Hl pe. pose proof (response_dump_pieces r Hr) as E.
  set (p1 := version_text (rs_version r) ++ str " ") in *.
  set (p2 := p1 ++ dec (rs_status r) ++ str " ").
  set (p3 := p2 ++ printed_reason r ++ crlf).
  set (p4 := p3 ++ field_lines (response_fields r)).
  set (p5 := p4 ++ field_lines (last_fields r)).
  set (r4 := field_lines (last_fields r) ++ crlf ++ response_rest r) in *.
  set (r3 := field_lines (response_fields r) ++ r4) in *.
  pose proof (f_equal (λ x, crun (on_response b) b pe x 0 1 s (HttpResponse_new 17 true, 0)) E) as Er.
  cbv beta in Er. rewrite Er. clear Er.
  assert (b = p1 ++ (dec (rs_status r) ++ str " ") ++ (printed_reason r ++ crlf) ++ r3 ++ after) as Eb
    by (unfold b; by rewrite E, <- !app_assoc).
  unfold p1. rewrite <- !app_assoc.
  destruct (crun_version b pe after (rs_version r) (dec (rs_status r) ++ str " " ++ printed_reason r ++ crlf ++ r3)
    s (HttpResponse_new 17 true) 0) as (s1 & ->); [apply Hr|by rewrite Eb; unfold p1; rewrite <- !app_assoc|].
  destruct (crun_status b pe after p1 (rs_status r) (printed_reason r ++ crlf ++ r3) s1
    (response_setVersion (rs_version r) (HttpResponse_new 17 true)) 0) as (s2 & E2);
    [apply Hr|by rewrite Eb, <- !app_assoc|].
  fold p1. rewrite E2. clear E2. fold p2.
  destruct (crun_reason b pe after Hl p2 (printed_reason r) r3 s2
    (response_setStatus (rs_status r) (response_setVersion (rs_version r) (HttpResponse_new 17 true))) 0)
    as (s3 & ->); [by apply printed_reason_wf|by rewrite Eb; unfold p2; rewrite <- !app_assoc|].
  fold (parsed_status r). fold p3. unfold r3.
  destruct (crun_headers b pe after Hl p3 20 (response_fields r) r4 s3 (parsed_status r) 0)
    as (m4 & s4 & Hm4 & ->); [by left|by apply response_fields_wf|
    by rewrite Eb; unfold p3, p2, r3; rewrite <- !app_assoc|].
  fold p4. unfold r4.
  destruct (run_last_fields b pe after p4 m4 r (crlf ++ response_rest r) s4
    (response_set_fields (response_fields r) (parsed_status r)) 0 Hl Hm4) as (m5 & s5 & Hm5 & ->);
    [by rewrite Eb; unfold p4, p3, p2, r3, r4; rewrite <- !app_assoc|].
  fold p5. fold (parsed_response r).
  destruct (crun_end b pe (response_rest r) (Zlen p5) m5 s5 (parsed_response r, 0) Hm5) as (s6 & ->).
  exists s6. do 4 f_equal. unfold pe. rewrite E. unfold p5, p4, p3, p2, r3, r4.
  rewrite !Zlen_app. change (Zlen crlf) with 2. lia.
Qed.

(** ** The parsed response *)

Lemma response_set_fields_headers l r :
  rs_headers (response_set_fields l r) =
    foldl (λ m '(k, v), map_set k v m) (rs_headers r) ((λ '(k, _, v), (k, v)) <$> l).
Proof.
  unfold response_set_fields. revert r. induction l as [|[[k sp] v] l IH]; intros r; [done|].
  cbn [foldl fmap list_fmap]. by rewrite IH.
Qed.

Lemma response_set_fields_rest l r :
  let r' := response_set_fields l r in
  rs_status r' = rs_status r ∧ rs_version r' = rs_version r ∧ rs_reason r' = rs_reason r ∧
  rs_body r' = rs_body r.
Proof.
  unfold response_set_fields. revert r. induction l as [|[[k sp] v] l IH]; intros r; [done|].
  cbn [foldl]. destruct (IH (response_setHeader k v r)) as (-> & -> & -> & ->). done.
Qed.

(** What a client finds under a key of a printed response. *)
Definition response_header (r : HttpResponse) (key : text) : option text :=
  if decide (rs_body r ≠ [] ∧ same_key (str "content-length") key)
  then Some (dec (Zlen (rs_body r)))
  else if decide (same_key (str "connection") key) then Some (close_text (rs_close r))
  else map_find key (rs_headers r).

Lemma response_headers_read r key :
  sorted_map (rs_headers r) →
  map_find key (rs_headers (parsed_response r)) = response_header r key.
Proof.
  intros Hs. unfold parsed_response. rewrite !response_set_fields_headers.
  change (rs_headers (parsed_status r)) with ([] : MapType).
  unfold response_fields, last_fields. rewrite printed_fields_pairs.
  cbn [fmap list_fmap foldl]. set (m0 := foldl _ [] _).
  assert (sorted_map m0) as Hm0 by (apply set_all_sorted; constructor).
  set (m1 := map_set _ _ m0). assert (sorted_map m1) as Hm1 by (by apply map_set_sorted).
  rewrite map_find_assoc by (by apply set_all_sorted).
  rewrite assoc_set_all; [|by destruct (rs_body r); repeat constructor|done].
  assert (assoc key m0 = assoc key (other_headers (rs_headers r))) as Em0.
  { unfold m0. rewrite assoc_set_all; [|by apply other_headers_sorted|constructor].
    by destruct (assoc key (other_headers _)). }
  unfold m1. rewrite assoc_set by done. rewrite Em0, assoc_other_headers.
  unfold response_header. rewrite map_find_assoc by done.
  destruct (rs_body r) as [|c b] eqn:Eb; cbn [length_fields fmap list_fmap assoc].
  - destruct (decide (_ ∧ _)) as [[? _]|_]; [done|].
    by destruct (decide (same_key (str "connection") key)).
  - destruct (decide (_ ∧ _)) as [[_ Hk]|Hk].
    + by rewrite decide_True by done.
    + rewrite decide_False by (intros Hk'; by apply Hk).
      by destruct (decide (same_key (str "connection") key)).
Qed.

Lemma response_dump_rest r :
  wf_response r →
  0 < Zlen (response_dump r) ∧ Zlen (response_rest r) ≤ Zlen (response_dump r) ∧
  drop (Z.to_nat (Zlen (response_dump r) - Zlen (response_rest r))) (response_dump r) = response_rest r.
Proof.
  intros Hr. assert (∃ h, response_dump r = h ++ response_rest r ∧ 0 < Zlen h) as (h & -> & Hh).
  { rewrite (response_dump_pieces r Hr), !app_assoc. eexists. split; [done|].
    rewrite !Zlen_app. change (Zlen (str " ")) with 1. unfold Zlen. lia. }
  rewrite Zlen_app. split_and!; [pose proof (Zlen_nonneg (response_rest r)); lia|lia|].
  replace (Z.to_nat _) with (length h) by (unfold Zlen; lia). by rewrite drop_app_length.
Qed.

(** * Properties *)

(** C7. A printed response is parsed back: for every response whose parts are
    of the grammar, [execute] on the bytes of [dump] and the NUL behind them
    finishes without an error and consumes exactly the head; what is left at
    the front of the buffer is the body, or, when there is none, the second
    CRLF that [dump] prints.  Status, version and reason (the standard one,
    when the response has none of its own) are those of the response, and under
    every key, in any case, the headers hold what was printed. *)
Theorem printed_response_parses (mem : httpclient_parser) (r : HttpResponse) (after : text) :
  wf_response r → Zlen (response_dump r ++ NUL :: after) < 2 ^ 31 →
  ∃ data p,
    response_execute (response_dump r ++ NUL :: after) (Zlen (response_dump r))
        (HttpResponseParer_new mem)
      = Ret (Zlen (response_dump r) - Zlen (response_rest r), data, p) ∧
    response_isFinished p = true ∧ response_hasError p = false ∧
    take (length (response_rest r)) data = response_rest r ∧
    rs_status (sp_data p) = rs_status r ∧ rs_version (sp_data p) = rs_version r ∧
    rs_reason (sp_data p) = printed_reason r ∧
    ∀ key, map_find key (rs_headers (sp_data p)) = response_header r key.
Proof.
  intros Hr Hl. set (b := response_dump r ++ NUL :: after) in *.
  destruct (response_dump_rest r Hr) as (Hpos & Hle & Hrest).
  assert (take (Z.to_nat (Zlen (response_dump r))) b = response_dump r) as Etk
    by (unfold b, Zlen; by rewrite Nat2Z.id, take_app_length).
  assert (b !! Z.to_nat (Zlen (response_dump r)) = Some NUL) as Hnul
    by (unfold b, Zlen; rewrite Nat2Z.id; by apply list_lookup_middle).
  destruct (run_printed_response r (NUL :: after) (started (httpclient_parser_init mem)) Hr Hl) as (s' & Hrun).
  fold b in Hrun. unfold crun in Hrun.
  destruct (cp_run _ _ _ _ _ _ _ _) as [[[[k n] s1] d1]| |] eqn:Er in Hrun; try done.
  cbn [canon_end obind] in Hrun. injection Hrun as -> -> _ ->.
  rewrite <- Etk in Er at 1.
  destruct (response_execute_value b (Zlen (response_dump r)) (HttpResponseParer_new mem) _ _ _ _ _ Hpos Hnul Hl
    eq_refl (conj (Z.le_refl 0) (Z.lt_le_incl _ _ Hpos)) Er) as (data & E & _ & _ & Ht & _).
  exists data. eexists. split; [exact E|]. cbn [sp_data sp_parser sp_error].
  split; [done|]. split; [done|]. split.
  { rewrite Etk, Hrest in Ht. etrans; [|exact Ht]. f_equal. unfold Zlen. lia. }
  unfold parsed_response.
  destruct (response_set_fields_rest (last_fields r) (response_set_fields (response_fields r) (parsed_status r)))
    as (-> & -> & -> & _).
  destruct (response_set_fields_rest (response_fields r) (parsed_status r)) as (-> & -> & -> & _).
  split_and!; try done. intros key. by apply response_headers_read, Hr.
Qed.

(** C27. The response parser returns on any bytes, if there is at least one:
    from a fresh parser or from one left between two reads, given [len] > 0
    bytes followed by a NUL, in an array of fewer than 2^31 that goes on for 17
    bytes after them, [execute] returns, consumes a prefix and moves exactly the
    other bytes to the front.  It stays between reads until an error or a final
    state.  (On no bytes it runs past the array, see [response_no_bytes].) *)
Theorem response_parser_returns (data : text) (len : Z) (p : HttpResponseParer) :
  0 < len → len + 17 ≤ Zlen data → Zlen data < 2 ^ 31 → data !! Z.to_nat len = Some NUL →
  response_between_reads (sp_parser p) →
  ∃ n data' p',
    response_execute data len p = Ret (n, data', p') ∧ 0 ≤ n ≤ len ∧ length data' = length data ∧
    take (Z.to_nat (len - n)) data' = drop (Z.to_nat n) (take (Z.to_nat len) data) ∧
    (response_hasError p' = false → cp_cs (sp_parser p') < httpclient_parser_first_final →
     response_between_reads (sp_parser p')).
Proof.
  intros Hpos Hlen Hl Hnul [Hs Hb].
  destruct (execute_runs (on_response data) data len ltac:(lia) Hnul (sp_parser p)
    (sp_data p, sp_error p)) as (n & m & s' & [r' e'] & Hrun); [|done|lia|].
  { intros c d Hc. by eapply on_response_ok. }
  destruct (response_execute_value data len p n m s' r' e' Hpos Hnul Hl Hs ltac:(lia) Hrun)
    as (data' & E & Hn & Hd & Ht & Hm & Hbd).
  exists n, data'. eexists. split; [exact E|]. split_and!; try done; try lia.
  cbn [sp_parser]. intros He Hf. cbn [cp_cs cp_with_pos] in Hf.
  destruct Hm as [-> |Hm].
  - unfold response_hasError in He. cbn in He. by rewrite orb_true_r in He.
  - split; [done|]. cbn. destruct Hbd; [lia|]. lia.
Qed.

(** ** Witnesses *)

Definition blank_client : httpclient_parser := mkCP 0 0 0 0 0 0 0 0 0 0 0.

Definition demo_response : HttpResponse :=
  mkResponse 404 17 false (str "gone") [] [(str "Server", str "apex"); (str "x-empty", [])].

Lemma printed_response_parses_witness :
  ∃ p, response_isFinished p = true ∧ rs_status (sp_data p) = 404 ∧
    rs_reason (sp_data p) = str "Not Found" ∧
    map_find (str "SERVER") (rs_headers (sp_data p)) = Some (str "apex").
Proof.
  destruct (printed_response_parses blank_client demo_response [])
    as (data & p & _ & Hf & _ & _ & Hs & _ & Hr & Hh).
  - split; try by vm_compute.
    + by right.
    + by repeat constructor.
    + by repeat constructor.
  - by vm_compute.
  - exists p. split; [exact Hf|]. split; [exact Hs|]. split; [rewrite Hr; by vm_compute|].
    rewrite Hh. by vm_compute.
Defined.

Lemma response_parser_returns_witness :
  ∃ x, response_execute (str "HTTP/1.1 2" ++ repeat NUL 17) 10 (HttpResponseParer_new blank_client) = Ret x.
Proof.
  destruct (response_parser_returns (str "HTTP/1.1 2" ++ repeat NUL 17) 10 (HttpResponseParer_new blank_client))
    as (n & data & p & E & _); [lia|by vm_compute|by vm_compute|by vm_compute|by split|].
  exists (n, data, p). exact E.
Defined.

(** * What goes wrong *)

Definition after_status (lines : text) : text := str "HTTP/1.1 200 OK" ++ crlf ++ lines.

(** The bytes behind the end: a value on the line after its name is taken for
    the start of a name, and the callback gets the new start with the length of
    the old name, which is longer than what is left. *)
Lemma response_reads_behind :
  let text := after_status (str "Transfer-Encoding:" ++ crlf ++ str "chunked" ++ crlf ++ crlf) in
  response_execute (text ++ [NUL]) (Zlen text) (HttpResponseParer_new blank_client) = Fault OutOfBounds.
Proof. by vm_compute. Qed.

(** A response whose last header is an empty Connection ends in a final state
    that [isFinished] does not know. *)
Lemma response_never_finished :
  let text := after_status (str "Connection:" ++ crlf ++ crlf) in
  ∃ data p,
    response_execute (text ++ [NUL]) (Zlen text) (HttpResponseParer_new blank_client)
      = Ret (Zlen text, data, p) ∧
    response_isFinished p = false ∧ response_hasError p = false ∧
    cp_body_start (sp_parser p) = Zlen text.
Proof. eexists _, _. split; [by vm_compute|]. by split_and!; vm_compute. Qed.

(** No bytes at all: the result is -1, which as a [size_t] is no offset. *)
Lemma response_no_bytes :
  response_execute [NUL] 0 (HttpResponseParer_new blank_client) = Fault OutOfBounds.
Proof. by vm_compute. Qed.
