(* ===== verification/Address.v ===== *)
(** Network addresses: address.h and address.cpp.

    The socket structures are records whose fields hold what the memory of the
    structure holds on the host ([Platform]), and [getAddr] gives the bytes.
    The resolver and the kernel are arguments: [getaddrinfo], [getifaddrs] and
    [inet_pton]. *)

From S2P Require Import Prelude Endian Http CString.
From Stdlib Require Import Ascii.

#[local] Open Scope string_scope.
#[local] Open Scope list_scope.
#[local] Open Scope Z_scope.

(** * Masks *)

(** [CreateMask<T>(bits)]: [(1 << (sizeof(T) * 8 - bits)) - 1] is computed in
    [int], with a shift count of type [size_t]. *)
Definition CreateMask (t : ity) (b : Z) : outcome Z :=
  let k := u64 (bits t - b) in
  if 31 <? k then Fault BadShift
  else if k =? 31 then Fault SignedOverflow
  else Ret (conv t (Z.shiftl 1 k - 1)).

(** [CountBytes(value)]: the loop clears a bit in every round. *)
Fixpoint CountBytes_loop (fuel : nat) (result value : Z) : option Z :=
  if value =? 0 then Some result
  else match fuel with
       | O => None
       | S fuel => CountBytes_loop fuel (u32 (result + 1)) (Z.land value (value - 1))
       end.
Definition CountBytes (fuel : nat) (value : Z) : option Z := CountBytes_loop fuel 0 value.

(** * The structures *)

Definition AF_UNSPEC : Z := 0.
Definition AF_UNIX : Z := 1.
Definition AF_INET : Z := 2.
Definition AF_INET6 : Z := 10.

Record sockaddr_in := mkIn {
  sin_family : Z;
  sin_port : Z;
  s_addr : Z;
  sin_zero : list Z;
}.
Record sockaddr_in6 := mkIn6 {
  sin6_family : Z;
  sin6_port : Z;
  sin6_flowinfo : Z;
  s6_addr : list Z;
  sin6_scope_id : Z;
}.
Record sockaddr_un := mkUn { sun_family : Z; sun_path : text }.
Record sockaddr := mkSa { sa_family : Z; sa_data : list Z }.

Definition sizeof_sun_path : Z := 108.
(** [offsetof(sockaddr_un, sun_path)]. *)
Definition offset_sun_path : Z := 2.
Definition MAX_PATH_LEN : Z := sizeof_sun_path - 1.

Definition byte_of (c : ascii) : Z := Z.of_N (N_of_ascii c).

(** The address classes. *)
Inductive Address :=
| IPv4Address (m_addr : sockaddr_in)
| IPv6Address (m_addr : sockaddr_in6)
| UnixAddress (m_addr : sockaddr_un) (m_length : Z)
| UnknownAddress (m_addr : sockaddr).

Section address.
Context `{Platform}.

Definition in_bytes (a : sockaddr_in) : list Z :=
  mem_bytes uint16_t (sin_family a) ++ mem_bytes uint16_t (sin_port a)
  ++ mem_bytes uint32_t (s_addr a) ++ sin_zero a.
Definition in6_bytes (a : sockaddr_in6) : list Z :=
  mem_bytes uint16_t (sin6_family a) ++ mem_bytes uint16_t (sin6_port a)
  ++ mem_bytes uint32_t (sin6_flowinfo a) ++ s6_addr a
  ++ mem_bytes uint32_t (sin6_scope_id a).
Definition un_bytes (a : sockaddr_un) : list Z :=
  mem_bytes uint16_t (sun_family a) ++ (byte_of <$> sun_path a).
Definition sa_bytes (a : sockaddr) : list Z := mem_bytes uint16_t (sa_family a) ++ sa_data a.

(** [n] bytes of the memory [m] from offset [o]. *)
Definition slice (m : list Z) (o n : nat) : list Z := take n (drop o m).

(** A pointer to memory, read as one of the structures. *)
Definition as_in (m : list Z) : sockaddr_in :=
  mkIn (mem_value uint16_t (slice m 0 2)) (mem_value uint16_t (slice m 2 2))
    (mem_value uint32_t (slice m 4 4)) (slice m 8 8).
Definition as_in6 (m : list Z) : sockaddr_in6 :=
  mkIn6 (mem_value uint16_t (slice m 0 2)) (mem_value uint16_t (slice m 2 2))
    (mem_value uint32_t (slice m 4 4)) (slice m 8 16) (mem_value uint32_t (slice m 24 4)).
Definition as_sa (m : list Z) : sockaddr :=
  mkSa (mem_value uint16_t (slice m 0 2)) (slice m 2 14).

(** * The base class *)

(** [getAddr()], the memory it points to, and [getAddrLen()]. *)
Definition getAddr (a : Address) : list Z :=
  match a with
  | IPv4Address m => in_bytes m
  | IPv6Address m => in6_bytes m
  | UnixAddress m _ => un_bytes m
  | UnknownAddress m => sa_bytes m
  end.
Definition getAddrLen (a : Address) : Z :=
  match a with
  | IPv4Address _ => 16
  | IPv6Address _ => 28
  | UnixAddress _ n => n
  | UnknownAddress _ => 16
  end.

Definition getFamily (a : Address) : Z := mem_value uint16_t (slice (getAddr a) 0 2).

(** [Address::Create] of a pointer, [None] for null.  The memory must hold the
    structure its family names. *)
Definition Address_Create (addr : option (list Z)) : outcome (option Address) :=
  match addr with
  | None => Ret None
  | Some m =>
      let fits n := if n <=? Zlen m then Ret tt else Fault OutOfBounds in
      let! _ := fits 2 in
      let f := mem_value uint16_t (slice m 0 2) in
      if f =? AF_INET then let! _ := fits 16 in Ret (Some (IPv4Address (as_in m)))
      else if f =? AF_INET6 then let! _ := fits 28 in Ret (Some (IPv6Address (as_in6 m)))
      else let! _ := fits 16 in Ret (Some (UnknownAddress (as_sa m)))
  end.

(** [memcmp(a, b, n)]: negative, zero or positive. *)
Fixpoint memcmp_bytes (a b : list Z) : Z :=
  match a, b with
  | x :: a, y :: b => if x =? y then memcmp_bytes a b else x - y
  | _, _ => 0
  end.
Definition memcmp (a b : list Z) (n : Z) : outcome Z :=
  if (n <=? Zlen a) && (n <=? Zlen b)
  then Ret (memcmp_bytes (take (Z.to_nat n) a) (take (Z.to_nat n) b))
  else Fault OutOfBounds.

Definition operator_lt (a rhs : Address) : outcome bool :=
  let minlen := Z.min (getAddrLen a) (getAddrLen rhs) in
  let! result := memcmp (getAddr a) (getAddr rhs) minlen in
  Ret (if result <? 0 then true
       else if 0 <? result then false
       else if getAddrLen a <? getAddrLen rhs then true
       else false).

Definition operator_eq (a rhs : Address) : outcome bool :=
  if getAddrLen a =? getAddrLen rhs
  then let! result := memcmp (getAddr a) (getAddr rhs) (getAddrLen a) in Ret (result =? 0)
  else Ret false.

Definition operator_ne (a rhs : Address) : outcome bool :=
  let! b := operator_eq a rhs in Ret (negb b).

(** * IPv4 *)

Definition IPv4Address_new (address port : Z) : Address :=
  IPv4Address (mkIn AF_INET (byteswapOnLittleEndian uint16_t port)
    (byteswapOnLittleEndian uint32_t address) (replicate 8 0)).

(** [inet_pton]: its result, and the bytes it stores on success. *)
Context (inet_pton : Z → text → Z * list Z).

Definition IPv4Address_Create (address : text) (port : Z) : option Address :=
  let '(result, bytes) := inet_pton AF_INET (c_str address) in
  if result <? 0 then None
  else if result =? 0 then None
  else Some (IPv4Address (mkIn AF_INET (byteswapOnLittleEndian uint16_t port)
               (mem_value uint32_t bytes) (replicate 8 0))).

Definition IPv4_insert (a : sockaddr_in) : text :=
  let addr := byteswapOnLittleEndian uint32_t (s_addr a) in
  dec (Z.land (Z.shiftr addr 24) 255) ++ str "." ++ dec (Z.land (Z.shiftr addr 16) 255)
  ++ str "." ++ dec (Z.land (Z.shiftr addr 8) 255) ++ str "." ++ dec (Z.land addr 255)
  ++ str ":" ++ dec (byteswapOnLittleEndian uint16_t (sin_port a)).

Definition with_s_addr (v : Z) (a : sockaddr_in) : sockaddr_in :=
  mkIn (sin_family a) (sin_port a) v (sin_zero a).

Definition IPv4_broadcastAddress (prefix_len : Z) (a : sockaddr_in) : outcome (option Address) :=
  if 32 <? prefix_len then Ret None
  else
    let! m := CreateMask uint32_t prefix_len in
    Ret (Some (IPv4Address
                 (with_s_addr (Z.lor (s_addr a) (byteswapOnLittleEndian uint32_t m)) a))).

Definition IPv4_networkAddress (prefix_len : Z) (a : sockaddr_in) : outcome (option Address) :=
  if 32 <? prefix_len then Ret None
  else
    let! m := CreateMask uint32_t prefix_len in
    Ret (Some (IPv4Address
                 (with_s_addr (Z.land (s_addr a) (byteswapOnLittleEndian uint32_t m)) a))).

(** No test of [prefix_len] here. *)
Definition IPv4_subnetMask (prefix_len : Z) (a : sockaddr_in) : outcome (option Address) :=
  let! m := CreateMask uint32_t prefix_len in
  Ret (Some (IPv4Address
               (mkIn AF_INET 0 (u32 (Z.lnot (byteswapOnLittleEndian uint32_t m)))
                  (replicate 8 0)))).

(** The port as it is stored. *)
Definition IPv4_getPort (a : sockaddr_in) : Z := sin_port a.
Definition IPv4_setPort (v : Z) (a : sockaddr_in) : sockaddr_in :=
  mkIn (sin_family a) (byteswapOnLittleEndian uint16_t v) (s_addr a) (sin_zero a).

(** * IPv6 *)

Definition IPv6Address_new : Address := IPv6Address (mkIn6 AF_INET6 0 0 (replicate 16 0) 0).

(** The constructor from 16 bytes. *)
Definition IPv6Address_of (address : list Z) (port : Z) : outcome Address :=
  if 16 <=? Zlen address
  then Ret (IPv6Address (mkIn6 AF_INET6 (byteswapOnLittleEndian uint16_t port) 0
              (take 16 address) 0))
  else Fault OutOfBounds.

Definition IPv6Address_Create (address : text) (port : Z) : option Address :=
  let '(result, bytes) := inet_pton AF_INET6 (c_str address) in
  if result <? 0 then None
  else if result =? 0 then None
  else Some (IPv6Address (mkIn6 AF_INET6 (byteswapOnLittleEndian uint16_t port) 0 bytes 0)).

(** [os << std::hex << n]. *)
Definition hex_digit (d : Z) : ascii :=
  ascii_of_N (Z.to_N (if d <? 10 then 48 + d else 87 + d)).
Fixpoint hex_loop (fuel : nat) (n : Z) (acc : text) : text :=
  match fuel with
  | O => acc
  | S fuel =>
      let acc := hex_digit (n mod 16) :: acc in
      if n / 16 =? 0 then acc else hex_loop fuel (n / 16) acc
  end.
Definition hex (n : Z) : text := hex_loop 8 n [].

(** [addr[i]], the bytes seen as an array of [uint16_t]. *)
Definition group (s6 : list Z) (i : nat) : Z := mem_value uint16_t (slice s6 (2 * i) 2).

Definition zero_group (s6 : list Z) (i : nat) : bool := group s6 i =? 0.

(** One round of the loop: the text so far and [used_zero]. *)
Definition IPv6_insert_step (s6 : list Z) (st : text * bool) (i : nat) : text * bool :=
  let '(os, used_zero) := st in
  if zero_group s6 i && negb used_zero then (os, used_zero)
  else
    let '(os, used_zero) :=
      match i with
      | O => (os, used_zero)
      | S j => if zero_group s6 j && negb used_zero then (os ++ str ":", true)
               else (os, used_zero)
      end in
    let os := match i with O => os | S _ => os ++ str ":" end in
    (os ++ hex (byteswapOnLittleEndian uint16_t (group s6 i)), used_zero).

Definition IPv6_insert (a : sockaddr_in6) : text :=
  let s6 := s6_addr a in
  let '(os, used_zero) := foldl (IPv6_insert_step s6) (str "[", false) (seq 0 8) in
  let os := if negb used_zero && zero_group s6 7 then os ++ str "::" else os in
  os ++ str "]:" ++ dec (byteswapOnLittleEndian uint16_t (sin6_port a)).

(** [s6_addr[i] = f(s6_addr[i])]; an index past the array is undefined. *)
Definition at_byte (i : Z) (f : Z → Z) (s6 : list Z) : outcome (list Z) :=
  match s6 !! Z.to_nat i with
  | Some b => Ret (<[Z.to_nat i := f b]> s6)
  | None => Fault OutOfBounds
  end.

(** The bytes [from .. 15] set to [v]. *)
Fixpoint set_bytes (from : nat) (v : Z) (s6 : list Z) : list Z :=
  match s6, from with
  | [], _ => []
  | _ :: s6, O => v :: set_bytes O v s6
  | b :: s6, S from => b :: set_bytes from v s6
  end.

Definition with_s6_addr (v : list Z) (a : sockaddr_in6) : sockaddr_in6 :=
  mkIn6 (sin6_family a) (sin6_port a) (sin6_flowinfo a) v (sin6_scope_id a).

Definition IPv6_broadcastAddress (prefix_len : Z) (a : sockaddr_in6) : outcome (option Address) :=
  let! m := CreateMask uint8_t (prefix_len mod 8) in
  let! s6 := at_byte (prefix_len / 8) (λ b, Z.lor b m) (s6_addr a) in
  let s6 := set_bytes (S (Z.to_nat (prefix_len / 8))) 255 s6 in
  Ret (Some (IPv6Address (with_s6_addr s6 a))).

Definition IPv6_networkAddress (prefix_len : Z) (a : sockaddr_in6) : outcome (option Address) :=
  let! m := CreateMask uint8_t (prefix_len mod 8) in
  let! s6 := at_byte (prefix_len / 8) (λ b, Z.land b m) (s6_addr a) in
  let s6 := set_bytes (S (Z.to_nat (prefix_len / 8))) 0 s6 in
  Ret (Some (IPv6Address (with_s6_addr s6 a))).

Definition IPv6_subnetMask (prefix_len : Z) (a : sockaddr_in6) : outcome (option Address) :=
  let! m := CreateMask uint8_t (prefix_len mod 8) in
  let! s6 := at_byte (prefix_len / 8) (λ _, u8 (Z.lnot m)) (replicate 16 0) in
  let s6 := replicate (Z.to_nat (prefix_len / 8)) 255 ++ drop (Z.to_nat (prefix_len / 8)) s6 in
  Ret (Some (IPv6Address (mkIn6 AF_INET6 0 0 s6 0))).

Definition IPv6_getPort (a : sockaddr_in6) : Z := byteswapOnLittleEndian uint16_t (sin6_port a).
Definition IPv6_setPort (v : Z) (a : sockaddr_in6) : sockaddr_in6 :=
  mkIn6 (sin6_family a) (byteswapOnLittleEndian uint16_t v) (sin6_flowinfo a) (s6_addr a)
    (sin6_scope_id a).

(** * Unix and unknown addresses *)

Definition UnixAddress_default : Address :=
  UnixAddress (mkUn AF_UNIX (replicate 108 NUL)) (offset_sun_path + MAX_PATH_LEN).

Definition UnixAddress_new (path : text) : outcome Address :=
  let m_length := u32 (Zlen path + 1) in
  let m_length := match path with
                  | c :: _ => if decide (c = NUL) then u32 (m_length - 1) else m_length
                  | [] => m_length
                  end in
  if sizeof_sun_path <? m_length then Throw std_logic_error
  else
    let copied := take (Z.to_nat m_length) (path ++ [NUL]) in
    Ret (UnixAddress (mkUn AF_UNIX (overlay (replicate 108 NUL) 0 copied))
           (u32 (m_length + offset_sun_path))).

Definition setAddrLen (len : Z) (a : Address) : Address :=
  match a with UnixAddress m _ => UnixAddress m (u32 len) | _ => a end.

(** [os << sun_path] reads up to the first NUL. *)
Definition Unix_insert (m : sockaddr_un) (m_length : Z) : outcome text :=
  match sun_path m with
  | c :: p =>
      if (offset_sun_path <? m_length) && bool_decide (c = NUL)
      then let! s := std_string p (m_length - offset_sun_path - 1) in Ret (str "\0" ++ s)
      else if decide (NUL ∈ sun_path m) then Ret (c_str (sun_path m)) else Fault OutOfBounds
  | [] => Fault OutOfBounds
  end.

Definition UnknownAddress_new (family : Z) : Address :=
  UnknownAddress (mkSa (u16 family) (replicate 14 0)).

Definition Unknown_insert (m : sockaddr) : text :=
  str "[UnknownAddress family=" ++ dec (sa_family m) ++ str "]".

(** [Address::insert] and [toString]. *)
Definition insert (a : Address) : outcome text :=
  match a with
  | IPv4Address m => Ret (IPv4_insert m)
  | IPv6Address m => Ret (IPv6_insert m)
  | UnixAddress m n => Unix_insert m n
  | UnknownAddress m => Ret (Unknown_insert m)
  end.
Definition toString (a : Address) : outcome text := insert a.

End address.

(** * The virtual operations of [IPAddress] *)

Section virtual.
Context `{Platform}.

(** [None]: not an [IPAddress]. *)
Definition broadcastAddress (prefix_len : Z) (a : Address) : option (outcome (option Address)) :=
  match a with
  | IPv4Address m => Some (IPv4_broadcastAddress prefix_len m)
  | IPv6Address m => Some (IPv6_broadcastAddress prefix_len m)
  | _ => None
  end.
Definition networkAddress (prefix_len : Z) (a : Address) : option (outcome (option Address)) :=
  match a with
  | IPv4Address m => Some (IPv4_networkAddress prefix_len m)
  | IPv6Address m => Some (IPv6_networkAddress prefix_len m)
  | _ => None
  end.
Definition subnetMask (prefix_len : Z) (a : Address) : option (outcome (option Address)) :=
  match a with
  | IPv4Address m => Some (IPv4_subnetMask prefix_len m)
  | IPv6Address m => Some (IPv6_subnetMask prefix_len m)
  | _ => None
  end.
Definition getPort (a : Address) : option Z :=
  match a with
  | IPv4Address m => Some (IPv4_getPort m)
  | IPv6Address m => Some (IPv6_getPort m)
  | _ => None
  end.
Definition setPort (v : Z) (a : Address) : Address :=
  match a with
  | IPv4Address m => IPv4Address (IPv4_setPort v m)
  | IPv6Address m => IPv6Address (IPv6_setPort v m)
  | _ => a
  end.

End virtual.

(** * Looking addresses up *)

(** [memchr(s, c, n)] on a text of [n] characters: the offset. *)
Fixpoint memchr (c : ascii) (s : text) : option nat :=
  match s with
  | [] => None
  | x :: s => if decide (x = c) then Some O else S <$> memchr c s
  end.

(** The node and the service [Lookup] gives the resolver.  A pointer into the
    host name is the text from there on. *)
Definition split_host (host : text) : text * option text :=
  let '(node, service) :=
    match host with
    | c :: rest =>
        if decide (c = "["%char) then
          match memchr "]"%char rest with
          | Some e =>
              let service := match drop (S e) rest with
                             | d :: s => if decide (d = ":"%char) then Some s else None
                             | [] => None
                             end in
              (take e rest, service)
          | None => ([], None)
          end
        else ([], None)
    | [] => ([], None)
    end in
  let '(node, service) :=
    match node with
    | [] =>
        match memchr ":"%char host with
        | Some k =>
            match memchr ":"%char (drop (S k) host) with
            | None => (take k host, Some (drop (S k) host))
            | Some _ => ([], Some (drop k host))
            end
        | None => ([], None)
        end
    | _ => (node, service)
    end in
  (match node with [] => host | _ => node end, service).

Section lookup.
Context `{Platform}.

(** [getaddrinfo(node, service, hints)]: the addresses found, [None] on an
    error. *)
Context (getaddrinfo : text → option text → Z → Z → Z → option (list (list Z))).

(** [Address::Create] of each address found. *)
Fixpoint create_all (l : list (list Z)) : outcome (list (option Address)) :=
  match l with
  | [] => Ret []
  | m :: l => let! a := Address_Create (Some m) in let! r := create_all l in Ret (a :: r)
  end.

Definition Lookup (result : list (option Address)) (host : text) (family type protocol : Z)
    : outcome (bool * list (option Address)) :=
  let '(node, service) := split_host host in
  match getaddrinfo (c_str node) (c_str <$> service) family type protocol with
  | None => Ret (false, result)
  | Some l => let! r := create_all l in Ret (true, result ++ r)
  end.

Definition LookupAny (host : text) (family type protocol : Z) : outcome (option Address) :=
  let! (ok, result) := Lookup [] host family type protocol in
  if ok then match result with a :: _ => Ret a | [] => Fault OutOfBounds end
  else Ret None.

(** [std::dynamic_pointer_cast<IPAddress>]. *)
Definition as_ip (a : option Address) : option Address :=
  match a with
  | Some (IPv4Address _ | IPv6Address _) => a
  | _ => None
  end.

Fixpoint first_ip (l : list (option Address)) : option Address :=
  match l with
  | [] => None
  | a :: l => match as_ip a with Some x => Some x | None => first_ip l end
  end.

Definition LookupAnyIPAddress (host : text) (family type protocol : Z)
    : outcome (option Address) :=
  let! (ok, addrs) := Lookup [] host family type protocol in
  Ret (if ok then first_ip addrs else None).

(** [IPAddress::Create]: the first address the resolver finds. *)
Definition IPAddress_Create (address : text) (port : Z) : outcome (option Address) :=
  match getaddrinfo (c_str address) None AF_UNSPEC 0 0 with
  | None => Ret None
  | Some [] => Fault NullDeref
  | Some (m :: _) => let! a := Address_Create (Some m) in Ret (setPort port <$> as_ip a)
  end.

(** ** Interfaces *)

(** An entry of [getifaddrs]; the pointers may be null. *)
Record ifaddrs := mkIf {
  ifa_name : text;
  ifa_addr : option (list Z);
  ifa_netmask : option (list Z);
}.

(** [multimap.insert]: after the entries with a key that is not greater. *)
Fixpoint multimap_insert {V} (le : text → text → bool) (k : text) (v : V)
    (m : list (text * V)) : list (text * V) :=
  match m with
  | [] => [(k, v)]
  | (k', v') :: m' => if le k' k then (k', v') :: multimap_insert le k v m' else (k, v) :: m
  end.

(** [std::string]'s order. *)
Fixpoint string_le (a b : text) : bool :=
  match a, b with
  | [], _ => true
  | _ :: _, [] => false
  | x :: a, y :: b =>
      (byte_of x <? byte_of y) || ((byte_of x =? byte_of y) && string_le a b)
  end.

(** The bits of a mask: of the value for IPv4, byte by byte for IPv6. *)
Fixpoint count_all (fuel : nat) (prefix_len : Z) (l : list Z) : option Z :=
  match l with
  | [] => Some prefix_len
  | b :: l => match CountBytes fuel b with
              | Some n => count_all fuel (u32 (prefix_len + n)) l
              | None => None
              end
  end.

Definition counted (o : option Z) : outcome Z :=
  match o with Some n => Ret n | None => Fault OutOfFuel end.

(** One round of the loop of [GetInterFaceAddresses]. *)
Definition interface_step (fuel : nat) (family : Z) (next : ifaddrs)
    (result : list (text * (Address * Z))) : outcome (list (text * (Address * Z))) :=
  let read m n k := if n <=? Zlen m then k else Fault OutOfBounds in
  let add addr prefix_len :=
    match addr with
    | Some a => Ret (multimap_insert string_le (ifa_name next) (a, prefix_len) result)
    | None => Ret result
    end in
  match ifa_addr next with
  | None => Fault NullDeref
  | Some m =>
      read m 2 (
      let f := mem_value uint16_t (slice m 0 2) in
      if negb (family =? AF_UNSPEC) && negb (family =? f) then Ret result
      else if f =? AF_INET then
        let! addr := Address_Create (Some m) in
        match ifa_netmask next with
        | None => Fault NullDeref
        | Some k =>
            read k 16 (
            let! prefix_len := counted (CountBytes fuel (s_addr (as_in k))) in
            add addr prefix_len)
        end
      else if f =? AF_INET6 then
        let! addr := Address_Create (Some m) in
        match ifa_netmask next with
        | None => Fault NullDeref
        | Some k =>
            read k 28 (
            let! prefix_len := counted (count_all fuel 0 (s6_addr (as_in6 k))) in
            add addr prefix_len)
        end
      else Ret result)
  end.

Fixpoint interface_loop (fuel : nat) (family : Z) (l : list ifaddrs)
    (result : list (text * (Address * Z))) : outcome (list (text * (Address * Z))) :=
  match l with
  | [] => Ret result
  | next :: l => let! result := interface_step fuel family next result in
                 interface_loop fuel family l result
  end.

(** [GetInterFaceAddresses] into a map; [getifaddrs] is [None] on an error.
    Thirty-two rounds count the bits of any mask. *)
Definition GetInterFaceAddresses (getifaddrs : option (list ifaddrs))
    (result : list (text * (Address * Z))) (family : Z)
    : outcome (bool * list (text * (Address * Z))) :=
  match getifaddrs with
  | None => Ret (false, result)
  | Some l => let! r := interface_loop 32 family l result in Ret (true, r)
  end.

(** ... and of one interface. *)
Definition GetInterFaceAddresses_of (getifaddrs : option (list ifaddrs))
    (result : list (Address * Z)) (iface : text) (family : Z)
    : outcome (bool * list (Address * Z)) :=
  if bool_decide (iface = []) || bool_decide (iface = str "*") then
    let result := if (family =? AF_INET) || (family =? AF_UNSPEC)
                  then result ++ [(IPv4Address_new 0 0, 0)] else result in
    let result := if (family =? AF_INET6) || (family =? AF_UNSPEC)
                  then result ++ [(IPv6Address_new, 0)] else result in
    Ret (true, result)
  else
    let! (ok, results) := GetInterFaceAddresses getifaddrs [] family in
    if ok then
      Ret (true, result ++ (snd <$> filter (λ x, fst x = iface) results))
    else Ret (false, result).

End lookup.
