(* ===== verification/AddressTheorems.v ===== *)
(** Correctness of the addresses: masks, printing, order and lookup. *)

From S2P Require Import Prelude Endian Http HttpTheorems CString Http11Run Decimal Address.
From Stdlib Require Import Ascii.

#[local] Open Scope string_scope.
#[local] Open Scope list_scope.
#[local] Open Scope Z_scope.

(** * Masks *)

Lemma mask_ones t b :
  0 ≤ b → 0 ≤ bits t - b ≤ 30 → is_signed t = false → bits t ≤ 32 →
  CreateMask t b = Ret (Z.ones (bits t - b)).
Proof.
  intros Hb Hk Ht Hw. unfold CreateMask. rewrite u64_small by lia.
  destruct (Z.ltb_spec 31 (bits t - b)); [lia|].
  destruct (Z.eqb_spec (bits t - b) 31); [lia|].
  f_equal. fold (Z.ones (bits t - b)). apply conv_id. unfold has_type. rewrite Ht.
  rewrite Z.ones_equiv. unfold in_u.
  pose proof (Z.pow_pos_nonneg 2 (bits t - b)).
  pose proof (Z.pow_le_mono_r 2 (bits t - b) (bits t)). lia.
Qed.

(** Where a bit of the value lies in the stored word. *)
Definition swap_index (i : Z) : Z := 8 * (3 - i / 8) + i mod 8.

Lemma prefix_list n (P : Z → Prop) : Forall P (Z.of_nat <$> seq 0 n) → ∀ p, 0 ≤ p < Z.of_nat n → P p.
Proof.
  intros HP p Hp. rewrite Forall_forall in HP. apply HP.
  rewrite <- (Z2Nat.id p) by lia. apply list_elem_of_fmap_2, elem_of_seq. lia.
Qed.

Lemma bswap_32_bit x i : 0 ≤ i < 32 → Z.testbit (bswap_32 x) i = Z.testbit x (swap_index i).
Proof.
  revert i. apply (prefix_list 32 (λ i, Z.testbit (bswap_32 x) i = Z.testbit x (swap_index i))).
  cbn [fmap list_fmap seq]. unfold bswap_32.
  repeat (apply Forall_cons_2;
    [match goal with |- _ = Z.testbit _ (swap_index ?k) =>
       let v := eval vm_compute in (swap_index k) in change (swap_index k) with v end;
     match goal with |- Z.testbit _ ?k = _ =>
       let v := eval vm_compute in k in change k with v end; bit_case|]).
  constructor.
Qed.

Lemma swap_index_range i : 0 ≤ i < 32 → 0 ≤ swap_index i < 32.
Proof.
  intros Hi. unfold swap_index. pose proof (Z.mod_pos_bound i 8).
  pose proof (Z.div_pos i 8). pose proof (Z.div_lt_upper_bound i 8 4). lia.
Qed.

Lemma swap_index_involutive i : 0 ≤ i < 32 → swap_index (swap_index i) = i.
Proof.
  revert i. apply (prefix_list 32 (λ i, swap_index (swap_index i) = i)). by repeat constructor.
Qed.

(** ** Counting bits *)

(** The ones among the [w] low bits. *)
Fixpoint ones (w : nat) (v : Z) : Z :=
  match w with O => 0 | S w => Z.b2z (Z.odd v) + ones w (Z.div2 v) end.

Lemma ones_range w v : 0 ≤ ones w v ≤ Z.of_nat w.
Proof. revert v. induction w as [|w IH]; intros v; cbn [ones]; [lia|]. specialize (IH (Z.div2 v)). destruct (Z.odd v); simpl Z.b2z; lia. Qed.

Lemma ones_zero w : ones w 0 = 0.
Proof. induction w as [|w IH]; [done|]. cbn [ones]. change (Z.div2 0) with 0. by rewrite IH. Qed.

Lemma land_pred_even u : 0 < u → Z.land (2 * u) (2 * u - 1) = 2 * Z.land u (u - 1).
Proof.
  intros Hu. apply Z.bits_inj'. intros k Hk.
  replace (2 * u - 1) with (2 * (u - 1) + 1) by lia. rewrite Z.land_spec.
  destruct (decide (k = 0)) as [->|Hk0]; [by rewrite !Z.testbit_even_0|].
  replace k with (Z.succ (k - 1)) by lia. rewrite !Z.testbit_even_succ by lia.
  by rewrite Z.testbit_odd_succ, Z.land_spec by lia.
Qed.

Lemma land_pred_odd u : 0 ≤ u → Z.land (2 * u + 1) (2 * u + 1 - 1) = 2 * u.
Proof.
  intros Hu. replace (2 * u + 1 - 1) with (2 * u) by lia. apply Z.bits_inj'. intros k Hk.
  rewrite Z.land_spec. destruct (decide (k = 0)) as [->|Hk0]; [by rewrite Z.testbit_even_0, andb_false_r|].
  replace k with (Z.succ (k - 1)) by lia.
  rewrite Z.testbit_odd_succ, Z.testbit_even_succ by lia. apply andb_diag.
Qed.

(** Clearing the lowest one takes one away. *)
Lemma ones_clear w v :
  0 < v < 2 ^ Z.of_nat w →
  ones w (Z.land v (v - 1)) = ones w v - 1 ∧ 0 ≤ Z.land v (v - 1) < 2 ^ Z.of_nat w.
Proof.
  revert v. induction w as [|w IH]; intros v Hv; [simpl in Hv; lia|].
  assert (2 ^ Z.of_nat (S w) = 2 * 2 ^ Z.of_nat w) as E
    by (rewrite Nat2Z.inj_succ, Z.pow_succ_r; lia).
  rewrite E in *. pose proof (Z.div2_odd v) as Ho. destruct (Z.odd v) eqn:Ev; simpl Z.b2z in Ho.
  - assert (Z.land v (v - 1) = 2 * Z.div2 v) as ->
      by (rewrite Ho at 1 2; apply land_pred_odd; lia).
    cbn [ones]. rewrite Ev.
    assert (Z.odd (2 * Z.div2 v) = false) as -> by (by rewrite Z.odd_mul).
    assert (Z.div2 (2 * Z.div2 v) = Z.div2 v) as ->
      by (rewrite (Z.div2_div (2 * _)), Z.mul_comm, Z.div_mul by done; done).
    simpl Z.b2z. lia.
  - rewrite Z.add_0_r in Ho. destruct (IH (Z.div2 v)) as [H1 H2]; [lia|].
    set (u := Z.land (Z.div2 v) (Z.div2 v - 1)) in *.
    assert (Z.land v (v - 1) = 2 * u) as -> by (rewrite Ho at 1 2; apply land_pred_even; lia).
    cbn [ones]. rewrite Ev.
    assert (Z.odd (2 * u) = false) as -> by (by rewrite Z.odd_mul).
    assert (Z.div2 (2 * u) = u) as -> by (rewrite Z.div2_div, Z.mul_comm, Z.div_mul by done; done).
    simpl Z.b2z. lia.
Qed.

Lemma CountBytes_loop_ones fuel result v :
  0 ≤ v < 2 ^ 32 → ones 32 v ≤ Z.of_nat fuel → 0 ≤ result → result + ones 32 v < 2 ^ 32 →
  CountBytes_loop fuel result v = Some (result + ones 32 v).
Proof.
  revert result v. induction fuel as [|fuel IH]; intros result v Hv Hf Hr Hs; cbn [CountBytes_loop];
    destruct (Z.eqb_spec v 0) as [->|Hne]; try (rewrite ones_zero; f_equal; lia).
  - destruct (ones_clear 32 v) as [E _]; [simpl; lia|]. pose proof (ones_range 32 (Z.land v (v - 1))). lia.
  - destruct (ones_clear 32 v) as [E Hl]; [simpl; lia|].
    pose proof (ones_range 32 (Z.land v (v - 1))).
    change (2 ^ Z.of_nat 32) with (2 ^ 32) in Hl. unfold u32. rewrite wrapU_id by (unfold in_u; lia).
    rewrite IH by lia. f_equal. lia.
Qed.

Section address.
Context `{P : Platform}.

Definition net_index (i : Z) : Z :=
  match APEXSTORM_BYTE_ORDER with
  | APEXSTORM_LITTLE_ENDIAN => swap_index i
  | APEXSTORM_BIG_ENDIAN => i
  end.

Lemma net_index_range i : 0 ≤ i < 32 → 0 ≤ net_index i < 32.
Proof. unfold net_index. destruct APEXSTORM_BYTE_ORDER; [apply swap_index_range|done]. Qed.

Lemma net_index_involutive i : 0 ≤ i < 32 → net_index (net_index i) = i.
Proof. unfold net_index. destruct APEXSTORM_BYTE_ORDER; [apply swap_index_involutive|done]. Qed.

Abbreviation swap32 := (byteswapOnLittleEndian uint32_t).
Abbreviation swap16 := (byteswapOnLittleEndian uint16_t).

Lemma swap32_bit x i : 0 ≤ i < 32 → Z.testbit (swap32 x) i = Z.testbit x (net_index i).
Proof.
  intros Hi. unfold byteswapOnLittleEndian, net_index. destruct APEXSTORM_BYTE_ORDER; [|done].
  change (byteswap uint32_t x) with (wrapU 32 (bswap_32 (wrapU 32 x))). unfold wrapU.
  rewrite Z.mod_pow2_bits_low by lia. rewrite bswap_32_bit by done.
  pose proof (swap_index_range i Hi). by rewrite Z.mod_pow2_bits_low by lia.
Qed.

(** The address as a number, the first byte of the dotted form on top. *)
Definition host_order (a : sockaddr_in) : Z := swap32 (s_addr a).

Lemma swap_u_range t x :
  t = uint16_t ∨ t = uint32_t → has_type t x → has_type t (byteswapOnLittleEndian t x).
Proof.
  intros Ht Hx. unfold byteswapOnLittleEndian. destruct APEXSTORM_BYTE_ORDER; [|done].
  destruct Ht as [-> | ->]; rewrite <- byteswap_type by (simpl; lia); apply wrapU_range; done.
Qed.

Lemma swap_involutive t x :
  t = uint16_t ∨ t = uint32_t → has_type t x →
  byteswapOnLittleEndian t (byteswapOnLittleEndian t x) = x.
Proof.
  intros Ht Hx. unfold byteswapOnLittleEndian. destruct APEXSTORM_BYTE_ORDER; [|done].
  apply byteswap_involutive; [|done]. destruct Ht as [-> | ->]; simpl; lia.
Qed.

(** * Subnets *)

(** The bits of an address, the first one on top. *)
Definition addr_bits (a : Address) : Z :=
  match a with IPv4Address _ => 32 | IPv6Address _ => 128 | _ => 0 end.
Definition addr_bit (a : Address) (i : Z) : bool :=
  match a with
  | IPv4Address m => Z.testbit (host_order m) (31 - i)
  | IPv6Address m => Z.testbit (s6_addr m !!! Z.to_nat (i / 8)) (7 - i mod 8)
  | _ => false
  end.

(** An address whose fields have their types. *)
Definition wf_ip (a : Address) : Prop :=
  match a with
  | IPv4Address m => has_type uint32_t (s_addr m) ∧ has_type uint16_t (sin_port m)
  | IPv6Address m => length (s6_addr m) = 16%nat ∧ Forall is_byte (s6_addr m) ∧
                     has_type uint16_t (sin6_port m)
  | _ => False
  end.

(** The prefixes the code computes masks for. *)
Definition prefix_ok (a : Address) (p : Z) : Prop :=
  match a with
  | IPv4Address _ => 2 ≤ p ≤ 32
  | IPv6Address _ => 0 ≤ p < 128
  | _ => False
  end.

(** *** IPv4 *)

Lemma swap_mask_bit p i :
  2 ≤ p ≤ 32 → 0 ≤ i < 32 →
  Z.testbit (swap32 (Z.ones (32 - p))) (net_index (31 - i)) = negb (i <? p).
Proof.
  intros Hp Hi. pose proof (net_index_range (31 - i)).
  rewrite swap32_bit, net_index_involutive by lia.
  destruct (Z.ltb_spec i p); [by rewrite Z.ones_spec_high by lia|by rewrite Z.ones_spec_low by lia].
Qed.

Lemma ipv4_mask p : 2 ≤ p ≤ 32 → CreateMask uint32_t p = Ret (Z.ones (32 - p)).
Proof. intros Hp. apply (mask_ones uint32_t); [lia| |done|done]. change (bits uint32_t) with 32. lia. Qed.

Lemma ipv4_broadcast p m i b :
  2 ≤ p ≤ 32 → 0 ≤ i < 32 → IPv4_broadcastAddress p m = Ret (Some b) →
  addr_bit b i = if i <? p then addr_bit (IPv4Address m) i else true.
Proof.
  intros Hp Hi. unfold IPv4_broadcastAddress. destruct (Z.ltb_spec 32 p); [lia|].
  rewrite ipv4_mask by done. cbn [obind]. intros [= <-]. cbn [addr_bit].
  unfold host_order. cbn [s_addr with_s_addr]. rewrite !swap32_bit by lia.
  rewrite Z.lor_spec, swap_mask_bit by done. destruct (i <? p); by rewrite ?orb_false_r, ?orb_true_r.
Qed.

Lemma ipv4_network p m i b :
  2 ≤ p ≤ 32 → 0 ≤ i < 32 → IPv4_networkAddress p m = Ret (Some b) →
  addr_bit b i = if i <? p then false else addr_bit (IPv4Address m) i.
Proof.
  intros Hp Hi. unfold IPv4_networkAddress. destruct (Z.ltb_spec 32 p); [lia|].
  rewrite ipv4_mask by done. cbn [obind]. intros [= <-]. cbn [addr_bit].
  unfold host_order. cbn [s_addr with_s_addr]. rewrite !swap32_bit by lia.
  rewrite Z.land_spec, swap_mask_bit by done. destruct (i <? p); by rewrite ?andb_false_r, ?andb_true_r.
Qed.

Lemma ipv4_subnet p m i b :
  2 ≤ p ≤ 32 → 0 ≤ i < 32 → IPv4_subnetMask p m = Ret (Some b) → addr_bit b i = (i <? p).
Proof.
  intros Hp Hi. unfold IPv4_subnetMask. rewrite ipv4_mask by done. cbn [obind]. intros [= <-].
  cbn [addr_bit]. unfold host_order. cbn [s_addr]. rewrite swap32_bit by lia.
  pose proof (net_index_range (31 - i)). unfold u32, wrapU.
  rewrite Z.mod_pow2_bits_low, Z.lnot_spec, swap_mask_bit by lia. by rewrite negb_involutive.
Qed.

(** *** IPv6 *)

Lemma ipv6_mask p : 0 ≤ p → CreateMask uint8_t (p mod 8) = Ret (Z.ones (8 - p mod 8)).
Proof.
  intros Hp. pose proof (Z.mod_pos_bound p 8). apply (mask_ones uint8_t); [lia| |done|done].
  change (bits uint8_t) with 8. lia.
Qed.

Lemma set_bytes_lookup from v l j :
  (j < length l)%nat → set_bytes from v l !!! j = if decide (j < from)%nat then l !!! j else v.
Proof.
  revert from j. induction l as [|b l IH]; intros [|from] [|j] Hj; simpl in Hj |- *;
    try lia; try done; rewrite IH by lia; repeat destruct (decide _); (done || lia).
Qed.

(** The byte of a bit, against the byte of the prefix. *)
Lemma prefix_byte p i :
  0 ≤ p → 0 ≤ i →
  (i <? p) = if i / 8 <? p / 8 then true else if p / 8 <? i / 8 then false
             else i mod 8 <? p mod 8.
Proof.
  intros Hp Hi. pose proof (Z.div_mod p 8). pose proof (Z.div_mod i 8).
  pose proof (Z.mod_pos_bound p 8). pose proof (Z.mod_pos_bound i 8).
  destruct (Z.ltb_spec (i / 8) (p / 8)), (Z.ltb_spec (p / 8) (i / 8)),
    (Z.ltb_spec (i mod 8) (p mod 8)), (Z.ltb_spec i p); lia || done.
Qed.

Lemma byte_mask_bit p i :
  0 ≤ p → 0 ≤ i →
  Z.testbit (Z.ones (8 - p mod 8)) (7 - i mod 8) = negb (i mod 8 <? p mod 8).
Proof.
  intros Hp Hi. pose proof (Z.mod_pos_bound p 8). pose proof (Z.mod_pos_bound i 8).
  destruct (Z.ltb_spec (i mod 8) (p mod 8));
    [by rewrite Z.ones_spec_high by lia|by rewrite Z.ones_spec_low by lia].
Qed.

Lemma byte_index p : 0 ≤ p < 128 → 0 ≤ p / 8 < 16.
Proof. intros Hp. split; [by apply Z.div_pos; lia|by apply Z.div_lt_upper_bound; lia]. Qed.

Lemma at_byte_ok s6 p f :
  length s6 = 16%nat → 0 ≤ p < 128 →
  at_byte (p / 8) f s6 = Ret (<[Z.to_nat (p / 8) := f (s6 !!! Z.to_nat (p / 8))]> s6).
Proof.
  intros Hl Hp. pose proof (byte_index p Hp). unfold at_byte. destruct (s6 !! Z.to_nat (p / 8)) as [b|] eqn:E.
  - by rewrite (list_lookup_total_correct _ _ _ E).
  - apply lookup_ge_None in E. lia.
Qed.

(** A bit after the byte of the prefix is changed and the ones after it set. *)
Lemma ipv6_bits s6 f v p i :
  length s6 = 16%nat → 0 ≤ p < 128 → 0 ≤ i < 128 →
  let k := Z.to_nat (p / 8) in
  set_bytes (S k) v (<[k := f (s6 !!! k)]> s6) !!! Z.to_nat (i / 8) =
    if i / 8 <? p / 8 then s6 !!! Z.to_nat (i / 8)
    else if p / 8 <? i / 8 then v else f (s6 !!! Z.to_nat (i / 8)).
Proof.
  intros Hl Hp Hi k. pose proof (Z.div_pos p 8). pose proof (Z.div_pos i 8).
  pose proof (Z.div_lt_upper_bound p 8 16). pose proof (Z.div_lt_upper_bound i 8 16).
  rewrite set_bytes_lookup by (rewrite length_insert; lia). unfold k.
  destruct (Z.ltb_spec (i / 8) (p / 8)) as [Hlt|Hge].
  - rewrite decide_True by lia. by rewrite list_lookup_total_insert_ne by lia.
  - destruct (Z.ltb_spec (p / 8) (i / 8)).
    + by rewrite decide_False by lia.
    + assert (i / 8 = p / 8) as -> by lia. rewrite decide_True by lia.
      by rewrite list_lookup_total_insert_eq by lia.
Qed.

Lemma ipv6_broadcast p m i b :
  length (s6_addr m) = 16%nat → 0 ≤ p < 128 → 0 ≤ i < 128 →
  IPv6_broadcastAddress p m = Ret (Some b) →
  addr_bit b i = if i <? p then addr_bit (IPv6Address m) i else true.
Proof.
  intros Hl Hp Hi. unfold IPv6_broadcastAddress. rewrite ipv6_mask by lia. cbn [obind].
  rewrite at_byte_ok by done. cbn [obind]. intros [= <-]. cbn [addr_bit s6_addr with_s6_addr].
  rewrite (ipv6_bits _ (λ b, Z.lor b _)) by done. rewrite (prefix_byte p i) by lia.
  pose proof (Z.mod_pos_bound i 8).
  destruct (i / 8 <? p / 8); [done|]. destruct (p / 8 <? i / 8).
  - change 255 with (Z.ones 8). by rewrite Z.ones_spec_low by lia.
  - rewrite Z.lor_spec, byte_mask_bit by lia.
    destruct (i mod 8 <? p mod 8); by rewrite ?orb_false_r, ?orb_true_r.
Qed.

(** What [networkAddress] does: in the byte of the prefix it keeps the host's
    bits and clears the network's. *)
Lemma ipv6_network p m i b :
  length (s6_addr m) = 16%nat → 0 ≤ p < 128 → 0 ≤ i < 128 →
  IPv6_networkAddress p m = Ret (Some b) →
  addr_bit b i = if i / 8 <? p / 8 then addr_bit (IPv6Address m) i
                 else if p / 8 <? i / 8 then false
                 else if i <? p then false else addr_bit (IPv6Address m) i.
Proof.
  intros Hl Hp Hi. unfold IPv6_networkAddress. rewrite ipv6_mask by lia. cbn [obind].
  rewrite at_byte_ok by done. cbn [obind]. intros [= <-]. cbn [addr_bit s6_addr with_s6_addr].
  rewrite (ipv6_bits _ (λ b, Z.land b _)) by done. rewrite (prefix_byte p i) by lia.
  destruct (i / 8 <? p / 8); [done|]. destruct (p / 8 <? i / 8); [by rewrite Z.testbit_0_l|].
  rewrite Z.land_spec, byte_mask_bit by lia.
  destruct (i mod 8 <? p mod 8); by rewrite ?andb_false_r, ?andb_true_r.
Qed.

Lemma ipv6_subnet p m i b :
  0 ≤ p < 128 → 0 ≤ i < 128 → IPv6_subnetMask p m = Ret (Some b) → addr_bit b i = (i <? p).
Proof.
  intros Hp Hi. unfold IPv6_subnetMask. rewrite ipv6_mask by lia. cbn [obind].
  rewrite at_byte_ok by done. cbn [obind]. intros [= <-]. cbn [addr_bit s6_addr].
  pose proof (byte_index p Hp). pose proof (byte_index i Hi).
  pose proof (Z.mod_pos_bound i 8). rewrite (prefix_byte p i) by lia.
  destruct (Z.ltb_spec (i / 8) (p / 8)).
  - rewrite lookup_total_app_l by (rewrite length_replicate; lia).
    rewrite lookup_total_replicate_2 by lia. change 255 with (Z.ones 8).
    by rewrite Z.ones_spec_low by lia.
  - rewrite lookup_total_app_r by (rewrite length_replicate; lia).
    rewrite length_replicate, lookup_total_drop.
    replace (Z.to_nat (p / 8) + (Z.to_nat (i / 8) - Z.to_nat (p / 8)))%nat
      with (Z.to_nat (i / 8)) by lia.
    destruct (Z.ltb_spec (p / 8) (i / 8)).
    + rewrite list_lookup_total_insert_ne by lia.
      change (Z.testbit (replicate 16 0 !!! Z.to_nat (i / 8)) (7 - i mod 8) = false).
      rewrite lookup_total_replicate_2 by lia. by rewrite Z.testbit_0_l.
    + assert (i / 8 = p / 8) as -> by lia.
      rewrite list_lookup_total_insert_eq by (simpl; lia).
      unfold u8, wrapU. rewrite Z.mod_pow2_bits_low, Z.lnot_spec, byte_mask_bit by lia.
      by rewrite negb_involutive.
Qed.

(** *** The masks, counted *)

Lemma ipv4_mask_counted p m b :
  2 ≤ p ≤ 32 → IPv4_subnetMask p m = Ret (Some (IPv4Address b)) →
  CountBytes 32 (s_addr b) = Some p.
Proof.
  intros Hp. unfold IPv4_subnetMask. rewrite ipv4_mask by done. cbn [obind]. intros [= <-].
  cbn [s_addr]. revert p Hp.
  assert (∀ p, 0 ≤ p < 33 → 2 ≤ p →
    CountBytes 32 (u32 (Z.lnot (swap32 (Z.ones (32 - p))))) = Some p) as Hall;
    [|intros p Hp; apply Hall; lia].
  apply (prefix_list 33 (λ p, 2 ≤ p →
    CountBytes 32 (u32 (Z.lnot (swap32 (Z.ones (32 - p))))) = Some p)). unfold byteswapOnLittleEndian. destruct APEXSTORM_BYTE_ORDER.
  all: repeat (apply Forall_cons_2; [intros Hp; try (exfalso; by apply Hp); by vm_compute|]); constructor.
Qed.

Lemma ipv6_mask_counted p m b :
  0 ≤ p < 128 → IPv6_subnetMask p m = Ret (Some (IPv6Address b)) →
  count_all 32 0 (s6_addr b) = Some p.
Proof.
  revert p. set (Q := λ p,
    match IPv6_subnetMask p m with
    | Ret (Some (IPv6Address b)) => count_all 32 0 (s6_addr b) = Some p
    | _ => True
    end).
  assert (∀ p, 0 ≤ p < 128 → Q p) as Hall.
  { apply (prefix_list 128 Q). repeat (apply Forall_cons_2; [by vm_compute|]). constructor. }
  intros p Hp E. specialize (Hall p Hp). unfold Q in Hall. by rewrite E in Hall.
Qed.

(** ** The structures in memory *)

Definition wf_sockaddr (a : Address) : Prop :=
  match a with
  | IPv4Address m =>
      sin_family m = AF_INET ∧ has_type uint16_t (sin_port m) ∧ has_type uint32_t (s_addr m) ∧
      length (sin_zero m) = 8%nat
  | IPv6Address m =>
      sin6_family m = AF_INET6 ∧ has_type uint16_t (sin6_port m) ∧
      has_type uint32_t (sin6_flowinfo m) ∧ length (s6_addr m) = 16%nat ∧
      has_type uint32_t (sin6_scope_id m)
  | UnknownAddress m =>
      has_type uint16_t (sa_family m) ∧ sa_family m ≠ AF_INET ∧ sa_family m ≠ AF_INET6 ∧
      length (sa_data m) = 14%nat
  | UnixAddress _ _ => False
  end.

Lemma slice_app_l (a b : list Z) n : length a = n → slice (a ++ b) 0 n = a.
Proof. intros <-. unfold slice. by rewrite drop_0, take_app_length. Qed.

Lemma slice_app_r (a b : list Z) o n :
  (length a ≤ o)%nat → slice (a ++ b) o n = slice b (o - length a) n.
Proof. intros Hl. unfold slice. by rewrite drop_app_ge. Qed.

Lemma slice_all (a : list Z) n : length a = n → slice a 0 n = a.
Proof. intros <-. unfold slice. by rewrite drop_0, firstn_all. Qed.

Ltac slices :=
  repeat (rewrite slice_app_r by (rewrite ?length_mem_bytes; simpl; lia));
  rewrite ?length_mem_bytes; cbn [sizeof];
  match goal with |- context [slice _ ?o _] => replace o with 0%nat by lia end;
  first [ rewrite slice_app_l by (rewrite ?length_mem_bytes; done)
        | rewrite slice_all by (rewrite ?length_mem_bytes; done) ];
  rewrite ?mem_value_bytes; rewrite ?conv_id by done; done.

(** The comparisons of a size with the size of a structure. *)
Ltac fits_cases :=
  repeat match goal with |- context [?a <=? Z.of_nat ?n] =>
    let b := eval vm_compute in (a <=? Z.of_nat n) in change (a <=? Z.of_nat n) with b end.

(** An address read back from its memory. *)
Lemma in_bytes_read m :
  wf_sockaddr (IPv4Address m) →
  Zlen (in_bytes m) = 16 ∧ mem_value uint16_t (slice (in_bytes m) 0 2) = AF_INET ∧
  as_in (in_bytes m) = m.
Proof.
  destruct m as [f p s z]. cbn [wf_sockaddr sin_family sin_port s_addr sin_zero].
  intros (-> & Hp & Hs & Hz). unfold in_bytes, as_in, Zlen.
  cbn [sin_family sin_port s_addr sin_zero]. rewrite !length_app, !length_mem_bytes, Hz.
  split; [done|]. split; [slices|]. f_equal; slices.
Qed.

Lemma in6_bytes_read m :
  wf_sockaddr (IPv6Address m) →
  Zlen (in6_bytes m) = 28 ∧ mem_value uint16_t (slice (in6_bytes m) 0 2) = AF_INET6 ∧
  as_in6 (in6_bytes m) = m.
Proof.
  destruct m as [f p fl s6 sc].
  cbn [wf_sockaddr sin6_family sin6_port sin6_flowinfo s6_addr sin6_scope_id].
  intros (-> & Hp & Hfl & Hs & Hsc). unfold in6_bytes, as_in6, Zlen.
  cbn [sin6_family sin6_port sin6_flowinfo s6_addr sin6_scope_id].
  rewrite !length_app, !length_mem_bytes, Hs.
  split; [done|]. split; [slices|]. f_equal; slices.
Qed.

(** [Address::Create] on the memory of an address gives the address. *)
Lemma create_getAddr a : wf_sockaddr a → Address_Create (Some (getAddr a)) = Ret (Some a).
Proof.
  destruct a as [m|m|? ?|[f d]]; intros Hw; [| |done|]; cbn [getAddr Address_Create].
  - destruct (in_bytes_read m Hw) as (-> & -> & ->). done.
  - destruct (in6_bytes_read m Hw) as (-> & -> & ->). done.
  - destruct Hw as (Hf & H4 & H6 & Hd). cbn [sa_family sa_data] in *.
    unfold sa_bytes, as_sa, Zlen. cbn [sa_family sa_data].
    rewrite !length_app, !length_mem_bytes, Hd. fits_cases. cbn [obind].
    assert (∀ t, mem_value uint16_t (slice (mem_bytes uint16_t f ++ t) 0 2) = f) as E
      by (intros t; slices).
    rewrite !E. rewrite (proj2 (Z.eqb_neq f AF_INET)), (proj2 (Z.eqb_neq f AF_INET6)) by done.
    do 3 f_equal. f_equal; slices.
Qed.

(** ** Printing *)

Definition dotted (a b c d : Z) : text :=
  dec a ++ str "." ++ dec b ++ str "." ++ dec c ++ str "." ++ dec d.

Lemma le_split_combine bs : Forall is_byte bs → le_split (length bs) (le_combine bs) = bs.
Proof.
  induction 1 as [|b bs Hb _ IH]; [done|]. cbn [length le_split le_combine]. unfold is_byte in Hb.
  f_equal.
  - rewrite Z.mul_comm, Z.mod_add by done. by apply Z.mod_small.
  - rewrite Z.mul_comm, Z.div_add by done. by rewrite Z.div_small.
Qed.

Lemma four_bytes a b c d :
  is_byte a → is_byte b → is_byte c → is_byte d → Forall is_byte [d; c; b; a].
Proof. intros. by rewrite !Forall_cons, Forall_nil. Qed.

Lemma c_str_id (s : text) : NUL ∉ s → c_str s = s.
Proof.
  induction s as [|x s IH]; intros Hs; [done|]. cbn [c_str].
  rewrite decide_False by set_solver. by rewrite IH by set_solver.
Qed.

Lemma dec_no_NUL n : NUL ∉ dec n.
Proof.
  destruct (dec_digits n) as [Hd _]. intros Hin. rewrite forallb_forall in Hd.
  specialize (Hd NUL (proj1 (list_elem_of_In _ _) Hin)). by vm_compute in Hd.
Qed.

Lemma dotted_c_str a b c d : c_str (dotted a b c d) = dotted a b c d.
Proof.
  apply c_str_id. unfold dotted. rewrite !not_elem_of_app.
  assert (NUL ∉ str ".") by (by apply (bool_decide_unpack _); vm_compute).
  split_and!; auto using dec_no_NUL.
Qed.

(** The number of an address from its bytes. *)
Lemma be_bytes_value a b c d :
  is_byte a → is_byte b → is_byte c → is_byte d →
  swap32 (mem_value uint32_t [a; b; c; d]) = le_combine [d; c; b; a].
Proof.
  intros Ha Hb Hc Hd. set (v := le_combine [d; c; b; a]).
  assert (has_type uint32_t v) as Hv.
  { unfold has_type, in_u, is_byte, v in *. cbn [is_signed le_combine].
    change (2 ^ bits uint32_t) with (2 ^ 32). lia. }
  assert (mem_value uint32_t [a; b; c; d] = swap32 v) as ->;
    [|by apply swap_involutive; [right|]].
  unfold mem_value, byteswapOnLittleEndian. destruct APEXSTORM_BYTE_ORDER; [|by rewrite conv_id].
  rewrite <- byteswap_type by (simpl; lia).
  rewrite <- (mem_value_bytes (P := x86_64) uint32_t (byteswap _ _)).
  rewrite mem_bytes_byteswap by (simpl; lia).
  assert (mem_bytes (P := x86_64) uint32_t v = [d; c; b; a]) as ->; [|done].
  by apply (le_split_combine [d; c; b; a]), four_bytes.
Qed.

(** The four numbers of the dotted form. *)
Lemma dotted_bytes a b c d :
  is_byte a → is_byte b → is_byte c → is_byte d →
  let v := le_combine [d; c; b; a] in
  Z.land (Z.shiftr v 24) 255 = a ∧ Z.land (Z.shiftr v 16) 255 = b ∧
  Z.land (Z.shiftr v 8) 255 = c ∧ Z.land v 255 = d.
Proof.
  intros Ha Hb Hc Hd v.
  assert (le_split 4 v = [d; c; b; a]) as E
    by (by apply (le_split_combine [d; c; b; a]), four_bytes).
  rewrite le_split_4 in E. cbn [fmap list_fmap] in E. rewrite Z.shiftr_0_r in E.
  by injection E as -> -> -> ->.
Qed.

(** *** IPv6 *)

Fixpoint join (sep : text) (l : list text) : text :=
  match l with
  | [] => []
  | [x] => x
  | x :: l => x ++ sep ++ join sep l
  end.

Fixpoint nonzeros (l : list Z) : list Z :=
  match l with x :: l => if x =? 0 then [] else x :: nonzeros l | [] => [] end.
Fixpoint from_zero (l : list Z) : list Z :=
  match l with x :: l' => if x =? 0 then l else from_zero l' | [] => [] end.
Fixpoint after_zeros (l : list Z) : list Z :=
  match l with x :: l' => if x =? 0 then after_zeros l' else l | [] => [] end.

(** The text of eight groups: the first run of zeros, if there is one, is
    written as two colons; the groups before and after it in hexadecimal with
    a colon between them. *)
Definition ipv6_text (gs : list Z) : text :=
  match from_zero gs with
  | [] => join (str ":") (hex <$> gs)
  | rest => join (str ":") (hex <$> nonzeros gs) ++ str "::"
            ++ join (str ":") (hex <$> after_zeros rest)
  end.

Definition groups (s6 : list Z) : list Z := (λ i, swap16 (group s6 i)) <$> seq 0 8.

Lemma swap16_zero x : has_type uint16_t x → (x =? 0) = (swap16 x =? 0).
Proof.
  intros Hx. destruct (Z.eqb_spec x 0) as [->|Hne].
  - unfold byteswapOnLittleEndian. by destruct APEXSTORM_BYTE_ORDER.
  - symmetry. apply Z.eqb_neq. intros E. apply Hne.
    rewrite <- (swap_involutive uint16_t x) by (by try left). rewrite E.
    unfold byteswapOnLittleEndian. by destruct APEXSTORM_BYTE_ORDER.
Qed.

Lemma group_type s6 i : has_type uint16_t (group s6 i).
Proof. unfold group, mem_value. destruct APEXSTORM_BYTE_ORDER; by apply wrapU_range. Qed.

Lemma ipv6_insert_text m :
  IPv6_insert m = str "[" ++ ipv6_text (groups (s6_addr m)) ++ str "]:" ++ dec (swap16 (sin6_port m)).
Proof.
  unfold IPv6_insert, ipv6_text, groups. cbn [seq foldl fmap list_fmap].
  assert (∀ i, zero_group (s6_addr m) i = (swap16 (group (s6_addr m) i) =? 0)) as Hz
    by (intros i; apply swap16_zero, group_type).
  unfold IPv6_insert_step. rewrite !Hz. generalize (hex) as h. intros h.
  cbn [nonzeros from_zero after_zeros].
  repeat match goal with |- context [swap16 (group ?s ?i)] =>
    generalize (swap16 (group s i)); let g := fresh "g" in intros g end.
  repeat match goal with |- context [?g =? 0] =>
    lazymatch goal with
    | H : (g =? 0) = _ |- _ => rewrite H
    | _ => destruct (g =? 0) eqn:?
    end; cbn [negb andb nonzeros from_zero after_zeros]
  end; cbn [join fmap list_fmap]; rewrite <- ?app_assoc; reflexivity.
Qed.

(** ** Order *)

(** An address whose length lies in its structure. *)
Definition addr_ok (a : Address) : Prop :=
  0 ≤ getAddrLen a ≤ Zlen (getAddr a) ∧ Forall is_byte (getAddr a).

(** What the comparisons see. *)
Definition key_of (a : Address) : list Z := take (Z.to_nat (getAddrLen a)) (getAddr a).
Definition key (a : Address) : list N := Z.to_N <$> key_of a.

Lemma key_length a : addr_ok a → Z.of_nat (length (key_of a)) = getAddrLen a.
Proof. intros [Hl _]. unfold key_of, Zlen in *. rewrite length_take. lia. Qed.

Lemma key_bytes a : addr_ok a → Forall is_byte (key_of a).
Proof. intros [_ Hb]. by apply Forall_take. Qed.

Lemma memcmp_take (x y : list Z) n m :
  memcmp_bytes (take (n `min` m) x) (take (n `min` m) y) = memcmp_bytes (take n x) (take m y).
Proof.
  revert y n m. induction x as [|a x IH]; intros [|b y] [|n] [|m]; cbn [take memcmp_bytes Nat.min];
    try done. by rewrite IH.
Qed.

Lemma memcmp_keys a b :
  addr_ok a → addr_ok b →
  memcmp (getAddr a) (getAddr b) (Z.min (getAddrLen a) (getAddrLen b)) =
    Ret (memcmp_bytes (key_of a) (key_of b)).
Proof.
  intros [Ha _] [Hb _]. unfold memcmp.
  rewrite !(proj2 (Z.leb_le _ _)) by lia. cbn [andb]. f_equal.
  unfold key_of.
  rewrite <- (memcmp_take _ _ (Z.to_nat (getAddrLen a)) (Z.to_nat (getAddrLen b))).
  by rewrite Z2Nat.inj_min.
Qed.

Lemma lex_memcmp (x y : list Z) :
  Forall is_byte x → Forall is_byte y →
  lex_less (Z.to_N <$> x) (Z.to_N <$> y) =
    (memcmp_bytes x y <? 0) || ((memcmp_bytes x y =? 0) && (length x <? length y)%nat).
Proof.
  intros Hx. revert y. induction Hx as [|a x Ha Hx IH]; intros [|b y] Hy; cbn [memcmp_bytes];
    try done. inversion Hy as [|?? Hb Hy']; subst. unfold is_byte in *.
  cbn [fmap list_fmap lex_less]. rewrite IH by done.
  destruct (Z.eqb_spec a b) as [->|Hne].
  - rewrite N.ltb_irrefl, N.eqb_refl. cbn [orb andb length]. done.
  - destruct (N.ltb_spec (Z.to_N a) (Z.to_N b)), (Z.ltb_spec (a - b) 0); try done; try lia.
    destruct (N.eqb_spec (Z.to_N a) (Z.to_N b)); [lia|].
    destruct (Z.eqb_spec (a - b) 0); [lia|]. done.
Qed.

Lemma operator_lt_key a b :
  addr_ok a → addr_ok b → operator_lt a b = Ret (lex_less (key a) (key b)).
Proof.
  intros Ha Hb. unfold operator_lt. rewrite memcmp_keys by done. cbn [obind]. f_equal.
  unfold key. rewrite lex_memcmp by (by apply key_bytes).
  rewrite <- (key_length a), <- (key_length b) by done.
  destruct (Z.ltb_spec (memcmp_bytes (key_of a) (key_of b)) 0); [done|].
  destruct (Z.ltb_spec 0 (memcmp_bytes (key_of a) (key_of b))).
  { destruct (Z.eqb_spec (memcmp_bytes (key_of a) (key_of b)) 0); [lia|done]. }
  destruct (Z.eqb_spec (memcmp_bytes (key_of a) (key_of b)) 0); [|lia]. cbn [orb andb].
  destruct (Z.ltb_spec (Z.of_nat (length (key_of a))) (Z.of_nat (length (key_of b))));
    destruct (Nat.ltb_spec (length (key_of a)) (length (key_of b))); (done || lia).
Qed.

Lemma memcmp_eq (x y : list Z) :
  length x = length y → memcmp_bytes x y = 0 ↔ x = y.
Proof.
  revert y. induction x as [|a x IH]; intros [|b y] Hl; try done. cbn [memcmp_bytes].
  simpl in Hl. destruct (Z.eqb_spec a b) as [->|Hne].
  - rewrite IH by lia. split; [by intros ->|by intros [= ->]].
  - split; [lia|by intros [= -> ->]].
Qed.

Lemma key_inj a b : addr_ok a → addr_ok b → key a = key b → key_of a = key_of b.
Proof.
  intros Ha Hb. unfold key. pose proof (key_bytes a Ha) as HA. pose proof (key_bytes b Hb) as HB.
  revert HA HB. generalize (key_of a), (key_of b). induction l as [|x l IH]; intros [|y l'] HA HB E;
    try done. inversion HA; inversion HB; subst. cbn in E. injection E as E1 E2.
  unfold is_byte in *. f_equal; [lia|by apply IH].
Qed.

Lemma operator_eq_key a b :
  addr_ok a → addr_ok b → operator_eq a b = Ret (bool_decide (key a = key b)).
Proof.
  intros Ha Hb. pose proof (memcmp_keys a b Ha Hb) as Hm. unfold operator_eq.
  pose proof (key_length a Ha) as La. pose proof (key_length b Hb) as Lb.
  destruct (Z.eqb_spec (getAddrLen a) (getAddrLen b)) as [E|E].
  - rewrite <- E, Z.min_id in Hm. rewrite Hm. cbn [obind]. f_equal.
    destruct (Z.eqb_spec (memcmp_bytes (key_of a) (key_of b)) 0) as [E0|E0]; symmetry.
    + apply bool_decide_eq_true. unfold key. f_equal. apply memcmp_eq; [lia|done].
    + apply bool_decide_eq_false. intros Hk. apply E0, memcmp_eq; [lia|]. by apply key_inj.
  - f_equal. symmetry. apply bool_decide_eq_false. intros Hk. apply E.
    apply key_inj in Hk; [|done..]. by rewrite <- La, <- Lb, Hk.
Qed.

(** ** Interfaces *)

(** The mask of a prefix, with its structure. *)
Lemma subnet_mask_ok a p :
  prefix_ok a p → ∃ m, subnetMask p a = Some (Ret (Some m)) ∧ wf_sockaddr m ∧
    match a, m with
    | IPv4Address _, IPv4Address b => CountBytes 32 (s_addr b) = Some p
    | IPv6Address _, IPv6Address b => count_all 32 0 (s6_addr b) = Some p
    | _, _ => False
    end.
Proof.
  destruct a as [m|m|? ?|?]; cbn [prefix_ok subnetMask]; intros Hp; [| |done|done].
  - destruct (IPv4_subnetMask p m) as [o| |] eqn:E.
    2-3: unfold IPv4_subnetMask in E; rewrite ipv4_mask in E by done; done.
    pose proof E as E'. unfold IPv4_subnetMask in E. rewrite ipv4_mask in E by done.
    cbn [obind] in E. injection E as <-. eexists. split; [reflexivity|]. split.
    + split; [done|]. split; [done|]. split; [by apply wrapU_range|done].
    + by eapply ipv4_mask_counted.
  - destruct (IPv6_subnetMask p m) as [o| |] eqn:E.
    2-3: unfold IPv6_subnetMask in E; rewrite ipv6_mask in E by lia; cbn [obind] in E;
      rewrite at_byte_ok in E by done; done.
    pose proof E as E'. unfold IPv6_subnetMask in E. rewrite ipv6_mask in E by lia.
    cbn [obind] in E. rewrite at_byte_ok in E by done. cbn [obind] in E. injection E as <-.
    eexists. split; [reflexivity|]. split; [|by eapply ipv6_mask_counted].
    pose proof (byte_index p Hp).
    repeat split; try done. cbn [s6_addr]. rewrite length_app, length_replicate, length_drop.
    rewrite length_insert. cbn [length]. lia.
Qed.

(** ** The name and the port of a host *)

Lemma memchr_app c s t : c ∉ s → memchr c (s ++ c :: t) = Some (length s).
Proof.
  induction s as [|x s IH]; intros Hc; cbn [app memchr].
  - by rewrite decide_True.
  - rewrite decide_False by set_solver. rewrite IH by set_solver. done.
Qed.

Lemma memchr_none c s : c ∉ s → memchr c s = None.
Proof.
  induction s as [|x s IH]; intros Hc; cbn [memchr]; [done|].
  rewrite decide_False by set_solver. by rewrite IH by set_solver.
Qed.

Lemma drop_S_app (s : text) c t : drop (S (length s)) (s ++ c :: t) = t.
Proof.
  change (c :: t) with ([c] ++ t). rewrite app_assoc.
  replace (S (length s)) with (length (s ++ [c])) by (rewrite length_app; simpl; lia).
  apply drop_app_length.
Qed.

(** A host that does not start with a bracket. *)
Lemma split_plain host :
  head host ≠ Some "["%char →
  split_host host =
    match memchr ":"%char host with
    | Some k =>
        match memchr ":"%char (drop (S k) host) with
        | None => (match take k host with [] => host | n => n end, Some (drop (S k) host))
        | Some _ => (host, Some (drop k host))
        end
    | None => (host, None)
    end.
Proof.
  intros Hh. unfold split_host. destruct host as [|c rest]; [done|].
  rewrite decide_False by (by intros ->).
  destruct (memchr ":"%char (c :: rest)) as [k|]; [|done].
  destruct (memchr ":"%char (drop (S k) (c :: rest))); [done|].
  by destruct (take k (c :: rest)).
Qed.
End address.

(** * Properties *)

(** C20. Subnet arithmetic: for every IPv4 prefix of 2 to 32 bits and every
    IPv6 prefix of 0 to 127, on hosts of both byte orders, the broadcast
    address keeps the bits of the prefix and has ones after it, and the subnet
    mask has ones exactly in the prefix. *)
Theorem subnet_bits `{Platform} (a : Address) (p : Z) :
  wf_ip a → prefix_ok a p →
  ∃ b m, broadcastAddress p a = Some (Ret (Some b)) ∧ subnetMask p a = Some (Ret (Some m)) ∧
    ∀ i, 0 ≤ i < addr_bits a →
      addr_bit b i = (if i <? p then addr_bit a i else true) ∧ addr_bit m i = (i <? p).
Proof.
  destruct a as [m|m|? ?|?]; cbn [prefix_ok wf_ip]; intros Hw Hp; [| |done|done].
  - assert (∃ b, IPv4_broadcastAddress p m = Ret (Some b)) as [b Eb].
    { unfold IPv4_broadcastAddress. destruct (Z.ltb_spec 32 p); [lia|].
      rewrite ipv4_mask by done. by eexists. }
    assert (∃ k, IPv4_subnetMask p m = Ret (Some k)) as [k Ek]
      by (unfold IPv4_subnetMask; rewrite ipv4_mask by done; by eexists).
    exists b, k. cbn [broadcastAddress subnetMask]. rewrite Eb, Ek. split_and!; [done..|].
    intros i Hi. split; [by eapply ipv4_broadcast|by eapply ipv4_subnet].
  - destruct Hw as (Hl & _). 
    assert (∃ b, IPv6_broadcastAddress p m = Ret (Some b)) as [b Eb].
    { unfold IPv6_broadcastAddress. rewrite ipv6_mask by lia. cbn [obind].
      rewrite at_byte_ok by done. by eexists. }
    assert (∃ k, IPv6_subnetMask p m = Ret (Some k)) as [k Ek].
    { unfold IPv6_subnetMask. rewrite ipv6_mask by lia. cbn [obind].
      rewrite at_byte_ok by done. by eexists. }
    exists b, k. cbn [broadcastAddress subnetMask]. rewrite Eb, Ek. split_and!; [done..|].
    intros i Hi. split; [by eapply ipv6_broadcast|by eapply ipv6_subnet].
Qed.

(** Counting a mask ends: on every 32-bit value the loop of [CountBytes]
    ends within 32 rounds, and returns the number of ones of the value. *)
Theorem count_bytes_terminates (v : Z) (fuel : nat) :
  has_type uint32_t v → (32 ≤ fuel)%nat → CountBytes fuel v = Some (ones 32 v).
Proof.
  intros Hv Hf. pose proof (ones_range 32 v). unfold has_type, in_u in Hv. cbn [is_signed] in Hv.
  change (2 ^ bits uint32_t) with (2 ^ 32) in Hv. unfold CountBytes.
  rewrite CountBytes_loop_ones by lia. f_equal.
Qed.

(** An interface is reported with its prefix: when the kernel gives an
    interface the address [a] and the mask of [p] bits that [subnetMask]
    computes, [GetInterFaceAddresses] reads both from memory and returns
    exactly [a] and [p]. *)
Theorem interface_prefix `{Platform} (a m : Address) (p : Z) (name : text) :
  wf_sockaddr a → prefix_ok a p → subnetMask p a = Some (Ret (Some m)) →
  GetInterFaceAddresses (Some [mkIf name (Some (getAddr a)) (Some (getAddr m))]) [] AF_UNSPEC
    = Ret (true, [(name, (a, p))]).
Proof.
  intros Ha Hp Hm. destruct (subnet_mask_ok a p Hp) as (m' & Hm' & Hw & Hc).
  rewrite Hm in Hm'. injection Hm' as ->.
  unfold GetInterFaceAddresses. cbn [interface_loop]. unfold interface_step.
  cbn [ifa_addr ifa_netmask ifa_name]. rewrite create_getAddr by done. cbn [obind].
  destruct a as [a|a|? ?|?]; try done; destruct m' as [m|m|? ?|?]; try done; cbn [getAddr].
  - destruct (in_bytes_read a Ha) as (-> & -> & _), (in_bytes_read m Hw) as (-> & _ & ->).
    rewrite Hc. repeat change (_ <=? _) with true. cbn [AF_UNSPEC AF_INET AF_INET6 Z.eqb Pos.eqb
      negb andb counted obind multimap_insert]. done.
  - destruct (in6_bytes_read a Ha) as (-> & -> & _), (in6_bytes_read m Hw) as (-> & _ & ->).
    rewrite Hc. repeat change (_ <=? _) with true. cbn [AF_UNSPEC AF_INET AF_INET6 Z.eqb Pos.eqb
      negb andb counted obind multimap_insert]. done.
Qed.

(** IPv4 text round trip: given that [inet_pton] stores the four numbers
    of a dotted address in their order, the address [IPv4Address::Create]
    makes from a dotted text and a port prints as that text, a colon and the
    port, on hosts of both byte orders. *)
Theorem ipv4_text_roundtrip `{Platform} (inet_pton : Z → text → Z * list Z) (a b c d port : Z) :
  (∀ a b c d, is_byte a → is_byte b → is_byte c → is_byte d →
     inet_pton AF_INET (dotted a b c d) = (1, [a; b; c; d])) →
  is_byte a → is_byte b → is_byte c → is_byte d → has_type uint16_t port →
  ∃ x, IPv4Address_Create inet_pton (dotted a b c d) port = Some x ∧
    toString x = Ret (dotted a b c d ++ str ":" ++ dec port).
Proof.
  intros Hn Ha Hb Hc Hd Hp. unfold IPv4Address_Create.
  assert (c_str (dotted a b c d) = dotted a b c d) as -> by apply dotted_c_str.
  rewrite Hn by done. cbn [Z.ltb Z.eqb Z.compare]. eexists. split; [reflexivity|].
  unfold toString, insert, IPv4_insert. cbn [s_addr sin_port].
  rewrite be_bytes_value by done. destruct (dotted_bytes a b c d Ha Hb Hc Hd) as (-> & -> & -> & ->).
  rewrite swap_involutive by (by try left). unfold dotted. by rewrite <- !app_assoc.
Qed.

(** C21. IPv6 text: an address prints as its eight groups in hexadecimal with
    the first run of zeros written as two colons, in brackets, and the port;
    the loop over the groups computes exactly this reference form, on hosts of
    both byte orders. *)
Theorem ipv6_text_reference `{Platform} (m : sockaddr_in6) :
  toString (IPv6Address m) =
    Ret (str "[" ++ ipv6_text (groups (s6_addr m)) ++ str "]:" ++ dec (IPv6_getPort m)).
Proof. unfold toString, insert. by rewrite ipv6_insert_text. Qed.

(** The comparisons of addresses are an order: [operator<] is irreflexive
    and transitive, and of any two addresses exactly one is smaller or
    [operator==] holds; so addresses of all classes can be keys of a map. *)
Theorem address_order `{Platform} (a b c : Address) :
  addr_ok a → addr_ok b → addr_ok c →
  operator_lt a a = Ret false ∧
  (operator_lt a b = Ret true → operator_lt b c = Ret true → operator_lt a c = Ret true) ∧
  ((operator_lt a b = Ret true ∧ operator_eq a b = Ret false ∧ operator_lt b a = Ret false) ∨
   (operator_lt a b = Ret false ∧ operator_eq a b = Ret true ∧ operator_lt b a = Ret false) ∨
   (operator_lt a b = Ret false ∧ operator_eq a b = Ret false ∧ operator_lt b a = Ret true)).
Proof.
  intros Ha Hb Hc. rewrite !operator_lt_key, operator_eq_key by done.
  split; [by rewrite lex_less_irrefl|]. split.
  { intros [= H1] [= H2]. f_equal. by eapply lex_less_trans. }
  destruct (lex_less (key a) (key b)) eqn:E1.
  - left. split; [done|]. assert (key a ≠ key b) as Hne
      by (intros E; rewrite E, lex_less_irrefl in E1; done).
    split; [by rewrite bool_decide_false|]. f_equal.
    destruct (lex_less (key b) (key a)) eqn:E2; [|done].
    pose proof (lex_less_trans _ _ _ E1 E2) as E3. by rewrite lex_less_irrefl in E3.
  - destruct (lex_less (key b) (key a)) eqn:E2.
    + right; right. split; [done|]. split; [|done].
      rewrite bool_decide_false; [done|]. intros E. by rewrite E, lex_less_irrefl in E2.
    + right; left. split; [done|]. split; [|done].
      by rewrite bool_decide_true by (by apply lex_less_total).
Qed.

(** A host name is split as documented: [name:port] into the name and the
    port, [[address]:port] into the address without its brackets and the port,
    and a name without a colon is looked up without a port.  But an address
    with two colons or more and no brackets is looked up with the text from
    its first colon as the port. *)
Theorem lookup_splits_host (name port : text) :
  ":"%char ∉ name → ":"%char ∉ port → name ≠ [] → head name ≠ Some "["%char →
  split_host (name ++ str ":" ++ port) = (name, Some port) ∧
  split_host name = (name, None) ∧
  (∀ addr, "]"%char ∉ addr → addr ≠ [] →
     split_host (str "[" ++ addr ++ str "]:" ++ port) = (addr, Some port) ∧
     split_host (str "[" ++ addr ++ str "]") = (addr, None)) ∧
  (∀ rest, ":"%char ∈ rest →
     split_host (name ++ str ":" ++ rest) = (name ++ str ":" ++ rest, Some (str ":" ++ rest))).
Proof.
  intros Hn Hp Hne Hh. split_and!.
  - rewrite split_plain by (by destruct name). change (str ":" ++ port) with (":"%char :: port).
    rewrite memchr_app, drop_S_app, (memchr_none _ port) by done.
    rewrite take_app_length. by destruct name.
  - rewrite split_plain by done. by rewrite memchr_none.
  - intros addr Ha Hae. change (str "[" ++ addr ++ str "]:" ++ port)
      with ("["%char :: addr ++ "]"%char :: ":"%char :: port).
    change (str "[" ++ addr ++ str "]") with ("["%char :: addr ++ ["]"%char]).
    unfold split_host. rewrite !decide_True by done. rewrite !memchr_app by done.
    rewrite !drop_S_app, !take_app_length. by destruct addr.
  - intros rest Hr. rewrite split_plain by (by destruct name).
    change (str ":" ++ rest) with (":"%char :: rest).
    rewrite memchr_app, drop_S_app, drop_app_length by done.
    assert (is_Some (memchr ":"%char rest)) as [k ->]; [|done].
    clear -Hr. induction rest as [|x rest IH]; [by inversion Hr|]. cbn [memchr].
    destruct (decide (x = ":"%char)) as [->|Hx]; [done|].
    apply elem_of_cons in Hr as [E|Hr]; [by destruct (Hx (eq_sym E))|]. by destruct (IH Hr) as [k ->].
Qed.

(** Two operations of IPv4 addresses do not do what address.h says.
    [networkAddress] clears the bits of the prefix and keeps those of the
    host, the opposite of the network's address; and on a little-endian host
    [getPort] after [setPort(v)] is [v] with its bytes exchanged, while IPv6
    addresses return [v]. *)
Theorem ipv4_network_and_port (m : sockaddr_in) (m6 : sockaddr_in6) (p v : Z) :
  2 ≤ p ≤ 32 → has_type uint16_t v →
  (∃ n, networkAddress (H := x86_64) p (IPv4Address m) = Some (Ret (Some n)) ∧
     ∀ i, 0 ≤ i < 32 →
       addr_bit (P := x86_64) n i =
         if i <? p then false else addr_bit (P := x86_64) (IPv4Address m) i) ∧
  getPort (H := x86_64) (setPort (H := x86_64) v (IPv4Address m)) = Some (byteswap uint16_t v) ∧
  getPort (H := x86_64) (setPort (H := x86_64) v (IPv6Address m6)) = Some v.
Proof.
  intros Hp Hv. split_and!.
  - assert (∃ n, IPv4_networkAddress (H := x86_64) p m = Ret (Some n)) as [n En].
    { unfold IPv4_networkAddress. destruct (Z.ltb_spec 32 p); [lia|].
      rewrite ipv4_mask by done. by eexists. }
    exists n. cbn [networkAddress]. rewrite En. split; [done|]. intros i Hi.
    by eapply ipv4_network.
  - done.
  - cbn [getPort setPort]. unfold IPv6_getPort, IPv6_setPort. cbn [sin6_port].
    by rewrite swap_involutive by (by try left).
Qed.

(** * Witnesses *)

Definition home : sockaddr_in := mkIn AF_INET 0 0xa00a8c0 (replicate 8 0).

Lemma home_bytes : wf_ip (IPv4Address home) ∧ wf_sockaddr (IPv4Address home).
Proof. unfold wf_ip, wf_sockaddr, has_type, in_u. repeat split; by vm_compute. Qed.

(** 192.168.0.10/24. *)
Lemma subnet_bits_witness :
  ∃ b m, broadcastAddress (H := x86_64) 24 (IPv4Address home) = Some (Ret (Some b)) ∧
    subnetMask (H := x86_64) 24 (IPv4Address home) = Some (Ret (Some m)) ∧
    addr_bit (P := x86_64) b 31 = true ∧ addr_bit (P := x86_64) m 24 = false.
Proof.
  destruct (subnet_bits (H := x86_64) (IPv4Address home) 24) as (b & m & Hb & Hm & Hi);
    [apply home_bytes|cbn; lia|].
  exists b, m. split; [exact Hb|]. split; [exact Hm|].
  split; [apply (Hi 31); cbn; lia|apply (Hi 24); cbn; lia].
Defined.

Lemma count_bytes_terminates_witness : CountBytes 32 0xffffff00 = Some 24.
Proof. apply (count_bytes_terminates 0xffffff00 32); [split; by vm_compute|lia]. Defined.

Lemma interface_prefix_witness :
  GetInterFaceAddresses (H := x86_64)
    (Some [mkIf (str "eth0") (Some (getAddr (H := x86_64) (IPv4Address home)))
             (Some [2; 0; 0; 0; 255; 255; 255; 0; 0; 0; 0; 0; 0; 0; 0; 0])]) [] AF_UNSPEC
    = Ret (true, [(str "eth0", (IPv4Address home, 24))]).
Proof.
  apply (interface_prefix (H := x86_64) (IPv4Address home)
    (IPv4Address (mkIn AF_INET 0 0xffffff (replicate 8 0))) 24 (str "eth0"));
    [apply home_bytes|cbn; lia|by vm_compute].
Defined.

(** A reader of dotted addresses, as the documentation of [inet_pton] has it:
    the digits up to each point. *)
Fixpoint after_point (s : text) : text :=
  match s with c :: s => if decide (c = "."%char) then s else after_point s | [] => [] end.
Definition pton (family : Z) (s : text) : Z * list Z :=
  let b := after_point s in let c := after_point b in let d := after_point c in
  (1, [digits 10 0 s; digits 10 0 b; digits 10 0 c; digits 10 0 d]).

Lemma after_point_dec n s : after_point (dec n ++ str "." ++ s) = s.
Proof.
  destruct (dec_digits n) as [Hd _]. induction (dec n) as [|x l IH]; [done|].
  cbn [app after_point]. cbn [forallb] in Hd. apply andb_true_iff in Hd as [Hx Hl].
  rewrite decide_False by (intros ->; by vm_compute in Hx). by apply IH.
Qed.

Lemma pton_dotted a b c d :
  is_byte a → is_byte b → is_byte c → is_byte d →
  pton AF_INET (dotted a b c d) = (1, [a; b; c; d]).
Proof.
  intros Ha Hb Hc Hd. unfold is_byte in *. unfold pton, dotted. rewrite !after_point_dec.
  assert (∀ n s, 0 ≤ n → digits 10 0 (dec n ++ str "." ++ s) = n) as E
    by (intros n s Hn; apply digits_dec; [done|]; by intros ? ? [= <- _]).
  rewrite !E by lia. by rewrite <- (app_nil_r (dec d)), digits_dec by (lia || done).
Qed.

Lemma ipv4_text_roundtrip_witness :
  ∃ x, toString (H := x86_64) x = Ret (str "192.168.0.10:80").
Proof.
  destruct (ipv4_text_roundtrip (H := x86_64) pton 192 168 0 10 80 pton_dotted) as (x & _ & E);
    [unfold is_byte; lia..|split; by vm_compute|].
  exists x. rewrite E. by vm_compute.
Defined.

Lemma address_order_witness :
  operator_lt (H := x86_64) (IPv4Address home) (IPv4Address home) = Ret false.
Proof.
  apply (address_order (H := x86_64) (IPv4Address home) (IPv4Address home) (IPv4Address home));
    split; [by vm_compute|by apply (bool_decide_unpack _); vm_compute
           |by vm_compute|by apply (bool_decide_unpack _); vm_compute
           |by vm_compute|by apply (bool_decide_unpack _); vm_compute].
Defined.

Lemma lookup_splits_host_witness :
  split_host (str "[::1]:8020") = (str "::1", Some (str "8020")) ∧
  split_host (str "a:b:c") = (str "a:b:c", Some (str ":b:c")).
Proof.
  destruct (lookup_splits_host (str "a") (str "8020")) as (_ & _ & H1 & H2);
    [by apply (bool_decide_unpack _); vm_compute..|].
  split.
  - by apply (H1 (str "::1")); [apply (bool_decide_unpack _); vm_compute|].
  - apply (H2 (str "b:c")). by apply (bool_decide_unpack _); vm_compute.
Defined.

Lemma ipv4_network_and_port_witness :
  getPort (H := x86_64) (setPort (H := x86_64) 80 (IPv4Address home)) = Some 20480.
Proof.
  destruct (ipv4_network_and_port home (mkIn6 AF_INET6 0 0 [] 0) 24 80) as (_ & E & _);
    [lia|split; by vm_compute|].
  rewrite E. by vm_compute.
Defined.
