(* ===== verification/Config.v ===== *)
(** The configuration registry: config.h and config.cpp.

    YAML documents are the trees yaml-cpp gives access to; parsing
    ([Load], [None] when it throws), printing ([emit]) and the conversions of
    [boost::lexical_cast] on the basic types are arguments.  A pointer to a
    variable is its name: the registry never drops one. *)

From S2P Require Import Prelude Http Address.
From Stdlib Require Import Ascii.

#[local] Open Scope string_scope.
#[local] Open Scope list_scope.
#[local] Open Scope Z_scope.

(** * Types and values *)

Inductive seq_kind := vector | list_ | set | unordered_set.
Inductive dict_kind := map_ | unordered_map.

(** The types [LexicalCast] converts: basic ones, and containers of them;
    dictionaries have string keys. *)
Inductive cty (base : Type) :=
| Base (b : base)
| Seq (k : seq_kind) (t : cty base)
| Dict (k : dict_kind) (t : cty base).
Arguments Base {base} b.
Arguments Seq {base} k t.
Arguments Dict {base} k t.

#[export] Instance seq_kind_eq_dec : EqDecision seq_kind.
Proof. solve_decision. Defined.
#[export] Instance dict_kind_eq_dec : EqDecision dict_kind.
Proof. solve_decision. Defined.
#[export] Instance cty_eq_dec `{EqDecision base} : EqDecision (cty base).
Proof. solve_decision. Defined.

Inductive val (B : Type) :=
| VBase (x : B)
| VSeq (l : list (val B))
| VDict (l : list (text * val B)).
Arguments VBase {B} x.
Arguments VSeq {B} l.
Arguments VDict {B} l.

(** YAML::Node. *)
Inductive node :=
| Null
| Scalar (s : text)
| Sequence (l : list node)
| Map (l : list (node * node)).

(** What the code uses of other libraries. *)
Class Libs (base B : Type) := {
  (* YAML::Load, operator<<, and node[0 .. size - 1] of a map *)
  Load : text → option node;
  emit : node → text;
  map_items : list (node * node) → list node;
  (* boost::lexical_cast from and to a string *)
  cast : base → text → option B;
  show : B → option text;
  (* operator== and operator< of a basic type, and of a value of type T *)
  base_eqb : B → B → bool;
  less : val B → val B → bool;
  (* the order in which an unordered container is iterated *)
  hash_order : list (val B) → list (val B);
  hash_order_pairs : list (text * val B) → list (text * val B);
}.

Definition IsMap (n : node) : bool := match n with Map _ => true | _ => false end.
Definition IsScalar (n : node) : bool := match n with Scalar _ => true | _ => false end.

(** [node.Scalar()] of a valid node: empty unless it is a scalar. *)
Definition scalar_of (n : node) : text := match n with Scalar s => s | _ => [] end.

(** [tolower] of the C locale. *)
Definition tolower (c : ascii) : ascii := ascii_of_N (lower c).

(** [name.find_first_not_of(VALID_CHAR) == npos]. *)
Definition VALID_CHAR : text := str "abcdefghikjlmnopqrstuvwxyz._0123456789".
Definition valid_name (name : text) : bool := forallb (λ c, bool_decide (c ∈ VALID_CHAR)) name.

Section config.
Context {base B : Type} `{EqDecision base} `{Libs base B}.

Abbreviation val := (val B).
Abbreviation cty := (cty base).

(** * LexicalCast *)

Definition seq_items (n : node) : list node :=
  match n with Sequence l => l | Map m => map_items m | _ => [] end.

(** [it->first.Scalar()] and [it->second]: inside a sequence they are no valid
    nodes, and using them throws. *)
Definition dict_items (n : node) : option (list (text * node)) :=
  match n with
  | Map m => Some ((λ '(k, v), (scalar_of k, v)) <$> m)
  | Sequence (_ :: _) => None
  | _ => Some []
  end.

(** [std::set::insert]. *)
Fixpoint set_insert (x : val) (l : list val) : list val :=
  match l with
  | [] => [x]
  | y :: l' => if less y x then y :: set_insert x l' else if less x y then x :: l else l
  end.

(** [operator==] of two values of type [t]. *)
Fixpoint list_eqb {X} (eqb : X → X → bool) (l m : list X) : bool :=
  match l, m with
  | [], [] => true
  | x :: l, y :: m => eqb x y && list_eqb eqb l m
  | _, _ => false
  end.

Fixpoint val_eqb (t : cty) (a b : val) : bool :=
  match t, a, b with
  | Base _, VBase x, VBase y => base_eqb x y
  | Seq unordered_set t, VSeq l, VSeq m =>
      (length l =? length m)%nat && forallb (λ x, existsb (val_eqb t x) m) l
  | Seq _ t, VSeq l, VSeq m => list_eqb (val_eqb t) l m
  | Dict unordered_map t, VDict l, VDict m =>
      (length l =? length m)%nat &&
      forallb (λ x, existsb (λ y, bool_decide (fst x = fst y) && val_eqb t (snd x) (snd y)) m) l
  | Dict map_ t, VDict l, VDict m =>
      list_eqb (λ x y, bool_decide (fst x = fst y) && val_eqb t (snd x) (snd y)) l m
  | _, _, _ => false
  end.

(** The insertions of the conversion loops. *)
Definition add_item (k : seq_kind) (t : cty) (l : list val) (x : val) : list val :=
  match k with
  | vector | list_ => l ++ [x]
  | set => set_insert x l
  | unordered_set => if existsb (val_eqb t x) l then l else l ++ [x]
  end.

(** [std::map::insert(make_pair(key, x))]. *)
Fixpoint dict_insert (key : text) (x : val) (l : list (text * val)) : list (text * val) :=
  match l with
  | [] => [(key, x)]
  | (k, v) :: l' =>
      if bool_decide (k = key) then l
      else if string_le k key then (k, v) :: dict_insert key x l' else (key, x) :: l
  end.
Definition add_pair (k : dict_kind) (l : list (text * val)) (key : text) (x : val)
    : list (text * val) :=
  match k with
  | map_ => dict_insert key x l
  | unordered_map => if decide (key ∈ l.*1) then l else l ++ [(key, x)]
  end.

(** The loops: [None] when a conversion throws. *)
Fixpoint convert_items (f : text → option val) (add : list val → val → list val)
    (vec : list val) (l : list node) : option (list val) :=
  match l with
  | [] => Some vec
  | n :: l => match f (emit n) with
              | Some x => convert_items f add (add vec x) l
              | None => None
              end
  end.
Fixpoint convert_pairs (f : text → option val)
    (add : list (text * val) → text → val → list (text * val))
    (vec : list (text * val)) (l : list (text * node)) : option (list (text * val)) :=
  match l with
  | [] => Some vec
  | (k, n) :: l => match f (emit n) with
                   | Some x => convert_pairs f add (add vec k x) l
                   | None => None
                   end
  end.

(** [LexicalCast<std::string, T>]. *)
Fixpoint from_string (t : cty) (v : text) : option val :=
  match t with
  | Base b => VBase <$> cast b v
  | Seq k t =>
      match Load v with
      | Some n => VSeq <$> convert_items (from_string t) (add_item k t) [] (seq_items n)
      | None => None
      end
  | Dict k t =>
      match Load v with
      | Some n =>
          match dict_items n with
          | Some l => VDict <$> convert_pairs (from_string t) (add_pair k) [] l
          | None => None
          end
      | None => None
      end
  end.

(** The nodes of the elements; [YAML::Load] of each. *)
Fixpoint load_all (f : val → option text) (l : list val) : option (list node) :=
  match l with
  | [] => Some []
  | x :: l =>
      match f x with
      | None => None
      | Some s => match Load s, load_all f l with
                  | Some n, Some ns => Some (n :: ns)
                  | _, _ => None
                  end
      end
  end.

(** [LexicalCast<T, std::string>]; a node nothing is pushed to is null. *)
Definition seq_node (l : list node) : node := match l with [] => Null | _ => Sequence l end.
Definition map_node (l : list (text * node)) : node :=
  match l with [] => Null | _ => Map ((λ '(k, n), (Scalar k, n)) <$> l) end.

Fixpoint to_string (t : cty) (v : val) : option text :=
  match t, v with
  | Base _, VBase x => show x
  | Seq k t, VSeq l =>
      let l := match k with unordered_set => hash_order l | _ => l end in
      match load_all (to_string t) l with
      | Some ns => Some (emit (seq_node ns))
      | None => None
      end
  | Dict k t, VDict l =>
      let l := match k with unordered_map => hash_order_pairs l | map_ => l end in
      match load_all (to_string t) l.*2 with
      | Some ns => Some (emit (map_node (zip l.*1 ns)))
      | None => None
      end
  | _, _ => None
  end.

(** * ConfigVar *)

Record ConfigVar := mkVar {
  cv_name : text;
  cv_description : text;
  cv_type : cty;
  cv_val : val;
  (* the std::map of the listeners, by key *)
  cv_callbacks : list (Z * nat);
}.

(** The constructor: the name in lower case. *)
Definition ConfigVar_new (name : text) (t : cty) (default_value : val) (description : text)
    : ConfigVar := mkVar (tolower <$> name) description t default_value [].

Definition with_val (v : val) (c : ConfigVar) : ConfigVar :=
  mkVar (cv_name c) (cv_description c) (cv_type c) v (cv_callbacks c).
Definition with_callbacks (l : list (Z * nat)) (c : ConfigVar) : ConfigVar :=
  mkVar (cv_name c) (cv_description c) (cv_type c) (cv_val c) l.

(** A call of a listener, with the old and the new value. *)
Definition notification : Type := nat * val * val.

(** What a listener does is up to the user; here, whether it throws. *)
Context (throws : nat → val → val → bool).

Fixpoint notify (old new : val) (l : list (Z * nat)) (log : list notification)
    : bool * list notification :=
  match l with
  | [] => (true, log)
  | (_, cb) :: l =>
      let log := log ++ [(cb, old, new)] in
      if throws cb old new then (false, log) else notify old new l log
  end.

(** [setValue]: whether it returns, the variable, and the calls made. *)
Definition setValue (v : val) (c : ConfigVar) (log : list notification)
    : bool * ConfigVar * list notification :=
  if val_eqb (cv_type c) v (cv_val c) then (true, c, log)
  else
    let '(ok, log) := notify (cv_val c) v (cv_callbacks c) log in
    if ok then (true, with_val v c, log) else (false, c, log).

(** [toString]: an exception gives the empty string. *)
Definition toString (c : ConfigVar) : text := default [] (to_string (cv_type c) (cv_val c)).

(** [fromString]: exceptions of the conversion and of the listeners are
    caught, and the result is [false] on every path. *)
Definition fromString (s : text) (c : ConfigVar) (log : list notification)
    : bool * ConfigVar * list notification :=
  match from_string (cv_type c) s with
  | Some v => let '(_, c, log) := setValue v c log in (false, c, log)
  | None => (false, c, log)
  end.

Definition getValue (c : ConfigVar) : val := cv_val c.
Definition getTypeName (c : ConfigVar) : cty := cv_type c.

(** [m_callbacks[key] = cb], in the order of the keys. *)
Fixpoint callbacks_set (key : Z) (cb : nat) (l : list (Z * nat)) : list (Z * nat) :=
  match l with
  | [] => [(key, cb)]
  | (k, c) :: l' =>
      if k <? key then (k, c) :: callbacks_set key cb l'
      else if key <? k then (key, cb) :: l else (k, cb) :: l'
  end.

(** The counter of keys is one for all variables of a type. *)
Definition addListener (cb : nat) (s_fun_id : Z) (c : ConfigVar) : Z * Z * ConfigVar :=
  let id := u64 (s_fun_id + 1) in
  (id, id, with_callbacks (callbacks_set id cb (cv_callbacks c)) c).
Definition delListener (key : Z) (c : ConfigVar) : ConfigVar :=
  with_callbacks (filter (λ x, fst x ≠ key) (cv_callbacks c)) c.
Definition clearListener (c : ConfigVar) : ConfigVar := with_callbacks [] c.
Definition getListener (key : Z) (c : ConfigVar) : option nat :=
  snd <$> head (filter (λ x, fst x = key) (cv_callbacks c)).

(** * Config *)

Abbreviation ConfigVarMap := (gmap text ConfigVar).

(** [Lookup(name, default_value, description)]: the variable, [None] for
    null. *)
Definition Lookup (name : text) (t : cty) (default_value : val) (description : text)
    (m : ConfigVarMap) : outcome (option ConfigVar * ConfigVarMap) :=
  match m !! name with
  | Some v => if decide (cv_type v = t) then Ret (Some v, m) else Ret (None, m)
  | None =>
      if valid_name name then
        let v := ConfigVar_new name t default_value description in
        Ret (Some v, <[name := v]> m)
      else Throw std_invalid_argument
  end.

(** [Lookup<T>(name)]. *)
Definition Lookup_name (name : text) (t : cty) (m : ConfigVarMap) : option ConfigVar :=
  match m !! name with
  | Some v => if decide (cv_type v = t) then Some v else None
  | None => None
  end.

Definition LookupBase (name : text) (m : ConfigVarMap) : option ConfigVar := m !! name.

(** [ListAllMember]: every node with its path, parents first. *)
Definition member_path (prefix : text) (k : node) : text :=
  match prefix with [] => scalar_of k | _ => prefix ++ str "." ++ scalar_of k end.

Fixpoint ListAllMember (prefix : text) (n : node) : list (text * node) :=
  (prefix, n) ::
  match n with
  | Map l =>
      (fix members (l : list (node * node)) : list (text * node) :=
         match l with
         | [] => []
         | (k, v) :: l => ListAllMember (member_path prefix k) v ++ members l
         end) l
  | _ => []
  end.

(** One entry of the list in [LoadFromYaml]. *)
Definition load_entry (st : ConfigVarMap * list notification) (e : text * node)
    : ConfigVarMap * list notification :=
  let '(m, log) := st in
  match fst e with
  | [] => st
  | key =>
      let key := tolower <$> key in
      match LookupBase key m with
      | Some var =>
          let s := if IsScalar (snd e) then scalar_of (snd e) else emit (snd e) in
          let '(_, var, log) := fromString s var log in
          (<[key := var]> m, log)
      | None => st
      end
  end.

Definition LoadFromYaml (root : node) (m : ConfigVarMap) (log : list notification)
    : ConfigVarMap * list notification :=
  foldl load_entry (m, log) (ListAllMember [] root).

(** [Visit]: the variables in the order of their names. *)
Definition Visit (m : ConfigVarMap) : list ConfigVar :=
  snd <$> foldr (λ '(k, v), multimap_insert string_le k v) [] (map_to_list m).

End config.
