(* ===== verification/ConfigTheorems.v ===== *)
(** Correctness of the configuration registry. *)

From S2P Require Import Prelude Http CString Http11Run Address Config.
From Stdlib Require Import Ascii Sorted.

#[local] Open Scope string_scope.
#[local] Open Scope list_scope.
#[local] Open Scope Z_scope.

(** Induction on trees, through the values of maps. *)
Lemma node_map_ind (P : node → Prop) :
  P Null → (∀ s, P (Scalar s)) → (∀ l, P (Sequence l)) →
  (∀ l, Forall (λ x, P (snd x)) l → P (Map l)) → ∀ n, P n.
Proof.
  intros Hnull Hscalar Hseq Hmap. fix IH 1. intros [|s|l|l]; [done|done|done|].
  apply Hmap. induction l as [|[k v] l IHl]; constructor; [apply IH|exact IHl].
Qed.

Section config.
Context {base B : Type} `{EqDecision base} `{L : Libs base B}.
Context (throws : nat → val B → val B → bool).

Abbreviation val := (val B).
Abbreviation cty := (cty base).

(** * Types *)

(** The type of a basic value. *)
Context (base_type : B → base).

Fixpoint has_cty (t : cty) (v : val) : Prop :=
  match t, v with
  | Base b, VBase x => base_type x = b
  | Seq _ t, VSeq l => Forall (has_cty t) l
  | Dict _ t, VDict l => Forall (λ x, has_cty t (snd x)) l
  | _, _ => False
  end.

(** [lexical_cast<T>] returns a [T]. *)
Hypothesis cast_typed : ∀ b s x, cast b s = Some x → base_type x = b.

Lemma set_insert_typed t x l :
  has_cty t x → Forall (has_cty t) l → Forall (has_cty t) (set_insert x l).
Proof.
  intros Hx. induction 1 as [|y l Hy Hl IH]; cbn [set_insert]; [by repeat constructor|].
  destruct (less y x); [by constructor|]. destruct (less x y); by repeat constructor.
Qed.

Lemma add_item_typed k t l x :
  has_cty t x → Forall (has_cty t) l → Forall (has_cty t) (add_item k t l x).
Proof.
  intros Hx Hl. destruct k; cbn [add_item].
  - apply Forall_app. split; [done|by repeat constructor].
  - apply Forall_app. split; [done|by repeat constructor].
  - by apply set_insert_typed.
  - destruct (existsb _ _); [done|]. apply Forall_app. split; [done|by repeat constructor].
Qed.

Lemma dict_insert_typed t key x l :
  has_cty t x → Forall (λ y, has_cty t (snd y)) l →
  Forall (λ y, has_cty t (snd y)) (dict_insert key x l).
Proof.
  intros Hx. induction 1 as [|[k v] l Hy Hl IH]; cbn [dict_insert]; [by repeat constructor|].
  destruct (bool_decide _); [by constructor|]. destruct (string_le k key); by repeat constructor.
Qed.

Lemma add_pair_typed k t l key x :
  has_cty t x → Forall (λ y, has_cty t (snd y)) l →
  Forall (λ y, has_cty t (snd y)) (add_pair k l key x).
Proof.
  intros Hx Hl. destruct k; cbn [add_pair].
  - by apply dict_insert_typed.
  - destruct (decide _); [done|]. apply Forall_app. split; [done|by repeat constructor].
Qed.

Lemma convert_items_typed t f add vec l r :
  (∀ s x, f s = Some x → has_cty t x) →
  (∀ v x, has_cty t x → Forall (has_cty t) v → Forall (has_cty t) (add v x)) →
  Forall (has_cty t) vec → convert_items f add vec l = Some r → Forall (has_cty t) r.
Proof.
  intros Hf Ha. revert vec. induction l as [|n l IH]; intros vec Hv; cbn [convert_items].
  { by intros [= <-]. }
  destruct (f (emit n)) as [x|] eqn:E; [|done]. apply IH. apply Ha; [by eapply Hf|done].
Qed.

Lemma convert_pairs_typed t f add vec l r :
  (∀ s x, f s = Some x → has_cty t x) →
  (∀ v k x, has_cty t x → Forall (λ y, has_cty t (snd y)) v →
     Forall (λ y, has_cty t (snd y)) (add v k x)) →
  Forall (λ y, has_cty t (snd y)) vec → convert_pairs f add vec l = Some r →
  Forall (λ y, has_cty t (snd y)) r.
Proof.
  intros Hf Ha. revert vec. induction l as [|[k n] l IH]; intros vec Hv; cbn [convert_pairs].
  { by intros [= <-]. }
  destruct (f (emit n)) as [x|] eqn:E; [|done]. apply IH. apply Ha; [by eapply Hf|done].
Qed.

(** A conversion gives a value of its type. *)
Lemma from_string_typed t s v : from_string t s = Some v → has_cty t v.
Proof.
  revert s v. induction t as [b|k t IH|k t IH]; intros s v; cbn [from_string].
  - destruct (cast b s) as [x|] eqn:E; [|done]. intros [= <-]. by eapply cast_typed.
  - destruct (Load s) as [n|]; [|done].
    destruct (convert_items _ _ _ _) as [r|] eqn:E; [|done]. intros [= <-]. cbn [has_cty].
    eapply convert_items_typed; [| | |exact E]; [apply IH|by apply add_item_typed|done].
  - destruct (Load s) as [n|]; [|done]. destruct (dict_items n) as [l|]; [|done].
    destruct (convert_pairs _ _ _ _) as [r|] eqn:E; [|done]. intros [= <-]. cbn [has_cty].
    eapply convert_pairs_typed; [| | |exact E]; [apply IH|by apply add_pair_typed|done].
Qed.

(** ** Names *)

Lemma valid_lower name : valid_name name = true → tolower <$> name = name.
Proof.
  assert (∀ c, implb (bool_decide (c ∈ VALID_CHAR)) (bool_decide (tolower c = c)) = true) as Hc
    by (apply ascii_check; by vm_compute).
  induction name as [|c name IH]; [done|]. cbn [valid_name forallb fmap list_fmap].
  intros [H1 H2]%andb_true_iff. f_equal; [|by apply IH]. specialize (Hc c). rewrite H1 in Hc.
  by apply bool_decide_eq_true in Hc.
Qed.

(** * The registry *)

Record var_ok (name : text) (c : ConfigVar (base := base) (B := B)) : Prop := {
  vk_name : cv_name c = name;
  vk_valid : valid_name name = true;
  vk_typed : has_cty (cv_type c) (cv_val c);
}.

Definition registry_ok (m : gmap text (ConfigVar (base := base) (B := B))) : Prop :=
  map_Forall var_ok m.

(** What [setValue] and [fromString] keep. *)
Lemma setValue_keeps v c log ok c' log' :
  setValue throws v c log = (ok, c', log') →
  cv_name c' = cv_name c ∧ cv_type c' = cv_type c ∧ (cv_val c' = cv_val c ∨ cv_val c' = v).
Proof.
  unfold setValue. destruct (val_eqb _ _ _); [intros [= <- <- <-]; auto|].
  destruct (notify _ _ _ _ _) as [[] ?]; intros [= <- <- <-]; auto.
Qed.

Lemma fromString_keeps s c log r c' log' :
  fromString throws s c log = (r, c', log') →
  r = false ∧ cv_name c' = cv_name c ∧ cv_type c' = cv_type c ∧
  (cv_val c' = cv_val c ∨ from_string (cv_type c) s = Some (cv_val c')).
Proof.
  unfold fromString. destruct (from_string (cv_type c) s) as [v|]; [|intros [= <- <- <-]; auto].
  destruct (setValue throws v c log) as [[ok c1] log1] eqn:E. intros [= <- <- <-].
  apply setValue_keeps in E as (? & ? & [?|?]); split_and!; auto. right. congruence.
Qed.

Lemma fromString_ok name s c log r c' log' :
  var_ok name c → fromString throws s c log = (r, c', log') → var_ok name c'.
Proof.
  intros [Hn Hv Ht] (_ & E1 & E2 & [E3|E3])%fromString_keeps.
  - split; [congruence|done|]. by rewrite E2, E3.
  - split; [congruence|done|]. rewrite E2. by eapply from_string_typed.
Qed.

Lemma load_entry_ok m log e m' log' :
  registry_ok m → load_entry throws (m, log) e = (m', log') → registry_ok m'.
Proof.
  intros Hm. unfold load_entry. destruct (fst e) as [|c k]; [by intros [= <- _]|].
  unfold LookupBase. destruct (m !! _) as [v|] eqn:E; [|by intros [= <- _]].
  destruct (fromString throws _ v log) as [[r v'] log1] eqn:Ef. intros [= <- _].
  apply map_Forall_insert_2; [|done]. eapply fromString_ok; [|exact Ef]. by apply Hm.
Qed.

Lemma LoadFromYaml_ok root m log m' log' :
  registry_ok m → LoadFromYaml throws root m log = (m', log') → registry_ok m'.
Proof.
  unfold LoadFromYaml. generalize (ListAllMember [] root) as l. intros l. revert m log.
  induction l as [|e l IH]; intros m log Hm; cbn [foldl]; [by intros [= <- _]|].
  destruct (load_entry throws (m, log) e) as [m1 log1] eqn:E. apply IH.
  by eapply load_entry_ok.
Qed.

(** * Runs *)

(** The registry, the calls of listeners, and the counters of keys. *)
Record config := mkConfig {
  reg : gmap text (ConfigVar (base := base) (B := B));
  calls : list (notification (B := B));
  fun_ids : cty → Z;
}.

Inductive config_op :=
| DoLookup (name : text) (t : cty) (v : val) (description : text)
| DoSet (name : text) (v : val)
| DoFromString (name s : text)
| DoListen (name : text) (cb : nat)
| DoUnlisten (name : text) (key : Z)
| DoClear (name : text)
| DoLoad (root : node).

Definition on_var (name : text) (s : config)
    (f : ConfigVar → config) : config :=
  match reg s !! name with Some c => f c | None => s end.

Definition exec (s : config) (o : config_op) : config :=
  match o with
  | DoLookup name t v d =>
      match Lookup name t v d (reg s) with
      | Ret (_, m) => mkConfig m (calls s) (fun_ids s)
      | _ => s
      end
  | DoSet name v =>
      on_var name s (λ c, let '(_, c, log) := setValue throws v c (calls s) in
                          mkConfig (<[name := c]> (reg s)) log (fun_ids s))
  | DoFromString name v =>
      on_var name s (λ c, let '(_, c, log) := fromString throws v c (calls s) in
                          mkConfig (<[name := c]> (reg s)) log (fun_ids s))
  | DoListen name cb =>
      on_var name s (λ c, let '(_, id, c') := addListener cb (fun_ids s (cv_type c)) c in
                          mkConfig (<[name := c']> (reg s)) (calls s)
                            (λ t, if decide (t = cv_type c) then id else fun_ids s t))
  | DoUnlisten name key =>
      on_var name s (λ c, mkConfig (<[name := delListener key c]> (reg s)) (calls s) (fun_ids s))
  | DoClear name =>
      on_var name s (λ c, mkConfig (<[name := clearListener c]> (reg s)) (calls s) (fun_ids s))
  | DoLoad root =>
      let '(m, log) := LoadFromYaml throws root (reg s) (calls s) in
      mkConfig m log (fun_ids s)
  end.

(** What the C++ compiler checks: a default has the type asked for, and a
    value is set through a pointer to a variable of its type. *)
Definition op_typed (s : config) (o : config_op) : Prop :=
  match o with
  | DoLookup _ t v _ => has_cty t v
  | DoSet name v => ∀ c, reg s !! name = Some c → has_cty (cv_type c) v
  | _ => True
  end.

Inductive reachable : config → Prop :=
| reach_start : reachable (mkConfig ∅ [] (λ _, 0))
| reach_step s o : reachable s → op_typed s o → reachable (exec s o).

Lemma Lookup_ok name t v d m r m' :
  registry_ok m → has_cty t v → Lookup name t v d m = Ret (r, m') → registry_ok m'.
Proof.
  intros Hm Hv. unfold Lookup. destruct (m !! name) as [c|] eqn:E.
  { destruct (decide _); by intros [= _ <-]. }
  destruct (valid_name name) eqn:Hn; [|done]. intros [= _ <-].
  apply map_Forall_insert_2; [|done]. split; [|done|done]. by apply valid_lower.
Qed.

Lemma config_exec_ok s o : registry_ok (reg s) → op_typed s o → registry_ok (reg (exec s o)).
Proof.
  intros Hm Ho. destruct o; cbn [exec op_typed] in *; unfold on_var;
    try (destruct (reg s !! name) as [c|] eqn:E; [|done]; pose proof (Hm _ _ E) as [Hn Hv Ht]).
  - destruct (Lookup _ _ _ _ _) as [[r m]| |] eqn:E; [|done|done]. by eapply Lookup_ok.
  - destruct (setValue throws v c (calls s)) as [[ok c'] log] eqn:Es. cbn [reg].
    apply setValue_keeps in Es as (E1 & E2 & E3). apply map_Forall_insert_2; [|done].
    split; [congruence|done|]. rewrite E2. destruct E3 as [-> | ->]; [done|by apply Ho].
  - destruct (fromString throws s0 c (calls s)) as [[r c'] log] eqn:Es. cbn [reg].
    apply map_Forall_insert_2; [|done]. eapply fromString_ok; [|exact Es]. by split.
  - cbn [reg addListener]. apply map_Forall_insert_2; [by split|done].
  - cbn [reg]. apply map_Forall_insert_2; [by split|done].
  - cbn [reg]. apply map_Forall_insert_2; [by split|done].
  - destruct (LoadFromYaml throws root (reg s) (calls s)) as [m log] eqn:El. cbn [reg].
    by eapply LoadFromYaml_ok.
Qed.

Lemma reachable_ok s : reachable s → registry_ok (reg s).
Proof. induction 1 as [|s o _ IH Ho]; [apply map_Forall_empty|by apply config_exec_ok]. Qed.

(** * Loading *)

(** [n] is reached from the root by the keys. *)
Inductive at_path : node → list text → node → Prop :=
| path_here n : at_path n [] n
| path_key l k v ks n :
    (k, v) ∈ l → at_path v ks n → at_path (Map l) (scalar_of k :: ks) n.

Definition path_text (prefix : text) (ks : list text) : text :=
  foldl (λ p k, member_path p (Scalar k)) prefix ks.

Lemma members_paths (l : list (node * node)) prefix p n :
  (p, n) ∈ (fix members (l : list (node * node)) : list (text * node) :=
              match l with
              | [] => []
              | (k, v) :: l => ListAllMember (member_path prefix k) v ++ members l
              end) l ↔
  ∃ k v, (k, v) ∈ l ∧ (p, n) ∈ ListAllMember (member_path prefix k) v.
Proof.
  induction l as [|[k v] l IH].
  { split; [by intros ?%not_elem_of_nil|by intros (k & v & ?%not_elem_of_nil & _)]. }
  rewrite elem_of_app, IH. split.
  - intros [Hin|(k' & v' & Hl & Hin)]; [by exists k, v; split; [left|]|].
    exists k', v'. split; [by right|done].
  - intros (k' & v' & [[= -> ->]|Hl]%elem_of_cons & Hin); [by left|right; by exists k', v'].
Qed.

Lemma ListAllMember_paths prefix root p n :
  (p, n) ∈ ListAllMember prefix root ↔ ∃ ks, at_path root ks n ∧ p = path_text prefix ks.
Proof.
  split.
  - revert prefix p n. induction root as [|s|l|l IH] using node_map_ind; intros prefix p n.
    1-3: intros [[= -> ->]|Hin]%elem_of_cons; [by exists []; split; [constructor|]|by inversion Hin].
    cbn [ListAllMember]. intros [[= -> ->]|Hin]%elem_of_cons; [by exists []; split; [constructor|]|].
    apply members_paths in Hin as (k & v & Hl & Hin).
    apply (proj1 (Forall_forall _ _) IH _ Hl) in Hin as (ks & Hp & ->).
    exists (scalar_of k :: ks). split; [by eapply path_key|done].
  - intros (ks & Hp & ->). revert prefix.
    induction Hp as [n|l k v ks n Hin Hp IH]; intros prefix.
    + destruct n; by left.
    + cbn [ListAllMember]. right. apply members_paths. exists k, v. split; [done|].
      cbn [path_text foldl]. apply IH.
Qed.

(** The text a node is converted from, and the nodes set for a name. *)
Definition node_text (n : node) : text := if IsScalar n then scalar_of n else emit n.
Definition names (name : text) (e : text * node) : Prop :=
  fst e ≠ [] ∧ tolower <$> fst e = name.
#[global] Instance names_dec name e : Decision (names name e).
Proof. unfold names. apply _. Defined.
Definition settings (name : text) (root : node) : list node :=
  snd <$> filter (names name) (ListAllMember [] root).

(** A variable after a text is given to it, whatever was logged before. *)
Definition apply_text (c : ConfigVar (base := base) (B := B)) (s : text) : ConfigVar :=
  snd (fst (fromString throws s c [])).

Lemma notify_log old new l log log' :
  fst (notify throws old new l log) = fst (notify throws old new l log').
Proof.
  revert log log'. induction l as [|[k cb] l IH]; intros log log'; cbn [notify]; [done|].
  by destruct (throws cb old new).
Qed.

Lemma fromString_log s c log : snd (fst (fromString throws s c log)) = apply_text c s.
Proof.
  unfold apply_text, fromString. destruct (from_string _ _) as [v|]; [|done].
  unfold setValue. destruct (val_eqb _ _ _); [done|].
  pose proof (notify_log (cv_val c) v (cv_callbacks c) log []) as E.
  destruct (notify throws _ _ _ log) as [o1 l1], (notify throws _ _ _ []) as [o2 l2].
  cbn [fst] in E. subst o2. by destruct o1.
Qed.

Lemma load_entry_lookup m log e name :
  fst (load_entry throws (m, log) e) !! name =
    if decide (names name e) then (λ c, apply_text c (node_text (snd e))) <$> m !! name
    else m !! name.
Proof.
  unfold load_entry, names. destruct e as [[|x k] n]; cbn [fst snd].
  { by rewrite decide_False by (by intros [? _]). }
  unfold LookupBase. set (key := tolower <$> x :: k).
  destruct (m !! key) as [c|] eqn:E.
  - fold (node_text n). destruct (fromString throws (node_text n) c log) as [[r c'] log'] eqn:Ef.
    pose proof (fromString_log (node_text n) c log) as Ec. rewrite Ef in Ec. cbn [fst snd] in *.
    subst c'. destruct (decide (x :: k ≠ [] ∧ key = name)) as [[_ <-]|Hne].
    + by rewrite lookup_insert_eq, E.
    + by rewrite lookup_insert_ne by (intros ->; by apply Hne).
  - cbn [fst]. destruct (decide (x :: k ≠ [] ∧ key = name)) as [[_ <-]|Hne]; [by rewrite E|done].
Qed.

Lemma load_lookup root m log name :
  fst (LoadFromYaml throws root m log) !! name =
    (λ c, foldl (λ c n, apply_text c (node_text n)) c (settings name root)) <$> m !! name.
Proof.
  unfold LoadFromYaml, settings. generalize (ListAllMember [] root) as l. intros l.
  revert m log. induction l as [|e l IH]; intros m log; cbn [foldl fmap list_fmap].
  { rewrite filter_nil. cbn. by destruct (m !! name). }
  pose proof (load_entry_lookup m log e name) as E.
  destruct (load_entry throws (m, log) e) as [m1 log1]. cbn [fst] in E. rewrite IH, E.
  destruct (decide (names name e)) as [Hn|Hn].
  - rewrite filter_cons_True by done. cbn [fmap list_fmap foldl]. by destruct (m !! name).
  - by rewrite filter_cons_False by done.
Qed.

(** Listeners that do not throw. *)
Lemma notify_quiet old new l log :
  (∀ cb o n, throws cb o n = false) →
  notify throws old new l log = (true, log ++ ((λ x, (snd x, old, new)) <$> l)).
Proof.
  intros Hq. revert log. induction l as [|[k cb] l IH]; intros log; cbn [notify fmap list_fmap].
  - by rewrite app_nil_r.
  - rewrite Hq, IH. by rewrite <- app_assoc.
Qed.

(** * Printing and reading values *)

(** A type without unordered containers. *)
Fixpoint ordered (t : cty) : bool :=
  match t with
  | Base _ => true
  | Seq k t => bool_decide (k ≠ unordered_set) && ordered t
  | Dict k t => bool_decide (k ≠ unordered_map) && ordered t
  end.

Definition key_less (x y : text * val) : Prop :=
  string_le (fst x) (fst y) = true ∧ fst x ≠ fst y.

(** The libraries print and read the parts of the value back: a basic value
    through its text, which YAML takes for a scalar, and each container
    through its tree.  The elements of a set and the keys of a map are in
    order, as in the C++ containers. *)
Fixpoint prints (t : cty) (v : val) : Prop :=
  match t, v with
  | Base b, VBase x =>
      ∃ s n, show x = Some s ∧ cast b s = Some x ∧ Load s = Some n ∧ emit n = s
  | Seq k t, VSeq l =>
      Forall (prints t) l ∧ (k = set → StronglySorted (λ x y, less x y = true) l) ∧
      ∀ ns, load_all (to_string t) l = Some ns → Load (emit (seq_node ns)) = Some (seq_node ns)
  | Dict k t, VDict l =>
      Forall (λ x, prints t (snd x)) l ∧ StronglySorted key_less l ∧
      ∀ ns, load_all (to_string t) l.*2 = Some ns →
        Load (emit (map_node (zip l.*1 ns))) = Some (map_node (zip l.*1 ns))
  | _, _ => False
  end.

Lemma convert_items_fold (f : text → option val) add vec l ns :
  Forall2 (λ x n, f (emit n) = Some x) l ns → convert_items f add vec ns = Some (foldl add vec l).
Proof.
  intros Hl. revert vec. induction Hl as [|x n l ns Hx _ IH]; intros vec; cbn; [done|].
  by rewrite Hx, IH.
Qed.

Lemma convert_pairs_fold (f : text → option val) add vec (l : list (text * val)) ns :
  Forall2 (λ x n, f (emit n) = Some x) l.*2 ns →
  convert_pairs f add vec (zip l.*1 ns) = Some (foldl (λ v x, add v (fst x) (snd x)) vec l).
Proof.
  revert vec ns. induction l as [|[k x] l IH]; intros vec ns Hl; inversion Hl; subst; [done|].
  cbn [fmap list_fmap fst snd zip zip_with convert_pairs foldl] in *.
  match goal with H : f _ = Some _ |- _ => rewrite H end. by apply IH.
Qed.

Lemma set_insert_last x vec :
  Forall (λ y, less y x = true) vec → set_insert x vec = vec ++ [x].
Proof.
  induction 1 as [|y vec Hy _ IH]; cbn [set_insert app]; [done|]. by rewrite Hy, IH.
Qed.

Lemma dict_insert_last k x vec :
  Forall (λ y, key_less y (k, x)) vec → dict_insert k x vec = vec ++ [(k, x)].
Proof.
  induction 1 as [|[k' y] vec [Hy Hne] _ IH]; cbn [dict_insert app]; [done|]. cbn [fst] in *.
  rewrite bool_decide_false by done. by rewrite Hy, IH.
Qed.

Lemma StronglySorted_True {X} (l : list X) : StronglySorted (λ _ _, True) l.
Proof. induction l; constructor; [done|]. by apply Forall_true. Qed.

(** Appending a sorted list, element by element. *)
Lemma fold_sorted {X} (R : X → X → Prop) (add : list X → X → list X) vec l :
  (∀ v x, Forall (λ y, R y x) v → add v x = v ++ [x]) →
  StronglySorted R (vec ++ l) → foldl add vec l = vec ++ l.
Proof.
  intros Ha. revert vec. induction l as [|x l IH]; intros vec Hs; cbn [foldl].
  { by rewrite app_nil_r. }
  rewrite Ha.
  - rewrite IH; rewrite <- app_assoc; done.
  - clear -Hs. induction vec as [|y vec IH]; [done|]. inversion Hs as [|? ? Hs' Hy]; subst.
    constructor; [|by apply IH]. rewrite Forall_forall in Hy. apply Hy. set_solver.
Qed.

(** The nodes of a list of values that print. *)
Lemma load_all_prints (f : val → option text) (g : text → option val) l :
  Forall (λ x, ∃ s n, f x = Some s ∧ g s = Some x ∧ Load s = Some n ∧ emit n = s) l →
  ∃ ns, load_all f l = Some ns ∧ Forall2 (λ x n, g (emit n) = Some x) l ns.
Proof.
  induction 1 as [|x l (s & n & Hf & Hg & Hl & He) _ (ns & Hns & Hall)]; cbn [load_all].
  { by exists []. }
  rewrite Hf, Hl, Hns. exists (n :: ns). split; [done|]. constructor; [by rewrite He|done].
Qed.

Lemma seq_items_node ns : seq_items (seq_node ns) = ns.
Proof. by destruct ns. Qed.

Lemma dict_items_node (l : list (text * node)) : dict_items (map_node l) = Some l.
Proof.
  destruct l as [|x l]; [done|]. unfold map_node, dict_items. f_equal.
  rewrite <- list_fmap_compose. rewrite <- (list_fmap_id (x :: l)) at 2.
  apply list_fmap_ext. by intros _ [k n] _.
Qed.

Lemma value_roundtrip t v :
  ordered t = true → prints t v →
  ∃ s n, to_string t v = Some s ∧ from_string t s = Some v ∧ Load s = Some n ∧ emit n = s.
Proof.
  revert v. induction t as [b|k t IH|k t IH]; intros [x|l|l] Ho; cbn [prints]; try done.
  - intros (s & n & Hs & Hc & Hl & He). exists s, n. cbn [to_string from_string]. by rewrite Hc.
  - intros (Hall & Hsort & Hn). cbn [ordered] in Ho. apply andb_true_iff in Ho as [Hk Ho].
    apply bool_decide_eq_true in Hk.
    destruct (load_all_prints (to_string t) (from_string t) l) as (ns & Hns & H2).
    { eapply Forall_impl; [exact Hall|]. intros x Hx. by apply IH. }
    specialize (Hn ns Hns). exists (emit (seq_node ns)), (seq_node ns).
    cbn [to_string from_string]. rewrite Hn, seq_items_node, (convert_items_fold _ _ _ _ _ H2).
    split; [destruct k; try done; by rewrite Hns|]. split; [|done]. cbn. do 2 f_equal.
    destruct k; [| | |done].
    + by apply (fold_sorted (λ _ _, True) _ []); [|apply StronglySorted_True].
    + by apply (fold_sorted (λ _ _, True) _ []); [|apply StronglySorted_True].
    + apply (fold_sorted (λ x y, less x y = true) _ []); [|by apply Hsort].
      intros v' x. apply set_insert_last.
  - intros (Hall & Hsort & Hn). cbn [ordered] in Ho. apply andb_true_iff in Ho as [Hk Ho].
    apply bool_decide_eq_true in Hk. destruct k; [|done].
    destruct (load_all_prints (to_string t) (from_string t) l.*2) as (ns & Hns & H2).
    { apply Forall_fmap. eapply Forall_impl; [exact Hall|]. intros x Hx. by apply IH. }
    specialize (Hn ns Hns). exists (emit (map_node (zip l.*1 ns))), (map_node (zip l.*1 ns)).
    cbn [to_string from_string]. rewrite Hn, dict_items_node, Hns, (convert_pairs_fold _ _ _ _ _ H2).
    split; [done|]. split; [|done]. cbn. do 2 f_equal.
    apply (fold_sorted key_less _ []); [|done]. intros v' [k x]. apply dict_insert_last.
Qed.

(** * Properties *)

(** C17. Configuration values keep their types: in every state reached by
    lookups, assignments, conversions from text, listeners and loaded files,
    each variable is registered under its own name, the name is valid, and its
    value is of the type the variable was created with, whatever the texts
    were; so a typed [Lookup] gives null or a variable of the type asked for,
    with a value of that type. *)
Theorem config_values_typed (s : config) :
  reachable s →
  (∀ name c, reg s !! name = Some c →
     cv_name c = name ∧ valid_name name = true ∧ has_cty (cv_type c) (getValue c)) ∧
  (∀ name t c, Lookup_name name t (reg s) = Some c → cv_type c = t ∧ has_cty t (getValue c)).
Proof.
  intros Hs%reachable_ok. split.
  - intros name c Hc. by destruct (Hs _ _ Hc).
  - intros name t c. unfold Lookup_name. destruct (reg s !! name) as [v|] eqn:E; [|done].
    destruct (decide (cv_type v = t)) as [<-|]; [|done]. intros [= <-].
    split; [done|]. by destruct (Hs _ _ E).
Qed.

(** C18. Loading a file sets exactly the variables it names: the entries are
    the nodes of the tree under their dotted paths; a variable gets, in
    document order, the texts of the entries whose path is its name in any
    case, and no other variable changes; and when no listener throws, it ends
    equal to the conversion of the last of them, if that converts. *)
Theorem load_applies_settings (root : node)
    (m : gmap text (ConfigVar (base := base) (B := B))) (log : list (notification (B := B)))
    (name : text) :
  (∀ p n, (p, n) ∈ ListAllMember [] root ↔ ∃ ks, at_path root ks n ∧ p = path_text [] ks) ∧
  fst (LoadFromYaml throws root m log) !! name =
    (λ c, foldl (λ c n, apply_text c (node_text n)) c (settings name root)) <$> m !! name ∧
  (∀ c before n v,
     (∀ cb o x, throws cb o x = false) →
     m !! name = Some c → settings name root = before ++ [n] →
     from_string (cv_type c) (node_text n) = Some v →
     ∃ c', fst (LoadFromYaml throws root m log) !! name = Some c' ∧
       (getValue c' = v ∨ val_eqb (cv_type c) v (getValue c') = true)).
Proof.
  split; [intros p n; apply ListAllMember_paths|]. split; [apply load_lookup|].
  intros c before n v Hq Hc Hs Hv. rewrite load_lookup, Hc, Hs. cbn.
  eexists. split; [reflexivity|]. rewrite foldl_app. cbn [foldl].
  set (c1 := foldl _ c before). assert (cv_type c1 = cv_type c) as Ht.
  { subst c1. clear. revert c. induction before as [|x l IH]; intros c; [done|].
    cbn [foldl]. rewrite IH. unfold apply_text.
    destruct (fromString throws (node_text x) c []) as [[r c'] log'] eqn:E.
    by apply fromString_keeps in E as (_ & _ & ? & _). }
  unfold apply_text, fromString. rewrite Ht, Hv. unfold setValue. rewrite Ht.
  destruct (val_eqb (cv_type c) v (cv_val c1)) eqn:E; [right; exact E|].
  rewrite notify_quiet by done. by left.
Qed.

(** C35. Values survive printing: for vectors, lists, sets and maps, nested in
    any way over basic values, the text of [toString], given to [fromString],
    is converted back to exactly the value, when the libraries do this for its
    parts: lexical_cast prints each basic value and reads it back from the
    text; YAML loads that text and prints it as the same text again (which
    excludes, for one, the empty string); and YAML reads back each tree of a
    container that it prints.  Sets and the keys of maps are in order, as in
    the C++ containers; unordered containers are not covered. *)
Theorem config_value_roundtrip (c : ConfigVar (base := base) (B := B)) :
  ordered (cv_type c) = true → prints (cv_type c) (getValue c) →
  from_string (cv_type c) (toString c) = Some (getValue c).
Proof.
  intros Ho Hp. destruct (value_roundtrip _ _ Ho Hp) as (s & n & Hs & Hf & _).
  unfold toString. unfold getValue in *. by rewrite Hs.
Qed.

(** Listeners: assigning an equal value calls none of them and changes
    nothing; assigning another one calls every listener once, in the order of
    their keys, with the old and the new value, and then stores it; when a
    listener throws, those before it and it have been called, and the old
    value stays. *)
Theorem set_value_notifies (v : val) (c : ConfigVar (base := base) (B := B))
    (log : list (notification (B := B))) :
  let call x := (snd x, getValue c, v) in
  if val_eqb (cv_type c) v (getValue c) then setValue throws v c log = (true, c, log)
  else
    (Forall (λ x, throws (snd x) (getValue c) v = false) (cv_callbacks c) ∧
     setValue throws v c log = (true, with_val v c, log ++ (call <$> cv_callbacks c))) ∨
    (∃ before x after, cv_callbacks c = before ++ x :: after ∧
       throws (snd x) (getValue c) v = true ∧
       setValue throws v c log = (false, c, log ++ (call <$> before ++ [x]))).
Proof.
  unfold setValue, getValue. cbn zeta. destruct (val_eqb _ _ _); [done|].
  assert (∀ l log,
    (Forall (λ x, throws (snd x) (cv_val c) v = false) l ∧
     notify throws (cv_val c) v l log = (true, log ++ ((λ x, (snd x, cv_val c, v)) <$> l))) ∨
    (∃ before x after, l = before ++ x :: after ∧ throws (snd x) (cv_val c) v = true ∧
     notify throws (cv_val c) v l log =
       (false, log ++ ((λ x, (snd x, cv_val c, v)) <$> before ++ [x])))) as H.
  { induction l as [|[k cb] l IH]; intros log'; cbn [notify].
    { left. split; [done|]. by rewrite app_nil_r. }
    destruct (throws cb (cv_val c) v) eqn:Et; [right; by exists [], (k, cb), l|].
    destruct (IH (log' ++ [(cb, cv_val c, v)])) as [[Hall ->]|(b & x & a & -> & Hx & ->)].
    - left. split; [by constructor|]. by rewrite <- app_assoc.
    - right. exists ((k, cb) :: b), x, a. split; [done|]. split; [done|].
      by rewrite <- app_assoc. }
  destruct (H (cv_callbacks c) log) as [[Hall ->]|(b & x & a & Hc & Hx & ->)];
    [by left|right; by exists b, x, a].
Qed.

End config.

(** * Witnesses *)

(** Numbers and texts, and block sequences of scalars. *)
Fixpoint lines (acc s : text) : list text :=
  match s with
  | [] => []
  | c :: s => if decide (c = ascii_of_N 10) then acc :: lines [] s else lines (acc ++ [c]) s
  end.

Definition demo_load (s : text) : option node :=
  match s with
  | c :: _ => if decide (c = "-"%char) then Some (Sequence (Scalar ∘ drop 2 <$> lines [] s))
              else Some (Scalar s)
  | [] => Some Null
  end.
Definition demo_emit (n : node) : text :=
  match n with
  | Sequence l => concat ((λ x, str "- " ++ scalar_of x ++ [ascii_of_N 10]) <$> l)
  | n => scalar_of n
  end.

#[local] Instance demo_libs : Libs bool (Z + text) := {
  Load := demo_load;
  emit := demo_emit;
  map_items m := [];
  cast b s := Some (if b then inl (atoi s) else inr s);
  show x := match x with inl z => Some (dec z) | inr s => Some s end;
  base_eqb x y := bool_decide (x = y);
  less x y := false;
  hash_order l := l;
  hash_order_pairs l := l;
}.

Definition quiet (cb : nat) (o n : val (Z + text)) : bool := false.
Definition kind_of (x : Z + text) : bool := match x with inl _ => true | inr _ => false end.

Definition demo_state : config (base := bool) (B := Z + text) :=
  exec quiet (exec quiet (mkConfig ∅ [] (λ _, 0))
    (DoLookup (str "tcp.port") (Base true) (VBase (inl 80)) (str "port")))
    (DoLoad (Map [(Scalar (str "TCP"), Map [(Scalar (str "port"), Scalar (str "8020"))])])).

Definition demo_var : ConfigVar (base := bool) (B := Z + text) :=
  mkVar (str "tcp.port") (str "port") (Base true) (VBase (inl 8020)) [].

Lemma demo_reachable : reachable quiet kind_of demo_state.
Proof. by repeat constructor. Qed.

Lemma config_values_typed_witness :
  Lookup_name (str "tcp.port") (Base true) (reg demo_state) = Some demo_var ∧
  has_cty kind_of (Base true) (getValue demo_var).
Proof.
  assert (Lookup_name (str "tcp.port") (Base true) (reg demo_state) = Some demo_var) as E
    by (by vm_compute).
  split; [exact E|].
  assert (∀ (b : bool) s x, cast b s = Some x → kind_of x = b) as Hc
    by (intros [] s x [= <-]; reflexivity).
  apply (proj2 (config_values_typed quiet kind_of Hc demo_state demo_reachable) _ _ _ E).
Defined.

Definition demo_file : node :=
  Map [(Scalar (str "TCP"), Map [(Scalar (str "port"), Scalar (str "8020"))])].
Definition demo_registry : gmap text (ConfigVar (base := bool) (B := Z + text)) :=
  {[str "tcp.port" := mkVar (str "tcp.port") (str "port") (Base true) (VBase (inl 80)) []]}.

Lemma load_applies_settings_witness :
  ∃ c', fst (LoadFromYaml quiet demo_file demo_registry []) !! str "tcp.port" = Some c' ∧
    (getValue c' = VBase (inl 8020) ∨
     val_eqb (Base true) (VBase (inl 8020)) (getValue c') = true).
Proof.
  destruct (load_applies_settings quiet demo_file demo_registry [] (str "tcp.port"))
    as (_ & _ & H).
  apply (H (mkVar (str "tcp.port") (str "port") (Base true) (VBase (inl 80)) []) []
    (Scalar (str "8020"))); [reflexivity|by vm_compute..].
Defined.

Lemma config_value_roundtrip_witness :
  let c := mkVar (str "xs") [] (Seq vector (Base true)) (VSeq [VBase (inl 1); VBase (inl 20)]) [] in
  from_string (Seq vector (Base true)) (toString c) =
    Some (VSeq [VBase (inl 1 : Z + text); VBase (inl 20)]).
Proof.
  apply (config_value_roundtrip (mkVar (str "xs") [] (Seq vector (Base true))
    (VSeq [VBase (inl 1 : Z + text); VBase (inl 20)]) [])); [reflexivity|].
  split; [|split; [done|]].
  - repeat constructor; eexists _, _; by repeat split.
  - intros ns. vm_compute. by intros [= <-].
Defined.
