(* ===== verification/Socket.v ===== *)
(** Sockets: socket.h and socket.cpp.

    The hooked calls of Hook.v work on the table of descriptors; what they and
    the other calls get from the kernel are operations of [Kernel] and of
    [NetKernel].  [recv_f], [send_f] and the like are the hooked calls once
    they return, with the bytes they moved; their [ssize_t] becomes an [int]
    in the members of [Socket]. *)

From S2P Require Import Prelude Endian Http Address FdManager Hook.
From Stdlib Require Import Ascii.

#[local] Open Scope string_scope.
#[local] Open Scope list_scope.
#[local] Open Scope Z_scope.

Definition SOCK_STREAM : Z := 1.
Definition SOCK_DGRAM : Z := 2.
Definition SO_REUSEADDR : Z := 2.
Definition SO_ERROR : Z := 4.
Definition IPPROTO_TCP : Z := 6.
Definition TCP_NODELAY : Z := 1.

(** The calls of the kernel that are not hooked, or that move data.  A result
    comes with errno where the code uses it. *)
Class NetKernel (K : Type) := {
  bind_f : Z → list Z → K → Z * K;
  listen_f : Z → Z → K → Z * K;
  (* getsockname, getpeername: the address and its length *)
  getsockname_f : Z → K → option (list Z * Z);
  getpeername_f : Z → K → option (list Z * Z);
  (* getsockopt(SO_ERROR): the value, or errno *)
  getsockopt_error : Z → K → Z + Z;
  recv_f : Z → Z → K → Z * list Z * K;
  send_f : Z → list Z → K → Z * K;
  sendto_f : Z → list Z → list Z → K → Z * K;
  recvfrom_f : Z → Z → K → Z * list Z * list Z * K;
  (* sendmsg: the buffers and the address, if any; recvmsg: the lengths of the
     buffers, the bytes stored and the address of the sender *)
  sendmsg_f : Z → list (list Z) → option (list Z) → K → Z * K;
  recvmsg_f : Z → list Z → K → Z * list Z * list Z * K;
}.

(** The number of iovecs [sendmsg] and [recvmsg] take at most. *)
Definition IOV_MAX : Z := 1024.

Record Socket := mkSocket {
  m_sock : Z;
  m_family : Z;
  m_type : Z;
  m_protocol : Z;
  m_isConnected : bool;
  m_localAddress : option Address;
  m_remoteAddress : option Address;
}.

Definition Socket_new (family type protocol : Z) : Socket :=
  mkSocket (-1) family type protocol false None None.

Section create.
Context `{Platform}.
Definition CreateTCP (address : Address) : Socket := Socket_new (getFamily address) SOCK_STREAM 0.
Definition CreateUDP (address : Address) : Socket := Socket_new (getFamily address) SOCK_DGRAM 0.
End create.
Definition CreateTCPSocket : Socket := Socket_new AF_INET SOCK_STREAM 0.
Definition CreateUDPSocket : Socket := Socket_new AF_INET SOCK_DGRAM 0.
Definition CreateTCPSocket6 : Socket := Socket_new AF_INET6 SOCK_STREAM 0.
Definition CreateUDPSocket6 : Socket := Socket_new AF_INET6 SOCK_DGRAM 0.
Definition CreateUnixTCPSocket : Socket := Socket_new AF_UNIX SOCK_STREAM 0.
Definition CreateUnixUDPSocket : Socket := Socket_new AF_UNIX SOCK_DGRAM 0.

Definition with_sock (fd : Z) (connected : bool) (c : Socket) : Socket :=
  mkSocket fd (m_family c) (m_type c) (m_protocol c) connected (m_localAddress c)
    (m_remoteAddress c).
Definition with_local (a : option Address) (c : Socket) : Socket :=
  mkSocket (m_sock c) (m_family c) (m_type c) (m_protocol c) (m_isConnected c) a
    (m_remoteAddress c).
Definition with_remote (a : option Address) (c : Socket) : Socket :=
  mkSocket (m_sock c) (m_family c) (m_type c) (m_protocol c) (m_isConnected c)
    (m_localAddress c) a.

Definition isValid (c : Socket) : bool := negb (m_sock c =? -1).
Definition isConnected (c : Socket) : bool := m_isConnected c.

(** The structure at a pointer, as the class of the family sees it. *)
Definition char_of (b : Z) : ascii := ascii_of_N (Z.to_N b).
Definition as_un `{Platform} (m : list Z) : sockaddr_un :=
  mkUn (mem_value uint16_t (slice m 0 2)) (char_of <$> slice m 2 108).

Section socket.
Context `{Platform} {K : Type} `{!Kernel K} `{!NetKernel K}.
Implicit Types (c : Socket) (s : HookState K).

(** * Options *)

(** [getOption(SOL_SOCKET, SO_ERROR)], as [getError] uses it. *)
Definition getError c s : Z :=
  match getsockopt_error (m_sock c) (kernel s) with inl v => v | inr errno => errno end.

(** [setOption]: the value is a [timeval], or an [int] and zero. *)
Definition setOption (level option : Z) (value : Z * Z) c s : outcome (bool * HookState K) :=
  let! (r, s) := setsockopt (m_sock c) level option value s in
  Ret (if negb (r =? 0) then false else true, s).

(** [timeval {int(timeout / 1000), int(timeout % 1000 * 1000)}]. *)
Definition timeval_of (timeout : Z) : Z * Z :=
  (i32 (Z.quot timeout 1000), i32 (i64 (Z.rem timeout 1000 * 1000))).

Definition getSendTimeout c s : outcome (Z * HookState K) :=
  let! (ctx, s) := fdmgr_get (m_sock c) false s in
  Ret (match ctx with Some x => i64 (getTimeout SO_SNDTIMEO x) | None => -1 end, s).
Definition setSendTimeout (timeout : Z) c s : outcome (HookState K) :=
  let! (_, s) := setOption SOL_SOCKET SO_SNDTIMEO (timeval_of timeout) c s in Ret s.
Definition getRecvTimeout c s : outcome (Z * HookState K) :=
  let! (ctx, s) := fdmgr_get (m_sock c) false s in
  Ret (match ctx with Some x => i64 (getTimeout SO_RCVTIMEO x) | None => -1 end, s).
Definition setRecvTimeout (timeout : Z) c s : outcome (HookState K) :=
  let! (_, s) := setOption SOL_SOCKET SO_RCVTIMEO (timeval_of timeout) c s in Ret s.

Definition initSock c s : outcome (HookState K) :=
  let! (_, s) := setOption SOL_SOCKET SO_REUSEADDR (1, 0) c s in
  if m_type c =? SOCK_STREAM
  then let! (_, s) := setOption IPPROTO_TCP TCP_NODELAY (1, 0) c s in Ret s
  else Ret s.

Definition newSock c s : outcome (Socket * HookState K) :=
  let! (fd, s) := socket (m_family c) (m_type c) (m_protocol c) s in
  let c := with_sock fd (m_isConnected c) c in
  if negb (fd =? -1) then let! s := initSock c s in Ret (c, s) else Ret (c, s).

(** * Addresses *)

Definition blank_address (family : Z) : Address :=
  if family =? AF_INET then IPv4Address_new 0 0
  else if family =? AF_INET6 then IPv6Address_new
  else if family =? AF_UNIX then UnixAddress_default
  else UnknownAddress_new family.

(** The kernel stores its bytes through [getAddr()]; a Unix address also takes
    the length. *)
Definition fill_address (a : Address) (bytes : list Z) (len : Z) : Address :=
  let m := overlay (getAddr a) 0 (take (Z.to_nat (getAddrLen a)) bytes) in
  match a with
  | IPv4Address _ => IPv4Address (as_in m)
  | IPv6Address _ => IPv6Address (as_in6 m)
  | UnixAddress _ _ => UnixAddress (as_un m) (u32 len)
  | UnknownAddress _ => UnknownAddress (as_sa m)
  end.

Definition getRemoteAddress c s : Address * Socket :=
  match m_remoteAddress c with
  | Some a => (a, c)
  | None =>
      match getpeername_f (m_sock c) (kernel s) with
      | None => (UnknownAddress_new (m_family c), c)
      | Some (bytes, len) =>
          let a := fill_address (blank_address (m_family c)) bytes len in
          (a, with_remote (Some a) c)
      end
  end.
Definition getLocalAddress c s : Address * Socket :=
  match m_localAddress c with
  | Some a => (a, c)
  | None =>
      match getsockname_f (m_sock c) (kernel s) with
      | None => (UnknownAddress_new (m_family c), c)
      | Some (bytes, len) =>
          let a := fill_address (blank_address (m_family c)) bytes len in
          (a, with_local (Some a) c)
      end
  end.

(** * Life of a socket *)

(** [close]: [false] when it closes something. [iom]: the thread has a
    manager, whose events for the descriptor are cancelled. *)
Definition Socket_close (iom : bool) c s : outcome (bool * Socket * HookState K) :=
  if negb (m_isConnected c) && (m_sock c =? -1) then Ret (true, c, s)
  else
    let c := with_sock (m_sock c) false c in
    if negb (m_sock c =? -1) then
      let! (_, _, s) := Hook.close iom (m_sock c) s in
      Ret (false, with_sock (-1) false c, s)
    else Ret (false, c, s).

(** [init(sock)]. *)
Definition Socket_init (fd : Z) c s : outcome (bool * Socket * HookState K) :=
  let! (ctx, s) := fdmgr_get fd false s in
  match managed ctx with
  | Some _ =>
      let c := with_sock fd true c in
      let! s := initSock c s in
      let '(_, c) := getLocalAddress c s in
      let '(_, c) := getRemoteAddress c s in
      Ret (true, c, s)
  | None => Ret (false, c, s)
  end.

(** [accept]: [None] while it waits; the inner [None] is null. *)
Definition Socket_accept (iom : bool) (answers : list answer) c s
    : outcome (option (option Socket) * HookState K) :=
  let sock := Socket_new (m_family c) (m_type c) (m_protocol c) in
  let! (r, s) := Hook.accept iom (m_sock c) answers s in
  match r with
  | None => Ret (None, s)
  | Some (newsock, _) =>
      if newsock =? -1 then Ret (Some None, s)
      else
        let! (ok, sock, s) := Socket_init newsock sock s in
        Ret (Some (if ok then Some sock else None), s)
  end.

(** A socket is created on first use. *)
Definition ensure_valid c s : outcome (Socket * HookState K) :=
  if negb (isValid c) then newSock c s else Ret (c, s).

Definition Socket_bind (addr : Address) c s : outcome (bool * Socket * HookState K) :=
  let! (c, s) := ensure_valid c s in
  if negb (isValid c) then Ret (false, c, s)
  else if negb (getFamily addr =? m_family c) then Ret (false, c, s)
  else
    let '(r, s) := sys (bind_f (m_sock c) (take (Z.to_nat (getAddrLen addr)) (getAddr addr))
                          (kernel s)) s in
    if negb (r =? 0) then Ret (false, c, s)
    else let '(_, c) := getLocalAddress c s in Ret (true, c, s).

(** [connect]: [result] is the result of the hooked [connect] or
    [connect_with_timeout], given the descriptor and the state. *)
Definition Socket_connect (iom : bool) (result : Z → HookState K → outcome (Z * HookState K))
    (addr : Address) c s : outcome (bool * Socket * HookState K) :=
  let! (c, s) := ensure_valid c s in
  if negb (isValid c) then Ret (false, c, s)
  else if negb (getFamily addr =? m_family c) then Ret (false, c, s)
  else
    let! (r, s) := result (m_sock c) s in
    if negb (r =? 0) then
      let! (_, c, s) := Socket_close iom c s in Ret (false, c, s)
    else
      let c := with_sock (m_sock c) true c in
      let '(_, c) := getRemoteAddress c s in
      let '(_, c) := getLocalAddress c s in
      Ret (true, c, s).

Definition Socket_listen (backlog : Z) c s : bool * HookState K :=
  if negb (isValid c) then (false, s)
  else
    let '(r, s) := sys (listen_f (m_sock c) backlog (kernel s)) s in
    (if negb (r =? 0) then false else true, s).

(** * Data *)

(** [send], [recv], [sendTo] and [recvFrom], each with its overload on
    iovecs.  The result of the call is converted to [int]. *)
Definition Socket_send (bytes : list Z) c (k : K) : Z * K :=
  if isConnected c then let '(r, k) := send_f (m_sock c) bytes k in (i32 r, k) else (-1, k).
Definition Socket_send_iov (buffers : list (list Z)) c (k : K) : Z * K :=
  if isConnected c
  then let '(r, k) := sendmsg_f (m_sock c) buffers None k in (i32 r, k)
  else (-1, k).
Definition Socket_recv (length : Z) c (k : K) : Z * list Z * K :=
  if isConnected c
  then let '(r, bytes, k) := recv_f (m_sock c) length k in (i32 r, bytes, k)
  else (-1, [], k).
Definition Socket_recv_iov (lengths : list Z) c (k : K) : Z * list Z * K :=
  if isConnected c
  then let '(r, bytes, _, k) := recvmsg_f (m_sock c) lengths k in (i32 r, bytes, k)
  else (-1, [], k).
Definition Socket_sendTo (bytes : list Z) (to : Address) c (k : K) : Z * K :=
  if isConnected c then
    let '(r, k) := sendto_f (m_sock c) bytes (take (Z.to_nat (getAddrLen to)) (getAddr to)) k in
    (i32 r, k)
  else (-1, k).
Definition Socket_sendTo_iov (buffers : list (list Z)) (to : Address) c (k : K) : Z * K :=
  if isConnected c then
    let '(r, k) := sendmsg_f (m_sock c) buffers
                     (Some (take (Z.to_nat (getAddrLen to)) (getAddr to))) k in
    (i32 r, k)
  else (-1, k).
(** The sender's address is stored through [from->getAddr()]. *)
Definition store_sender (from : Address) (a : list Z) : Address :=
  match from with
  | UnixAddress _ n => fill_address from a n
  | _ => fill_address from a 0
  end.
Definition Socket_recvFrom (length : Z) (from : Address) c (k : K) : Z * list Z * Address * K :=
  if isConnected c then
    let '(r, bytes, a, k) := recvfrom_f (m_sock c) length k in
    (i32 r, bytes, store_sender from a, k)
  else (-1, [], from, k).
Definition Socket_recvFrom_iov (lengths : list Z) (from : Address) c (k : K)
    : Z * list Z * Address * K :=
  if isConnected c then
    let '(r, bytes, a, k) := recvmsg_f (m_sock c) lengths k in
    (i32 r, bytes, store_sender from a, k)
  else (-1, [], from, k).

(** [dump]. *)
Definition dump_address (label : text) (a : option Address) : outcome text :=
  match a with
  | None => Ret []
  | Some a => let! t := toString a in Ret (label ++ t)
  end.
Definition signed_dec (n : Z) : text := if n <? 0 then str "-" ++ dec (- n) else dec n.
Definition Socket_dump c : outcome text :=
  let! l := dump_address (str " local_address=") (m_localAddress c) in
  let! r := dump_address (str " remote_address=") (m_remoteAddress c) in
  Ret (str "[Socket sock=" ++ signed_dec (m_sock c) ++ str " is_connected="
       ++ (if m_isConnected c then str "1" else str "0") ++ str " family="
       ++ signed_dec (m_family c) ++ str " type=" ++ signed_dec (m_type c)
       ++ str " protocol=" ++ signed_dec (m_protocol c) ++ l ++ r ++ str "]").

End socket.
