(* ===== verification/SocketTheorems.v ===== *)
(** Correctness of sockets: their life cycle and their timeouts. *)

From S2P Require Import Prelude Endian Http Address FdManager Hook HookTheorems Socket.

#[local] Open Scope Z_scope.

(** * Timeouts *)

Section timeouts.
Context {K : Type} `{!Kernel K}.
Implicit Types (s : HookState K).

(** The milliseconds the hook computes from the [timeval]. *)
Lemma timeval_back ms :
  0 ≤ ms < 2 ^ 31 * 1000 →
  let tv := timeval_of ms in u64 (fst tv * 1000 + Z.quot (snd tv) 1000) = ms.
Proof.
  intros Hm tv. unfold tv, timeval_of. cbn [fst snd].
  rewrite Z.quot_div_nonneg, Z.rem_mod_nonneg by lia.
  pose proof (Z.div_mod ms 1000). pose proof (Z.mod_pos_bound ms 1000).
  assert (0 ≤ ms / 1000 < 2 ^ 31) by (split; [apply Z.div_pos; lia|apply Z.div_lt_upper_bound; lia]).
  unfold i32, i64. rewrite (wrapS_id 64) by (unfold in_s; simpl; lia).
  rewrite !(wrapS_id 32) by (unfold in_s; simpl; lia).
  rewrite Z.quot_mul by done. unfold u64. rewrite wrapU_id by (unfold in_u; lia). lia.
Qed.

(** [setsockopt] of a timeout stores it in the context. *)
Lemma setsockopt_timeout s fd ctx opt tv :
  manages s fd ctx → t_hook_enable s = true → opt = SO_RCVTIMEO ∨ opt = SO_SNDTIMEO →
  ∃ r s', setsockopt fd SOL_SOCKET opt tv s = Ret (r, s') ∧ t_hook_enable s' = true ∧
    manages s' fd (setTimeout opt (u64 (fst tv * 1000 + Z.quot (snd tv) 1000)) ctx).
Proof.
  intros Hm Ht Ho. destruct (fdmgr_get_manages s fd ctx Hm) as [Hg _]. unfold setsockopt.
  rewrite Ht. cbn [negb].
  assert ((SOL_SOCKET =? SOL_SOCKET) && ((opt =? SO_RCVTIMEO) || (opt =? SO_SNDTIMEO)) = true) as ->
    by (by destruct Ho as [-> | ->]).
  rewrite Hg. cbn [obind]. eexists _, _. split; [reflexivity|]. split; [done|].
  destruct Hm as [Hfd Hr Hop Hs]. cbn [sys fdmgr_store kernel fds t_hook_enable fst snd].
  split; cbn [fds snd].
  - unfold store_data. cbn [m_datas]. unfold Zlen in *. by rewrite length_insert.
  - rewrite registered_store by lia. by rewrite decide_True.
  - unfold setTimeout. by destruct (opt =? SO_RCVTIMEO).
  - unfold setTimeout. by destruct (opt =? SO_RCVTIMEO).
Qed.

End timeouts.

(** * The life of a socket *)

(** A connected socket has a descriptor. *)
Definition socket_inv (c : Socket) : Prop := m_isConnected c = true → m_sock c ≠ -1.

(** What no operation changes. *)
Definition same_kind (c c' : Socket) : Prop :=
  m_family c' = m_family c ∧ m_type c' = m_type c ∧ m_protocol c' = m_protocol c.

#[global] Instance same_kind_preorder : PreOrder same_kind.
Proof. unfold same_kind. split; [done|]. intros ??? (?&?&?) (?&?&?). split_and!; congruence. Qed.

Section life.
Context `{P : Platform} {K : Type} `{!Kernel K} `{!NetKernel K}.
Implicit Types (c : Socket) (s : HookState K).

Lemma getLocalAddress_keeps c s a c' :
  getLocalAddress c s = (a, c') →
  same_kind c c' ∧ m_sock c' = m_sock c ∧ m_isConnected c' = m_isConnected c.
Proof.
  unfold getLocalAddress. destruct (m_localAddress c); [by intros [= _ <-]|].
  destruct (getsockname_f _ _) as [[]|]; by intros [= _ <-].
Qed.

Lemma getRemoteAddress_keeps c s a c' :
  getRemoteAddress c s = (a, c') →
  same_kind c c' ∧ m_sock c' = m_sock c ∧ m_isConnected c' = m_isConnected c.
Proof.
  unfold getRemoteAddress. destruct (m_remoteAddress c); [by intros [= _ <-]|].
  destruct (getpeername_f _ _) as [[]|]; by intros [= _ <-].
Qed.

Lemma newSock_inv c s c' s' :
  newSock c s = Ret (c', s') → same_kind c c' ∧ m_isConnected c' = m_isConnected c.
Proof.
  unfold newSock. destruct (socket _ _ _ s) as [[fd s1]| |]; try done. cbn [obind].
  destruct (negb (fd =? -1)); [|by intros [= <- <-]].
  destruct (initSock _ s1); try done. cbn [obind]. by intros [= <- <-].
Qed.

Lemma ensure_valid_inv c s c' s' :
  socket_inv c → ensure_valid c s = Ret (c', s') → same_kind c c' ∧ socket_inv c'.
Proof.
  unfold ensure_valid, isValid. intros Hi. destruct (Z.eqb_spec (m_sock c) (-1)) as [E|E]; cbn [negb].
  - intros (Hk & Hc)%newSock_inv. split; [done|]. intros Ht. rewrite Hc in Ht. by destruct (Hi Ht).
  - by intros [= <- <-].
Qed.

(** [close] leaves no descriptor and no connection. *)
Lemma close_inv iom c s r c' s' :
  Socket_close iom c s = Ret (r, c', s') →
  same_kind c c' ∧ m_sock c' = -1 ∧ m_isConnected c' = false ∧
  r = negb (m_isConnected c || isValid c).
Proof.
  unfold Socket_close, isValid. destruct (m_isConnected c) eqn:E1; destruct (Z.eqb_spec (m_sock c) (-1)) as [E2|E2];
    cbn [negb andb orb m_sock with_sock].
  - rewrite E2. cbn. intros [= <- <- <-]. done.
  - rewrite (proj2 (Z.eqb_neq _ _) E2). cbn [negb].
    destruct (Hook.close iom (m_sock c) s) as [[[? ?] ?]| |]; try done. cbn [obind].
    by intros [= <- <- <-].
  - by intros [= <- <- <-].
  - rewrite (proj2 (Z.eqb_neq _ _) E2). cbn [negb].
    destruct (Hook.close iom (m_sock c) s) as [[[? ?] ?]| |]; try done. cbn [obind].
    by intros [= <- <- <-].
Qed.

Lemma bind_inv addr c s r c' s' :
  socket_inv c → Socket_bind addr c s = Ret (r, c', s') → same_kind c c' ∧ socket_inv c'.
Proof.
  intros Hi. unfold Socket_bind. destruct (ensure_valid c s) as [[c1 s1]| |] eqn:E; try done.
  apply ensure_valid_inv in E as [Hk Hc]; [|done]. cbn [obind].
  destruct (negb (isValid c1)); [by intros [= <- <- <-]|].
  destruct (negb _); [by intros [= <- <- <-]|].
  destruct (sys _ s1) as [r1 s2]. destruct (negb (r1 =? 0)); [by intros [= <- <- <-]|].
  destruct (getLocalAddress c1 s2) as [a c2] eqn:El. intros [= <- <- <-].
  apply getLocalAddress_keeps in El as (Hk2 & E1 & E2). split; [by etrans|].
  intros Ht. rewrite E1. apply Hc. by rewrite <- E2.
Qed.

Lemma connect_inv iom result addr c s r c' s' :
  socket_inv c → Socket_connect iom result addr c s = Ret (r, c', s') →
  same_kind c c' ∧ socket_inv c' ∧ (r = true → m_isConnected c' = true).
Proof.
  intros Hi. unfold Socket_connect. destruct (ensure_valid c s) as [[c1 s1]| |] eqn:E; try done.
  apply ensure_valid_inv in E as [Hk Hc]; [|done]. cbn [obind].
  destruct (isValid c1) eqn:Ev; cbn [negb]; [|by intros [= <- <- <-]].
  destruct (negb _); [by intros [= <- <- <-]|].
  destruct (result (m_sock c1) s1) as [[r1 s2]| |]; try done. cbn [obind].
  destruct (negb (r1 =? 0)).
  - destruct (Socket_close iom c1 s2) as [[[r2 c2] s3]| |] eqn:Ec; try done. cbn [obind].
    intros [= <- <- <-]. apply close_inv in Ec as (Hk2 & E1 & E2 & _).
    split; [by etrans|]. split; [|done]. intros Ht. congruence.
  - destruct (getRemoteAddress _ s2) as [a c2] eqn:Er.
    destruct (getLocalAddress c2 s2) as [a' c3] eqn:El. intros [= <- <- <-].
    apply getRemoteAddress_keeps in Er as (Hk2 & E1 & E2).
    apply getLocalAddress_keeps in El as (Hk3 & E3 & E4). cbn [m_sock m_isConnected with_sock] in *.
    split; [etrans; [exact Hk|]; by etrans|]. split; [|intros _; congruence].
    intros _. unfold isValid in Ev. apply negb_true_iff, Z.eqb_neq in Ev. congruence.
Qed.

Lemma init_inv fd c s r c' s' :
  Socket_init fd c s = Ret (r, c', s') →
  same_kind c c' ∧ (r = true → m_isConnected c' = true ∧ m_sock c' = fd ∧ fd ≠ -1).
Proof.
  unfold Socket_init. destruct (fdmgr_get fd false s) as [[ctx s1]| |] eqn:Eg; try done.
  cbn [obind]. destruct (managed ctx) as [x|] eqn:Em; [|by intros [= <- <- <-]].
  destruct (initSock _ s1) as [s2| |]; try done. cbn [obind].
  destruct (getLocalAddress _ s2) as [a c2] eqn:El. destruct (getRemoteAddress c2 s2) as [a' c3] eqn:Er.
  intros [= <- <- <-]. apply getLocalAddress_keeps in El as (Hk2 & E1 & E2).
  apply getRemoteAddress_keeps in Er as (Hk3 & E3 & E4). cbn [m_sock m_isConnected with_sock] in *.
  split; [by etrans|]. intros _. split_and!; [congruence..|].
  intros ->. unfold fdmgr_get, get in Eg. cbn in Eg. injection Eg as <- <-. done.
Qed.

(** The sockets of a program: new ones, accepted ones, and what the operations
    make of them while the rest of the system goes on. *)
Inductive socket_run : Socket → HookState K → Prop :=
| run_new family type protocol s : socket_run (Socket_new family type protocol) s
| run_accept iom answers l s c s' :
    Socket_accept iom answers l s = Ret (Some (Some c), s') → socket_run c s'
| run_bind addr c s r c' s' :
    socket_run c s → Socket_bind addr c s = Ret (r, c', s') → socket_run c' s'
| run_connect iom result addr c s r c' s' :
    socket_run c s → Socket_connect iom result addr c s = Ret (r, c', s') → socket_run c' s'
| run_close iom c s r c' s' :
    socket_run c s → Socket_close iom c s = Ret (r, c', s') → socket_run c' s'
| run_local c s a c' : socket_run c s → getLocalAddress c s = (a, c') → socket_run c' s
| run_remote c s a c' : socket_run c s → getRemoteAddress c s = (a, c') → socket_run c' s
| run_system c s s' : socket_run c s → socket_run c s'.

Lemma socket_run_inv c s : socket_run c s → socket_inv c.
Proof.
  induction 1 as [|iom answers l s c s' E|addr c s r c' s' _ IH E|iom result addr c s r c' s' _ IH E
    |iom c s r c' s' _ IH E|c s a c' _ IH E|c s a c' _ IH E|].
  - done.
  - revert E. unfold Socket_accept. destruct (accept _ _ _ _) as [[[[fd e]|] s1]| |]; try done.
    cbn [obind]. destruct (fd =? -1); [done|].
    destruct (Socket_init fd _ s1) as [[[ok c1] s2]| |] eqn:Ei; try done. cbn [obind].
    destruct ok; [|done]. intros [= <- <-].
    apply init_inv in Ei as (_ & Hi). destruct Hi as (_ & E1 & ?); [done|]. intros _. by rewrite E1.
  - by apply bind_inv in E as [_ ?].
  - by apply connect_inv in E as (_ & ? & _).
  - apply close_inv in E as (_ & E1 & E2 & _). intros ?. congruence.
  - apply getLocalAddress_keeps in E as (_ & E1 & E2). intros Ht. rewrite E1. apply IH. congruence.
  - apply getRemoteAddress_keeps in E as (_ & E1 & E2). intros Ht. rewrite E1. apply IH. congruence.
  - done.
Qed.

(** * Properties *)

(** C25. The life of a socket: whatever operations a program runs on it, a
    connected socket has a descriptor; [close] takes both away, reports
    [false] exactly when there was something to close, and after it nothing is
    sent or received and a second [close] does nothing. *)
Theorem socket_life_cycle (c : Socket) (s : HookState K) :
  socket_run c s →
  (m_isConnected c = true → isValid c = true) ∧
  ∀ iom r c' s', Socket_close iom c s = Ret (r, c', s') →
    r = negb (isValid c) ∧ isValid c' = false ∧
    (∀ bytes k, Socket_send bytes c' k = (-1, k)) ∧
    (∀ n k, Socket_recv n c' k = (-1, [], k)) ∧
    Socket_close iom c' s' = Ret (true, c', s').
Proof.
  intros Hi%socket_run_inv. unfold isValid.
  assert (m_isConnected c = true → negb (m_sock c =? -1) = true) as Hv
    by (intros Ht; apply negb_true_iff, Z.eqb_neq; by apply Hi).
  split; [done|].
  intros iom r c' s' (_ & E1 & E2 & ->)%close_inv. unfold isValid, isConnected, Socket_send, Socket_recv, Socket_close, isConnected.
  rewrite E1, E2. split_and!; try done.
  destruct (m_isConnected c); [|done]. by rewrite Hv.
Qed.

End life.

(** Timeouts survive the detour through [timeval]: on a socket the hooks
    manage, [setRecvTimeout(ms)] makes [getRecvTimeout] return exactly [ms]
    and leaves the send timeout alone, for every number of milliseconds whose
    seconds fit an [int]; likewise for the send timeout. *)
Theorem timeout_roundtrip {K} `{!Kernel K} (c : Socket) (s : HookState K) (ctx : FdCtx) (ms : Z) :
  manages s (m_sock c) ctx → t_hook_enable s = true → 0 ≤ ms < 2 ^ 31 * 1000 →
  (∃ s1, setRecvTimeout ms c s = Ret s1 ∧ getRecvTimeout c s1 = Ret (ms, s1) ∧
     getSendTimeout c s1 = Ret (i64 (FdManager.m_sendTimeout ctx), s1)) ∧
  (∃ s1, setSendTimeout ms c s = Ret s1 ∧ getSendTimeout c s1 = Ret (ms, s1) ∧
     getRecvTimeout c s1 = Ret (i64 (FdManager.m_recvTimeout ctx), s1)).
Proof.
  intros Hm Ht Hms.
  assert (i64 ms = ms) as Ei by (unfold i64; apply wrapS_id; [done|unfold in_s; simpl; lia]).
  pose proof (timeval_back ms Hms) as Etv. cbv zeta in Etv.
  split; unfold setRecvTimeout, setSendTimeout, setOption.
  - destruct (setsockopt_timeout s (m_sock c) ctx SO_RCVTIMEO (timeval_of ms) Hm Ht)
      as (r & s1 & -> & _ & Hm1); [by left|]. cbn [obind]. rewrite Etv in Hm1.
    destruct (fdmgr_get_manages _ _ _ Hm1) as [Hg _]. exists s1. split; [done|].
    unfold getRecvTimeout, getSendTimeout. rewrite Hg. cbn [obind]. cbn. by rewrite Ei.
  - destruct (setsockopt_timeout s (m_sock c) ctx SO_SNDTIMEO (timeval_of ms) Hm Ht)
      as (r & s1 & -> & _ & Hm1); [by right|]. cbn [obind]. rewrite Etv in Hm1.
    destruct (fdmgr_get_manages _ _ _ Hm1) as [Hg _]. exists s1. split; [done|].
    unfold getRecvTimeout, getSendTimeout. rewrite Hg. cbn [obind]. cbn. by rewrite Ei.
Qed.

(** * Witnesses *)

#[export] Instance quiet_net : NetKernel (gmap Z table_entry) := {
  bind_f fd a k := (0, k);
  listen_f fd n k := (0, k);
  getsockname_f fd k := None;
  getpeername_f fd k := None;
  getsockopt_error fd k := inl 0;
  recv_f fd n k := (0, [], k);
  send_f fd bs k := (Zlen bs, k);
  sendto_f fd bs a k := (Zlen bs, k);
  recvfrom_f fd n k := (0, [], [], k);
  sendmsg_f fd bufs a k := (Zlen (concat bufs), k);
  recvmsg_f fd lens k := (0, [], [], k);
}.

(** A socket connected to port 80. *)
Definition demo_connect : outcome (bool * Socket * HookState (gmap Z table_entry)) :=
  Socket_connect (H := x86_64) true (λ _ s, Ret (0, s)) (IPv4Address_new (H := x86_64) 0 80)
    CreateTCPSocket demo_hook.
Definition demo_socket : Socket :=
  match demo_connect with Ret (_, c, _) => c | _ => CreateTCPSocket end.
Definition demo_after : HookState (gmap Z table_entry) :=
  match demo_connect with Ret (_, _, s) => s | _ => demo_hook end.

Lemma demo_connect_ok : demo_connect = Ret (true, demo_socket, demo_after).
Proof. by vm_compute. Qed.

Lemma socket_life_cycle_witness : m_isConnected demo_socket = true ∧ isValid demo_socket = true.
Proof.
  assert (m_isConnected demo_socket = true) as Hc by (by vm_compute). split; [exact Hc|].
  apply (socket_life_cycle (P := x86_64) demo_socket demo_after); [|exact Hc].
  exact (run_connect _ _ _ _ _ _ _ _ (run_new AF_INET SOCK_STREAM 0 demo_hook) demo_connect_ok).
Defined.

Lemma timeout_roundtrip_witness :
  ∃ s1, setRecvTimeout 240000 (mkSocket 7 2 1 0 true None None) demo_hook = Ret s1 ∧
    getRecvTimeout (mkSocket 7 2 1 0 true None None) s1 = Ret (240000, s1).
Proof.
  destruct (timeout_roundtrip (mkSocket 7 2 1 0 true None None) demo_hook demo_ctx 240000)
    as [(s1 & H1 & H2 & _) _]; [apply demo_manages|reflexivity|lia|].
  exists s1. split; [exact H1|exact H2].
Defined.
