(* ===== verification/SocketEvents.v ===== *)
(** The calls of [Socket] that cancel the events of its descriptor
    (socket.cpp), on the manager of the thread. *)

From S2P Require Import Prelude OrderedSet Timer Fiber Scheduler IOManager Socket.

#[local] Open Scope Z_scope.

(** [rt] is what [epoll_ctl] returns and [junk] the mask it is given, which
    the code does not set. *)
Definition cancelRead (rt junk : Z) (c : Socket) (m : IOManager) : outcome (bool * IOManager) :=
  cancelEvent rt junk (m_sock c) READ m.
Definition cancelWrite (rt junk : Z) (c : Socket) (m : IOManager) : outcome (bool * IOManager) :=
  cancelEvent rt junk (m_sock c) WRITE m.
Definition cancelAccept (rt junk : Z) (c : Socket) (m : IOManager) : outcome (bool * IOManager) :=
  cancelEvent rt junk (m_sock c) READ m.
Definition Socket_cancelAll (rt : Z) (c : Socket) (m : IOManager) : outcome (bool * IOManager) :=
  cancelAll rt (m_sock c) m.
