(* ===== verification/Stream.v ===== *)
(** Streams: stream.h, stream.cpp, socket_stream.h and socket_stream.cpp.

    The abstract class [Stream] is a class of operations on the state of a
    connection; the loops of stream.cpp are written against it and
    [SocketStream] is its instance.  What lies behind a socket is [NetKernel];
    [buffers_of] and [scatter] are how the kernel reads and fills iovecs. *)

From S2P Require Import Prelude Endian Address FdManager Hook Socket.
From S2P Require Import ByteArray ByteArraySpec.

#[local] Open Scope Z_scope.

(** * Stream *)

(** The virtual functions: an [int], and the bytes stored for [read]. *)
Class Stream (W : Type) := {
  read : Z → W → Z * list Z * W;
  read_ba : ByteArray → Z → W → outcome (Z * ByteArray * W);
  write : list Z → W → Z * W;
  write_ba : ByteArray → Z → W → outcome (Z * ByteArray * W);
}.

(** Bytes stored at [buffer + offset]. *)
Definition store_at {A} (buffer : list A) (offset : Z) (bytes : list A) : outcome (list A) :=
  match bytes with
  | [] => Ret buffer
  | _ => if (0 <=? offset) && (offset + Zlen bytes <=? Zlen buffer)
         then Ret (overlay buffer (Z.to_nat offset) bytes)
         else Fault OutOfBounds
  end.

Section loops.
Context {W : Type} `{!Stream W}.

(** The loops of [readFixSize] and [writeFixSize].  [len] is a [size_t]: the
    test for a negative result is never true. *)
Fixpoint readFixSize_loop (fuel : nat) (offset left : Z) (buffer : list Z) (w : W)
    : outcome (list Z * W) :=
  if 0 <? left then
    match fuel with
    | O => Fault OutOfFuel
    | S fuel =>
        let '(rt, bytes, w) := read left w in
        let len := u64 rt in
        let! buffer := store_at buffer offset bytes in
        readFixSize_loop fuel (u64 (offset + len)) (u64 (left - len)) buffer w
    end
  else Ret (buffer, w).
Definition readFixSize (fuel : nat) (buffer : list Z) (length : Z) (w : W)
    : outcome (Z * list Z * W) :=
  let! (buffer, w) := readFixSize_loop fuel 0 length buffer w in Ret (i32 length, buffer, w).

Fixpoint readFixSize_ba_loop (fuel : nat) (ba : ByteArray) (left : Z) (w : W)
    : outcome (ByteArray * W) :=
  if 0 <? left then
    match fuel with
    | O => Fault OutOfFuel
    | S fuel =>
        let! (rt, ba, w) := read_ba ba left w in
        readFixSize_ba_loop fuel ba (u64 (left - u64 rt)) w
    end
  else Ret (ba, w).
Definition readFixSize_ba (fuel : nat) (ba : ByteArray) (length : Z) (w : W)
    : outcome (Z * ByteArray * W) :=
  let! (ba, w) := readFixSize_ba_loop fuel ba length w in Ret (i32 length, ba, w).

(** The memory from [buffer + offset], [left] bytes of it. *)
Definition load_at (buffer : list Z) (offset left : Z) : outcome (list Z) :=
  if (0 <=? offset) && (offset + left <=? Zlen buffer)
  then Ret (take (Z.to_nat left) (drop (Z.to_nat offset) buffer))
  else Fault OutOfBounds.

Fixpoint writeFixSize_loop (fuel : nat) (buffer : list Z) (offset left : Z) (w : W) : outcome W :=
  if 0 <? left then
    match fuel with
    | O => Fault OutOfFuel
    | S fuel =>
        let! bytes := load_at buffer offset left in
        let '(rt, w) := write bytes w in
        let len := u64 rt in
        writeFixSize_loop fuel buffer (u64 (offset + len)) (u64 (left - len)) w
    end
  else Ret w.
Definition writeFixSize (fuel : nat) (buffer : list Z) (length : Z) (w : W) : outcome (Z * W) :=
  let! w := writeFixSize_loop fuel buffer 0 length w in Ret (i32 length, w).

Fixpoint writeFixSize_ba_loop (fuel : nat) (ba : ByteArray) (left : Z) (w : W)
    : outcome (ByteArray * W) :=
  if 0 <? left then
    match fuel with
    | O => Fault OutOfFuel
    | S fuel =>
        let! (rt, ba, w) := write_ba ba left w in
        writeFixSize_ba_loop fuel ba (u64 (left - u64 rt)) w
    end
  else Ret (ba, w).
Definition writeFixSize_ba (fuel : nat) (ba : ByteArray) (length : Z) (w : W)
    : outcome (Z * ByteArray * W) :=
  let! (ba, w) := writeFixSize_ba_loop fuel ba length w in Ret (i32 length, ba, w).

End loops.

(** * SocketStream *)

Record SocketStream := mkStream { ss_socket : option Socket; ss_owner : bool }.

Definition SocketStream_new (sock : option Socket) (owner : bool) : SocketStream :=
  mkStream sock owner.

Definition stream_isConnected (st : SocketStream) : bool :=
  match ss_socket st with Some c => isConnected c | None => false end.

(** The result of a function of [M]. *)
Definition run_m {S A} (c : M S A) (s : S) : outcome (A * S) :=
  match c s with
  | (Ret a, s) => Ret (a, s)
  | (Throw e, _) => Throw e
  | (Fault f, _) => Fault f
  end.

Section socket_stream.
Context {K : Type} `{!NetKernel K}.
(** What fresh nodes of a ByteArray hold. *)
Context (junk : nat → nat → Z).

Definition ss_recv (length : Z) (st : SocketStream) (k : K) : Z * list Z * K :=
  match ss_socket st with
  | Some c => Socket_recv length c k
  | None => (-1, [], k)
  end.
Definition ss_send (bytes : list Z) (st : SocketStream) (k : K) : Z * K :=
  match ss_socket st with
  | Some c => Socket_send bytes c k
  | None => (-1, k)
  end.
Definition ss_recv_iov (lengths : list Z) (st : SocketStream) (k : K) : Z * list Z * K :=
  match ss_socket st with
  | Some c => Socket_recv_iov lengths c k
  | None => (-1, [], k)
  end.
Definition ss_send_iov (buffers : list (list Z)) (st : SocketStream) (k : K) : Z * K :=
  match ss_socket st with
  | Some c => Socket_send_iov buffers c k
  | None => (-1, k)
  end.

Definition ss_read (length : Z) (w : SocketStream * K) : Z * list Z * (SocketStream * K) :=
  let '(st, k) := w in
  if negb (stream_isConnected st) then (-1, [], w)
  else let '(rt, bytes, k) := ss_recv length st k in (rt, bytes, (st, k)).

Definition ss_read_ba (ba : ByteArray) (length : Z) (w : SocketStream * K)
    : outcome (Z * ByteArray * (SocketStream * K)) :=
  let '(st, k) := w in
  if negb (stream_isConnected st) then Ret (-1, ba, w)
  else
    let! (iovs, _, ba) := getWriteBuffers junk length ba in
    let '(rt, bytes, k) := ss_recv_iov (iov_len <$> iovs) st k in
    let ba := moved ba (m_position ba) (m_size ba) (scatter (m_nodes ba) iovs bytes) (m_cur ba) in
    if 0 <? rt then
      let! (_, ba) := run_m (setPosition (m_position ba + rt)) ba in Ret (rt, ba, (st, k))
    else Ret (rt, ba, (st, k)).

(** [return m_socket && m_socket->send(buffer, length)]: a truth value. *)
Definition ss_write (bytes : list Z) (w : SocketStream * K) : Z * (SocketStream * K) :=
  let '(st, k) := w in
  if negb (stream_isConnected st) then (-1, w)
  else let '(rt, k) := ss_send bytes st k in (if rt =? 0 then 0 else 1, (st, k)).

Definition ss_write_ba (ba : ByteArray) (length : Z) (w : SocketStream * K)
    : outcome (Z * ByteArray * (SocketStream * K)) :=
  let '(st, k) := w in
  if negb (stream_isConnected st) then Ret (-1, ba, w)
  else
    let! (iovs, _) := getReadBuffers length ba in
    let '(rt, k) := ss_send_iov (buffers_of (m_nodes ba) iovs) st k in
    if 0 <? rt then
      let! (_, ba) := run_m (setPosition (m_position ba + rt)) ba in Ret (rt, ba, (st, k))
    else Ret (rt, ba, (st, k)).

#[global] Instance socket_stream : Stream (SocketStream * K) := {
  read := ss_read;
  read_ba := ss_read_ba;
  write := ss_write;
  write_ba := ss_write_ba;
}.

End socket_stream.

(** [close] and the destructor. *)
Section closing.
Context {K : Type} `{!Kernel K}.
Definition stream_close (iom : bool) (st : SocketStream) (s : HookState K)
    : outcome (SocketStream * HookState K) :=
  match ss_socket st with
  | Some c => let! (_, c, s) := Socket_close iom c s in
              Ret (mkStream (Some c) (ss_owner st), s)
  | None => Ret (st, s)
  end.
Definition stream_destroy (iom : bool) (st : SocketStream) (s : HookState K)
    : outcome (HookState K) :=
  if ss_owner st then let! (_, s) := stream_close iom st s in Ret s else Ret s.
End closing.
