(* ===== verification/StreamTheorems.v ===== *)
(** Correctness of the streams.

    A connection that is up is described by [TcpConn], the documented behaviour
    of a connected stream socket: the theorems about whole transfers are proved
    against it, and [wire] is a connection that has it. *)

From S2P Require Import Prelude Endian Address FdManager Hook Socket Stream.
From S2P Require Import Varint Double ByteArray ByteArraySpec Codec ByteArrayTheorems.

#[local] Open Scope Z_scope.

(** * Connections *)

(** The bytes that arrive at a descriptor before the peer closes, the bytes it
    has sent; a [recv] gives some of the next bytes, or nothing at the end; a
    [send] takes some of the bytes.  [recvmsg] and [sendmsg] do the same with
    at most [IOV_MAX] buffers, and [sendmsg] fails with more (EMSGSIZE). *)
Class TcpConn (K : Type) `{!NetKernel K} := {
  incoming : Z → K → list Z;
  sent : Z → K → list Z;
  recv_some fd n k :
    0 < n → incoming fd k ≠ [] →
    ∃ bs k', recv_f fd n k = (Zlen bs, bs, k') ∧ bs ≠ [] ∧ Zlen bs ≤ n ∧
      incoming fd k = bs ++ incoming fd k' ∧ sent fd k' = sent fd k;
  recv_end fd n k : incoming fd k = [] → recv_f fd n k = (0, [], k);
  send_some fd bs k :
    bs ≠ [] →
    ∃ m k', send_f fd bs k = (Z.of_nat m, k') ∧ (0 < m ≤ length bs)%nat ∧
      sent fd k' = sent fd k ++ take m bs ∧ incoming fd k' = incoming fd k;
  recvmsg_some fd lens k :
    Zlen lens ≤ IOV_MAX → 0 < foldr Z.add 0 lens → incoming fd k ≠ [] →
    ∃ bs a k', recvmsg_f fd lens k = (Zlen bs, bs, a, k') ∧ bs ≠ [] ∧
      Zlen bs ≤ foldr Z.add 0 lens ∧ incoming fd k = bs ++ incoming fd k' ∧ sent fd k' = sent fd k;
  recvmsg_end fd lens k :
    Zlen lens ≤ IOV_MAX → incoming fd k = [] → ∃ a, recvmsg_f fd lens k = (0, [], a, k);
  sendmsg_some fd bufs k :
    Zlen bufs ≤ IOV_MAX → concat bufs ≠ [] →
    ∃ m k', sendmsg_f fd bufs None k = (Z.of_nat m, k') ∧ (0 < m ≤ length (concat bufs))%nat ∧
      sent fd k' = sent fd k ++ take m (concat bufs) ∧ incoming fd k' = incoming fd k;
  sendmsg_many fd bufs k : IOV_MAX < Zlen bufs → sendmsg_f fd bufs None k = (-1, k);
}.

(** A stream over a connected socket with descriptor [fd]. *)
Definition stream_on (fd : Z) (st : SocketStream) : Prop :=
  ∃ c, ss_socket st = Some c ∧ m_isConnected c = true ∧ m_sock c = fd.

(** An array whose nodes are large enough for [IOV_MAX] iovecs to refer to any
    [n] bytes in a row. *)
Definition few_iovecs (n : Z) (ba : ByteArray) : Prop := n ≤ (IOV_MAX - 1) * m_baseSize ba.

Lemma i32_len n : 0 ≤ n < 2 ^ 31 → i32 n = n.
Proof. intros Hn. unfold i32. apply wrapS_id; [done|unfold in_s; lia]. Qed.

Lemma Zlen_fmap {A B} (f : A → B) l : Zlen (f <$> l) = Zlen l.
Proof. unfold Zlen. by rewrite length_fmap. Qed.

Lemma positive_nonempty {A} (l : list A) : l ≠ [] → 0 < Zlen l.
Proof. destruct l; [done|]. intros _. unfold Zlen. simpl. lia. Qed.

(** Moving forward over readable bytes consumes them. *)
Lemma setPosition_consumes ba n :
  Inv ba → (n ≤ length (avail ba))%nat →
  ∃ ba', setPosition (m_position ba + Z.of_nat n) ba = (Ret tt, ba') ∧
    Consumed (take n (avail ba)) ba ba'.
Proof.
  intros Hi Hn. pose proof (inv_position ba Hi). pose proof (inv_size ba Hi).
  pose proof (Inv_length_avail ba Hi) as Hl.
  destruct (setPosition_spec (m_position ba + Z.of_nat n) ba Hi)
    as (ba' & Hs & Hi' & Hp & Hsz & Hnd & He & Hb); [lia|].
  assert (m_size ba' = m_size ba) as Hsz' by lia.
  assert (data ba' = data ba) as Hd by (unfold data, flat; by rewrite Hsz', Hnd).
  exists ba'. split; [done|]. constructor; try done.
  - unfold avail. rewrite Hd, Hp.
    replace (Z.to_nat (m_position ba + Z.of_nat n)) with (Z.to_nat (m_position ba) + n)%nat by lia.
    rewrite <- drop_drop. by rewrite take_drop.
  - rewrite Hp. unfold Zlen. rewrite length_take. lia.
Qed.

Lemma setPosition_base v ba ba' :
  setPosition v ba = (Ret tt, ba') → m_baseSize ba' = m_baseSize ba.
Proof.
  unfold setPosition. destruct (m_capacity ba <? v); [done|].
  destruct (seek _ _ _ _); [|done..]. by intros [= <-].
Qed.

(** Two ways to split a text. *)
Lemma prefix_of_both {A} (a b c d : list A) :
  a ++ b = c ++ d → (length c ≤ length a)%nat → ∃ e, a = c ++ e ∧ d = e ++ b.
Proof.
  revert c. induction a as [|x a IH]; intros [|y c] E Hl; simpl in Hl; try lia.
  - by exists [].
  - by exists (x :: a).
  - injection E as -> E. destruct (IH c E) as (e & -> & ->); [lia|]. by exists e.
Qed.

Section transfer.
Context {K : Type} `{!NetKernel K, !TcpConn K} (junk : nat → nat → Z).

Abbreviation RECV := (readFixSize_ba_loop (Stream0 := socket_stream junk)).
Abbreviation SEND := (writeFixSize_ba_loop (Stream0 := socket_stream junk)).

Lemma receive_loop fd st fuel : ∀ ba bs rest k,
  stream_on fd st → incoming fd k = bs ++ rest → (length bs ≤ fuel)%nat →
  Inv ba → room (Zlen bs) ba → few_iovecs (Zlen bs) ba → Zlen bs < 2 ^ 31 →
  ∃ ba' k', RECV fuel ba (Zlen bs) (st, k) = Ret (ba', (st, k')) ∧ Wrote bs ba ba' ∧
    incoming fd k' = rest ∧ sent fd k' = sent fd k.
Proof.
  induction fuel as [|fuel IH]; intros ba bs rest k Hst Hin Hf Hi Hr Hv Hb; cbn [readFixSize_ba_loop];
    (destruct bs as [|b0 bs0] eqn:Ebs;
     [exists ba, k; split_and!; [done|by apply Wrote_nil|done|done]|]); [simpl in Hf; lia|].
  rewrite <- Ebs in *. assert (bs ≠ []) as Hne by (by subst). pose proof (positive_nonempty bs Hne).
  destruct (Z.ltb_spec 0 (Zlen bs)); [|lia].
  destruct Hst as (c & Hc & Hcon & Hfd).
  destruct (getWriteBuffers_spec junk (Zlen bs) ba Hi) as (iovs & ba1 & Hg & _); [lia|done|].
  destruct (getWriteBuffers_shape junk (Zlen bs) ba iovs (Zlen bs) ba1 Hi) as [Ht Hc1]; [lia|done|done|].
  pose proof (inv_base ba Hi).
  destruct (recvmsg_some fd (iov_len <$> iovs) k) as (b1 & a & k1 & Hrv & Hn1 & Hl1 & Hin1 & Hs1);
    [rewrite Zlen_fmap; unfold few_iovecs, IOV_MAX in *; nia|fold (iov_total iovs); lia
    |by rewrite Hin; destruct bs|].
  fold (iov_total iovs) in Hl1. rewrite Ht in Hl1.
  destruct (prefix_of_both bs rest b1 (incoming fd k1)) as (b2 & E2 & Hin2);
    [congruence|unfold Zlen in Hl1; lia|].
  destruct (receive_is_write junk (Zlen bs) ba b1 Hi) as (iovs' & ba1' & ba2 & Hg' & _ & Hp & Hset & HW);
    [lia|done|lia|].
  rewrite Hg in Hg'. injection Hg' as <- <-.
  pose proof (positive_nonempty b1 Hn1).
  assert (read_ba (Stream := socket_stream junk) ba (Zlen bs) (st, k) =
    Ret (Zlen b1, ba2, (st, k1))) as ->.
  { cbn [read_ba socket_stream]. unfold ss_read_ba, stream_isConnected, ss_recv_iov, Socket_recv_iov.
    rewrite Hc. unfold isConnected. rewrite Hcon. cbn [negb]. rewrite Hg. cbn [obind].
    rewrite Hfd, Hrv, i32_len by lia. destruct (Z.ltb_spec 0 (Zlen b1)); [|lia].
    rewrite <- Hp in Hset. unfold run_m.
    change (m_position (moved ba1 (m_position ba1) (m_size ba1) (scatter (m_nodes ba1) iovs b1)
      (m_cur ba1))) with (m_position ba1). by rewrite Hset. }
  cbn [obind].
  assert (u64 (Zlen bs - u64 (Zlen b1)) = Zlen b2) as ->.
  { rewrite E2, Zlen_app in Hb |- *. pose proof (Zlen_nonneg b2).
    rewrite (u64_small (Zlen b1)) by lia. rewrite u64_small by lia. lia. }
  destruct (IH ba2 b2 rest k1) as (ba' & k' & Hl & HW' & Hin' & Hs').
  - by exists c.
  - done.
  - rewrite E2, length_app in Hf. unfold Zlen in *. lia.
  - apply HW.
  - unfold room in *. rewrite (wrote_position _ _ _ HW), (wrote_base _ _ _ HW).
    rewrite E2, Zlen_app in Hr. lia.
  - unfold few_iovecs in *. rewrite (wrote_base _ _ _ HW). rewrite E2, Zlen_app in Hv. lia.
  - rewrite E2, Zlen_app in Hb. lia.
  - exists ba', k'. rewrite Hl. split; [done|]. split; [|split; congruence].
    rewrite E2. by eapply Wrote_app.
Qed.

Lemma send_loop fd st fuel : ∀ ba n k,
  stream_on fd st → Inv ba → (n ≤ length (avail ba))%nat → (n ≤ fuel)%nat →
  few_iovecs (Z.of_nat n) ba → Z.of_nat n < 2 ^ 31 →
  ∃ ba' k', SEND fuel ba (Z.of_nat n) (st, k) = Ret (ba', (st, k')) ∧
    Consumed (take n (avail ba)) ba ba' ∧
    sent fd k' = sent fd k ++ take n (avail ba) ∧ incoming fd k' = incoming fd k.
Proof.
  induction fuel as [|fuel IH]; intros ba n k Hst Hi Hn Hf Hv Hb; cbn [writeFixSize_ba_loop];
    (destruct n as [|n0] eqn:En;
     [exists ba, k; rewrite take_0; split_and!; [done|by apply Consumed_nil|by rewrite app_nil_r|done]|]);
    [lia|].
  rewrite <- En in *. destruct (Z.ltb_spec 0 (Z.of_nat n)); [|lia].
  destruct Hst as (c & Hc & Hcon & Hfd).
  destruct (getReadBuffers_spec (Z.of_nat n) ba Hi) as (iovs & Hg & Hga); [lia|].
  rewrite Nat2Z.id in Hga.
  assert (length (take n (avail ba)) = n) as Hlt by (rewrite length_take; lia).
  rewrite Z.min_l in Hg by lia.
  pose proof (getReadBuffers_shape (Z.of_nat n) ba iovs (Z.of_nat n) Hi ltac:(lia) Hg) as Hsh.
  pose proof (inv_base ba Hi).
  unfold gather in Hga.
  destruct (sendmsg_some fd (buffers_of (m_nodes ba) iovs) k) as (m & k1 & Hsd & Hm & Hs1 & Hi1).
  { unfold buffers_of. rewrite Zlen_fmap. unfold few_iovecs, IOV_MAX in *. nia. }
  { rewrite Hga. intros E. rewrite E in Hlt. simpl in Hlt. lia. }
  rewrite Hga, Hlt in Hm. rewrite Hga in Hs1. rewrite take_take, Nat.min_l in Hs1 by lia.
  destruct (setPosition_consumes ba m Hi) as (ba1 & Hset & HC); [lia|].
  assert (write_ba (Stream := socket_stream junk) ba (Z.of_nat n) (st, k) =
    Ret (Z.of_nat m, ba1, (st, k1))) as ->.
  { cbn [write_ba socket_stream]. unfold ss_write_ba, stream_isConnected, ss_send_iov, Socket_send_iov.
    rewrite Hc. unfold isConnected. rewrite Hcon. cbn [negb]. rewrite Hg. cbn [obind].
    rewrite Hfd, Hsd, i32_len by lia. destruct (Z.ltb_spec 0 (Z.of_nat m)); [|lia].
    unfold run_m. by rewrite Hset. }
  cbn [obind].
  assert (u64 (Z.of_nat n - u64 (Z.of_nat m)) = Z.of_nat (n - m)) as ->.
  { rewrite (u64_small (Z.of_nat m)) by lia. rewrite u64_small by lia. lia. }
  assert (avail ba = take m (avail ba) ++ avail ba1) as Ha by apply HC.
  assert (length (avail ba1) = length (avail ba) - m)%nat as Hl1.
  { apply (f_equal length) in Ha. rewrite length_app, length_take in Ha. lia. }
  destruct (IH ba1 (n - m)%nat k1) as (ba' & k' & Hl & HC' & Hs' & Hi').
  - by exists c.
  - apply HC.
  - lia.
  - lia.
  - unfold few_iovecs in *. rewrite (consumed_base _ _ _ HC). lia.
  - lia.
  - assert (take n (avail ba) = take m (avail ba) ++ take (n - m) (avail ba1)) as Ht.
    { rewrite Ha at 1. rewrite take_app, length_take, Nat.min_l by lia.
      rewrite (take_ge (take m (avail ba)) n) by (rewrite length_take; lia). done. }
    exists ba', k'. rewrite Hl, Ht. split; [done|]. split; [by eapply Consumed_app|].
    split; [|congruence]. by rewrite Hs', Hs1, <- app_assoc.
Qed.

(** Bytes in more nodes than [IOV_MAX]: every [sendmsg] fails, which the loop
    takes for -1 bytes sent, so that it has one more to send each time. *)
Lemma send_too_many_nodes fd st fuel : ∀ ba left k,
  stream_on fd st → Inv ba → IOV_MAX * m_baseSize ba < Zlen (avail ba) →
  IOV_MAX * m_baseSize ba < left → left + Z.of_nat fuel < 2 ^ 64 →
  SEND fuel ba left (st, k) = Fault OutOfFuel.
Proof.
  induction fuel as [|fuel IH]; intros ba left k Hst Hi Ha Hl Hf; pose proof (inv_base ba Hi);
    unfold IOV_MAX in *; cbn [writeFixSize_ba_loop];
    (destruct (Z.ltb_spec 0 left); [|lia]); [done|].
  destruct (getReadBuffers_spec left ba Hi) as (iovs & Hg & _); [lia|].
  fold (Zlen (avail ba)) in Hg.
  pose proof (getReadBuffers_shape left ba iovs (Z.min left (Zlen (avail ba))) Hi ltac:(lia) Hg) as Hsh.
  assert (write_ba (Stream := socket_stream junk) ba left (st, k) = Ret (-1, ba, (st, k))) as ->.
  { destruct Hst as (c & Hc & Hcon & Hfd).
    cbn [write_ba socket_stream]. unfold ss_write_ba, stream_isConnected, ss_send_iov, Socket_send_iov.
    rewrite Hc. unfold isConnected. rewrite Hcon. cbn [negb]. rewrite Hg. cbn [obind].
    rewrite Hfd, sendmsg_many; [done|]. unfold buffers_of. rewrite Zlen_fmap.
    unfold IOV_MAX, Zlen in *. nia. }
  cbn [obind]. replace (u64 (left - u64 (-1))) with (left + 1).
  - apply IH; [done|done|done|lia|lia].
  - unfold u64, wrapU. change (-1 mod 2 ^ 64) with (2 ^ 64 - 1).
    apply (Z.mod_unique_pos _ _ (-1)); lia.
Qed.

(** ** Plain memory *)

Abbreviation READLOOP := (readFixSize_loop (Stream0 := socket_stream junk)).
Abbreviation WRITELOOP := (writeFixSize_loop (Stream0 := socket_stream junk)).

(** A connected stream reads and writes through its descriptor. *)
Lemma read_on fd st n k :
  stream_on fd st → Stream.read (Stream := socket_stream junk) n (st, k) =
    (let '(rt, bs, k') := recv_f fd n k in (i32 rt, bs, (st, k'))).
Proof.
  intros (c & Hc & Hcon & Hfd). cbn [Stream.read socket_stream].
  unfold ss_read, stream_isConnected, ss_recv, Socket_recv, isConnected. rewrite Hc, Hcon, Hfd.
  cbn [negb]. by destruct (recv_f fd n k) as [[? ?] ?].
Qed.

Lemma write_on fd st bs k :
  stream_on fd st → Stream.write (Stream := socket_stream junk) bs (st, k) =
    (let '(rt, k') := send_f fd bs k in (if i32 rt =? 0 then 0 else 1, (st, k'))).
Proof.
  intros (c & Hc & Hcon & Hfd). cbn [Stream.write socket_stream].
  unfold ss_write, stream_isConnected, ss_send, Socket_send, isConnected. rewrite Hc, Hcon, Hfd.
  cbn [negb]. by destruct (send_f fd bs k).
Qed.

Lemma store_at_ok {A} (buffer : list A) p bs :
  (p + length bs ≤ length buffer)%nat →
  store_at buffer (Z.of_nat p) bs = Ret (overlay buffer p bs).
Proof.
  intros Hl. unfold store_at. destruct bs as [|b bs]; [by rewrite overlay_nil|].
  unfold Zlen. rewrite !(proj2 (Z.leb_le _ _)) by lia. by rewrite Nat2Z.id.
Qed.

Lemma read_loop fd st fuel : ∀ (buffer : list Z) p bs rest k,
  stream_on fd st → incoming fd k = bs ++ rest → (length bs ≤ fuel)%nat →
  (p + length bs ≤ length buffer)%nat → Zlen buffer < 2 ^ 31 →
  ∃ k', READLOOP fuel (Z.of_nat p) (Zlen bs) buffer (st, k) = Ret (overlay buffer p bs, (st, k')) ∧
    incoming fd k' = rest ∧ sent fd k' = sent fd k.
Proof.
  induction fuel as [|fuel IH]; intros buffer p bs rest k Hst Hin Hf Hp Hb; cbn [readFixSize_loop];
    (destruct bs as [|b0 bs0] eqn:Ebs;
     [exists k; rewrite overlay_nil; split_and!; done|]); [simpl in Hf; lia|].
  rewrite <- Ebs in *. assert (bs ≠ []) as Hne by (by subst). pose proof (positive_nonempty bs Hne).
  destruct (Z.ltb_spec 0 (Zlen bs)); [|lia].
  destruct (recv_some fd (Zlen bs) k) as (b1 & k1 & Hrv & Hn1 & Hl1 & Hin1 & Hs1);
    [lia|by rewrite Hin; destruct bs|].
  destruct (prefix_of_both bs rest b1 (incoming fd k1)) as (b2 & E2 & Hin2);
    [congruence|unfold Zlen in Hl1; lia|].
  rewrite (read_on fd) by done. rewrite Hrv. unfold Zlen in *. rewrite i32_len by lia.
  rewrite E2, length_app in *. rewrite store_at_ok by lia. cbn [obind].
  assert (u64 (Z.of_nat p + u64 (Z.of_nat (length b1))) = Z.of_nat (p + length b1)) as ->
    by (rewrite (u64_small (Z.of_nat (length b1))), u64_small by lia; lia).
  assert (u64 (Z.of_nat (length b1 + length b2) - u64 (Z.of_nat (length b1))) = Z.of_nat (length b2))
    as -> by (rewrite (u64_small (Z.of_nat (length b1))), u64_small by lia; lia).
  assert (0 < length b1)%nat by (destruct b1; [done|simpl; lia]).
  destruct (IH (overlay buffer p b1) (p + length b1)%nat b2 rest k1) as (k' & Hl & Hin' & Hs');
    [done|done|lia|by rewrite length_overlay; lia|by rewrite length_overlay; lia|].
  exists k'. rewrite Hl. split; [|split; congruence]. by rewrite overlay_overlay by lia.
Qed.

(** More fuel gives the same result. *)
Lemma read_more_fuel fuel fuel' : ∀ offset left (buffer : list Z) w r,
  READLOOP fuel offset left buffer w = Ret r → (fuel ≤ fuel')%nat →
  READLOOP fuel' offset left buffer w = Ret r.
Proof.
  revert fuel'. induction fuel as [|fuel IH]; intros fuel' offset left buffer w r Hr Hf.
  - cbn [readFixSize_loop] in Hr. destruct fuel'; cbn [readFixSize_loop];
      by destruct (0 <? left).
  - destruct fuel' as [|fuel']; [lia|]. cbn [readFixSize_loop] in *.
    destruct (0 <? left); [|done]. destruct (Stream.read left w) as [[rt bytes] w'].
    destruct (store_at buffer offset bytes); [|done|done]. cbn [obind] in *.
    apply IH; [done|lia].
Qed.

(** A peer that closes too early: the loop never ends. *)
Lemma read_loop_end fd st fuel : ∀ (buffer : list Z) p left k,
  stream_on fd st → (length (incoming fd k) < left)%nat → (p + left ≤ length buffer)%nat →
  Zlen buffer < 2 ^ 31 →
  READLOOP fuel (Z.of_nat p) (Z.of_nat left) buffer (st, k) = Fault OutOfFuel.
Proof.
  induction fuel as [|fuel IH]; intros buffer p left k Hst Hin Hp Hb; cbn [readFixSize_loop];
    (destruct (Z.ltb_spec 0 (Z.of_nat left)); [|lia]); [done|].
  rewrite (read_on fd) by done. unfold Zlen in *. destruct (incoming fd k) as [|x l] eqn:E.
  - rewrite recv_end by done. cbn [store_at obind].
    change (u64 (i32 0)) with 0. rewrite Z.add_0_r, Z.sub_0_r, !u64_small by lia.
    apply IH; [done|by rewrite E|done|done].
  - destruct (recv_some fd (Z.of_nat left) k) as (b1 & k1 & Hrv & Hn1 & Hl1 & Hin1 & _);
      [lia|by rewrite E|].
    rewrite Hrv. unfold Zlen in *. rewrite i32_len by lia. rewrite E in Hin1. pose proof (f_equal length Hin1) as Hlen.
    rewrite length_app in Hlen. rewrite store_at_ok by lia. cbn [obind].
    replace (u64 (Z.of_nat p + u64 (Z.of_nat (length b1)))) with (Z.of_nat (p + length b1))
      by (rewrite (u64_small (Z.of_nat (length b1))), u64_small by lia; lia).
    replace (u64 (Z.of_nat left - u64 (Z.of_nat (length b1)))) with (Z.of_nat (left - length b1))
      by (rewrite (u64_small (Z.of_nat (length b1))), u64_small by lia; lia).
    apply IH; [done|lia|rewrite length_overlay; lia|rewrite length_overlay; lia].
Qed.

(** What reaches the peer: for each suffix of the buffer a piece, which is some
    of the first bytes of the suffix; all of it when [send] takes all it is
    given. *)
Definition begins_suffix (buffer piece : list Z) (i : nat) : Prop :=
  piece ≠ [] ∧ piece `prefix_of` drop i buffer.
Definition takes_all (fd : Z) : Prop := ∀ bs k, fst (send_f fd bs k) = Zlen bs.

Lemma write_loop_pieces fd st fuel : ∀ (buffer : list Z) p k,
  stream_on fd st → (p ≤ length buffer)%nat → (length buffer - p ≤ fuel)%nat →
  Zlen buffer < 2 ^ 31 →
  ∃ pieces k',
    WRITELOOP fuel buffer (Z.of_nat p) (Z.of_nat (length buffer - p)) (st, k) = Ret (st, k') ∧
    sent fd k' = sent fd k ++ concat pieces ∧
    Forall2 (begins_suffix buffer) pieces (seq p (length buffer - p)) ∧
    (takes_all fd → pieces = (λ i, drop i buffer) <$> seq p (length buffer - p)).
Proof.
  induction fuel as [|fuel IH]; intros buffer p k Hst Hp Hf Hb; cbn [writeFixSize_loop];
    (destruct (length buffer - p)%nat as [|n] eqn:En;
     [exists [], k; split_and!; [done|by rewrite app_nil_r|by constructor|done]|]); [lia|].
  destruct (Z.ltb_spec 0 (Z.of_nat (S n))); [|lia]. unfold load_at, Zlen in *.
  rewrite !(proj2 (Z.leb_le _ _)) by lia. cbn [andb obind]. rewrite !Nat2Z.id.
  rewrite take_ge by (rewrite length_drop; lia). rewrite (write_on fd) by done.
  pose proof (length_drop buffer p) as Hd.
  destruct (send_some fd (drop p buffer) k) as (m & k1 & Hs & Hm & Hs1 & _).
  { intros E. rewrite E in Hd. simpl in Hd. lia. }
  rewrite Hs, i32_len by lia. destruct (Z.eqb_spec (Z.of_nat m) 0); [lia|].
  change (u64 1) with 1. rewrite !u64_small by lia.
  replace (Z.of_nat p + 1) with (Z.of_nat (S p)) by lia.
  replace (Z.of_nat (S n) - 1) with (Z.of_nat (length buffer - S p)) by lia.
  destruct (IH buffer (S p) k1) as (pieces & k' & Hw & Hs' & HF & Hall); [done|lia|lia|done|].
  replace (length buffer - S p)%nat with n in HF, Hall by lia.
  exists (take m (drop p buffer) :: pieces), k'. cbn [seq concat fmap list_fmap]. split_and!.
  - done.
  - by rewrite Hs', Hs1, <- app_assoc.
  - constructor; [|done]. split; [|apply prefix_take].
    intros E. apply (f_equal length) in E. rewrite length_take in E. simpl in E. lia.
  - intros Ht. rewrite (Hall Ht). pose proof (Ht (drop p buffer) k) as Hk. rewrite Hs in Hk.
    cbn [fst] in Hk. unfold Zlen in Hk. by rewrite take_ge by lia.
Qed.

(** When every [send] fails. *)
Lemma write_loop_fails fd st fuel : ∀ (buffer : list Z) p k,
  (∀ bs k, send_f fd bs k = (-1, k)) →
  stream_on fd st → (p ≤ length buffer)%nat → (length buffer - p ≤ fuel)%nat →
  Zlen buffer < 2 ^ 63 →
  WRITELOOP fuel buffer (Z.of_nat p) (Z.of_nat (length buffer - p)) (st, k) = Ret (st, k).
Proof.
  induction fuel as [|fuel IH]; intros buffer p k Hsend Hst Hp Hf Hb; cbn [writeFixSize_loop];
    (destruct (length buffer - p)%nat as [|n] eqn:En; [done|]); [lia|].
  destruct (Z.ltb_spec 0 (Z.of_nat (S n))); [|lia]. unfold load_at, Zlen in *.
  rewrite !(proj2 (Z.leb_le _ _)) by lia. cbn [andb obind]. rewrite (write_on fd), Hsend by done.
  change (i32 (-1) =? 0) with false. cbv iota.
  change (u64 1) with 1. rewrite !u64_small by lia.
  replace (Z.of_nat p + 1) with (Z.of_nat (S p)) by lia.
  replace (Z.of_nat (S n) - 1) with (Z.of_nat (length buffer - S p)) by lia.
  apply IH; [done|done|lia|lia|done].
Qed.
End transfer.

(** * Properties *)

(** C1. A message crosses a connection: what [write_message] puts into a
    ByteArray on one host, sent with [writeFixSize], arrives with
    [readFixSize] in a ByteArray on another, and [read_message] returns the
    very same fields, however the kernel splits the bytes on the way and
    whatever the byte orders of the hosts.  Both loops end, after at most as
    many rounds as there are bytes.  The two arrays are well formed, have room
    and are set to the same byte order; the message has less than 2^31 bytes,
    and at most 1023 times the node size of either array, so that no call
    needs more than IOV_MAX = 1024 iovecs; and both connections stay up. *)
Theorem message_over_socket {K} `{!NetKernel K, !TcpConn K} (P Q : Platform)
    (junk : nat → nat → Z) (m : list field) (src dst : ByteArray) (fd fd' : Z)
    (st st' : SocketStream) (k : K) (fuel : nat) :
  let bytes := message_wire (m_endian src) m in
  message_ok m → Inv src → room (Zlen bytes) src → Inv dst → room (Zlen bytes) dst →
  few_iovecs (Zlen bytes) src → few_iovecs (Zlen bytes) dst → Zlen bytes < 2 ^ 31 →
  m_endian dst = m_endian src → stream_on fd st → stream_on fd' st' → (length bytes ≤ fuel)%nat →
  ∃ src1 src2 src3 k1,
    write_message (P := P) junk m src = (Ret tt, src1) ∧
    setPosition (m_position src) src1 = (Ret tt, src2) ∧
    writeFixSize_ba (Stream0 := socket_stream junk) fuel src2 (Zlen bytes) (st, k)
      = Ret (i32 (Zlen bytes), src3, (st, k1)) ∧
    sent fd k1 = sent fd k ++ bytes ∧
    ∀ k2 rest, incoming fd' k2 = bytes ++ rest →
      ∃ dst1 dst2 dst3 k3,
        readFixSize_ba (Stream0 := socket_stream junk) fuel dst (Zlen bytes) (st', k2)
          = Ret (i32 (Zlen bytes), dst1, (st', k3)) ∧
        setPosition (m_position dst) dst1 = (Ret tt, dst2) ∧
        read_message (P := Q) (f_format <$> m) dst2 = (Ret m, dst3) ∧
        incoming fd' k3 = rest.
Proof.
  intros bytes Hm Hs Hrs Hd Hrd Hvs Hvd Hb He Hst Hst' Hf.
  destruct (write_message_spec (P := P) junk m src Hm Hs Hrs) as (src1 & Hw & HW).
  destruct (Wrote_back _ _ _ Hs HW) as (src2 & Hset & Hi2 & _ & Ha). fold bytes in Ha.
  destruct (send_loop junk fd st fuel src2 (length bytes) k) as (src3 & k1 & Hl & _ & Hsent & _);
    [done|done|rewrite Ha, length_app; lia|done| |done|].
  { unfold few_iovecs. by rewrite (setPosition_base _ _ _ Hset), (wrote_base _ _ _ HW). }
  exists src1, src2, src3, k1. unfold writeFixSize_ba. change (Zlen bytes) with (Z.of_nat (length bytes)).
  rewrite Hl. split_and!; [done|done|done| |].
  { by rewrite Hsent, Ha, take_app_length. }
  intros k2 rest Hin.
  destruct (receive_loop junk fd' st' fuel dst bytes rest k2) as (dst1 & k3 & Hl2 & HW2 & Hin3 & _);
    [done..|].
  destruct (Wrote_back _ _ _ Hd HW2) as (dst2 & Hset2 & Hid2 & He2 & Ha2).
  assert (avail dst2 = message_wire (m_endian dst2) m ++
    drop (Z.to_nat (m_position dst) + length bytes) (data dst)) as Ha3
    by (rewrite Ha2, He2, He; done).
  destruct (read_message_spec (P := Q) junk m dst2 _ Hm Hid2 Ha3) as (dst3 & Hr & _).
  exists dst1, dst2, dst3, k3. unfold readFixSize_ba.
  change (Z.of_nat (length bytes)) with (Zlen bytes). by rewrite Hl2.
Qed.

(** Reading a fixed number of bytes into memory: when the peer sends
    that many, [readFixSize] ends and stores exactly the next bytes, in order,
    and leaves those after them; but when the peer closes before, it never
    returns: the end of the stream is not an error to the loop. *)
Theorem read_fix_size_exact {K} `{!NetKernel K, !TcpConn K} (junk : nat → nat → Z)
    (fd : Z) (st : SocketStream) (k : K) (buffer bs : list Z) (left : nat) :
  stream_on fd st → (left ≤ length buffer)%nat → Zlen buffer < 2 ^ 31 → (0 < left)%nat →
  incoming fd k = bs →
  ((left ≤ length bs)%nat →
     ∃ k', (∀ fuel, (left ≤ fuel)%nat →
        readFixSize (Stream0 := socket_stream junk) fuel buffer (Z.of_nat left) (st, k)
          = Ret (i32 (Z.of_nat left), overlay buffer 0 (take left bs), (st, k'))) ∧
        incoming fd k' = drop left bs) ∧
  ((length bs < left)%nat →
     ∀ fuel, readFixSize (Stream0 := socket_stream junk) fuel buffer (Z.of_nat left) (st, k)
               = Fault OutOfFuel).
Proof.
  intros Hst Hl Hb Hpos Hin. split.
  - intros Hle. assert (Zlen (take left bs) = Z.of_nat left) as El
      by (unfold Zlen; rewrite length_take; lia).
    assert (∀ fuel, (left ≤ fuel)%nat → ∃ k',
      readFixSize_loop (Stream0 := socket_stream junk) fuel 0 (Z.of_nat left) buffer (st, k) =
        Ret (overlay buffer 0 (take left bs), (st, k')) ∧ incoming fd k' = drop left bs) as H.
    { intros fuel Hf. rewrite <- El.
      destruct (read_loop junk fd st fuel buffer 0 (take left bs) (drop left bs) k)
        as (k' & Hr & Hi & _); [done|by rewrite take_drop|rewrite length_take; lia
        |rewrite length_take; lia|done|].
      by exists k'. }
    destruct (H left) as (k' & Hr & Hi); [lia|]. exists k'. split; [|done]. intros fuel Hf.
    unfold readFixSize. rewrite (read_more_fuel junk _ _ _ _ _ _ _ Hr Hf). done.
  - intros Hlt fuel. unfold readFixSize.
    by rewrite (read_loop_end junk fd st fuel buffer 0 left k) by (by subst || done).
Qed.

(** Writing from memory through a socket stream does not send the bytes
    once: [SocketStream::write] returns the truth of what [send] returned, so
    [writeFixSize] counts one byte per call.  The peer gets some first bytes of
    every suffix of the buffer; and when every [send] fails, [writeFixSize]
    still reports that all bytes were written. *)
Theorem write_sends_suffixes {K} `{!NetKernel K, !TcpConn K} (junk : nat → nat → Z)
    (fd : Z) (st : SocketStream) (k : K) (buffer : list Z) (fuel : nat) :
  stream_on fd st → Zlen buffer < 2 ^ 31 → (length buffer ≤ fuel)%nat →
  (∃ pieces k', writeFixSize (Stream0 := socket_stream junk) fuel buffer (Zlen buffer) (st, k)
           = Ret (Zlen buffer, (st, k')) ∧
     sent fd k' = sent fd k ++ concat pieces ∧
     Forall2 (begins_suffix buffer) pieces (seq 0 (length buffer)) ∧
     (takes_all (K := K) fd → pieces = (λ i, drop i buffer) <$> seq 0 (length buffer))) ∧
  ((∀ bs k, send_f fd bs k = (-1, k)) →
   writeFixSize (Stream0 := socket_stream junk) fuel buffer (Zlen buffer) (st, k)
     = Ret (Zlen buffer, (st, k))).
Proof.
  intros Hst Hb Hf. pose proof (Zlen_nonneg buffer).
  split; [|intros Hsend]; unfold writeFixSize.
  - destruct (write_loop_pieces junk fd st fuel buffer 0 k) as (pieces & k' & Hw & Hs & HF & Ha);
      [done|lia|lia|done|].
    rewrite Nat.sub_0_r in Hw, HF, Ha. change (Z.of_nat 0) with 0 in Hw.
    exists pieces, k'. unfold Zlen in *. rewrite Hw. cbn [obind]. by rewrite i32_len.
  - pose proof (write_loop_fails junk fd st fuel buffer 0 k Hsend Hst) as Hw.
    rewrite Nat.sub_0_r in Hw. change (Z.of_nat 0) with 0 in Hw. unfold Zlen in *. rewrite Hw by lia.
    cbn [obind]. by rewrite i32_len.
Qed.

(** * Witnesses *)

(** One connection: the bytes to come and the bytes sent; two bytes are
    received and three sent at a time. *)
Record wire := mkWire { wi_in : list Z; wi_out : list Z }.

#[export] Instance wire_net : NetKernel wire := {
  bind_f fd a k := (0, k);
  listen_f fd n k := (0, k);
  getsockname_f fd k := None;
  getpeername_f fd k := None;
  getsockopt_error fd k := inl 0;
  recv_f fd n k :=
    let bs := take (Z.to_nat (Z.min n 2)) (wi_in k) in
    (Zlen bs, bs, mkWire (drop (length bs) (wi_in k)) (wi_out k));
  send_f fd bs k :=
    (Z.of_nat (length (take 3 bs)), mkWire (wi_in k) (wi_out k ++ take 3 bs));
  sendto_f fd bs a k := (-1, k);
  recvfrom_f fd n k := (-1, [], [], k);
  recvmsg_f fd lens k :=
    if IOV_MAX <? Zlen lens then (-1, [], [], k) else
    let bs := take (Z.to_nat (Z.min (foldr Z.add 0 lens) 2)) (wi_in k) in
    (Zlen bs, bs, [], mkWire (drop (length bs) (wi_in k)) (wi_out k));
  sendmsg_f fd bufs a k :=
    if IOV_MAX <? Zlen bufs then (-1, k) else
    (Z.of_nat (length (take 3 (concat bufs))), mkWire (wi_in k) (wi_out k ++ take 3 (concat bufs)));
}.

Lemma take_drop_own {A} j (l : list A) : l = take j l ++ drop (length (take j l)) l.
Proof.
  rewrite length_take. destruct (decide (j ≤ length l)%nat).
  - by rewrite Nat.min_l, take_drop by done.
  - rewrite Nat.min_r, drop_all, take_ge by lia. by rewrite app_nil_r.
Qed.

Lemma wire_takes n (k : wire) :
  0 < n → wi_in k ≠ [] →
  let bs := take (Z.to_nat (Z.min n 2)) (wi_in k) in
  bs ≠ [] ∧ Zlen bs ≤ n ∧ wi_in k = bs ++ drop (length bs) (wi_in k).
Proof.
  intros Hn Hk. split_and!; [| |apply take_drop_own].
  - intros E. apply (f_equal length) in E. rewrite length_take in E. destruct (wi_in k); [done|].
    simpl in E. lia.
  - unfold Zlen. rewrite length_take. lia.
Qed.

Lemma wire_gives (bs : list Z) : bs ≠ [] →
  (0 < length (take 3 bs) ≤ length bs)%nat ∧ take 3 bs = take (length (take 3 bs)) bs.
Proof.
  intros Hbs. rewrite length_take. destruct bs as [|b bs]; [done|].
  split; [cbn [length]; lia|]. destruct (decide (3 ≤ length (b :: bs))%nat).
  - by rewrite Nat.min_l.
  - by rewrite Nat.min_r, !take_ge by lia.
Qed.

#[export] Instance wire_conn : TcpConn wire.
Proof.
  refine {| incoming fd k := wi_in k; sent fd k := wi_out k |}.
  - intros fd n k Hn Hk. destruct (wire_takes n k Hn Hk) as (? & ? & ?). by eexists _, _.
  - intros fd n k Hk. cbn. rewrite Hk, take_nil. destruct k. cbn in *. by subst.
  - intros fd bs k [Hl He]%wire_gives. eexists (length (take 3 bs)), _. split; [reflexivity|].
    split; [done|]. split; [|done]. by rewrite <- He.
  - intros fd lens k Hl Hn Hk. destruct (wire_takes _ k Hn Hk) as (? & ? & ?).
    cbn [recvmsg_f wire_net]. destruct (Z.ltb_spec IOV_MAX (Zlen lens)); [lia|]. by eexists _, _, _.
  - intros fd lens k Hl Hk. cbn [recvmsg_f wire_net]. destruct (Z.ltb_spec IOV_MAX (Zlen lens)); [lia|].
    exists []. rewrite Hk, take_nil. destruct k. cbn in *. by subst.
  - intros fd bufs k Hl [Hm He]%wire_gives. cbn [sendmsg_f wire_net].
    destruct (Z.ltb_spec IOV_MAX (Zlen bufs)); [lia|].
    eexists (length (take 3 (concat bufs))), _. split; [reflexivity|].
    split; [done|]. split; [|done]. by rewrite <- He.
  - intros fd bufs k Hl. cbn [sendmsg_f wire_net].
    by destruct (Z.ltb_spec IOV_MAX (Zlen bufs)); [|lia].
Defined.

Definition demo_stream : SocketStream := mkStream (Some (mkSocket 5 2 1 0 true None None)) true.

Lemma demo_stream_on : stream_on 5 demo_stream.
Proof. by eexists. Qed.

Lemma sample_message_ok : message_ok sample_message.
Proof.
  unfold message_ok, sample_message. rewrite !Forall_cons, Forall_nil. simpl.
  unfold has_type, string_ok, in_s, in_u, Zlen, bits. simpl. lia.
Qed.

(** Seventeen bytes, from nodes of three bytes into nodes of two. *)
Lemma message_over_socket_witness :
  ∃ dst1 dst2 dst3 k3,
    readFixSize_ba (Stream0 := socket_stream zeros) 64 (ByteArray_new zeros 2) 17
      (demo_stream, mkWire (message_wire APEXSTORM_BIG_ENDIAN sample_message ++ [9]) [])
      = Ret (17, dst1, (demo_stream, k3)) ∧
    setPosition 0 dst1 = (Ret tt, dst2) ∧
    read_message (P := s390x) (f_format <$> sample_message) dst2 = (Ret sample_message, dst3) ∧
    wi_in k3 = [9].
Proof.
  assert (∀ n, 0 < n < 100 → Inv (ByteArray_new zeros n)) as Hn
    by (intros n Hn; apply Inv_new; unfold max_capacity; lia).
  destruct (message_over_socket x86_64 s390x zeros sample_message (ByteArray_new zeros 3)
    (ByteArray_new zeros 2) 5 5 demo_stream demo_stream (mkWire [] []) 64)
    as (_ & _ & _ & _ & _ & _ & _ & _ & H).
  - exact sample_message_ok.
  - apply Hn. lia.
  - unfold room, max_capacity. vm_compute. discriminate.
  - apply Hn. lia.
  - unfold room, max_capacity. vm_compute. discriminate.
  - vm_compute. discriminate.
  - vm_compute. discriminate.
  - vm_compute. reflexivity.
  - reflexivity.
  - exact demo_stream_on.
  - exact demo_stream_on.
  - vm_compute. lia.
  - exact (H (mkWire (message_wire APEXSTORM_BIG_ENDIAN sample_message ++ [9]) []) [9] eq_refl).
Defined.

Lemma read_fix_size_exact_witness :
  ∃ k', readFixSize (Stream0 := socket_stream zeros) 8 (replicate 4 0) 3
      (demo_stream, mkWire [1; 2; 3; 4; 5] []) = Ret (3, [1; 2; 3; 0], (demo_stream, k')) ∧
    wi_in k' = [4; 5].
Proof.
  destruct (read_fix_size_exact zeros 5 demo_stream (mkWire [1; 2; 3; 4; 5] []) (replicate 4 0)
    [1; 2; 3; 4; 5] 3) as [H _];
    [exact demo_stream_on|simpl; lia|unfold Zlen; simpl; lia|lia|reflexivity|].
  destruct H as (k' & H1 & H2); [simpl; lia|].
  exists k'. split; [apply (H1 8%nat); lia|exact H2].
Defined.

(** A connection that only sends, and takes all it is given. *)
Record wide := mkWide { wd_out : list Z }.

#[export] Instance wide_net : NetKernel wide := {
  bind_f fd a k := (0, k);
  listen_f fd n k := (0, k);
  getsockname_f fd k := None;
  getpeername_f fd k := None;
  getsockopt_error fd k := inl 0;
  recv_f fd n k := (0, [], k);
  send_f fd bs k := (Zlen bs, mkWide (wd_out k ++ bs));
  sendto_f fd bs a k := (-1, k);
  recvfrom_f fd n k := (-1, [], [], k);
  recvmsg_f fd lens k := (0, [], [], k);
  sendmsg_f fd bufs a k :=
    if IOV_MAX <? Zlen bufs then (-1, k) else (Zlen (concat bufs), mkWide (wd_out k ++ concat bufs));
}.

Lemma wide_gives (bs : list Z) : bs ≠ [] → (0 < length bs ≤ length bs)%nat.
Proof. destruct bs; [done|]. simpl. lia. Qed.

#[export] Instance wide_conn : TcpConn wide.
Proof.
  refine {| incoming fd k := []; sent fd k := wd_out k |}; try done.
  - intros fd bs k Hbs%wide_gives. exists (length bs). eexists. split; [reflexivity|].
    split; [done|]. by rewrite firstn_all.
  - intros fd lens k _ _. by exists [].
  - intros fd bufs k Hl Hbs%wide_gives. cbn [sendmsg_f wide_net].
    destruct (Z.ltb_spec IOV_MAX (Zlen bufs)); [lia|].
    exists (length (concat bufs)). eexists. split; [reflexivity|].
    split; [done|]. by rewrite firstn_all.
  - intros fd bufs k Hl. cbn [sendmsg_f wide_net].
    by destruct (Z.ltb_spec IOV_MAX (Zlen bufs)); [|lia].
Defined.

Lemma write_sends_suffixes_witness :
  ∃ k', writeFixSize (Stream0 := socket_stream zeros) 8 [1; 2; 3] 3 (demo_stream, mkWide [])
          = Ret (3, (demo_stream, k')) ∧ wd_out k' = [1; 2; 3; 2; 3; 3].
Proof.
  destruct (write_sends_suffixes zeros 5 demo_stream (mkWide []) [1; 2; 3] 8) as [H _];
    [exact demo_stream_on|unfold Zlen; simpl; lia|simpl; lia|].
  destruct H as (pieces & k' & Hw & Hs & _ & Ha). exists k'. split; [exact Hw|].
  change (wd_out k' = [] ++ concat pieces) in Hs. rewrite Hs, Ha; [reflexivity|].
  intros bs k. reflexivity.
Defined.
