(* ===== verification/HttpSession.v ===== *)
(** HTTP over a connection: http/http_session.h, http_session.cpp,
    http/http_server.h and http_server.cpp.

    A session is a socket stream; [recvRequest] and [sendResponse] use only the
    functions of [Stream].  The contents of fresh memory (the read buffer and
    the parser) are arguments, and [cast] is [boost::lexical_cast<uint64_t>]. *)

From S2P Require Import Prelude Endian Address FdManager Hook Socket Stream.
From S2P Require Import Http CString Http11Parser HttpParser.

#[local] Open Scope string_scope.
#[local] Open Scope list_scope.
#[local] Open Scope Z_scope.

(** * HttpSession *)

Definition HttpSession_new (sock : option Socket) (owner : bool) : SocketStream :=
  SocketStream_new sock owner.

(** [uint64_t buff_size = 150]. *)
Definition buff_size : Z := 150.

Section session.
Context {W : Type} `{!Stream W} (cast : text → option Z).

(** The loop that reads the head: [None] is [return nullptr]; otherwise the
    buffer, the bytes in it that the parser left, and the parser. *)
Fixpoint recvRequest_loop (fuel : nat) (data : text) (offset : Z) (parser : HttpRequestParer)
    (w : W) : outcome (option (text * Z * HttpRequestParer) * W) :=
  match fuel with
  | O => Fault OutOfFuel
  | S fuel =>
      let '(rt, bytes, w) := Stream.read (u64 (buff_size - offset)) w in
      let! data := store_at data offset (char_of <$> bytes) in
      if rt <=? 0 then Ret (None, w)
      else
        let len := rt + offset in
        let! (actual_parse, data, parser) := execute data len parser in
        if hasError parser then Ret (None, w)
        else
          let offset := i32 (u64 (len - actual_parse)) in
          if offset =? i32 buff_size then Ret (None, w)
          else if negb (isFinished parser =? 0) then Ret (Some (data, offset, parser), w)
          else recvRequest_loop fuel data offset parser w
  end.

(** [body.reserve(length)]. *)
Definition reserve (length : Z) : outcome unit :=
  if 2 ^ 63 - 2 <? length then Throw std_length_error else Ret tt.

(** What follows the loop.  The rest of the body is read into the memory that
    [reserve] allocated behind the characters of [body]; the size of the
    string does not change. *)
Definition recvRequest_body (fuel : nat) (data : text) (offset : Z) (parser : HttpRequestParer)
    (w : W) : outcome (option HttpRequest * W) :=
  let length := getContentLength cast parser in
  if 0 <? length then
    let! _ := reserve length in
    let! body := std_string data (if u64 offset <=? length then offset else length) in
    let behind := replicate (Z.to_nat (length - Zlen body)) 0 in
    let length := u64 (length - u64 offset) in
    if 0 <? length then
      let! (rt, _, w) := readFixSize fuel behind length w in
      if rt <=? 0 then Ret (None, w) else Ret (Some (setBody body (rp_data parser)), w)
    else Ret (Some (setBody body (rp_data parser)), w)
  else Ret (Some (rp_data parser), w).

(** [HttpSession::recvRequest], with the fresh memory [mem] of the parser and
    [buffer]; [None] is the null pointer. *)
Definition recvRequest (fuel : nat) (mem : http_parser) (buffer : text) (w : W)
    : outcome (option HttpRequest * W) :=
  let! (head, w) := recvRequest_loop fuel buffer 0 (HttpRequestParer_new mem) w in
  match head with
  | None => Ret (None, w)
  | Some (data, offset, parser) => recvRequest_body fuel data offset parser w
  end.

(** [HttpSession::sendResponse]. *)
Definition sendResponse (fuel : nat) (rsp : HttpResponse) (w : W) : outcome (Z * W) :=
  let data := response_dump rsp in
  writeFixSize fuel (byte_of <$> data) (Zlen data) w.

End session.

(** * HttpServer *)

(** The response [handleClient] builds. *)
Definition client_response (keepalive : bool) (req : HttpRequest) : HttpResponse :=
  response_setBody (str "hello apexstorm")
    (HttpResponse_new (m_version req) (m_close req || negb keepalive)).

Section server.
Context {K : Type} `{!Kernel K} `{!NetKernel K} (junk : nat → nat → Z).
Context (cast : text → option Z).

(** The loop of [handleClient], for at most [rounds] requests; the memory that
    a round allocates is [mem] and [buffer] at its number. *)
Fixpoint handleClient_loop (rounds fuel : nat) (keepalive : bool) (mem : nat → http_parser)
    (buffer : nat → text) (w : SocketStream * K) : outcome (SocketStream * K) :=
  match rounds with
  | O => Fault OutOfFuel
  | S rounds =>
      let! (req, w) :=
        recvRequest (Stream0 := socket_stream junk) cast fuel (mem rounds) (buffer rounds) w in
      match req with
      | None => Ret w
      | Some req =>
          let! (_, w) :=
            sendResponse (Stream0 := socket_stream junk) fuel (client_response keepalive req) w in
          if keepalive then handleClient_loop rounds fuel keepalive mem buffer w else Ret w
      end
  end.

(** [HttpServer::handleClient]: the session is closed, and destroyed with its
    last pointer. *)
Definition handleClient (rounds fuel : nat) (keepalive iom : bool) (mem : nat → http_parser)
    (buffer : nat → text) (client : Socket) (s : HookState K)
    : outcome (SocketStream * HookState K) :=
  let session := HttpSession_new (Some client) true in
  let! (session, k) := handleClient_loop rounds fuel keepalive mem buffer (session, kernel s) in
  let s := mkHook k (fds s) (t_hook_enable s) in
  let! (session, s) := stream_close iom session s in
  let! s := stream_destroy iom session s in
  Ret (session, s).

End server.
