(* ===== verification/HttpSessionTheorems.v ===== *)
(** Correctness of the HTTP sessions and of the HTTP server's handler. *)

From S2P Require Import Prelude Endian Address FdManager Hook HookTheorems Socket SocketTheorems.
From S2P Require Import Stream StreamTheorems Http HttpTheorems CString Http11Parser HttpParser.
From S2P Require Import Http11Safety RequestRun HttpParserTheorems HttpSession.
From S2P Require Import ByteArrayTheorems.
From Stdlib Require Import Ascii.

#[local] Open Scope string_scope.
#[local] Open Scope list_scope.
#[local] Open Scope Z_scope.

Lemma char_byte c : char_of (byte_of c) = c.
Proof. unfold char_of, byte_of. rewrite N2Z.id. apply ascii_N_embedding. Qed.

Lemma chars_bytes (t : text) : char_of <$> (byte_of <$> t) = t.
Proof.
  rewrite <- list_fmap_compose. rewrite <- (list_fmap_id t) at 2.
  apply list_fmap_ext. intros _ c _. apply char_byte.
Qed.

Section session.
Context {K : Type} `{!NetKernel K, !TcpConn K} (junk : nat → nat → Z).
Context (cast : text → option Z) (fd : Z) (st : SocketStream).
Context (Hst : stream_on fd st).

Abbreviation RECEIVE := (recvRequest (Stream0 := socket_stream junk) cast).

(** The first read brings the whole printed request [r]. *)
Definition arrives (r : HttpRequest) (k k1 : K) : Prop :=
  recv_f fd buff_size k = (Zlen (request_dump r), byte_of <$> request_dump r, k1).

Lemma receive_head fuel mem buffer r k k1 :
  wf_request r → Zlen (request_dump r) ≤ buff_size → Zlen buffer = buff_size → arrives r k k1 →
  ∃ data s,
    recvRequest_loop (Stream0 := socket_stream junk) (S fuel) buffer 0 (HttpRequestParer_new mem)
      (st, k)
    = Ret (Some (data, Zlen (m_body r), mkRequestParer s
        (set_fields (request_fields r) (parsed_line r)) 0), (st, k1)) ∧
    Zlen data = buff_size ∧ take (length (m_body r)) data = m_body r.
Proof.
  intros Hr Hd Hb Ha. unfold buff_size in *. pose proof (request_dump_length r Hr) as Hpos.
  pose proof (Zlen_nonneg (m_body r)) as Hbody. cbn [recvRequest_loop].
  rewrite (read_on junk fd) by done. change (u64 (buff_size - 0)) with 150.
  unfold arrives, buff_size in Ha. rewrite Ha, chars_bytes, i32_len by lia.
  change 0 with (Z.of_nat 0) at 1. rewrite store_at_ok by (unfold Zlen in *; lia). cbn [obind].
  destruct (Z.leb_spec (Zlen (request_dump r)) 0); [lia|]. rewrite Z.add_0_r.
  unfold overlay. rewrite take_0, app_nil_l, Nat.add_0_l.
  set (after := drop (length (request_dump r)) buffer).
  assert (Zlen (request_dump r ++ after) = 150) as Hlen.
  { unfold after. rewrite Zlen_app. unfold Zlen in *. rewrite length_drop. lia. }
  destruct (parse_printed mem r after Hr) as (data & s & E & Hdata & Ht); [lia|].
  rewrite E. cbn [obind]. eexists data, _. split; [|split; [unfold Zlen in *; lia|done]].
  change (hasError _) with false. change (isFinished _ =? 0) with false. cbn [negb].
  replace (Zlen (request_dump r) - (Zlen (request_dump r) - Zlen (m_body r)))
    with (Zlen (m_body r)) by lia.
  rewrite u64_small by lia.
  assert (i32 (Zlen (m_body r)) = Zlen (m_body r)) as ->
    by (unfold i32; apply wrapS_id; [done|unfold in_s; lia]).
  change (i32 buff_size) with 150. destruct (Z.eqb_spec (Zlen (m_body r)) 150); [|done].
  exfalso. rewrite (request_dump_pieces r (wr_version r Hr)), !Zlen_app in Hd.
  change (Zlen (str " ")) with 1 in Hd. unfold Zlen in *. lia.
Qed.

(** What the body of a received request is, by its content length. *)
Lemma receive_body_none fuel data p k :
  getContentLength cast p = 0 →
  recvRequest_body (Stream0 := socket_stream junk) cast fuel data 0 p (st, k)
    = Ret (Some (rp_data p), (st, k)).
Proof. intros E. unfold recvRequest_body. by rewrite E. Qed.

Lemma receive_body_here fuel data n p k :
  getContentLength cast p = Z.of_nat n → (0 < n ≤ length data)%nat → Zlen data = buff_size →
  recvRequest_body (Stream0 := socket_stream junk) cast fuel data (Z.of_nat n) p (st, k)
    = Ret (Some (setBody (take n data) (rp_data p)), (st, k)).
Proof.
  unfold buff_size, Zlen. intros E Hn Hd. unfold recvRequest_body. rewrite E.
  destruct (Z.ltb_spec 0 (Z.of_nat n)); [|lia]. unfold reserve.
  destruct (Z.ltb_spec (2 ^ 63 - 2) (Z.of_nat n)); [lia|]. cbn [obind].
  rewrite (u64_small (Z.of_nat n)), Z.leb_refl by lia. unfold std_string, Zlen.
  destruct (Z.ltb_spec (2 ^ 63 - 2) (Z.of_nat n)); [lia|].
  destruct (Z.ltb_spec (Z.of_nat (length data)) (Z.of_nat n)); [lia|]. cbn [obind].
  by rewrite Z.sub_diag, Nat2Z.id.
Qed.

Lemma receive_body_late fuel data n p late rest k :
  getContentLength cast p = Z.of_nat n → (0 < n)%nat → Z.of_nat n < 2 ^ 31 →
  incoming fd k = late ++ rest → length late = n → (n ≤ fuel)%nat →
  ∃ k', recvRequest_body (Stream0 := socket_stream junk) cast fuel data 0 p (st, k)
      = Ret (Some (setBody [] (rp_data p)), (st, k')) ∧ incoming fd k' = rest.
Proof.
  intros E Hn Hb Hin Hl Hf. unfold recvRequest_body. rewrite E.
  destruct (Z.ltb_spec 0 (Z.of_nat n)); [|lia]. unfold reserve.
  destruct (Z.ltb_spec (2 ^ 63 - 2) (Z.of_nat n)); [lia|]. cbn [obind].
  change (u64 0) with 0. rewrite (proj2 (Z.leb_le 0 (Z.of_nat n))) by lia.
  assert (std_string data 0 = Ret []) as ->.
  { unfold std_string. destruct (Z.ltb_spec (Zlen data) 0); [unfold Zlen in *; lia|done]. }
  cbn [obind]. change (Zlen []) with 0. rewrite Z.sub_0_r, u64_small by lia.
  destruct (Z.ltb_spec 0 (Z.of_nat n)); [|lia].
  rewrite Nat2Z.id. unfold readFixSize.
  destruct (read_loop junk fd st fuel (replicate n 0) 0 late rest k) as (k' & Hr & Hi & _);
    [done|done|lia|rewrite length_replicate; lia|unfold Zlen; rewrite length_replicate; lia|].
  unfold Zlen in Hr. rewrite Hl in Hr. change (Z.of_nat 0) with 0 in Hr. rewrite Hr. cbn [obind].
  assert (i32 (Z.of_nat n) = Z.of_nat n) as ->
    by (unfold i32; apply wrapS_id; [done|unfold in_s; lia]).
  destruct (Z.leb_spec (Z.of_nat n) 0); [lia|]. by exists k'.
Qed.

(** The content length the receiver computes. *)
Lemma received_length r s :
  wf_request r →
  getContentLength cast (mkRequestParer s (set_fields (request_fields r) (parsed_line r)) 0)
  = match printed_header r (str "content-length") with
    | Some v => default 0 (cast v) | None => 0 end.
Proof.
  intros Hr. unfold getContentLength, getAs. cbn [rp_data].
  by rewrite request_headers_read by apply Hr.
Qed.
End session.

(** The fields of a received request are those of the request [r] that was
    printed. *)
Record received (r req : HttpRequest) : Prop := {
  rc_method : m_method req = m_method r;
  rc_version : m_version req = m_version r;
  (* the connection header is not looked at *)
  rc_close : m_close req = true;
  rc_path : m_path req = m_path r;
  rc_query : m_query req = m_query r;
  rc_fragment : m_fragment req = m_fragment r;
  rc_headers key : map_find key (m_headers req) = printed_header r key;
}.

Lemma parsed_received r body :
  wf_request r → received r (setBody body (set_fields (request_fields r) (parsed_line r))) ∧
  received r (set_fields (request_fields r) (parsed_line r)).
Proof.
  intros Hr. destruct (set_fields_rest (request_fields r) (parsed_line r))
    as (E1 & E2 & E6 & E3 & E4 & E5 & _).
  split; (constructor;
    [exact E1|exact E2|exact E6|exact E3|exact E4|exact E5|intros key; apply request_headers_read, Hr]).
Qed.

(** A request that arrives whole is received whole. *)
Lemma receive_whole {K} `{!NetKernel K, !TcpConn K} junk cast fd st mem buffer r (k k1 : K) fuel :
  stream_on fd st → wf_request r → Zlen (request_dump r) ≤ buff_size →
  Zlen buffer = buff_size → arrives fd r k k1 → (0 < fuel)%nat →
  (m_body r = [] → map_find (str "content-length") (m_headers r) = None) →
  (m_body r ≠ [] → cast (dec (Zlen (m_body r))) = Some (Zlen (m_body r))) →
  ∃ req, recvRequest (Stream0 := socket_stream junk) cast fuel mem buffer (st, k)
      = Ret (Some req, (st, k1)) ∧ received r req ∧ m_body req = m_body r.
Proof.
  intros Hst Hr Hd Hb Ha Hf Hnone Hcast. destruct fuel as [|fuel]; [lia|].
  destruct (receive_head junk fd st Hst fuel mem buffer r k k1) as (data & s & E & Hdata & Ht);
    [done..|].
  pose proof (received_length cast r s Hr) as El. unfold recvRequest. rewrite E. cbn [obind].
  destruct (m_body r) as [|c b] eqn:Eb.
  - change (Zlen []) with 0. rewrite (receive_body_none junk cast st).
    + eexists. split; [reflexivity|]. cbn [rp_data]. split; [by apply (parsed_received r [])|].
      by destruct (set_fields_rest (request_fields r) (parsed_line r)) as (_&_&_&_&_&_&->).
    + rewrite El. unfold printed_header. rewrite decide_False by (rewrite Eb; by intros [? _]).
      rewrite decide_False by (by vm_compute). by rewrite Hnone.
  - rewrite <- Eb in *. change (Zlen (m_body r)) with (Z.of_nat (length (m_body r))).
    rewrite (receive_body_here junk cast st).
    + eexists. split; [reflexivity|]. cbn [rp_data]. split; [by apply parsed_received|exact Ht].
    + rewrite El. unfold printed_header. rewrite decide_True by (split; [by rewrite Eb|done]).
      rewrite Hcast by (by rewrite Eb). done.
    + split; [rewrite Eb; simpl; lia|]. apply (f_equal length) in Ht. rewrite length_take in Ht. lia.
    + done.
Qed.

(** Closing a session's managed socket. *)
Lemma close_managed {K} `{!Kernel K} iom (c : Socket) (s : HookState K) ctx :
  manages s (m_sock c) ctx → t_hook_enable s = true →
  ∃ s', Socket_close iom c s = Ret (false, with_sock (-1) false (with_sock (m_sock c) false c), s') ∧
    kernel s' = snd (close_f (m_sock c) (kernel s)) ∧ registered (fds s') (m_sock c) = None.
Proof.
  intros Hm Ht. destruct (fdmgr_get_manages s _ ctx Hm) as [Hg _]. destruct Hm as [Hfd Hr _ _].
  unfold Socket_close. destruct (Z.eqb_spec (m_sock c) (-1)) as [E|E]; [lia|].
  rewrite andb_false_r. cbn [with_sock m_sock negb]. destruct (Z.eqb_spec (m_sock c) (-1)); [lia|].
  cbn [negb]. unfold Hook.close. rewrite Ht. cbn [negb]. rewrite Hg. cbn [obind].
  unfold del. destruct (Z.leb_spec (Zlen (m_datas (fds s))) (m_sock c)); [lia|].
  rewrite data_at_spec by lia. cbn [obind kernel]. unfold sys.
  destruct (close_f (m_sock c) (kernel s)) as [r k']. cbn [fst snd obind fds t_hook_enable].
  eexists. split; [reflexivity|]. cbn [kernel fds]. split; [done|].
  rewrite registered_store by lia. by rewrite decide_True.
Qed.

(** * Properties *)

(** C8. A request crosses a connection.  Let [r] be well formed (a method of
    the table other than M-SEARCH, version 1.0 or 1.1, path, query, fragment and headers in the
    grammar, headers sorted by key), and, when its body is empty, without a
    content-length header; let its [dump] have at most 150 bytes and come whole
    in the first read; and let lexical_cast read the printed length of the body.
    Then [recvRequest] returns a request with the same method, version, path,
    query, fragment and body, with the printed headers under every key in any
    case, after that one read.  Its close flag is always set, whatever the
    connection header says.  (Without the condition on an empty body more is
    read, see [late_body_lost].) *)
Theorem request_received {K} `{!NetKernel K, !TcpConn K} (junk : nat → nat → Z)
    (cast : text → option Z) (fd : Z) (st : SocketStream) (mem : http_parser) (buffer : text)
    (r : HttpRequest) (k k1 : K) (fuel : nat) :
  stream_on fd st → wf_request r → Zlen (request_dump r) ≤ buff_size →
  Zlen buffer = buff_size → arrives fd r k k1 → (0 < fuel)%nat →
  (m_body r = [] → map_find (str "content-length") (m_headers r) = None) →
  (m_body r ≠ [] → cast (dec (Zlen (m_body r))) = Some (Zlen (m_body r))) →
  ∃ req, recvRequest (Stream0 := socket_stream junk) cast fuel mem buffer (st, k)
      = Ret (Some req, (st, k1)) ∧ received r req ∧ m_body req = m_body r.
Proof. apply receive_whole. Qed.

(** A body that comes after the head is lost: when the first read brings
    a head that announces [n] bytes and the [n] bytes come later, [recvRequest]
    takes them from the connection and returns the request, without an error
    and with an empty body. *)
Theorem late_body_lost {K} `{!NetKernel K, !TcpConn K} (junk : nat → nat → Z)
    (cast : text → option Z) (fd : Z) (st : SocketStream) (mem : http_parser) (buffer : text)
    (r : HttpRequest) (k k1 : K) (v : text) (late rest : list Z) (fuel : nat) :
  stream_on fd st → wf_request r → Zlen (request_dump r) ≤ buff_size →
  Zlen buffer = buff_size → arrives fd r k k1 → m_body r = [] →
  map_find (str "content-length") (m_headers r) = Some v → cast v = Some (Zlen late) →
  late ≠ [] → Zlen late < 2 ^ 31 → incoming fd k1 = late ++ rest → (length late ≤ fuel)%nat →
  ∃ req k2, recvRequest (Stream0 := socket_stream junk) cast fuel mem buffer (st, k)
      = Ret (Some req, (st, k2)) ∧ received r req ∧ m_body req = [] ∧ incoming fd k2 = rest.
Proof.
  intros Hst Hr Hd Hb Ha Ebody Hv Hcast Hne Hl Hin Hf.
  assert (0 < length late)%nat as Hpos by (destruct late; [done|simpl; lia]).
  destruct fuel as [|fuel]; [lia|].
  destruct (receive_head junk fd st Hst fuel mem buffer r k k1) as (data & s & E & _ & _);
    [done..|].
  unfold recvRequest. rewrite E. cbn [obind]. rewrite Ebody. change (Zlen []) with 0.
  destruct (receive_body_late junk cast fd st Hst (S fuel) data (length late)
    (mkRequestParer s (set_fields (request_fields r) (parsed_line r)) 0) late rest k1)
    as (k2 & -> & Hk2); [|lia|done|done|done|lia|].
  - rewrite received_length by done. unfold printed_header.
    rewrite decide_False by (by intros [? _]). rewrite decide_False by (by vm_compute).
    by rewrite Hv, Hcast.
  - eexists _, k2. split; [reflexivity|]. split; [by apply parsed_received|done].
Qed.

(** C13. A server without keep-alive handles a client with one request: it
    reads the request, answers with the version of the request and the close
    flag, closes the socket and forgets its descriptor, all in one round.  The
    answer is not sent once: for each suffix of it the peer receives a nonempty
    first part of the suffix, and the whole suffix when [send] takes all it is
    given.  The request is well formed: of the grammar, of at most
    150 bytes that come in the first read, without a content-length header when
    the body is empty, with a body length lexical_cast reads; the client is
    connected, its descriptor managed by the hooks and the hooks enabled. *)
Theorem client_served_once {K} `{!Kernel K, !NetKernel K, !TcpConn K} (junk : nat → nat → Z)
    (cast : text → option Z) (mem : nat → http_parser) (buffer : nat → text) (iom : bool)
    (r : HttpRequest) (client : Socket) (s : HookState K) (ctx : FdCtx) (k1 : K)
    (rounds fuel : nat) :
  let fd := m_sock client in
  let answer := byte_of <$> response_dump (client_response false r) in
  m_isConnected client = true → manages s fd ctx → t_hook_enable s = true →
  wf_request r → Zlen (request_dump r) ≤ buff_size → (∀ n, Zlen (buffer n) = buff_size) →
  arrives fd r (kernel s) k1 →
  (m_body r = [] → map_find (str "content-length") (m_headers r) = None) →
  (m_body r ≠ [] → cast (dec (Zlen (m_body r))) = Some (Zlen (m_body r))) →
  (0 < rounds)%nat → (length answer ≤ fuel)%nat →
  ∃ session s' pieces k2,
    handleClient junk cast rounds fuel false iom mem buffer client s = Ret (session, s') ∧
    stream_isConnected session = false ∧
    sent fd k2 = sent fd k1 ++ concat pieces ∧
    Forall2 (begins_suffix answer) pieces (seq 0 (length answer)) ∧
    (takes_all (K := K) fd → pieces = (λ i, drop i answer) <$> seq 0 (length answer)) ∧
    kernel s' = snd (close_f fd k2) ∧ registered (fds s') fd = None.
Proof.
  intros fd answer Hc Hm Ht Hr Hd Hb Ha Hnone Hcast Hrounds Hfuel.
  set (st := HttpSession_new (Some client) true).
  assert (stream_on fd st) as Hst by (by exists client).
  assert (Zlen answer < 2 ^ 31 ∧ (0 < length answer)%nat) as [Hans Hpos].
  { unfold answer, client_response. destruct (wr_version r Hr) as [-> | ->];
      rewrite orb_true_r; (split; [by vm_compute|vm_compute; lia]). }
  destruct rounds as [|rounds]; [lia|].
  destruct (receive_whole junk cast fd st (mem rounds) (buffer rounds) r (kernel s) k1 fuel)
    as (req & E & Hrc & _); [done..|lia|done|done|].
  unfold handleClient. cbn [handleClient_loop]. fold st. rewrite E. cbn [obind].
  assert (client_response false req = client_response false r) as ->.
  { unfold client_response. by rewrite (rc_version _ _ Hrc), !orb_true_r. }
  unfold sendResponse, writeFixSize. fold answer.
  replace (Zlen (response_dump (client_response false r))) with (Z.of_nat (length answer))
    by (unfold answer, Zlen; by rewrite length_fmap).
  destruct (write_loop_pieces junk fd st fuel answer 0 k1) as (pieces & k2 & Hw & Hs & HF & Hall);
    [done|lia|lia|lia|].
  rewrite Nat.sub_0_r in Hw, HF, Hall. change (Z.of_nat 0) with 0 in Hw. rewrite Hw. cbn [obind].
  set (s2 := mkHook k2 (fds s) (t_hook_enable s)).
  destruct (close_managed iom client s2 ctx) as (s' & Hclose & Hk & Hreg); [|done|].
  { destruct Hm as [? ? ? ?]. by split. }
  unfold stream_close at 1. cbn [st HttpSession_new SocketStream_new ss_socket].
  rewrite Hclose. cbn [obind]. unfold stream_destroy. cbn [ss_owner ss_socket stream_close].
  eexists _, s', pieces, k2. split; [reflexivity|]. by split_and!.
Qed.

(** * Witnesses *)

(** A connection that hands over its bytes in the portions they came in. *)
Record desk := mkDesk { dk_in : list (list Z); dk_out : list Z }.

(** The next portion, cut to [n] bytes. *)
Definition desk_recv (n : Z) (k : desk) : Z * list Z * desk :=
  match filter (λ l, l ≠ []) (dk_in k) with
  | [] => (0, [], k)
  | l :: ls => let bs := take (Z.to_nat n) l in
               (Zlen bs, bs, mkDesk (drop (length bs) l :: ls) (dk_out k))
  end.

#[export] Instance desk_kernel : Kernel desk := {
  fstat_socket fd k := Some true;
  fcntl_getfl fd k := 2;
  fcntl_setfl fd arg k := (0, k);
  fcntl_cmd fd cmd arg k := (0, k);
  ioctl_f fd req v k := (0, k);
  socket_f d t p k := (3, k);
  close_f fd k := (0, k);
  setsockopt_f fd level opt tv k := (0, k);
}.

#[export] Instance desk_net : NetKernel desk := {
  bind_f fd a k := (0, k);
  listen_f fd n k := (0, k);
  getsockname_f fd k := None;
  getpeername_f fd k := None;
  getsockopt_error fd k := inl 0;
  recv_f fd n k := desk_recv n k;
  send_f fd bs k := (Zlen bs, mkDesk (dk_in k) (dk_out k ++ bs));
  sendto_f fd bs a k := (-1, k);
  recvfrom_f fd n k := (-1, [], [], k);
  recvmsg_f fd lens k :=
    if IOV_MAX <? Zlen lens then (-1, [], [], k) else
    let '(r, bs, k) := desk_recv (foldr Z.add 0 lens) k in (r, bs, [], k);
  sendmsg_f fd bufs a k :=
    if IOV_MAX <? Zlen bufs then (-1, k)
    else (Zlen (concat bufs), mkDesk (dk_in k) (dk_out k ++ concat bufs));
}.

Lemma concat_portions (ls : list (list Z)) : concat (filter (λ l, l ≠ []) ls) = concat ls.
Proof.
  induction ls as [|l ls IH]; [done|]. destruct l as [|x l].
  - by rewrite filter_cons_False by (intros H; by apply H).
  - rewrite filter_cons_True by done. simpl. by rewrite IH.
Qed.

Lemma portion_nonempty (ls ls' : list (list Z)) l : filter (λ l, l ≠ []) ls = l :: ls' → l ≠ [].
Proof.
  intros E. assert (l ∈ filter (λ l, l ≠ []) ls) as H by (rewrite E; left).
  by apply list_elem_of_filter in H as [? _].
Qed.

Lemma desk_recv_some n (k : desk) :
  0 < n → concat (dk_in k) ≠ [] →
  ∃ bs k', desk_recv n k = (Zlen bs, bs, k') ∧ bs ≠ [] ∧ Zlen bs ≤ n ∧
    concat (dk_in k) = bs ++ concat (dk_in k') ∧ dk_out k' = dk_out k.
Proof.
  intros Hn Hk. unfold desk_recv. rewrite <- (concat_portions (dk_in k)) in *.
  destruct (filter (λ l, l ≠ []) (dk_in k)) as [|l ls] eqn:E; [done|].
  assert (l ≠ []) as Hl by (by eapply portion_nonempty).
  eexists _, _. split; [reflexivity|]. cbn [dk_in dk_out concat]. split_and!.
  - intros E'. apply (f_equal length) in E'. rewrite length_take in E'. destruct l; [done|].
    simpl in E'. lia.
  - unfold Zlen. rewrite length_take. lia.
  - rewrite app_assoc. f_equal. apply take_drop_own.
  - done.
Qed.

Lemma desk_recv_end n (k : desk) : concat (dk_in k) = [] → desk_recv n k = (0, [], k).
Proof.
  intros Hk. unfold desk_recv. rewrite <- concat_portions in Hk.
  destruct (filter (λ l, l ≠ []) (dk_in k)) as [|l ls] eqn:E; [done|].
  assert (l ≠ []) as Hl by (by eapply portion_nonempty).
  simpl in Hk. apply app_eq_nil in Hk as [? _]. done.
Qed.

#[export] Instance desk_conn : TcpConn desk.
Proof.
  refine {| incoming fd k := concat (dk_in k); sent fd k := dk_out k |}.
  - intros fd n k. apply desk_recv_some.
  - intros fd n k. apply desk_recv_end.
  - intros fd bs k Hbs%wide_gives. exists (length bs). eexists. split; [reflexivity|].
    split; [done|]. cbn. by rewrite firstn_all.
  - intros fd lens k Hl Hn Hk. cbn [recvmsg_f desk_net].
    destruct (Z.ltb_spec IOV_MAX (Zlen lens)); [lia|].
    destruct (desk_recv_some _ k Hn Hk) as (bs & k' & -> & H'). by exists bs, [], k'.
  - intros fd lens k Hl Hk. cbn [recvmsg_f desk_net].
    destruct (Z.ltb_spec IOV_MAX (Zlen lens)); [lia|]. rewrite desk_recv_end by done. by exists [].
  - intros fd bufs k Hl Hbs%wide_gives. cbn [sendmsg_f desk_net].
    destruct (Z.ltb_spec IOV_MAX (Zlen bufs)); [lia|].
    exists (length (concat bufs)). eexists. split; [reflexivity|].
    split; [done|]. cbn. by rewrite firstn_all.
  - intros fd bufs k Hl. cbn [sendmsg_f desk_net].
    by destruct (Z.ltb_spec IOV_MAX (Zlen bufs)); [|lia].
Defined.

(** A decimal number. *)
Definition cast_decimal (v : text) : option Z := Some (digits 10 0 v).

Definition demo_head : HttpRequest :=
  mkRequest 2 17 true (str "/put") [] [] [] [(str "Content-Length", str "3")] [] [].

Lemma demo_wf r : r = demo_request ∨ r = demo_head → wf_request r.
Proof.
  intros [-> | ->]; (split; [by vm_compute|by right|by vm_compute|by vm_compute|by vm_compute| |]);
    by repeat constructor.
Qed.

Definition desk_with (r : HttpRequest) (later : list (list Z)) : desk :=
  mkDesk ((byte_of <$> request_dump r) :: later) [].

Lemma request_received_witness :
  ∃ req, recvRequest (Stream0 := socket_stream zeros) cast_decimal 3 blank_memory
      (replicate 150 " "%char) (demo_stream, desk_with demo_request [[1; 2]])
    = Ret (Some req, (demo_stream, mkDesk [[]; [1; 2]] [])) ∧ m_body req = str "hi".
Proof.
  destruct (request_received zeros cast_decimal 5 demo_stream blank_memory
    (replicate 150 " "%char) demo_request (desk_with demo_request [[1; 2]])
    (mkDesk [[]; [1; 2]] []) 3) as (req & E & _ & Hb).
  - exact demo_stream_on.
  - apply demo_wf. by left.
  - vm_compute. discriminate.
  - reflexivity.
  - vm_compute. reflexivity.
  - lia.
  - discriminate.
  - intros _. vm_compute. reflexivity.
  - exists req. split; [exact E|exact Hb].
Defined.

Lemma late_body_lost_witness :
  ∃ req k2, recvRequest (Stream0 := socket_stream zeros) cast_decimal 3 blank_memory
      (replicate 150 " "%char) (demo_stream, desk_with demo_head [[7; 7]; [7; 9]])
    = Ret (Some req, (demo_stream, k2)) ∧ m_body req = [] ∧ concat (dk_in k2) = [9].
Proof.
  destruct (late_body_lost zeros cast_decimal 5 demo_stream blank_memory
    (replicate 150 " "%char) demo_head (desk_with demo_head [[7; 7]; [7; 9]])
    (mkDesk [[]; [7; 7]; [7; 9]] []) (str "3") [7; 7; 7] [9] 3) as (req & k2 & E & _ & Hb & Hi).
  - exact demo_stream_on.
  - apply demo_wf. by right.
  - vm_compute. discriminate.
  - reflexivity.
  - vm_compute. reflexivity.
  - reflexivity.
  - reflexivity.
  - reflexivity.
  - discriminate.
  - by vm_compute.
  - reflexivity.
  - simpl. lia.
  - exists req, k2. split; [exact E|]. split; [exact Hb|exact Hi].
Defined.

Definition desk_state : HookState desk :=
  mkHook (desk_with demo_request []) (store_data 7 (Some demo_ctx) FdManager_new) true.

Lemma client_served_once_witness :
  ∃ session s', handleClient zeros cast_decimal 1 200 false true (λ _, blank_memory)
      (λ _, replicate 150 " "%char) (mkSocket 7 2 1 0 true None None) desk_state
    = Ret (session, s') ∧ registered (fds s') 7 = None.
Proof.
  destruct (client_served_once zeros cast_decimal (λ _, blank_memory)
    (λ _, replicate 150 " "%char) true demo_request (mkSocket 7 2 1 0 true None None) desk_state
    demo_ctx (mkDesk [[]] []) 1 200) as (session & s' & pieces & k2 & E & _ & _ & _ & _ & _ & Hr).
  - reflexivity.
  - split; [by vm_compute|reflexivity|reflexivity|reflexivity].
  - reflexivity.
  - apply demo_wf. by left.
  - vm_compute. discriminate.
  - intros _. reflexivity.
  - vm_compute. reflexivity.
  - discriminate.
  - intros _. vm_compute. reflexivity.
  - lia.
  - vm_compute. lia.
  - exists session, s'. split; [exact E|exact Hr].
Defined.
