(* ===== verification/TcpServer.v ===== *)
(** TCP servers: tcp_server.h and tcp_server.cpp.

    Sockets are shared: a server holds pointers to its listening sockets and so
    do the callbacks it schedules.  The objects are in a store, a pointer is an
    index into it.  What [schedule] is given is kept, in order, until the
    callback has run; a run of [startAccept] is a sequence of rounds, since
    other fibers run while [accept] waits.  The messages of the log are not
    modelled. *)

From S2P Require Import Prelude Endian Http Address FdManager Hook Socket.

#[local] Open Scope string_scope.
#[local] Open Scope list_scope.
#[local] Open Scope Z_scope.

(** The callbacks given to [m_accept_worker]; [m_worker] is given
    [handleClient], bound to a client. *)
Inductive accept_task :=
| run_startAccept (sock : nat)
| run_close_listeners.

#[global] Instance accept_task_eq : EqDecision accept_task.
Proof. solve_decision. Defined.

Record TcpServer := mkTcpServer {
  m_socks : list nat;
  m_recvTimeout : Z;
  m_name : text;
  m_isStop : bool;
}.

(** The server, the socket objects, the descriptors, the callbacks scheduled
    on the two workers, and the descriptors whose events were cancelled. *)
Record server_state (K : Type) := mkServer {
  sv_server : TcpServer;
  sv_sockets : list Socket;
  sv_hook : HookState K;
  sv_worker : list nat;
  sv_accept : list accept_task;
  sv_cancelled : list Z;
}.
Arguments mkServer {K}.
Arguments sv_server {K}.
Arguments sv_sockets {K}.
Arguments sv_hook {K}.
Arguments sv_worker {K}.
Arguments sv_accept {K}.
Arguments sv_cancelled {K}.

(** [read_timeout] is the value of [tcp_server.read_timeout], 240000 unless
    configured. *)
Definition TcpServer_new (read_timeout : Z) : TcpServer :=
  mkTcpServer [] read_timeout (str "apexstorm/1.0.0") true.

Definition setName (v : text) (t : TcpServer) : TcpServer :=
  mkTcpServer (m_socks t) (m_recvTimeout t) v (m_isStop t).
Definition setServerRecvTimeout (v : Z) (t : TcpServer) : TcpServer :=
  mkTcpServer (m_socks t) v (m_name t) (m_isStop t).
Definition with_socks (l : list nat) (t : TcpServer) : TcpServer :=
  mkTcpServer l (m_recvTimeout t) (m_name t) (m_isStop t).
Definition with_stop (b : bool) (t : TcpServer) : TcpServer :=
  mkTcpServer (m_socks t) (m_recvTimeout t) (m_name t) b.

Section server.
Context `{Platform} {K : Type} `{!Kernel K} `{!NetKernel K}.
(** The default backlog SOMAXCONN; whether the thread has a manager. *)
Context (somaxconn : Z) (iom : bool).
Implicit Types (v : server_state K).

Definition with_server (t : TcpServer) v : server_state K :=
  mkServer t (sv_sockets v) (sv_hook v) (sv_worker v) (sv_accept v) (sv_cancelled v).
Definition with_hook (s : HookState K) v : server_state K :=
  mkServer (sv_server v) (sv_sockets v) s (sv_worker v) (sv_accept v) (sv_cancelled v).
Definition with_sockets (l : list Socket) v : server_state K :=
  mkServer (sv_server v) l (sv_hook v) (sv_worker v) (sv_accept v) (sv_cancelled v).
Definition schedule_accept (t : accept_task) v : server_state K :=
  mkServer (sv_server v) (sv_sockets v) (sv_hook v) (sv_worker v) (sv_accept v ++ [t])
    (sv_cancelled v).
Definition schedule_client (sock : nat) v : server_state K :=
  mkServer (sv_server v) (sv_sockets v) (sv_hook v) (sv_worker v ++ [sock]) (sv_accept v)
    (sv_cancelled v).

(** [sock->close()]. *)
Definition close_at (sock : nat) v : outcome (server_state K) :=
  match sv_sockets v !! sock with
  | None => Fault NullDeref
  | Some c =>
      let! (_, c, s) := Socket_close iom c (sv_hook v) in
      Ret (with_sockets (<[sock := c]> (sv_sockets v)) (with_hook s v))
  end.
Fixpoint close_each (socks : list nat) v : outcome (server_state K) :=
  match socks with
  | [] => Ret v
  | i :: socks => let! v := close_at i v in close_each socks v
  end.

(** A callback holds a pointer to the socket. *)
Definition in_use v (sock : nat) : bool := bool_decide (run_startAccept sock ∈ sv_accept v).

(** [m_socks.clear()]: the destructor of a socket that no callback holds
    closes it. *)
Definition clear_socks v : outcome (server_state K) :=
  let! v := close_each (List.filter (λ i, negb (in_use v i)) (m_socks (sv_server v))) v in
  Ret (with_server (with_socks [] (sv_server v)) v).

(** The loop of [bind]: the addresses that failed, and the state.  A socket
    that is not stored is destroyed. *)
Fixpoint bind_loop (addrs fails : list Address) v : outcome (list Address * server_state K) :=
  match addrs with
  | [] => Ret (fails, v)
  | addr :: addrs =>
      let! (ok, sock, s) := Socket_bind addr (CreateTCP addr) (sv_hook v) in
      if negb ok then
        let! (_, _, s) := Socket_close iom sock s in
        bind_loop addrs (fails ++ [addr]) (with_hook s v)
      else
        let '(ok, s) := Socket_listen somaxconn sock s in
        if negb ok then
          let! (_, _, s) := Socket_close iom sock s in
          bind_loop addrs (fails ++ [addr]) (with_hook s v)
        else
          let t := sv_server v in
          bind_loop addrs fails
            (with_server (with_socks (m_socks t ++ [length (sv_sockets v)]) t)
              (with_sockets (sv_sockets v ++ [sock]) (with_hook s v)))
  end.

(** [bind(addrs, fails)]. *)
Definition bind (addrs fails : list Address) v : outcome (bool * list Address * server_state K) :=
  let! (fails, v) := bind_loop addrs fails v in
  match fails with
  | [] => Ret (true, fails, v)
  | _ => let! v := clear_socks v in Ret (false, fails, v)
  end.
(** [bind(addr)]. *)
Definition bind1 (addr : Address) v : outcome (bool * server_state K) :=
  let! (ok, _, v) := bind [addr] [] v in Ret (ok, v).

(** [start]. *)
Definition start v : bool * server_state K :=
  if negb (m_isStop (sv_server v)) then (true, v)
  else
    let v := with_server (with_stop false (sv_server v)) v in
    (true, foldl (λ v i, schedule_accept (run_startAccept i) v) v (m_socks (sv_server v))).

(** [stop], and the callback it schedules. *)
Definition stop v : server_state K :=
  schedule_accept run_close_listeners (with_server (with_stop true (sv_server v)) v).
Fixpoint close_listeners (socks : list nat) v : outcome (server_state K) :=
  match socks with
  | [] => Ret v
  | i :: socks =>
      match sv_sockets v !! i with
      | None => Fault NullDeref
      | Some c =>
          let v := mkServer (sv_server v) (sv_sockets v) (sv_hook v) (sv_worker v) (sv_accept v)
                     (sv_cancelled v ++ [m_sock c]) in
          let! v := close_at i v in
          close_listeners socks v
      end
  end.

(** A callback that has run is destroyed. *)
Definition finish (t : accept_task) v : server_state K :=
  mkServer (sv_server v) (sv_sockets v) (sv_hook v) (sv_worker v)
    (match list_find (t =.) (sv_accept v) with
     | Some (i, _) => delete i (sv_accept v)
     | None => sv_accept v
     end) (sv_cancelled v).
Definition stop_callback v : outcome (server_state K) :=
  let! v := close_listeners (m_socks (sv_server v)) v in Ret (finish run_close_listeners v).

(** A round of the loop of [startAccept].  [waiting] says that the last round
    left the fiber inside [accept]: it goes on there, with all the answers
    that call has had, and [m_isStop] is not tested again before it returns. *)
Inductive round :=
| round_done (* the loop has ended *)
| round_waits (* in [accept] *)
| round_again.

Definition startAccept (waiting : bool) (sock : nat) (answers : list answer) v
    : outcome (round * server_state K) :=
  if negb waiting && m_isStop (sv_server v) then Ret (round_done, finish (run_startAccept sock) v)
  else
    match sv_sockets v !! sock with
    | None => Fault NullDeref
    | Some c =>
        let! (client, s) := Socket_accept iom answers c (sv_hook v) in
        match client with
        | None => Ret (round_waits, with_hook s v)
        | Some (Some client) =>
            let! s := setRecvTimeout (i64 (m_recvTimeout (sv_server v))) client s in
            Ret (round_again,
                 schedule_client (length (sv_sockets v))
                   (with_sockets (sv_sockets v ++ [client]) (with_hook s v)))
        | Some None => Ret (round_again, with_hook s v)
        end
    end.

(** [TcpServer::~TcpServer]. *)
Definition TcpServer_destroy v : outcome (server_state K) :=
  let! v := close_each (m_socks (sv_server v)) v in
  Ret (with_server (with_socks [] (sv_server v)) v).

End server.
