(* ===== verification/TcpServerTheorems.v ===== *)
(** Correctness of the TCP server. *)

From S2P Require Import Prelude Endian Http Address FdManager Hook HookTheorems Socket.
From S2P Require Import SocketTheorems TcpServer.

#[local] Open Scope Z_scope.

(** A part of a list that is as long as the list. *)
Lemma sublist_full {A} (l l' : list A) :
  l `sublist_of` l' → (length l' ≤ length l)%nat → l = l'.
Proof.
  induction 1 as [|x l l' H IH|x l l' H IH]; simpl; intros Hl; [done|f_equal; apply IH; lia|].
  apply sublist_length in H. lia.
Qed.

Section server.
Context `{P : Platform} {K : Type} `{!Kernel K} `{!NetKernel K} (somaxconn : Z) (iom : bool).
Implicit Types (v : server_state K).

(** * Closing *)

(** [v'] differs from [v] in the descriptors, and in the sockets [C], which
    are closed. *)
Record closes (C : nat → Prop) v v' : Prop := {
  cl_server : sv_server v' = sv_server v;
  cl_worker : sv_worker v' = sv_worker v;
  cl_accept : sv_accept v' = sv_accept v;
  cl_length : length (sv_sockets v') = length (sv_sockets v);
  cl_closed i : C i → (i < length (sv_sockets v))%nat →
    ∃ c, sv_sockets v' !! i = Some c ∧ isValid c = false ∧ m_isConnected c = false;
  cl_others i : ¬ C i → sv_sockets v' !! i = sv_sockets v !! i;
}.

Lemma close_at_closes i v v' :
  close_at iom i v = Ret v' →
  closes (λ j, j = i) v v' ∧ sv_cancelled v' = sv_cancelled v ∧ (i < length (sv_sockets v))%nat.
Proof.
  unfold close_at. destruct (sv_sockets v !! i) as [c|] eqn:Ei; [|done].
  destruct (Socket_close iom c (sv_hook v)) as [[[r c'] s']| |] eqn:Ec; try done. cbn [obind].
  intros [= <-]. apply close_inv in Ec as (_ & Hf & Hc & _). apply lookup_lt_Some in Ei.
  split; [|done]. constructor; cbn; try done.
  - apply length_insert.
  - intros j -> _. exists c'. rewrite list_lookup_insert_eq by done. split; [done|].
    unfold isValid. by rewrite Hf.
  - intros j Hj. by rewrite list_lookup_insert_ne.
Qed.

Lemma closes_trans C C' v v' v'' :
  closes C v v' → closes C' v' v'' → (∀ i, C i ∨ ¬ C i) → (∀ i, C' i ∨ ¬ C' i) →
  closes (λ i, C i ∨ C' i) v v''.
Proof.
  intros [] [] D D'. constructor; try congruence.
  - intros i Hi Hl. destruct (D' i) as [H'|H'].
    + apply cl_closed1; [done|lia].
    + rewrite cl_others1 by done. destruct Hi as [Hi|Hi]; [by apply cl_closed0|done].
  - intros i Hi. rewrite cl_others1 by tauto. apply cl_others0. tauto.
Qed.

Lemma closes_refl v : closes (λ _, False) v v.
Proof. by constructor. Qed.

Lemma closes_iff C C' v v' : (∀ i, C i ↔ C' i) → closes C v v' → closes C' v v'.
Proof.
  intros E []. constructor; try done; intros i; rewrite <- E; auto.
Qed.

Lemma elem_dec (l : list nat) i : i ∈ l ∨ i ∉ l.
Proof. destruct (decide (i ∈ l)); auto. Qed.

Lemma close_each_closes l : ∀ v v',
  close_each iom l v = Ret v' →
  closes (λ i, i ∈ l) v v' ∧ sv_cancelled v' = sv_cancelled v.
Proof.
  induction l as [|i l IH]; intros v v'; cbn [close_each].
  - intros [= <-]. split; [|done]. eapply closes_iff; [|apply closes_refl].
    intros i. split; [done|]. by intros ?%not_elem_of_nil.
  - destruct (close_at iom i v) as [v1| |] eqn:E; try done. cbn [obind].
    intros [H2 Hc2]%IH. apply close_at_closes in E as (H1 & Hc1 & _). split; [|congruence].
    eapply closes_iff; [|eapply (closes_trans _ _ _ _ _ H1 H2)].
    + intros j. cbn. by rewrite elem_of_cons.
    + intros j. destruct (decide (j = i)); auto.
    + apply elem_dec.
Qed.

(** * Binding *)

(** A socket listening on an address: the kernel has bound its descriptor to
    the bytes of the address, and in the state that left, has taken [listen]
    for it. *)
Definition called (addr : Address) (c : Socket) : Prop :=
  ∃ k k1 k2 : K,
    bind_f (m_sock c) (take (Z.to_nat (getAddrLen addr)) (getAddr addr)) k = (0, k1) ∧
    listen_f (m_sock c) somaxconn k1 = (0, k2).
Definition listens (addr : Address) (c : Socket) : Prop :=
  isValid c = true ∧ m_isConnected c = false ∧ m_family c = getFamily addr ∧
  m_type c = SOCK_STREAM ∧ called addr c.

Lemma bind_listens addr s c s' s2 :
  Socket_bind addr (CreateTCP addr) s = Ret (true, c, s') →
  Socket_listen somaxconn c s' = (true, s2) → listens addr c.
Proof.
  intros E HL. pose proof E as E'. apply bind_inv in E as [(Hf & Ht & _) _]; [|by intros Hx; cbn in Hx].
  revert E'. unfold Socket_bind, ensure_valid.
  change (isValid (CreateTCP addr)) with false. cbn [negb].
  destruct (newSock _ s) as [[c1 s1]| |] eqn:En; try done. cbn [obind].
  apply newSock_inv in En as [_ Hc1]. destruct (isValid c1) eqn:Ev; [|done]. cbn [negb].
  destruct (negb (_ =? _)); [done|].
  destruct (bind_f (m_sock c1) _ (kernel s1)) as [r k1] eqn:Eb. unfold sys at 1. cbn [fst snd].
  destruct (r =? 0) eqn:Er; cbn [negb]; [|done]. apply Z.eqb_eq in Er as ->.
  destruct (getLocalAddress c1 _) as [a c2] eqn:El. apply getLocalAddress_keeps in El as (_ & Hs & Hc).
  intros [= -> <-]. split_and!; [|by rewrite Hc|done|done|]; [unfold isValid in *; by rewrite Hs|].
  revert HL. unfold Socket_listen. destruct (negb (isValid c)); [done|]. cbn [kernel].
  destruct (listen_f (m_sock c) somaxconn k1) as [r k2] eqn:Ek. unfold sys. cbn [fst snd].
  destruct (r =? 0) eqn:Er; cbn [negb]; [|done]. apply Z.eqb_eq in Er as ->. intros _.
  rewrite <- Hs in Eb. by exists (kernel s1), k1, k2.
Qed.

(** [v'] has the sockets [new] more, all of them in [m_socks]. *)
Record binds (new : list Socket) v v' : Prop := {
  bd_sockets : sv_sockets v' = sv_sockets v ++ new;
  bd_server : sv_server v' = with_socks
    (m_socks (sv_server v) ++ seq (length (sv_sockets v)) (length new)) (sv_server v);
  bd_worker : sv_worker v' = sv_worker v;
  bd_accept : sv_accept v' = sv_accept v;
}.

Lemma binds_nil v s : binds [] v (with_hook s v).
Proof.
  constructor; cbn; [by rewrite app_nil_r| |done|done]. rewrite app_nil_r. by destruct (sv_server v).
Qed.

Lemma binds_hook new v v' s : binds new (with_hook s v) v' → binds new v v'.
Proof. intros []. by constructor. Qed.

Lemma binds_cons c new v v' s :
  binds new (with_server (with_socks (m_socks (sv_server v) ++ [length (sv_sockets v)]) (sv_server v))
    (with_sockets (sv_sockets v ++ [c]) (with_hook s v))) v' → binds (c :: new) v v'.
Proof.
  intros [E1 E2 E3 E4]. cbn in *. constructor; try done.
  - by rewrite E1, <- app_assoc.
  - rewrite E2. unfold with_socks. cbn. rewrite length_app. cbn. rewrite <- app_assoc.
    by rewrite Nat.add_1_r.
Qed.

Lemma bind_loop_binds addrs : ∀ fails v fails' v',
  bind_loop somaxconn iom addrs fails v = Ret (fails', v') →
  ∃ good bad new, fails' = fails ++ bad ∧ good `sublist_of` addrs ∧ bad `sublist_of` addrs ∧
    (length good + length bad = length addrs)%nat ∧ Forall2 listens good new ∧ binds new v v'.
Proof.
  induction addrs as [|addr addrs IH]; intros fails v fails' v'; cbn [bind_loop].
  - intros [= <- <-]. exists [], [], []. split_and!; try done.
    + by rewrite app_nil_r.
    + pose proof (binds_nil v (sv_hook v)) as Hn. by destruct v.
  - destruct (Socket_bind addr _ _) as [[[ok c] s]| |] eqn:Eb; try done. cbn [obind].
    assert (∀ s', (let! (_, _, s) := Socket_close iom c s' in
                   bind_loop somaxconn iom addrs (fails ++ [addr]) (with_hook s v)) = Ret (fails', v') →
      ∃ good bad new, fails' = fails ++ bad ∧ good `sublist_of` addr :: addrs ∧
        bad `sublist_of` addr :: addrs ∧
        (length good + length bad = length (addr :: addrs))%nat ∧ Forall2 listens good new ∧
        binds new v v') as Hfail.
    { intros s'. destruct (Socket_close iom c s') as [[[r1 c1] s1]| |]; try done. cbn [obind].
      intros (good & bad & new & -> & Hg & Hb & Hl & Hf & Hn)%IH.
      exists good, (addr :: bad), new. rewrite <- app_assoc.
      split_and!; [done|by constructor|by constructor|simpl; lia|done|by eapply binds_hook]. }
    destruct ok; cbn [negb]; [|apply Hfail].
    destruct (Socket_listen somaxconn c s) as [ok s1] eqn:El. destruct ok; cbn [negb]; [|apply Hfail].
    pose proof (bind_listens _ _ _ _ _ Eb El).
    intros (good & bad & new & -> & Hg & Hb & Hl & Hf & Hn)%IH.
    exists (addr :: good), bad, (c :: new).
    split_and!; [done|by constructor|by constructor|simpl; lia|by constructor|by eapply binds_cons].
Qed.

Lemma clear_socks_closes v v' :
  clear_socks iom v = Ret v' →
  ∃ v1, closes (λ i, i ∈ m_socks (sv_server v) ∧ in_use v i = false) v v1 ∧
    v' = with_server (with_socks [] (sv_server v)) v1.
Proof.
  unfold clear_socks. destruct (close_each _ _ v) as [v1| |] eqn:E; try done. cbn [obind].
  intros [= <-]. apply close_each_closes in E as [E _]. exists v1. split.
  - eapply closes_iff; [|exact E]. intros i. cbn.
    rewrite !list_elem_of_In, List.filter_In. by rewrite negb_true_iff.
  - by rewrite (cl_server _ _ _ E).
Qed.

(** * Runs of a server *)

(** The sockets the server listens on are not connections; those it hands to
    the workers are. *)
Definition listener v (i : nat) : Prop :=
  ∃ c, sv_sockets v !! i = Some c ∧ m_isConnected c = false.
Definition client v (i : nat) : Prop :=
  ∃ c, sv_sockets v !! i = Some c ∧ m_isConnected c = true ∧ isValid c = true.

Record server_inv v : Prop := {
  si_socks i : i ∈ m_socks (sv_server v) → listener v i;
  si_accept i : run_startAccept i ∈ sv_accept v → listener v i;
  si_worker i : i ∈ sv_worker v → client v i;
}.

(** The operations; the callbacks are run by the schedulers. *)
Inductive server_step v : server_state K → Prop :=
| step_bind addrs fails ok fails' v' :
    bind somaxconn iom addrs fails v = Ret (ok, fails', v') → server_step v v'
| step_start : server_step v (snd (start v))
| step_stop : server_step v (stop v)
| step_stop_callback v' : stop_callback iom v = Ret v' → server_step v v'
| step_startAccept waiting i answers r v' :
    run_startAccept i ∈ sv_accept v → startAccept iom waiting i answers v = Ret (r, v') → server_step v v'
| step_setName n : server_step v (with_server (setName n (sv_server v)) v)
| step_setTimeout t : server_step v (with_server (setServerRecvTimeout t (sv_server v)) v).

Lemma listener_app v v' new i : sv_sockets v' = sv_sockets v ++ new → listener v i → listener v' i.
Proof. intros E (c & Hc & Hn). exists c. rewrite E. split; [by apply lookup_app_l_Some|done]. Qed.
Lemma client_app v v' new i : sv_sockets v' = sv_sockets v ++ new → client v i → client v' i.
Proof. intros E (c & Hc & Hn). exists c. rewrite E. split; [by apply lookup_app_l_Some|done]. Qed.

(** Closing listeners keeps the listeners listeners and does not touch the
    clients. *)
Lemma closes_inv (C : nat → Prop) v v' :
  closes C v v' → (∀ i, C i ∨ ¬ C i) → (∀ i, C i → listener v i) → server_inv v → server_inv v'.
Proof.
  intros HC D HL [Hs Ha Hw].
  assert (∀ i, listener v i → listener v' i) as HL'.
  { intros i (c & Hc & Hn). destruct (D i) as [Hi|Hi].
    - destruct (cl_closed _ _ _ HC i Hi) as (c' & Hc' & _ & Hn'); [by eapply lookup_lt_Some|].
      by exists c'.
    - exists c. by rewrite (cl_others _ _ _ HC). }
  destruct HC as [E1 E2 E3 _ _ Ho]. split.
  - intros i. rewrite E1. auto.
  - intros i. rewrite E3. auto.
  - intros i Hi. rewrite E2 in Hi. destruct (Hw i Hi) as (c & Hc & Hn & Hv). exists c.
    rewrite Ho; [done|]. intros (c' & Hc' & Hn')%HL. congruence.
Qed.

Lemma bind_loop_inv addrs fails v fails' v' :
  bind_loop somaxconn iom addrs fails v = Ret (fails', v') → server_inv v → server_inv v'.
Proof.
  intros (good & bad & new & _ & _ & _ & _ & Hf & [E1 E2 E3 E4])%bind_loop_binds [Hs Ha Hw]. split.
  - intros i. rewrite E2. cbn. rewrite elem_of_app. intros [Hi|Hi].
    + eapply listener_app; [done|auto].
    + apply elem_of_seq in Hi. destruct (lookup_lt_is_Some_2 new (i - length (sv_sockets v))) as [c Hc];
        [lia|].
      destruct (Forall2_lookup_r _ _ _ _ _ Hf Hc) as (a & _ & _ & Hn & _).
      exists c. rewrite E1, lookup_app_r by lia. done.
  - intros i. rewrite E4. intros Hi. eapply listener_app; [done|auto].
  - intros i. rewrite E3. intros Hi. eapply client_app; [done|auto].
Qed.

Lemma in_clear_dec v i :
  (i ∈ m_socks (sv_server v) ∧ in_use v i = false) ∨
  ¬ (i ∈ m_socks (sv_server v) ∧ in_use v i = false).
Proof. destruct (elem_dec (m_socks (sv_server v)) i), (in_use v i); naive_solver. Qed.

Lemma bind_server_inv addrs fails ok fails' v v' :
  bind somaxconn iom addrs fails v = Ret (ok, fails', v') → server_inv v → server_inv v'.
Proof.
  unfold bind. destruct (bind_loop _ _ _ _ v) as [[fs v1]| |] eqn:E; try done. cbn [obind].
  intros H Hi. apply bind_loop_inv in E; [|done]. destruct fs; [by injection H as _ _ <-|].
  destruct (clear_socks iom v1) as [v2| |] eqn:Ec; try done. injection H as _ _ <-.
  apply clear_socks_closes in Ec as (v3 & Hc & ->).
  apply closes_inv in Hc as [Hs Ha Hw]; [|apply in_clear_dec|intros i []; by apply E|done].
  split; [|exact Ha|exact Hw]. cbn. intros i Hn. by apply not_elem_of_nil in Hn.
Qed.

Lemma schedule_all_inv l : ∀ v,
  (∀ i, i ∈ l → listener v i) → server_inv v →
  server_inv (foldl (λ v i, schedule_accept (run_startAccept i) v) v l).
Proof.
  induction l as [|i l IH]; intros v Hl Hi; [done|]. cbn [foldl]. apply IH.
  - intros j Hj. apply (Hl j). by right.
  - destruct Hi as [Hs Ha Hw]. split; [exact Hs| |exact Hw]. intros j. cbn.
    rewrite elem_of_app, list_elem_of_singleton. intros [Hj|[= ->]]; [by apply Ha|].
    apply (Hl i). left.
Qed.

Lemma close_listeners_inv l : ∀ v v',
  close_listeners iom l v = Ret v' → (∀ i, i ∈ l → listener v i) → server_inv v → server_inv v'.
Proof.
  induction l as [|i l IH]; intros v v'; cbn [close_listeners]; [by intros [= <-]|].
  destruct (sv_sockets v !! i) as [c|] eqn:Ei; [|done].
  set (v0 := mkServer _ _ _ _ _ _).
  destruct (close_at iom i v0) as [v1| |] eqn:E; try done. cbn [obind]. intros H Hl [Hs Ha Hw].
  apply close_at_closes in E as (HC & _ & _).
  assert (server_inv v0) as Hi0 by (by split).
  apply (IH v1 v'); [done| |].
  - intros j Hj. destruct (decide (j = i)) as [->|Hne].
    + destruct (cl_closed _ _ _ HC i eq_refl) as (c' & Hc' & _ & Hn'); [by eapply lookup_lt_Some|].
      by exists c'.
    + destruct (Hl j) as (c' & Hc' & Hn'); [by right|]. exists c'. by rewrite (cl_others _ _ _ HC).
  - eapply closes_inv; [done| |intros j ->; apply (Hl i); left|done].
    intros j. destruct (decide (j = i)); auto.
Qed.

Lemma finish_inv t v : server_inv v → server_inv (finish t v).
Proof.
  intros [Hs Ha Hw]. split; [exact Hs| |exact Hw]. intros i. cbn.
  destruct (list_find _ _) as [[j x]|]; [|apply Ha].
  intros Hi. by eapply Ha, list_elem_of_delete_inv.
Qed.

Lemma startAccept_inv waiting i answers r v v' :
  startAccept iom waiting i answers v = Ret (r, v') → server_inv v → server_inv v'.
Proof.
  unfold startAccept. destruct (negb waiting && _).
  { intros [= _ <-]. apply finish_inv. }
  destruct (sv_sockets v !! i) as [c|]; [|done].
  destruct (Socket_accept iom answers c _) as [[[[cl|]|] s]| |] eqn:E; try done; cbn [obind].
  2-3: by intros [= _ <-] [].
  destruct (setRecvTimeout _ cl s) as [s'| |]; try done. cbn [obind]. intros [= _ <-] [Hs Ha Hw].
  assert (m_isConnected cl = true ∧ isValid cl = true) as [Hc Hv].
  { pose proof (run_accept iom answers c _ cl s E) as R. apply socket_run_inv in R as Hinv.
    revert E. unfold Socket_accept. destruct (accept _ _ _ _) as [[[[fd e]|] s1]| |]; try done.
    cbn [obind]. destruct (fd =? -1); [done|].
    destruct (Socket_init fd _ s1) as [[[ok c1] s2]| |] eqn:Ei; try done. cbn [obind].
    destruct ok; [|done]. intros [= <- _]. apply init_inv in Ei as [_ Hok].
    destruct (Hok eq_refl) as (H1 & H2 & H3). split; [done|]. unfold isValid. rewrite H2.
    by destruct (Z.eqb_spec fd (-1)). }
  split; cbn.
  - intros j Hj. eapply listener_app; [done|by apply Hs].
  - intros j Hj. eapply listener_app; [done|by apply Ha].
  - intros j. rewrite elem_of_app, list_elem_of_singleton. intros [Hj| ->].
    + eapply client_app; [done|by apply Hw].
    + exists cl. cbn. by rewrite lookup_app_r, Nat.sub_diag by lia.
Qed.

Lemma server_step_inv v v' : server_step v v' → server_inv v → server_inv v'.
Proof.
  intros H Hi. destruct H as [addrs fails ok fails' v' H| | |v' H|waiting i answers r v' _ H|n|t].
  - by eapply bind_server_inv.
  - unfold start. destruct (negb _); [done|]. apply schedule_all_inv; [|by destruct Hi].
    apply Hi.
  - destruct Hi as [Hs Ha Hw]. split; [exact Hs| |exact Hw]. intros i. cbn.
    rewrite elem_of_app, list_elem_of_singleton. intros [Hj|Hj]; [by apply Ha|done].
  - revert H. unfold stop_callback. destruct (close_listeners _ _ v) as [v1| |] eqn:E; try done.
    cbn [obind]. intros [= <-]. apply finish_inv. eapply close_listeners_inv; [done| |done].
    apply Hi.
  - by eapply startAccept_inv.
  - by destruct Hi.
  - by destruct Hi.
Qed.

(** The states of a server from its construction. *)
Inductive server_run (timeout : Z) (s : HookState K) : server_state K → Prop :=
| run_construct : server_run timeout s (mkServer (TcpServer_new timeout) [] s [] [] [])
| run_step v v' : server_run timeout s v → server_step v v' → server_run timeout s v'.
End server.

(** * Properties *)

(** C23. A server keeps its sockets apart, whatever the order of [bind],
    [start], [stop] and the rounds of its callbacks: the sockets it holds and
    those its accepting callbacks hold are live objects that are not
    connections, and every client handed to the worker is a connected, valid
    socket, which no later [bind], [stop] or clean-up of the server closes. *)
Theorem server_sockets_apart `{P : Platform} {K} `{!Kernel K, !NetKernel K} (somaxconn : Z)
    (iom : bool) (timeout : Z) (s : HookState K) (v : server_state K) :
  server_run somaxconn iom timeout s v →
  (∀ i, i ∈ m_socks (sv_server v) → listener v i) ∧
  (∀ i, run_startAccept i ∈ sv_accept v → listener v i) ∧
  (∀ i, i ∈ sv_worker v → client v i).
Proof.
  intros H. assert (server_inv v) as [Hs Ha Hw]; [|done].
  induction H as [|v v' _ IH Hv]; [|by eapply server_step_inv].
  split; cbn; intros i Hi; by apply not_elem_of_nil in Hi.
Qed.

(** C24. Binding is all or nothing, when it is called with no failed
    addresses yet, as its callers do: [bind] returns true exactly when no
    address failed, and then the server has, behind the sockets it had, a
    listening socket of the right family for each address, in order, on whose
    descriptor the kernel has taken the bind to the address and then the
    listen.
    Otherwise the failed addresses are a part of the given ones, the server has
    no socket left, not even those of an earlier [bind], and every one that no
    accepting callback holds is closed. *)
Theorem bind_all_or_nothing `{P : Platform} {K} `{!Kernel K, !NetKernel K} (somaxconn : Z)
    (iom : bool) (addrs fails : list Address) (ok : bool) (v v' : server_state K) :
  bind somaxconn iom addrs [] v = Ret (ok, fails, v') →
  (ok = true ↔ fails = []) ∧ fails `sublist_of` addrs ∧
  (ok = true →
     let ids := seq (length (sv_sockets v)) (length addrs) in
     m_socks (sv_server v') = m_socks (sv_server v) ++ ids ∧
     ∀ j addr, addrs !! j = Some addr → ∃ c,
       sv_sockets v' !! (length (sv_sockets v) + j)%nat = Some c ∧ listens somaxconn addr c) ∧
  (ok = false →
     m_socks (sv_server v') = [] ∧
     ∀ i, (i < length (sv_sockets v'))%nat → in_use v i = false →
       i ∈ m_socks (sv_server v) ∨ (length (sv_sockets v) ≤ i)%nat →
       ∃ c, sv_sockets v' !! i = Some c ∧ isValid c = false).
Proof.
  unfold bind. destruct (bind_loop _ _ _ _ v) as [[fails' v1]| |] eqn:E; try done. cbn [obind].
  apply bind_loop_binds in E as (good & bad & new & -> & Hg & Hb & Hl & Hf & Hn). cbn [app].
  destruct Hn as [Es Et Ew Ea]. pose proof (Forall2_length _ _ _ Hf) as Hlen.
  destruct bad as [|b bad].
  - intros [= <- <- <-]. split; [done|]. split; [by apply sublist_nil_l|]. split; [|done]. intros _. cbn zeta.
    assert (good = addrs) as -> by (apply sublist_full; [done|simpl in Hl; lia]).
    split; [rewrite Et; cbn; by rewrite <- Hlen|]. intros j addr Hj.
    destruct (Forall2_lookup_l _ _ _ _ _ Hf Hj) as (c & Hc & Hlc). exists c. split; [|done].
    by rewrite Es, lookup_app_r, Nat.add_comm, Nat.add_sub by lia.
  - destruct (clear_socks iom v1) as [v2| |] eqn:Ec; try done. cbn [obind].
    intros [= <- <- <-]. do 3 (split; [done|]). intros _.
    apply clear_socks_closes in Ec as (v3 & Hc & ->). split; [done|]. cbn.
    intros i Hi Hu Hin. destruct (cl_closed _ _ _ Hc i) as (c & Hc' & Hv & _);
      [|by rewrite <- (cl_length _ _ _ Hc)|by exists c].
    split; [|unfold in_use in *; by rewrite Ea]. rewrite Et. cbn. apply elem_of_app.
    destruct Hin as [Hin|Hin]; [by left|right]. apply elem_of_seq.
    rewrite (cl_length _ _ _ Hc), Es, length_app in Hi. lia.
Qed.

(** * Witnesses *)

Definition demo_server : server_state (gmap Z table_entry) :=
  mkServer (TcpServer_new 240000) [] demo_hook [] [] [].
Definition demo_bound : outcome (bool * list Address * server_state (gmap Z table_entry)) :=
  bind (H := x86_64) 128 true [IPv4Address_new (H := x86_64) 0 80] [] demo_server.
Definition demo_listening : server_state (gmap Z table_entry) :=
  match demo_bound with Ret (_, _, v) => v | _ => demo_server end.

Lemma demo_bound_ok : demo_bound = Ret (true, [], demo_listening).
Proof. by vm_compute. Qed.

Lemma bind_all_or_nothing_witness :
  m_socks (sv_server demo_listening) = [0%nat] ∧
  ∃ c, sv_sockets demo_listening !! 0%nat = Some c ∧ isValid c = true.
Proof.
  destruct (bind_all_or_nothing (P := x86_64) 128 true [IPv4Address_new (H := x86_64) 0 80] []
    true demo_server demo_listening demo_bound_ok) as (_ & _ & H & _).
  destruct (H eq_refl) as [E Hl]. split; [exact E|].
  destruct (Hl 0%nat (IPv4Address_new (H := x86_64) 0 80) eq_refl) as (c & Hc & Hv & _).
  exists c. split; [exact Hc|exact Hv].
Defined.

Lemma server_sockets_apart_witness :
  run_startAccept 0 ∈ sv_accept (snd (start demo_listening)) ∧
  listener (snd (start demo_listening)) 0.
Proof.
  assert (run_startAccept 0 ∈ sv_accept (snd (start demo_listening))) as Hin
    by (vm_compute; left).
  split; [exact Hin|].
  refine (proj1 (proj2 (server_sockets_apart (P := x86_64) 128 true 240000 demo_hook
    (snd (start demo_listening)) _)) 0%nat Hin).
  eapply run_step; [|apply step_start]. eapply run_step; [apply run_construct|].
  eapply step_bind. exact demo_bound_ok.
Defined.
