(* ===== verification/ByteArrayText.v ===== *)
(** The text of a [ByteArray] and its end: toHexString and the destructor of
    bytearray.cpp. *)

From S2P Require Import Prelude Endian Http ByteArray ByteArraySpec.
From Stdlib Require Import Ascii.

#[local] Open Scope list_scope.
#[local] Open Scope Z_scope.

(** * Operations *)

(** A digit of [std::hex]. *)
Definition hex_digit (d : Z) : ascii := ascii_of_N (Z.to_N (if d <? 10 then 48 + d else 87 + d)).

(** [ss << std::setw(2) << std::setfill('0') << std::hex << n] for a byte. *)
Definition hex_byte (n : Z) : text := [hex_digit (n / 16); hex_digit (n mod 16)].

(** One round of the loop of [toHexString]. *)
Definition hex_round (i : nat) (c : Z) : text :=
  (if (0 <? i)%nat && (i mod 32 =? 0)%nat then [ascii_of_N 10] else []) ++ hex_byte (u8 c) ++ str " ".

(** ByteArray::toHexString *)
Definition toHexString (ba : ByteArray) : outcome text :=
  let! s := toString ba in Ret (concat (imap hex_round s)).

(** The loop of [ByteArray::~ByteArray] from the node [tmp]: the nodes in the
    order in which they are deleted. *)
Fixpoint delete_nodes (fuel : nat) (nodes : list (list Z)) (tmp : option nat) : outcome (list nat) :=
  match fuel with
  | O => Fault OutOfFuel
  | S fuel =>
      match tmp with
      | None => Ret []
      | Some i => let! l := delete_nodes fuel nodes (next nodes i) in Ret (i :: l)
      end
  end.
Definition ByteArray_delete (ba : ByteArray) : outcome (list nat) :=
  delete_nodes (S (length (m_nodes ba))) (m_nodes ba) (Some O).

(** * Properties *)

(** Reading the text back: two digits for a byte, blanks and line ends between
    them. *)
Definition digit_of (c : ascii) : option Z :=
  let n := Z.of_N (N_of_ascii c) in
  if (48 <=? n) && (n <=? 57) then Some (n - 48)
  else if (97 <=? n) && (n <=? 102) then Some (n - 87) else None.

Fixpoint unhex (s : text) : option (list Z) :=
  match s with
  | [] => Some []
  | c :: s' =>
      match digit_of c with
      | None => unhex s'
      | Some h =>
          match s' with
          | d :: s => l ← digit_of d; bs ← unhex s; Some (16 * h + l :: bs)
          | [] => None
          end
      end
  end.

Lemma digit_of_hex d : 0 ≤ d < 16 → digit_of (hex_digit d) = Some d.
Proof.
  intros Hd. assert (∃ n : nat, (n < 16)%nat ∧ d = Z.of_nat n) as (n & Hn & ->)
    by (exists (Z.to_nat d); lia).
  do 16 (destruct n as [|n]; [by vm_compute|]). lia.
Qed.

Lemma unhex_round i c s : in_u 8 c → unhex (hex_round i c ++ s) = (λ bs, c :: bs) <$> unhex s.
Proof.
  unfold in_u. intros Hc. unfold hex_round, u8. rewrite wrapU_id by done.
  assert (unhex (hex_byte c ++ str " " ++ s) = (λ bs, c :: bs) <$> unhex s) as E.
  { unfold hex_byte. cbn [app unhex]. pose proof (Z.div_mod c 16).
    pose proof (Z.mod_pos_bound c 16).
    rewrite (digit_of_hex (c / 16)), (digit_of_hex (c mod 16))
      by (split; [apply Z.div_pos|apply Z.div_lt_upper_bound]; lia) || lia.
    cbn [mbind option_bind]. change (unhex (str " " ++ s)) with (unhex s).
    destruct (unhex s); [|done]. cbn. do 2 f_equal. lia. }
  destruct (_ && _); rewrite <- !(assoc_L (++)); [|done]. cbn [app unhex].
  change (digit_of (ascii_of_N 10)) with (@None Z). done.
Qed.

Lemma unhex_rounds n bs : Forall (in_u 8) bs → unhex (concat (imap (λ i, hex_round (n + i)) bs)) = Some bs.
Proof.
  intros H. revert n. induction H as [|c bs Hc _ IH]; intros n; [done|]. cbn [imap concat].
  rewrite unhex_round by done.
  rewrite (imap_ext _ (λ i, hex_round (S n + i))) by (intros i x _; cbn; by rewrite Nat.add_succ_r).
  by rewrite IH.
Qed.

(** The text shows the readable bytes and nothing else: read as hexadecimal
    numbers it gives them back. *)
Theorem hex_shows_bytes (ba : ByteArray) :
  Inv ba → Forall (in_u 8) (avail ba) →
  ∃ s, toHexString ba = Ret s ∧ unhex s = Some (avail ba).
Proof.
  intros Hi Hb. unfold toHexString. rewrite toString_spec by done. cbn [obind].
  eexists. split; [reflexivity|]. by apply (unhex_rounds 0).
Qed.

Lemma delete_nodes_all n : ∀ i nodes,
  length nodes = (i + n)%nat → (0 < n)%nat → delete_nodes (S n) nodes (Some i) = Ret (seq i n).
Proof.
  induction n as [|n IH]; intros i nodes Hl Hn; [lia|]. cbn [seq].
  change (delete_nodes (S (S n)) nodes (Some i))
    with (let! l := delete_nodes (S n) nodes (next nodes i) in Ret (i :: l)).
  unfold next. destruct (decide (0 < n)%nat) as [Hp|Hz].
  - destruct (Nat.ltb_spec (S i) (length nodes)); [|lia]. by rewrite (IH (S i)) by lia.
  - assert (n = 0%nat) as -> by lia. destruct (Nat.ltb_spec (S i) (length nodes)); [lia|done].
Qed.

(** The destructor ends and deletes every node of the chain once. *)
Theorem destructor_deletes_once (ba : ByteArray) :
  Inv ba → ByteArray_delete ba = Ret (seq 0 (length (m_nodes ba))).
Proof.
  intros Hi. unfold ByteArray_delete. apply delete_nodes_all; [done|].
  pose proof (inv_root ba Hi). destruct (m_nodes ba); [done|simpl; lia].
Qed.
