(* ===== verification/Echo.v ===== *)
(** The example server, examples/echo_server.cpp.

    A message of the log is kept as an event with the data it shows; the rest
    of its text, [*client] and [strerror(errno)], is not modelled.  [info] says
    whether the root logger lets INFO through: the operands of a message are
    evaluated only then. *)

From S2P Require Import Prelude Endian Http Address FdManager Hook Socket TcpServer.
From S2P Require Import ByteArray ByteArraySpec ByteArrayTheorems ByteArrayText Stream StreamTheorems.
From Stdlib Require Import Ascii.

#[local] Open Scope string_scope.
#[local] Open Scope list_scope.
#[local] Open Scope Z_scope.

(** * Operations *)

Inductive echo_event :=
| log_handle_client
| log_client_close
| log_client_error (rt : Z)
| log_recv (rt : Z) (bytes : list Z)
| print_bytes (bytes : list Z)
| print_text (t : text).

(** [EchoServer]: its own field, over those of the server. *)
Record EchoServer := mkEchoServer { es_type : Z; es_base : TcpServer }.
Definition EchoServer_new (type read_timeout : Z) : EchoServer :=
  mkEchoServer type (TcpServer_new read_timeout).

(** [std::string((char * )iovs[0].iov_base, rt)]: the length is converted to
    [size_t], and a negative one is more than a string can hold. *)
Definition first_buffer (nodes : list (list Z)) (iovs : list iovec) (rt : Z) : outcome (list Z) :=
  match iovs with
  | [] => Fault OutOfBounds
  | v :: _ =>
      if 2 ^ 63 - 1 <? u64 rt then Throw std_length_error
      else match nodes !! iov_node v with
           | None => Fault NullDeref
           | Some nd =>
               if node_size nd <? iov_off v + u64 rt then Fault OutOfBounds
               else Ret (take (Z.to_nat (u64 rt)) (drop (Z.to_nat (iov_off v)) nd))
           end
  end.

Section handler.
Context {K : Type} `{!NetKernel K}.
(** What fresh nodes hold, whether INFO is let through, the server's type, the client. *)
Context (junk : nat → nat → Z) (info : bool) (m_type : Z) (client : Socket).

Definition log_info (e : echo_event) : list echo_event := if info then [e] else [].

(** A round of the loop of [handleClient]: whether it breaks, what is logged
    and printed. *)
Definition handle_round (ba : ByteArray) (k : K)
    : outcome (bool * list echo_event * ByteArray * K) :=
  let! ba := clear ba in
  let! (iovs, _, ba) := getWriteBuffers junk 1024 ba in
  let '(rt, bytes, k) := Socket_recv_iov (iov_len <$> iovs) client k in
  let ba := moved ba (m_position ba) (m_size ba) (scatter (m_nodes ba) iovs bytes) (m_cur ba) in
  if rt =? 0 then Ret (true, log_info log_client_close, ba, k)
  else
    let err := if rt <? 0 then log_info (log_client_error rt) else [] in
    let! (_, ba) := run_m (setPosition 0) ba in
    let! shown := (if info then let! s := first_buffer (m_nodes ba) iovs rt in Ret [log_recv rt s]
                   else Ret []) in
    let! out := (if m_type =? 1 then let! s := toString ba in Ret (print_bytes s)
                 else let! s := toHexString ba in Ret (print_text s)) in
    Ret (false, err ++ shown ++ [out], ba, k).

Fixpoint handle_loop (fuel : nat) (ba : ByteArray) (k : K)
    : outcome (list echo_event * ByteArray * K) :=
  match fuel with
  | O => Fault OutOfFuel
  | S fuel =>
      let! (stop, evs, ba, k) := handle_round ba k in
      if stop then Ret (evs, ba, k)
      else let! (evs', ba, k) := handle_loop fuel ba k in Ret (evs ++ evs', ba, k)
  end.

(** EchoServer::handleClient.  The array is made with the default base size. *)
Definition handleClient (fuel : nat) (k : K) : outcome (list echo_event * ByteArray * K) :=
  let! (evs, ba, k) := handle_loop fuel (ByteArray_new junk 4096) k in
  Ret (log_info log_handle_client ++ evs, ba, k).

End handler.

(** The type [main] chooses; [None] when it only prints how it is used. *)
Definition echo_main (argv : list text) : option Z :=
  match argv with
  | [] | [_] => None
  | _ :: a :: _ => Some (if bool_decide (a = str "-b") then 2 else 1)
  end.

Section run.
Context `{Platform} {K : Type} `{!Kernel K} `{!NetKernel K} (somaxconn : Z) (iom : bool).

(** The loop of [run]: [sleeps] says what happens during each [sleep(2)]; when
    they are used up the fiber is asleep. *)
Fixpoint run_bind (sleeps : list (HookState K → HookState K)) (addr : Address)
    (v : server_state K) : outcome (bool * server_state K) :=
  let! (ok, v) := bind1 somaxconn iom addr v in
  if ok then Ret (true, v)
  else match sleeps with
       | [] => Ret (false, v)
       | f :: sleeps => run_bind sleeps addr (with_hook (f (sv_hook v)) v)
       end.

(** [run]; [addr] is what LookupAny of 0.0.0.0:8020 gave. *)
Definition echo_run (sleeps : list (HookState K → HookState K)) (addr : option Address)
    (v : server_state K) : outcome (bool * server_state K) :=
  match addr with
  | None => Fault NullDeref
  | Some addr =>
      let! (bound, v) := run_bind sleeps addr v in
      if bound then Ret (true, snd (start v)) else Ret (false, v)
  end.
End run.

(** * Properties *)

(** The array between two rounds: nothing written, one node of 4096 bytes. *)
Record idle_array (ba : ByteArray) : Prop := {
  ia_base : m_baseSize ba = 4096;
  ia_root : ∃ root rest, m_nodes ba = root :: rest ∧ length root = 4096%nat;
}.

Lemma idle_new junk : idle_array (ByteArray_new junk 4096).
Proof.
  constructor; [done|]. eexists _, _. split; [reflexivity|].
  unfold new_node. by rewrite length_fmap, length_seq.
Qed.

Definition cleared (e : endian) (root : list Z) : ByteArray := mkByteArray 4096 0 4096 0 e [root] (Some O).

Lemma cleared_clear ba : idle_array ba →
  ∃ e root, clear ba = Ret (cleared e root) ∧ length root = 4096%nat.
Proof.
  intros [Hb (root & rest & Hn & Hl)]. unfold clear. rewrite Hn, Hb. by eexists _, _.
Qed.

Lemma cleared_buffers junk e root : length root = 4096%nat →
  getWriteBuffers junk 1024 (cleared e root) = Ret ([mkIovec 0 0 1024], 1024, cleared e root).
Proof.
  intros Hl. unfold getWriteBuffers, addCapacity. cbn [Z.eqb]. cbv beta.
  change (getCapacity (cleared e root)) with 4096. cbn -[iov_loop Z.to_nat Zlen].
  unfold node_size, Zlen. rewrite Hl. change (u64 (Z.of_nat 4096 - 0 mod 4096)) with 4096.
  reflexivity.
Qed.

Lemma cleared_scatter (root bs : list Z) : length root = 4096%nat → Zlen bs ≤ 1024 →
  scatter [root] [mkIovec 0 0 1024] bs = [bs ++ drop (length bs) root].
Proof.
  intros Hl Hb. cbn [scatter iov_node iov_off iov_len]. rewrite take_ge by (unfold Zlen in Hb; lia).
  reflexivity.
Qed.

Lemma cleared_idle e root : length root = 4096%nat → idle_array (cleared e root).
Proof. intros Hl. constructor; [done|]. by eexists _, _. Qed.

Lemma cleared_start e root : length root = 4096%nat →
  run_m (setPosition 0) (cleared e root) = Ret (tt, cleared e root).
Proof.
  intros Hl. unfold run_m, setPosition. cbn [m_capacity cleared Z.ltb Z.compare m_size m_nodes length].
  cbn [seek deref]. unfold deref. cbn. unfold node_size, Zlen. rewrite Hl. reflexivity.
Qed.

Section served.
Context {K : Type} `{!NetKernel K, !TcpConn K} (junk : nat → nat → Z) (info : bool) (m_type : Z).
Context (client : Socket) (Hup : m_isConnected client = true).

Abbreviation fd := (m_sock client).
Abbreviation round := (handle_round junk info m_type client).

(** What a round logs and prints for the bytes [bs]. *)
Definition shown (bs : list Z) : list echo_event :=
  log_info info (log_recv (Zlen bs) bs) ++ [if m_type =? 1 then print_bytes [] else print_text []].

Lemma round_recv ba k bs k' :
  idle_array ba → (∃ a, recvmsg_f fd [1024] k = (Zlen bs, bs, a, k')) → bs ≠ [] → Zlen bs ≤ 1024 →
  ∃ ba', round ba k = Ret (false, shown bs, ba', k') ∧ idle_array ba'.
Proof.
  intros Hba [a Hr] Hne Hlen. destruct (cleared_clear ba Hba) as (e & root & Hc & Hl).
  pose proof (positive_nonempty bs Hne).
  assert (length (bs ++ drop (length bs) root) = 4096%nat) as Hl'
    by (rewrite length_app, length_drop; unfold Zlen in *; lia).
  exists (cleared e (bs ++ drop (length bs) root)). split; [|by apply cleared_idle].
  unfold handle_round. rewrite Hc. cbn [obind]. rewrite cleared_buffers by done. cbn [obind].
  unfold Socket_recv_iov, isConnected. cbn [fmap list_fmap iov_len].
  rewrite Hup, Hr, i32_len by lia. destruct (Z.eqb_spec (Zlen bs) 0); [lia|].
  destruct (Z.ltb_spec (Zlen bs) 0); [lia|]. cbn [m_nodes cleared]. rewrite cleared_scatter by done.
  change (moved _ _ _ _ _) with (cleared e (bs ++ drop (length bs) root)).
  rewrite cleared_start by done. cbn [obind].
  assert (first_buffer (m_nodes (cleared e (bs ++ drop (length bs) root))) [mkIovec 0 0 1024] (Zlen bs)
          = Ret bs) as ->.
  { cbn -[node_size u64 Zlen Z.ltb Z.pow Z.sub]. rewrite u64_small by lia.
    destruct (Z.ltb_spec (2 ^ 63 - 1) (Zlen bs)); [lia|]. unfold node_size, Zlen. rewrite Hl'.
    destruct (Z.ltb_spec (Z.of_nat 4096) (0 + Z.of_nat (length bs))); [unfold Zlen in *; lia|].
    rewrite Nat2Z.id, drop_0. by rewrite take_app_length. }
  change (toString _) with (@Ret (list Z) []). change (toHexString _) with (@Ret text []).
  unfold shown, log_info. cbn [obind]. by destruct info, (m_type =? 1).
Qed.

Lemma round_end ba k :
  idle_array ba → (∃ a, recvmsg_f fd [1024] k = (0, [], a, k)) →
  ∃ ba', round ba k = Ret (true, log_info info log_client_close, ba', k).
Proof.
  intros Hba [a Hr]. destruct (cleared_clear ba Hba) as (e & root & Hc & Hl).
  unfold handle_round. rewrite Hc. cbn [obind]. rewrite cleared_buffers by done. cbn [obind].
  unfold Socket_recv_iov, isConnected. cbn [fmap list_fmap iov_len]. rewrite Hup, Hr. by eexists.
Qed.

Lemma loop_served fuel : ∀ ba k,
  idle_array ba → (length (incoming fd k) < fuel)%nat →
  ∃ chunks ba' k',
    handle_loop junk info m_type client fuel ba k =
      Ret (concat (shown <$> chunks) ++ log_info info log_client_close, ba', k') ∧
    incoming fd k = concat chunks ∧ Forall (λ c, 0 < Zlen c ≤ 1024) chunks ∧
    incoming fd k' = [] ∧ sent fd k' = sent fd k.
Proof.
  induction fuel as [|fuel IH]; intros ba k Hba Hf; [lia|]. cbn [handle_loop].
  destruct (decide (incoming fd k = [])) as [He|Hn].
  - destruct (round_end ba k Hba (recvmsg_end fd [1024] k ltac:(done) He)) as (ba' & ->).
    cbn [obind]. by exists [], ba', k.
  - destruct (recvmsg_some fd [1024] k ltac:(done) ltac:(done) Hn)
      as (bs & a & k1 & Hr & Hne & Hl & Hin & Hs). change (Zlen bs ≤ 1024) in Hl.
    destruct (round_recv ba k bs k1 Hba (ex_intro _ a Hr) Hne Hl) as (ba1 & -> & Hba1). cbn [obind].
    destruct (IH ba1 k1 Hba1) as (chunks & ba' & k' & -> & E & HF & Hi & Hs').
    { rewrite Hin, length_app in Hf. destruct bs; [done|]. simpl in Hf. lia. }
    cbn [obind]. exists (bs :: chunks), ba', k'. cbn [fmap list_fmap concat].
    pose proof (positive_nonempty bs Hne).
    rewrite <- (assoc_L (++)). split; [done|]. split; [congruence|]. split; [by constructor|].
    split; congruence.
Qed.
End served.

(** C39. The handler of the example, on a connected client, ends when the peer
    closes, after at most one round more than bytes arrive.  What arrived was
    read in nonempty pieces of at most 1024 bytes, and each piece was logged if
    the logger lets INFO through (nothing is logged otherwise); but the array
    was taken back to its start without its size: each piece prints the empty
    text, and nothing is sent back. *)
Theorem echo_prints_nothing {K} `{!NetKernel K, !TcpConn K} (junk : nat → nat → Z) (info : bool)
    (m_type : Z) (client : Socket) (k : K) (fuel : nat) :
  m_isConnected client = true → (length (incoming (m_sock client) k) < fuel)%nat →
  ∃ chunks ba' k',
    handleClient junk info m_type client fuel k =
      Ret (log_info info log_handle_client ++ concat (shown info m_type <$> chunks) ++
           log_info info log_client_close, ba', k') ∧
    concat chunks = incoming (m_sock client) k ∧ Forall (λ c, 0 < Zlen c ≤ 1024) chunks ∧
    sent (m_sock client) k' = sent (m_sock client) k.
Proof.
  intros Hup Hf. unfold handleClient.
  destruct (loop_served junk info m_type client Hup fuel (ByteArray_new junk 4096) k (idle_new junk) Hf)
    as (chunks & ba' & k' & -> & E & HF & _ & Hs).
  cbn [obind]. by exists chunks, ba', k'.
Qed.

Lemma echo_prints_nothing_witness :
  ∃ chunks ba' k',
    handleClient zeros true 2 (mkSocket 5 2 1 0 true None None) 9 (mkWire [104; 105; 33] []) =
      Ret ([log_handle_client] ++ concat (shown true 2 <$> chunks) ++ [log_client_close], ba', k') ∧
    concat chunks = [104; 105; 33] ∧ Forall (λ c, 0 < Zlen c ≤ 1024) chunks ∧ wi_out k' = [].
Proof.
  destruct (echo_prints_nothing zeros true 2 (mkSocket 5 2 1 0 true None None)
    (mkWire [104; 105; 33] []) 9) as (chunks & ba' & k' & H); [reflexivity|vm_compute; lia|].
  exists chunks, ba', k'. exact H.
Defined.

(** A failed [recv] does not end the loop: with INFO let through the message
    about the data asks for a string of a negative length, without it the
    handler never returns while the failure lasts. *)
Lemma echo_error {K} `{!NetKernel K} junk m_type client (k : K) :
  m_isConnected client = false →
  (∀ fuel, handleClient junk true m_type client (S fuel) k = Throw std_length_error) ∧
  (∀ fuel, handleClient junk false m_type client fuel k = Fault OutOfFuel).
Proof.
  intros Hup.
  assert (∀ info ba, idle_array ba → ∃ e root, length root = 4096%nat ∧
    handle_round junk info m_type client ba k =
      (if info then Throw std_length_error
       else Ret (false, [if m_type =? 1 then print_bytes [] else print_text []], cleared e root, k)))
    as Hround.
  { intros info ba Hba. destruct (cleared_clear ba Hba) as (e & root & Hc & Hl). exists e, root.
    split; [done|]. unfold handle_round. rewrite Hc. cbn [obind]. rewrite cleared_buffers by done.
    cbn [obind]. unfold Socket_recv_iov, isConnected. rewrite Hup. cbn [Z.eqb Z.ltb Z.compare m_nodes cleared].
    rewrite cleared_scatter by done. cbn [app length]. rewrite drop_0.
    change (moved _ _ _ _ _) with (cleared e root). rewrite cleared_start by done. cbn [obind].
    change (toString _) with (@Ret (list Z) []). change (toHexString _) with (@Ret text []).
    destruct info; [done|]. cbn [obind]. by destruct (m_type =? 1). }
  split; intros fuel; unfold handleClient.
  - cbn [handle_loop]. by destruct (Hround true _ (idle_new junk)) as (e & root & _ & ->).
  - assert (∀ ba, idle_array ba → handle_loop junk false m_type client fuel ba k = Fault OutOfFuel)
      as Hloop; [|by rewrite Hloop by apply idle_new].
    induction fuel as [|fuel IH]; intros ba Hba; [done|]. cbn [handle_loop].
    destruct (Hround false ba Hba) as (e & root & Hl & ->). cbn [obind].
    by rewrite IH by (by apply cleared_idle).
Qed.

Section started.
Context `{Platform} {K : Type} `{!Kernel K} `{!NetKernel K} (somaxconn : Z) (iom : bool).

(** [run] asks for an accept loop on each listening socket once it is bound,
    however often it slept before. *)
Lemma echo_run_starts sleeps addr (v v' : server_state K) :
  echo_run somaxconn iom sleeps (Some addr) v = Ret (true, v') →
  ∃ v1, run_bind somaxconn iom sleeps addr v = Ret (true, v1) ∧
    m_isStop (sv_server v') = false ∧
    (m_isStop (sv_server v1) = true →
     sv_accept v' = sv_accept v1 ++ (run_startAccept <$> m_socks (sv_server v1))).
Proof.
  unfold echo_run. destruct (run_bind somaxconn iom sleeps addr v) as [[[|] v1]| |] eqn:E; try done.
  cbn [obind]. intros [= <-]. exists v1. split; [done|]. unfold start.
  destruct (m_isStop (sv_server v1)) eqn:Es; cbn [negb snd]; [|by rewrite Es].
  assert (∀ l w, m_isStop (sv_server (foldl (λ v i, schedule_accept (run_startAccept i) v) w l))
            = m_isStop (sv_server w) ∧
          sv_accept (foldl (λ (v : server_state K) i, schedule_accept (run_startAccept i) v) w l)
            = sv_accept w ++ (run_startAccept <$> l)) as Hfold.
  { induction l as [|i l IH]; intros w; [by rewrite app_nil_r|]. cbn [foldl].
    destruct (IH (schedule_accept (run_startAccept i) w)) as [-> ->]. split; [done|].
    cbn [sv_accept schedule_accept fmap list_fmap]. by rewrite <- (assoc_L (++)). }
  destruct (Hfold (m_socks (sv_server v1)) (with_server (with_stop false (sv_server v1)) v1)) as [H1 H2].
  split; [exact H1|]. intros _. exact H2.
Qed.
End started.
