(* ===== verification/LogConfig.v ===== *)
(** The logger's text: the YAML of loggers and appenders, the conversions of
    the setting [logs], the events that the logging macros build: log.cpp and
    log.h.

    YAML documents are the nodes of Config, and parsing and printing are those
    of its class [Libs].  A conversion that throws gives [None]. *)

From S2P Require Import Prelude Http Address Config Log.
From Stdlib Require Import Ascii.

#[local] Open Scope string_scope.
#[local] Open Scope list_scope.
#[local] Open Scope Z_scope.

(** * YAML nodes *)

(** The value of a key in a map. *)
Fixpoint map_at (key : text) (l : list (node * node)) : option node :=
  match l with
  | [] => None
  | (k, v) :: l =>
      match k with
      | Scalar s => if decide (s = key) then Some v else map_at key l
      | _ => map_at key l
      end
  end.

(** [n[key]] for a text: [None] when it throws, as it does inside a scalar;
    [Some None] is an undefined node. *)
Definition at_key (key : text) (n : node) : option (option node) :=
  match n with
  | Scalar _ => None
  | Map l => Some (map_at key l)
  | _ => Some None
  end.

Section yaml.
Context {base B : Type} `{Libs base B}.
(** [n.as<std::string>()]. *)
Context (as_string : node → option text).

(** ** Printing the loggers *)

(** [node["level"] = ToString(level)] when it is not UNKNOWN. *)
Definition level_entry (level : Z) : list (text * node) :=
  if negb (level =? UNKNOWN) then [(str "level", Scalar (level_ToString level))] else [].

Definition formatter_entry (f : option LogFormatter) : list (text * node) :=
  match f with Some f => [(str "formatter", Scalar (lf_pattern f))] | None => [] end.

(** The node of [FileLogAppender::toYamlString] and
    [StdoutLogAppender::toYamlString]. *)
Definition appender_node (a : LogAppender) : node :=
  map_node
    ((match ap_sink a with
      | Some filename => [(str "type", Scalar (str "FileLogAppender")); (str "file", Scalar filename)]
      | None => [(str "type", Scalar (str "StdoutLogAppender"))]
      end) ++
     level_entry (ap_level a) ++
     (if ap_hasFormatter a then formatter_entry (ap_formatter a) else [])).

Definition appender_toYamlString (a : LogAppender) : text := emit (appender_node a).

(** [YAML::Load(i->toYamlString())] for the appenders of a logger. *)
Fixpoint load_appenders (h : gmap nat LogAppender) (l : list nat) : outcome (option (list node)) :=
  match l with
  | [] => Ret (Some [])
  | a :: l =>
      match h !! a with
      | None => Fault NullDeref
      | Some ap =>
          let! ns := load_appenders h l in
          Ret (match Load (appender_toYamlString ap), ns with
               | Some n, Some ns => Some (n :: ns)
               | _, _ => None
               end)
      end
  end.

(** [node["appenders"].push_back] for each: no entry without one. *)
Definition appenders_entry (l : list node) : list (text * node) :=
  match l with [] => [] | _ => [(str "appenders", Sequence l)] end.

Definition logger_node (lg : Logger) (appenders : list node) : node :=
  map_node ((str "name", Scalar (lg_name lg)) :: level_entry (lg_level lg) ++
            formatter_entry (lg_formatter lg) ++ appenders_entry appenders).

(** Logger::toYamlString *)
Definition logger_toYamlString (h : gmap nat LogAppender) (lg : Logger) : outcome (option text) :=
  let! ns := load_appenders h (lg_appenders lg) in
  Ret (match ns with Some ns => Some (emit (logger_node lg ns)) | None => None end).

Fixpoint load_loggers (h : gmap nat LogAppender) (l : list Logger) : outcome (option (list node)) :=
  match l with
  | [] => Ret (Some [])
  | lg :: l =>
      let! s := logger_toYamlString h lg in
      let! ns := load_loggers h l in
      Ret (match s ≫= Load, ns with
           | Some n, Some ns => Some (n :: ns)
           | _, _ => None
           end)
  end.

(** The std::map of the loggers, in the order of their names. *)
Definition in_order (m : gmap text Logger) : list Logger :=
  snd <$> foldr (λ '(k, v), multimap_insert string_le k v) [] (map_to_list m).

(** LoggerManager::toYamlString *)
Definition manager_toYamlString (m : LoggerManager) : outcome (option text) :=
  let! ns := load_loggers (m_heap m) (in_order (m_loggers m)) in
  Ret (match ns with Some ns => Some (emit (seq_node ns)) | None => None end).

(** ** The setting [logs] *)

(** [n[key].IsDefined() ? n[key].as<std::string>() : def]. *)
Definition text_at (key : text) (def : text) (n : node) : option text :=
  match at_key key n with
  | None => None
  | Some None => Some def
  | Some (Some x) => as_string x
  end.

(** The body of the inner loop: [None] when it throws, [Some None] when the
    appender is skipped. *)
Definition read_appender (a : node) : option (option LogAppenderDefine) :=
  match at_key (str "type") a with
  | None => None
  | Some None => Some None
  | Some (Some t) =>
      type ← as_string t;
      if bool_decide (type = str "FileLogAppender") then
        match at_key (str "file") a with
        | None => None
        | Some None => Some None
        | Some (Some f) =>
            file ← as_string f;
            formatter ← text_at (str "formatter") [] a;
            Some (Some (mkAD 1 UNKNOWN formatter file))
        end
      else if bool_decide (type = str "StdoutLogAppender") then
        Some (Some (mkAD 2 UNKNOWN [] []))
      else Some None
  end.

Fixpoint read_appenders (l : list node) : option (list LogAppenderDefine) :=
  match l with
  | [] => Some []
  | a :: l =>
      r ← read_appender a;
      rs ← read_appenders l;
      Some (match r with Some lad => lad :: rs | None => rs end)
  end.

(** The body of the outer loop. *)
Definition read_define (n : node) : option (option LogDefine) :=
  match at_key (str "name") n with
  | None => None
  | Some None => Some None
  | Some (Some x) =>
      name ← as_string x;
      level ← text_at (str "level") [] n;
      formatter ← text_at (str "formatter") [] n;
      appenders ← match at_key (str "appenders") n with
                  | None => None
                  | Some None => Some []
                  | Some (Some l) => read_appenders (seq_items l)
                  end;
      Some (Some (mkLD name (level_FromString level) formatter appenders))
  end.

(** [vec.insert(ld)]: definitions are ordered by their names, and the first of
    a name stays. *)
Fixpoint define_insert (d : LogDefine) (l : list LogDefine) : list LogDefine :=
  match l with
  | [] => [d]
  | x :: l' =>
      if bool_decide (ld_name x = ld_name d) then l
      else if string_le (ld_name x) (ld_name d) then x :: define_insert d l'
      else d :: l
  end.

Fixpoint read_defines (vec : list LogDefine) (l : list node) : option (list LogDefine) :=
  match l with
  | [] => Some vec
  | n :: l =>
      r ← read_define n;
      read_defines (match r with Some d => define_insert d vec | None => vec end) l
  end.

(** LexicalCast<std::string, std::set<LogDefine>> *)
Definition defines_from_string (v : text) : option (list LogDefine) :=
  n ← Load v; read_defines [] (seq_items n).

(** The node of an appender's definition: a level is printed, and the formatter
    when it is empty. *)
Definition appender_define_node (a : LogAppenderDefine) : node :=
  map_node
    ((if ad_type a =? 1 then
        [(str "type", Scalar (str "FileLogAppender")); (str "file", Scalar (ad_file a))]
      else if ad_type a =? 2 then [(str "type", Scalar (str "StdoutLogAppender"))]
      else []) ++
     (if negb (ad_level a =? UNKNOWN) then [(str "level", Scalar (level_ToString (ad_level a)))] else []) ++
     (if bool_decide (ad_formatter a = []) then [(str "formatter", Scalar (ad_formatter a))] else [])).

(** The level is printed when it is UNKNOWN, the formatter when it is not
    empty. *)
Definition define_node (i : LogDefine) : node :=
  map_node
    ((str "name", Scalar (ld_name i)) ::
     (if ld_level i =? UNKNOWN then [(str "level", Scalar (level_ToString (ld_level i)))] else []) ++
     (if bool_decide (ld_formatter i = []) then [] else [(str "formatter", Scalar (ld_formatter i))]) ++
     appenders_entry (appender_define_node <$> ld_appenders i)).

(** LexicalCast<std::set<LogDefine>, std::string> *)
Definition defines_to_string (v : list LogDefine) : text := emit (seq_node (define_node <$> v)).

End yaml.

(** * Events *)

(** LogEventWrap: the event and its level. *)
Record LogEventWrap := mkWrap { w_level : Z; w_event : LogEvent }.

(** [LogEvent::LogEvent], with an empty content. *)
Definition LogEvent_new (logger : Logger) (level : Z) (file : text) (line elapse thread_id fiber_id time : Z)
    (thread_name : text) : LogEventWrap :=
  mkWrap level (mkEvent file line elapse thread_id fiber_id time thread_name [] (lg_name logger)).

(** [getSS() << s]. *)
Definition stream_to (s : text) (w : LogEventWrap) : LogEventWrap :=
  let e := w_event w in
  mkWrap (w_level w) (mkEvent (ev_file e) (ev_line e) (ev_elapse e) (ev_threadId e) (ev_fiberId e)
                        (ev_time e) (ev_threadname e) (ev_content e ++ s) (ev_logger e)).

(** [LogEvent::format]; [printed] is what vasprintf prints, [None] when it
    fails. *)
Definition event_format (printed : option text) (w : LogEventWrap) : LogEventWrap :=
  match printed with Some s => stream_to s w | None => w end.

(** Logger::debug, info, warn, error and fatal *)
Definition debug strftime := log strftime DEBUG.
Definition info strftime := log strftime INFO.
Definition warn strftime := log strftime WARN.
Definition error strftime := log strftime ERROR.
Definition fatal strftime := log strftime FATAL.

Section macros.
Context (strftime : text → Z → text) (h : gmap nat LogAppender) (root : Logger).
(** What the macros take from where they are used. *)
Context (file : text) (line thread_id fiber_id time : Z) (thread_name : text).

(** [LogEventWrap::~LogEventWrap]. *)
Definition LogEventWrap_delete (lg : Logger) (w : LogEventWrap) : outcome (list (option text * text)) :=
  log strftime (w_level w) (w_event w) h root lg.

(** APEXSTORM_LOG_LEVEL(logger, level) << s *)
Definition LOG_LEVEL (lg : Logger) (level : Z) (s : text) : outcome (list (option text * text)) :=
  if lg_level lg <=? level then
    let w := LogEvent_new lg level file line 0 thread_id fiber_id time thread_name in
    LogEventWrap_delete lg (stream_to s w)
  else Ret [].

(** APEXSTORM_LOG_FMT_LEVEL(logger, level, fmt, ...) *)
Definition LOG_FMT_LEVEL (lg : Logger) (level : Z) (printed : option text)
    : outcome (list (option text * text)) :=
  if lg_level lg <=? level then
    let w := LogEvent_new lg level file line 0 thread_id fiber_id time thread_name in
    LogEventWrap_delete lg (event_format printed w)
  else Ret [].

Definition LOG_DEBUG lg := LOG_LEVEL lg DEBUG.
Definition LOG_INFO lg := LOG_LEVEL lg INFO.
Definition LOG_WARN lg := LOG_LEVEL lg WARN.
Definition LOG_ERROR lg := LOG_LEVEL lg ERROR.
Definition LOG_FATAL lg := LOG_LEVEL lg FATAL.
Definition LOG_FMT_DEBUG lg := LOG_FMT_LEVEL lg DEBUG.
Definition LOG_FMT_INFO lg := LOG_FMT_LEVEL lg INFO.
Definition LOG_FMT_WARN lg := LOG_FMT_LEVEL lg WARN.
Definition LOG_FMT_ERROR lg := LOG_FMT_LEVEL lg ERROR.
Definition LOG_FMT_FATAL lg := LOG_FMT_LEVEL lg FATAL.
End macros.

(** APEXSTORM_LOG_ROOT() and APEXSTORM_LOG_NAME(name) *)
Definition LOG_ROOT (m : LoggerManager) : option Logger := m_loggers m !! str "root".
Definition LOG_NAME (name : text) (m : LoggerManager) : Logger * LoggerManager :=
  let '(lg, l) := getLogger name (m_loggers m) in (lg, mkMgr l (m_heap m)).
