(* ===== verification/LogConfigTheorems.v ===== *)
(** Correctness of the logger's YAML.

    What survives when the definitions of the setting [logs] are printed and
    read again, and when the loggers are dumped and the dump is used as their
    configuration.  That the YAML library reads back a document it has printed
    is assumed of the documents in question. *)

From S2P Require Import Prelude Http Address Config Log LogTheorems LogConfig.
From Stdlib Require Import Ascii Sorted.

#[local] Open Scope string_scope.
#[local] Open Scope list_scope.
#[local] Open Scope Z_scope.

(** * The order of names *)

Lemma string_le_refl a : string_le a a = true.
Proof. induction a as [|x a IH]; [done|]. simpl. rewrite Z.eqb_refl, IH. by rewrite orb_true_r. Qed.

Lemma byte_of_inj x y : byte_of x = byte_of y → x = y.
Proof.
  unfold byte_of. intros E. apply N2Z.inj in E.
  by rewrite <- (ascii_N_embedding x), <- (ascii_N_embedding y), E.
Qed.

Lemma string_le_total a b : string_le a b = true ∨ string_le b a = true.
Proof.
  revert b. induction a as [|x a IH]; intros [|y b]; simpl; auto.
  destruct (Z.ltb_spec (byte_of x) (byte_of y)); [by left|].
  destruct (Z.ltb_spec (byte_of y) (byte_of x)); [by right|].
  assert (byte_of x = byte_of y) as -> by lia. rewrite Z.eqb_refl. simpl. apply IH.
Qed.

Lemma string_le_antisym a b : string_le a b = true → string_le b a = true → a = b.
Proof.
  revert b. induction a as [|x a IH]; intros [|y b]; simpl; try done.
  intros [H1|H1]%orb_true_iff [H2|H2]%orb_true_iff; try lia.
  apply andb_true_iff in H1 as [E H1], H2 as [_ H2].
  apply Z.eqb_eq, byte_of_inj in E as ->. f_equal. by apply IH.
Qed.

Lemma string_le_trans a b c : string_le a b = true → string_le b c = true → string_le a c = true.
Proof.
  revert b c. induction a as [|x a IH]; intros [|y b] [|z c]; simpl; try done.
  intros [H1|H1]%orb_true_iff [H2|H2]%orb_true_iff; apply orb_true_iff.
  - left. lia.
  - left. apply andb_true_iff in H2 as [E _]. lia.
  - left. apply andb_true_iff in H1 as [E _]. lia.
  - right. apply andb_true_iff in H1 as [E1 H1], H2 as [E2 H2]. apply andb_true_iff.
    split; [lia|]. by eapply IH.
Qed.

Definition name_less (a b : text) : Prop := string_le a b = true ∧ a ≠ b.

Lemma StronglySorted_NoDup l : StronglySorted name_less l → NoDup l.
Proof.
  induction 1 as [|x l _ IH Hall]; constructor; [|done]. intros Hx.
  rewrite Forall_forall in Hall. by destruct (Hall x Hx).
Qed.

#[local] Instance name_less_trans : Transitive name_less.
Proof.
  intros a b c [H1 N1] [H2 N2]. split; [by eapply string_le_trans|].
  intros ->. apply N1. by apply string_le_antisym.
Qed.

(** * The map of the loggers, in order *)

Section in_order.
Context {V : Type}.
Implicit Types (l : list (text * V)).

Lemma multimap_insert_perm (k : text) (v : V) l : multimap_insert string_le k v l ≡ₚ (k, v) :: l.
Proof.
  induction l as [|[k' v'] l IH]; [done|]. simpl. destruct (string_le k' k); [|done].
  rewrite IH. constructor.
Qed.

Lemma multimap_insert_sorted k v l :
  StronglySorted (λ a b, name_less a.1 b.1) l → k ∉ l.*1 →
  StronglySorted (λ a b, name_less a.1 b.1) (multimap_insert string_le k v l).
Proof.
  induction 1 as [|[k' v'] l Hs IH Hall]; simpl; [by repeat constructor|].
  intros [Hne Hk]%not_elem_of_cons. destruct (string_le k' k) eqn:E.
  - constructor; [by apply IH|]. rewrite multimap_insert_perm. constructor; [|done]. by split.
  - constructor; [by constructor|]. assert (name_less k k') as Hlt.
    { split; [|done]. destruct (string_le_total k k'); [done|congruence]. }
    constructor; [done|]. eapply Forall_impl; [exact Hall|]. intros x Hx. by etrans.
Qed.

Definition sort_keys l : list (text * V) := foldr (λ '(k, v), multimap_insert string_le k v) [] l.

Lemma sort_keys_perm l : sort_keys l ≡ₚ l.
Proof. induction l as [|[k v] l IH]; [done|]. simpl. by rewrite multimap_insert_perm, IH. Qed.

Lemma sort_keys_sorted l : NoDup l.*1 → StronglySorted (λ a b, name_less a.1 b.1) (sort_keys l).
Proof.
  induction l as [|[k v] l IH]; simpl; [constructor|]. intros [Hk Hn]%NoDup_cons.
  apply multimap_insert_sorted; [by apply IH|]. by rewrite sort_keys_perm.
Qed.
End in_order.

Lemma in_order_elem (m : gmap text Logger) lg : lg ∈ in_order m ↔ ∃ n, m !! n = Some lg.
Proof.
  unfold in_order. fold (sort_keys (map_to_list m)). rewrite sort_keys_perm, list_elem_of_fmap. split.
  - intros ([n x] & -> & Hx). exists n. by apply elem_of_map_to_list.
  - intros [n Hn]. exists (n, lg). split; [done|]. by apply elem_of_map_to_list.
Qed.

(** The loggers are kept under their names. *)
Definition named (m : gmap text Logger) : Prop := ∀ n lg, m !! n = Some lg → lg_name lg = n.

Lemma StronglySorted_fmap_names l :
  StronglySorted (λ a b : text * Logger, name_less a.1 b.1) l →
  Forall (λ x, lg_name x.2 = x.1) l → StronglySorted name_less (lg_name <$> l.*2).
Proof.
  induction 1 as [|[k x] l Hs IH Hall]; [constructor|]. intros [Hk Hl]%Forall_cons. simpl in *.
  constructor; [by apply IH|]. rewrite Hk. apply Forall_forall.
  intros y (z & -> & ([k' x'] & -> & Hin)%list_elem_of_fmap)%list_elem_of_fmap.
  rewrite Forall_forall in Hall, Hl. specialize (Hall _ Hin). specialize (Hl _ Hin).
  simpl in *. by rewrite Hl.
Qed.

Lemma in_order_sorted m : named m → StronglySorted name_less (lg_name <$> in_order m).
Proof.
  intros Hn. unfold in_order. fold (sort_keys (map_to_list m)). apply StronglySorted_fmap_names.
  - apply sort_keys_sorted, NoDup_fst_map_to_list.
  - apply Forall_forall. intros [k x]. rewrite sort_keys_perm. intros Hx%elem_of_map_to_list.
    by apply Hn.
Qed.

(** * Nodes *)

Fixpoint entry_at (key : text) (l : list (text * node)) : option node :=
  match l with
  | [] => None
  | (k, v) :: l => if decide (k = key) then Some v else entry_at key l
  end.

Lemma at_key_map_node key l : at_key key (map_node l) = Some (entry_at key l).
Proof.
  assert (∀ l, map_at key ((λ '(k, n), (Scalar k, n)) <$> l) = entry_at key l) as E.
  { clear l. induction l as [|[k n] l IH]; [done|]. cbn [fmap list_fmap map_at entry_at].
    by destruct (decide (k = key)). }
  destruct l as [|e l]; [done|]. unfold map_node. cbn [at_key]. by rewrite E.
Qed.

Lemma entry_at_app key l l' :
  entry_at key (l ++ l') = match entry_at key l with Some v => Some v | None => entry_at key l' end.
Proof. induction l as [|[k v] l IH]; [done|]. simpl. destruct (decide _); [done|apply IH]. Qed.

Section yaml.
Context {base B : Type} {HL : Libs base B}.
Context (as_string : node → option text).
Hypothesis as_string_scalar : ∀ s, as_string (Scalar s) = Some s.

(** The library reads back a document it has printed. *)
Definition reads_back (n : node) : Prop := Load (emit n) = Some n.

(** ** Sets of definitions *)

Lemma define_insert_last d (l : list LogDefine) :
  Forall (λ x, name_less (ld_name x) (ld_name d)) l → define_insert d l = l ++ [d].
Proof.
  induction 1 as [|x l [Hle Hne] _ IH]; [done|]. simpl.
  by rewrite bool_decide_eq_false_2, Hle, IH by done.
Qed.

(** Nodes that are read as definitions, in the order of their names. *)
Lemma read_defines_all vec l ds :
  Forall2 (λ n d, read_define as_string n = Some (Some d)) l ds →
  StronglySorted name_less (ld_name <$> (vec ++ ds)) →
  read_defines as_string vec l = Some (vec ++ ds).
Proof.
  intros H. revert vec. induction H as [|n d l ds Hn _ IH]; intros vec Hs; simpl.
  { by rewrite app_nil_r. }
  rewrite Hn. cbn [mbind option_bind]. rewrite define_insert_last.
  - rewrite IH; rewrite <- (assoc_L (++)); done.
  - rewrite fmap_app in Hs. clear -Hs. induction vec as [|x vec IH]; [constructor|].
    simpl in Hs. apply StronglySorted_inv in Hs as [Hs Hall]. constructor; [|by apply IH].
    rewrite Forall_forall in Hall. apply Hall, elem_of_app. right. by left.
Qed.
(** *** What survives of a definition *)

(** Of an appender, the type and the file: its level is printed and not read,
    its formatter is printed only when it is empty.  One of another type is not
    read. *)
Definition kept_appender (a : LogAppenderDefine) : option LogAppenderDefine :=
  if ad_type a =? 1 then Some (mkAD 1 UNKNOWN [] (ad_file a))
  else if ad_type a =? 2 then Some (mkAD 2 UNKNOWN [] [])
  else None.

(** Of a logger, the name, the formatter and the appenders: its level is
    printed only when it is UNKNOWN. *)
Definition kept_define (d : LogDefine) : LogDefine :=
  mkLD (ld_name d) UNKNOWN (ld_formatter d) (omap kept_appender (ld_appenders d)).

Lemma text_at_node key def l :
  text_at as_string key def (map_node l) =
    match entry_at key l with Some n => as_string n | None => Some def end.
Proof. unfold text_at. rewrite at_key_map_node. by destruct (entry_at key l). Qed.

Lemma read_appender_define a :
  read_appender as_string (appender_define_node a) = Some (kept_appender a).
Proof.
  unfold read_appender, appender_define_node, kept_appender. rewrite !at_key_map_node.
  destruct (ad_type a =? 1); [|destruct (ad_type a =? 2)].
  - cbn [app entry_at]. rewrite decide_True, as_string_scalar by done. cbn [mbind option_bind].
    rewrite bool_decide_eq_true_2 by done.
    rewrite decide_False, decide_True, as_string_scalar by done. cbn [mbind option_bind].
    rewrite text_at_node. cbn [app entry_at]. rewrite !decide_False by done. rewrite entry_at_app.
    assert (entry_at (str "formatter")
      (if negb (ad_level a =? UNKNOWN) then [(str "level", Scalar (level_ToString (ad_level a)))] else [])
      = None) as -> by (by destruct (negb _)).
    case_bool_decide as E; cbn [entry_at]; [|done].
    by rewrite decide_True, as_string_scalar, E by done.
  - cbn [app entry_at]. rewrite decide_True, as_string_scalar by done. cbn [mbind option_bind].
    by rewrite bool_decide_eq_false_2, bool_decide_eq_true_2 by done.
  - cbn [app]. rewrite entry_at_app. by destruct (negb _), (bool_decide _).
Qed.

Lemma read_appenders_define l :
  read_appenders as_string (appender_define_node <$> l) = Some (omap kept_appender l).
Proof.
  induction l as [|a l IH]; [done|]. cbn [fmap list_fmap read_appenders].
  rewrite read_appender_define. cbn [mbind option_bind].
  change (list_fmap _ _ appender_define_node l) with (appender_define_node <$> l).
  rewrite IH. cbn [mbind option_bind omap list_omap]. by destruct (kept_appender a).
Qed.

Lemma FromString_unknown : level_FromString [] = UNKNOWN.
Proof. by vm_compute. Qed.

(** The appenders of a node. *)
Lemma read_appenders_entry (l : list node) :
  match entry_at (str "appenders") (appenders_entry l) with
  | Some n => read_appenders as_string (seq_items n)
  | None => Some []
  end = read_appenders as_string l.
Proof. destruct l; [done|]. cbn [appenders_entry entry_at]. by rewrite decide_True. Qed.

Lemma read_define_node d : read_define as_string (define_node d) = Some (Some (kept_define d)).
Proof.
  unfold read_define, define_node. rewrite !at_key_map_node, !text_at_node.
  cbn [app entry_at]. rewrite decide_True, as_string_scalar by done. cbn [mbind option_bind].
  rewrite !decide_False by done. rewrite !entry_at_app.
  set (lv := if ld_level d =? UNKNOWN then _ else _).
  set (fm := if bool_decide (ld_formatter d = []) then _ else _).
  set (ap := appenders_entry _).
  assert (entry_at (str "level") ap = None ∧ entry_at (str "formatter") ap = None) as [Ea1 Ea2]
    by (unfold ap, appenders_entry; by destruct (appender_define_node <$> _)).
  assert (entry_at (str "level") fm = None ∧ entry_at (str "appenders") fm = None) as [Ef1 Ef2]
    by (unfold fm; by destruct (bool_decide _)).
  assert (entry_at (str "formatter") lv = None ∧ entry_at (str "appenders") lv = None) as [El1 El2]
    by (unfold lv; by destruct (_ =? _)).
  rewrite Ef1, Ef2, El1, El2, Ea1, Ea2.
  assert (match match entry_at (str "level") lv with Some v => Some v | None => None end with
    | Some n => as_string n | None => Some [] end ≫= (λ s, Some (level_FromString s)) = Some UNKNOWN) as Hl.
  { unfold lv. destruct (Z.eqb_spec (ld_level d) UNKNOWN) as [E|_]; [|done]. cbn [entry_at].
    rewrite decide_True, as_string_scalar by done. rewrite E. by vm_compute. }
  destruct (match match entry_at _ lv with Some v => Some v | None => None end with
    | Some n => as_string n | None => Some [] end) as [ls|]; [|done].
  cbn [mbind option_bind] in Hl |- *. injection Hl as Hl.
  assert (match match entry_at (str "formatter") fm with Some v => Some v | None => None end with
    | Some n => as_string n | None => Some [] end = Some (ld_formatter d)) as ->.
  { unfold fm. case_bool_decide as E; cbn [entry_at]; [by rewrite E|].
    by rewrite decide_True, as_string_scalar by done. }
  cbn [mbind option_bind]. pose proof (read_appenders_entry (appender_define_node <$> ld_appenders d)) as Hr.
  fold ap in Hr. rewrite read_appenders_define in Hr.
  destruct (entry_at (str "appenders") ap) as [n|]; rewrite ?Hr; cbn [mbind option_bind];
    unfold kept_define; rewrite Hl; [done|]. by injection Hr as <-.
Qed.

(** ** Dumps *)

(** A level as its text reads back. *)
Definition shown_level (level : Z) : Z := if (1 <=? level) && (level <=? 5) then level else UNKNOWN.

Lemma level_shown level :
  match entry_at (str "level") (level_entry level) with
  | Some n => as_string n
  | None => Some []
  end ≫= (λ s, Some (level_FromString s)) = Some (shown_level level).
Proof.
  unfold level_entry. destruct (Z.eqb_spec level UNKNOWN) as [->|Hne]; [done|]. cbn [negb entry_at].
  rewrite decide_True, as_string_scalar by done. cbn [mbind option_bind]. f_equal.
  unfold shown_level. destruct ((1 <=? level) && (level <=? 5)) eqn:E.
  - assert (level = 1 ∨ level = 2 ∨ level = 3 ∨ level = 4 ∨ level = 5) as H by lia.
    repeat (destruct H as [-> |H]; [by vm_compute|]). subst. by vm_compute.
  - assert (level_ToString level = str "UNKNOWN") as ->; [|by vm_compute].
    unfold level_ToString. destruct (list_find _ _) as [[i e]|] eqn:Ef; [|done]. exfalso.
    apply list_find_Some in Ef as (Hi & He & _). cbv beta in He. subst level. revert Hi E.
    do 5 (destruct i as [|i]; [intros [= <-]; by vm_compute|]). done.
Qed.

Definition pattern_of (f : option LogFormatter) : text :=
  match f with Some f => lf_pattern f | None => [] end.

(** What a dump says of an appender, and of a logger. *)
Definition describe_appender (a : LogAppender) : LogAppenderDefine :=
  match ap_sink a with
  | Some filename => mkAD 1 UNKNOWN (if ap_hasFormatter a then pattern_of (ap_formatter a) else []) filename
  | None => mkAD 2 UNKNOWN [] []
  end.
Definition describe (h : gmap nat LogAppender) (lg : Logger) : LogDefine :=
  mkLD (lg_name lg) (shown_level (lg_level lg)) (pattern_of (lg_formatter lg))
    (describe_appender <$> omap (h !!.) (lg_appenders lg)).

Lemma formatter_shown f :
  match entry_at (str "formatter") (formatter_entry f) with
  | Some n => as_string n
  | None => Some []
  end = Some (pattern_of f).
Proof. destruct f; [|done]. cbn [formatter_entry entry_at]. by rewrite decide_True, as_string_scalar by done. Qed.

Lemma level_entry_only key level : key ≠ str "level" → entry_at key (level_entry level) = None.
Proof. intros H. unfold level_entry. destruct (negb _); [|done]. cbn. by rewrite decide_False. Qed.

Lemma formatter_entry_only key f : key ≠ str "formatter" → entry_at key (formatter_entry f) = None.
Proof. intros H. destruct f; [|done]. cbn. by rewrite decide_False. Qed.

Lemma read_appender_dump a : read_appender as_string (appender_node a) = Some (Some (describe_appender a)).
Proof.
  unfold read_appender, appender_node, describe_appender. rewrite !at_key_map_node.
  destruct (ap_sink a) as [filename|]; cbn [app entry_at].
  - rewrite decide_True, as_string_scalar by done. cbn [mbind option_bind].
    rewrite bool_decide_eq_true_2 by done.
    rewrite decide_False, decide_True, as_string_scalar by done. cbn [mbind option_bind].
    rewrite text_at_node. cbn [app entry_at]. rewrite !decide_False by done.
    rewrite entry_at_app, level_entry_only by done.
    destruct (ap_hasFormatter a); [by rewrite formatter_shown|done].
  - rewrite decide_True, as_string_scalar by done. cbn [mbind option_bind].
    by rewrite bool_decide_eq_false_2, bool_decide_eq_true_2 by done.
Qed.

Lemma read_appenders_dump l :
  read_appenders as_string (appender_node <$> l) = Some (describe_appender <$> l).
Proof.
  induction l as [|a l IH]; [done|]. cbn [fmap list_fmap read_appenders].
  rewrite read_appender_dump. cbn [mbind option_bind].
  change (list_fmap _ _ appender_node l) with (appender_node <$> l). by rewrite IH.
Qed.

Lemma read_logger_dump h lg :
  read_define as_string (logger_node lg (appender_node <$> omap (h !!.) (lg_appenders lg)))
    = Some (Some (describe h lg)).
Proof.
  unfold read_define, logger_node. rewrite !at_key_map_node, !text_at_node.
  cbn [app entry_at]. rewrite decide_True, as_string_scalar by done. cbn [mbind option_bind].
  rewrite !decide_False by done. rewrite !entry_at_app.
  rewrite !(level_entry_only (str "formatter")), !(level_entry_only (str "appenders")) by done.
  rewrite (formatter_entry_only (str "level")), (formatter_entry_only (str "appenders")) by done.
  set (l := omap _ _). set (ap := appenders_entry _).
  assert (entry_at (str "level") ap = None ∧ entry_at (str "formatter") ap = None) as [-> ->]
    by (unfold ap, appenders_entry; by destruct (appender_node <$> _)).
  pose proof (level_shown (lg_level lg)) as Hl. pose proof (formatter_shown (lg_formatter lg)) as Hf.
  assert (∀ o : option node, match o with Some v => Some v | None => None end = o) as Eo by (by intros []).
  rewrite !Eo. rewrite Hf.
  destruct (match entry_at (str "level") _ with Some n => as_string n | None => Some [] end) as [ls|];
    [|done]. cbn [mbind option_bind] in Hl |- *. injection Hl as Hl.
  pose proof (read_appenders_entry (appender_node <$> l)) as Hr. fold ap in Hr.
  rewrite read_appenders_dump in Hr. unfold describe. fold l.
  destruct (entry_at (str "appenders") ap) as [n|]; rewrite ?Hr; cbn [mbind option_bind];
    rewrite Hl; [done|]. by injection Hr as <-.
Qed.
(** The documents of a dump are read back: those of the appenders and the
    loggers, which are part of the next, and the whole. *)
Definition dumps (m : LoggerManager) : Prop :=
  (∀ a ap, m_heap m !! a = Some ap → reads_back (appender_node ap)) ∧
  (∀ n lg, m_loggers m !! n = Some lg →
     reads_back (logger_node lg (appender_node <$> omap (m_heap m !!.) (lg_appenders lg)))) ∧
  reads_back (seq_node ((λ lg, logger_node lg (appender_node <$> omap (m_heap m !!.) (lg_appenders lg)))
                          <$> in_order (m_loggers m))).

Lemma load_appenders_all (h : gmap nat LogAppender) l :
  (∀ a ap, h !! a = Some ap → reads_back (appender_node ap)) →
  Forall (λ a, is_Some (h !! a)) l →
  load_appenders h l = Ret (Some (appender_node <$> omap (h !!.) l)).
Proof.
  intros Hr. induction 1 as [|a l [ap Ha] _ IH]; [done|]. cbn [load_appenders omap list_omap].
  rewrite Ha, IH. cbn [obind]. unfold appender_toYamlString. by rewrite (Hr a ap Ha).
Qed.

Lemma load_loggers_all m l :
  dumps m → closed m → (∀ lg, lg ∈ l → ∃ n, m_loggers m !! n = Some lg) →
  load_loggers (m_heap m) l =
    Ret (Some ((λ lg, logger_node lg (appender_node <$> omap (m_heap m !!.) (lg_appenders lg))) <$> l)).
Proof.
  intros (Ha & Hl & _) Hc. induction l as [|lg l IH]; intros Hin; [done|]. cbn [load_loggers].
  destruct (Hin lg) as [n Hn]; [by left|]. unfold logger_toYamlString.
  rewrite load_appenders_all by (done || apply Forall_forall; intros p Hp; by eapply Hc).
  cbn [obind]. rewrite IH by (intros x Hx; apply Hin; by right). cbn [obind mbind option_bind].
  by rewrite (Hl n lg Hn).
Qed.

Lemma seq_items_of_node (l : list node) : seq_items (seq_node l) = l.
Proof. by destruct l. Qed.

Lemma describe_names (h : gmap nat LogAppender) (l : list Logger) : ld_name <$> (describe h <$> l) = lg_name <$> l.
Proof. induction l as [|lg l IH]; [done|]. cbn. by f_equal. Qed.

Lemma dump_text m :
  dumps m → closed m → named (m_loggers m) →
  ∃ s, manager_toYamlString m = Ret (Some s) ∧
    defines_from_string as_string s = Some (describe (m_heap m) <$> in_order (m_loggers m)).
Proof.
  intros Hd Hc Hn. unfold manager_toYamlString.
  rewrite load_loggers_all by (done || intros lg; apply in_order_elem). cbn [obind].
  eexists. split; [reflexivity|]. unfold defines_from_string. destruct Hd as (_ & _ & Hr).
  rewrite Hr. cbn [mbind option_bind]. rewrite seq_items_of_node.
  rewrite (read_defines_all [] _ (describe (m_heap m) <$> in_order (m_loggers m))); [done|..].
  - clear -as_string_scalar. induction (in_order (m_loggers m)) as [|lg l IH]; [done|].
    cbn [fmap list_fmap]. constructor; [apply read_logger_dump|done].
  - rewrite app_nil_l, describe_names. by apply in_order_sorted.
Qed.

(** * The properties *)

(** Printing the definitions of the loggers and reading them again:
    the text is read without an exception and gives the same loggers with their
    formatters and the types and files of their appenders, in order.  The
    levels of loggers and appenders come back as UNKNOWN and the formatters of
    appenders are gone: the tests that decide what is printed are the wrong way
    round, and the levels of appenders are never read. *)
Theorem definitions_survive (v : list LogDefine) :
  StronglySorted name_less (ld_name <$> v) → reads_back (seq_node (define_node <$> v)) →
  defines_from_string as_string (defines_to_string v) = Some (kept_define <$> v).
Proof.
  intros Hs Hr. unfold defines_from_string, defines_to_string. rewrite Hr.
  cbn [mbind option_bind]. rewrite seq_items_of_node. rewrite (read_defines_all [] _ (kept_define <$> v));
    [done|..].
  - clear -as_string_scalar. induction v as [|d v IH]; [done|].
    cbn [fmap list_fmap]. constructor; [by apply read_define_node|done].
  - rewrite app_nil_l, <- list_fmap_compose. done.
Qed.

(** C19. A dump of the loggers is a configuration of them: the text of
    [LoggerManager::toYamlString], read as the setting [logs] and applied to
    another manager that has no definitions, gives it loggers of the same names
    with the same levels (those of the five), the same formatters where they
    are valid, and appenders that write to the same places in the same order. *)
Theorem dump_reconfigures (m m0 : LoggerManager) :
  dumps m → closed m → named (m_loggers m) → closed m0 →
  ∃ s ds m',
    manager_toYamlString m = Ret (Some s) ∧ defines_from_string as_string s = Some ds ∧
    on_change [] ds m0 = Ret m' ∧
    ∀ n lg, m_loggers m !! n = Some lg →
      ∃ lg', m_loggers m' !! n = Some lg' ∧ lg_level lg' = shown_level (lg_level lg) ∧
        (∀ f, valid_formatter (pattern_of (lg_formatter lg)) = Some f → lg_formatter lg' = Some f) ∧
        ap_sink <$> omap (m_heap m' !!.) (lg_appenders lg') =
          ap_sink <$> omap (m_heap m !!.) (lg_appenders lg).
Proof.
  intros Hd Hc Hn Hc0. destruct (dump_text m Hd Hc Hn) as (s & Es & Er).
  set (ds := describe (m_heap m) <$> in_order (m_loggers m)) in *.
  destruct (configure_all_spec [] m0 ds [] m0) as (m' & Em & Hdef & _); try done.
  - constructor.
  - rewrite app_nil_l. unfold ds. rewrite describe_names.
    pose proof (in_order_sorted _ Hn) as Hs. apply (StronglySorted_NoDup _ Hs).
  - split_and!; [by intros ? ?%not_elem_of_nil|done|done].
  - apply Forall_forall. intros d (lg & -> & _)%list_elem_of_fmap.
    split; [by apply not_elem_of_nil|]. apply Forall_forall.
    intros a (ap & -> & _)%list_elem_of_fmap. unfold describe_appender, valid_type.
    destruct (ap_sink ap); auto.
  - exists s, ds, m'. split; [done|]. split; [done|]. unfold on_change. rewrite Em.
    split; [done|]. intros n lg Hlg. cbn [app] in Hdef.
    destruct (Hdef (describe (m_heap m) lg)) as (lg' & (H1 & H2 & H3 & H4) & _).
    { apply list_elem_of_fmap_2, in_order_elem. by exists n. }
    exists lg'. cbn [describe ld_name ld_level ld_formatter ld_appenders] in *.
    rewrite (Hn n lg Hlg) in H1. split_and!; [done|done| |].
    + intros f Hf. by rewrite Hf in H3.
    + clear -H4. revert H4. generalize (omap (m_heap m !!.) (lg_appenders lg)). intros aps H4.
      remember (describe_appender <$> aps) as l eqn:El. revert aps El.
      induction H4 as [|p a ps l Hp _ IH]; intros [|ap aps] El; try done.
      cbn [fmap list_fmap] in El. injection El as -> El. cbn [omap list_omap].
      unfold described in Hp. rewrite Hp. cbn [fmap list_fmap]. f_equal; [|by apply IH].
      cbn. unfold describe_appender. by destruct (ap_sink ap).
Qed.
End yaml.

(** * Witnesses *)

(** A way to write documents down, in place of YAML's: a mark for the kind of
    the node, characters behind a quote, and a dot at the end. *)
Fixpoint code_text (s : text) : text :=
  match s with [] => str "." | c :: s => "'"%char :: c :: code_text s end.
Fixpoint code (n : node) : text :=
  match n with
  | Null => str "0"
  | Scalar s => "1"%char :: code_text s
  | Sequence l => "2"%char :: concat (map code l) ++ str "."
  | Map l => "3"%char :: concat (map (λ e, code (fst e) ++ code (snd e)) l) ++ str "."
  end.

Fixpoint decode_text (s : text) : option (text * text) :=
  match s with
  | q :: s =>
      if decide (q = "."%char) then Some ([], s)
      else match s with
           | c :: s => '(w, s) ← decode_text s; Some (c :: w, s)
           | [] => None
           end
  | [] => None
  end.

Fixpoint pairs (l : list node) : list (node * node) :=
  match l with k :: v :: l => (k, v) :: pairs l | _ => [] end.

Fixpoint decode (fuel : nat) (s : text) : option (node * text) :=
  match fuel, s with
  | S fuel, k :: s =>
      if decide (k = "0"%char) then Some (Null, s)
      else if decide (k = "1"%char) then '(w, s) ← decode_text s; Some (Scalar w, s)
      else '(l, s) ← decode_items fuel s;
           Some (if decide (k = "2"%char) then Sequence l else Map (pairs l), s)
  | _, _ => None
  end
with decode_items (fuel : nat) (s : text) : option (list node * text) :=
  match fuel, s with
  | S fuel, k :: s' =>
      if decide (k = "."%char) then Some ([], s')
      else '(n, s) ← decode fuel s; '(l, s) ← decode_items fuel s; Some (n :: l, s)
  | _, _ => None
  end.

#[local] Instance coded : Libs unit text := {
  Load s := fst <$> decode (length s) s;
  emit := code;
  map_items m := [];
  cast _ s := Some s;
  show s := Some s;
  base_eqb x y := bool_decide (x = y);
  less x y := false;
  hash_order l := l;
  hash_order_pairs l := l;
}.

Definition scalar_text (n : node) : option text := match n with Scalar s => Some s | _ => None end.

Definition demo_defines : list LogDefine :=
  [mkLD (str "app") ERROR (str "%m%n") [mkAD 1 WARN (str "%p") (str "app.log"); mkAD 2 UNKNOWN [] []];
   mkLD (str "root") UNKNOWN [] []].

Lemma definitions_survive_witness :
  defines_from_string scalar_text (defines_to_string demo_defines) =
  Some [mkLD (str "app") UNKNOWN (str "%m%n") [mkAD 1 UNKNOWN [] (str "app.log"); mkAD 2 UNKNOWN [] []];
        mkLD (str "root") UNKNOWN [] []].
Proof.
  apply (definitions_survive scalar_text (λ s, eq_refl) demo_defines); [|by vm_compute].
  repeat constructor; by vm_compute.
Defined.

(** A manager with a logger of two appenders, and a fresh one. *)
Definition demo_loggers : LoggerManager :=
  match configure_all [] [mkLD (str "app") WARN (str "%m%n") [mkAD 1 INFO (str "%p") (str "a.log"); mkAD 2 INFO [] []]]
    demo_mgr with Ret m => m | _ => demo_mgr end.

Lemma demo_loggers_forall (P : text → Logger → Prop) :
  Forall (λ e, P (fst e) (snd e)) (map_to_list (m_loggers demo_loggers)) →
  ∀ n lg, m_loggers demo_loggers !! n = Some lg → P n lg.
Proof.
  rewrite Forall_forall. intros H n lg Hn. apply (H (n, lg)). by apply elem_of_map_to_list.
Qed.

Lemma demo_heap_forall (P : nat → LogAppender → Prop) :
  Forall (λ e, P (fst e) (snd e)) (map_to_list (m_heap demo_loggers)) →
  ∀ a ap, m_heap demo_loggers !! a = Some ap → P a ap.
Proof.
  rewrite Forall_forall. intros H a ap Ha. apply (H (a, ap)). by apply elem_of_map_to_list.
Qed.

(** To check a property of all entries of a map, compute them. *)
Ltac entries m :=
  let l := eval vm_compute in (map_to_list m) in
  let E := fresh in
  assert (map_to_list m = l) as E by (by vm_compute); rewrite E; clear E;
  repeat constructor; cbn [fst snd].

Lemma demo_dumps : dumps demo_loggers.
Proof.
  split_and!.
  - apply demo_heap_forall. entries (m_heap demo_loggers); by vm_compute.
  - apply demo_loggers_forall. entries (m_loggers demo_loggers); by vm_compute.
  - by vm_compute.
Qed.

Lemma demo_closed : closed demo_loggers.
Proof.
  intros n lg p Hn. revert n lg Hn.
  apply (demo_loggers_forall (λ _ lg, p ∈ lg_appenders lg → is_Some (m_heap demo_loggers !! p))).
  entries (m_loggers demo_loggers); cbn [lg_appenders];
    intros Hp; repeat (apply elem_of_cons in Hp as [-> |Hp]; [by eexists; vm_compute|]);
    by apply not_elem_of_nil in Hp.
Qed.

Lemma demo_named : named (m_loggers demo_loggers).
Proof.
  refine (demo_loggers_forall (λ n lg, lg_name lg = n) _). entries (m_loggers demo_loggers); done.
Qed.

Lemma dump_reconfigures_witness :
  ∃ s ds m', manager_toYamlString demo_loggers = Ret (Some s) ∧
    defines_from_string scalar_text s = Some ds ∧ on_change [] ds demo_mgr = Ret m' ∧
    ∃ lg, m_loggers m' !! str "app" = Some lg ∧ lg_level lg = WARN ∧
      ap_sink <$> omap (m_heap m' !!.) (lg_appenders lg) = [Some (str "a.log"); None].
Proof.
  destruct (dump_reconfigures scalar_text (λ s, eq_refl) demo_loggers demo_mgr demo_dumps demo_closed
    demo_named demo_mgr_closed) as (s & ds & m' & E1 & E2 & E3 & H).
  exists s, ds, m'. split; [exact E1|]. split; [exact E2|]. split; [exact E3|].
  destruct (m_loggers demo_loggers !! str "app") as [lg|] eqn:E; [|by vm_compute in E].
  destruct (H _ _ E) as (lg' & H1 & H2 & _ & H4). exists lg'. split; [exact H1|].
  rewrite H2, H4. vm_compute in E. injection E as <-. split; by vm_compute.
Defined.
