(* ===== verification/Mutex.v ===== *)
(** Locks and semaphores: include/mutex.h and mutex.cpp.

    A thread is a number.  A call that may wait is a function that either has
    returned ([Some]) or is still in the call ([None]): waiting in the kernel
    for the pthread locks, one more turn of the loop for [CASLock].  The
    results of the pthread calls that the wrappers drop are kept in the
    primitives, so that it is seen where they are dropped.

    [Lockable] is what the guards require of the lock they are given, and the
    guards are written against it.  A [conf] is any number of threads that use
    guards of one lock around accesses to the data it protects; [exec] is one
    atomic action of one thread. *)

From S2P Require Import Prelude.

(** * The system's locks *)

(** pthread_mutex_t with default attributes, and pthread_spinlock_t: the thread
    that holds it. *)
Definition pthread_owner : Type := option nat.

Definition pthread_mutex_init : pthread_owner := None.
Definition pthread_spin_init : pthread_owner := None.

(** A thread that locks again a lock it holds waits for itself. *)
Definition pthread_mutex_lock (t : nat) (o : pthread_owner) : outcome (option (Z * pthread_owner)) :=
  match o with
  | None => Ret (Some (0, Some t))
  | Some _ => Ret None
  end.
Definition pthread_spin_lock := pthread_mutex_lock.

(** Unlocking a lock the thread does not hold is undefined. *)
Definition pthread_mutex_unlock (t : nat) (o : pthread_owner) : outcome (Z * pthread_owner) :=
  if bool_decide (o = Some t) then Ret (0, None) else Fault BadUnlock.
Definition pthread_spin_unlock := pthread_mutex_unlock.

(** pthread_rwlock_t: the writer, and the readers, one entry for each time a
    thread locked it for reading. *)
Record pthread_rwlock_t := mkRW { rw_writer : option nat; rw_readers : list nat }.

Definition pthread_rwlock_init : pthread_rwlock_t := mkRW None [].

Definition EDEADLK : Z := 35.

(** The writer itself is answered EDEADLK; other threads wait for it.  The
    default kind lets readers in while a writer waits. *)
Definition pthread_rwlock_rdlock (t : nat) (l : pthread_rwlock_t) : outcome (option (Z * pthread_rwlock_t)) :=
  match rw_writer l with
  | Some w => Ret (if bool_decide (w = t) then Some (EDEADLK, l) else None)
  | None => Ret (Some (0, mkRW None (t :: rw_readers l)))
  end.

Definition pthread_rwlock_wrlock (t : nat) (l : pthread_rwlock_t) : outcome (option (Z * pthread_rwlock_t)) :=
  match rw_writer l, rw_readers l with
  | Some w, _ => Ret (if bool_decide (w = t) then Some (EDEADLK, l) else None)
  | None, [] => Ret (Some (0, mkRW (Some t) []))
  | None, _ => Ret None
  end.

(** [l] without the first [t]. *)
Fixpoint remove_one (t : nat) (l : list nat) : list nat :=
  match l with
  | [] => []
  | x :: l => if bool_decide (x = t) then l else x :: remove_one t l
  end.

Definition pthread_rwlock_unlock (t : nat) (l : pthread_rwlock_t) : outcome (Z * pthread_rwlock_t) :=
  if bool_decide (rw_writer l = Some t) then Ret (0, mkRW None (rw_readers l))
  else if bool_decide (t ∈ rw_readers l) then
    Ret (0, mkRW (rw_writer l) (remove_one t (rw_readers l)))
  else Fault BadUnlock.

(** [pthread_xxx(&m_lock);] as a statement: its result is dropped. *)
Definition drop_result {A} (c : outcome (option (Z * A))) : outcome (option A) :=
  let! r := c in Ret (snd <$> r).
Definition drop_code {A} (c : outcome (Z * A)) : outcome A :=
  let! r := c in Ret (snd r).

(** * The classes *)

(** class Mutex *)
Record Mutex := mkMutex { m_mutex : pthread_owner }.
Definition Mutex_new : Mutex := mkMutex pthread_mutex_init.
Definition Mutex_lock (t : nat) (m : Mutex) : outcome (option Mutex) :=
  let! r := drop_result (pthread_mutex_lock t (m_mutex m)) in Ret (mkMutex <$> r).
Definition Mutex_unlock (t : nat) (m : Mutex) : outcome Mutex :=
  let! r := drop_code (pthread_mutex_unlock t (m_mutex m)) in Ret (mkMutex r).

(** class SpinLock *)
Record SpinLock := mkSpin { sl_lock : pthread_owner }.
Definition SpinLock_new : SpinLock := mkSpin pthread_spin_init.
Definition SpinLock_lock (t : nat) (m : SpinLock) : outcome (option SpinLock) :=
  let! r := drop_result (pthread_spin_lock t (sl_lock m)) in Ret (mkSpin <$> r).
Definition SpinLock_unlock (t : nat) (m : SpinLock) : outcome SpinLock :=
  let! r := drop_code (pthread_spin_unlock t (sl_lock m)) in Ret (mkSpin r).

(** class CASLock, over an atomic_flag *)
Record CASLock := mkCAS { cl_mutex : bool }.
Definition CASLock_new : CASLock := mkCAS false.

(** [atomic_flag_test_and_set_explicit]: the value before, and the flag set. *)
Definition atomic_flag_test_and_set (m : CASLock) : bool * CASLock := (cl_mutex m, mkCAS true).

(** One turn of the loop of [lock]: it ends when the flag was clear. *)
Definition CASLock_lock (t : nat) (m : CASLock) : outcome (option CASLock) :=
  let '(was, m') := atomic_flag_test_and_set m in Ret (if was then None else Some m').
Definition CASLock_unlock (t : nat) (m : CASLock) : outcome CASLock := Ret (mkCAS false).

(** class NullMutex *)
Definition NullMutex : Type := unit.
Definition NullMutex_new : NullMutex := tt.
Definition NullMutex_lock (t : nat) (m : NullMutex) : outcome (option NullMutex) := Ret (Some tt).
Definition NullMutex_unlock (t : nat) (m : NullMutex) : outcome NullMutex := Ret tt.

(** class RWMutex *)
Record RWMutex := mkRWMutex { m_lock : pthread_rwlock_t }.
Definition RWMutex_new : RWMutex := mkRWMutex pthread_rwlock_init.
Definition rdlock (t : nat) (m : RWMutex) : outcome (option RWMutex) :=
  let! r := drop_result (pthread_rwlock_rdlock t (m_lock m)) in Ret (mkRWMutex <$> r).
Definition wrlock (t : nat) (m : RWMutex) : outcome (option RWMutex) :=
  let! r := drop_result (pthread_rwlock_wrlock t (m_lock m)) in Ret (mkRWMutex <$> r).
Definition RWMutex_unlock (t : nat) (m : RWMutex) : outcome RWMutex :=
  let! r := drop_code (pthread_rwlock_unlock t (m_lock m)) in Ret (mkRWMutex r).

(** class NullRWLock *)
Definition NullRWLock : Type := unit.
Definition NullRWLock_new : NullRWLock := tt.
Definition Null_rdlock (t : nat) (m : NullRWLock) : outcome (option NullRWLock) := Ret (Some tt).
Definition Null_wrlock (t : nat) (m : NullRWLock) : outcome (option NullRWLock) := Ret (Some tt).
Definition NullRWLock_unlock (t : nat) (m : NullRWLock) : outcome NullRWLock := Ret tt.

(** ** What a guard requires *)

(** How a guard locks: [ScopedLockImpl] and [WriteScopedLockImpl] for one
    thread, [ReadScopedLockImpl] with other readers. *)
Inductive mode := Excl | Shared.

#[export] Instance mode_eq_dec : EqDecision mode.
Proof. solve_decision. Defined.

(** The members the templates use of their argument [T]. *)
Class Lockable (T : Type) := {
  fresh : T;
  lock : mode → nat → T → outcome (option T);
  unlock : nat → T → outcome T;
}.

#[export] Instance Mutex_lockable : Lockable Mutex :=
  {| fresh := Mutex_new; lock _ := Mutex_lock; unlock := Mutex_unlock |}.
#[export] Instance SpinLock_lockable : Lockable SpinLock :=
  {| fresh := SpinLock_new; lock _ := SpinLock_lock; unlock := SpinLock_unlock |}.
#[export] Instance CASLock_lockable : Lockable CASLock :=
  {| fresh := CASLock_new; lock _ := CASLock_lock; unlock := CASLock_unlock |}.
#[export] Instance RWMutex_lockable : Lockable RWMutex :=
  {| fresh := RWMutex_new;
     lock m := match m with Shared => rdlock | Excl => wrlock end;
     unlock := RWMutex_unlock |}.

(** NullMutex, under a name of its own since it is [unit]. *)
Record Unlocked := mkUnlocked { null : NullMutex }.
#[export] Instance NullMutex_lockable : Lockable Unlocked :=
  {| fresh := mkUnlocked NullMutex_new;
     lock _ t m := let! r := NullMutex_lock t (null m) in Ret (mkUnlocked <$> r);
     unlock t m := let! r := NullMutex_unlock t (null m) in Ret (mkUnlocked r) |}.

(** * The guards *)

(** ScopedLockImpl, ReadScopedLockImpl and WriteScopedLockImpl: they differ in
    the call that locks.  The reference [m_mutex] is the shared lock. *)
Record ScopedLock := mkGuard { g_mode : mode; m_locked : bool }.

Section guards.
Context {T : Type} `{!Lockable T}.

(** The constructor; [None] while it waits. *)
Definition ScopedLock_new (m : mode) (t : nat) (mutex : T) : outcome (option (ScopedLock * T)) :=
  let! r := lock m t mutex in
  Ret (match r with Some mutex => Some (mkGuard m true, mutex) | None => None end).

Definition ScopedLock_lock (t : nat) (g : ScopedLock) (mutex : T) : outcome (option (ScopedLock * T)) :=
  if negb (m_locked g) then
    let! r := lock (g_mode g) t mutex in
    Ret (match r with Some mutex => Some (mkGuard (g_mode g) true, mutex) | None => None end)
  else Ret (Some (g, mutex)).

Definition ScopedLock_unlock (t : nat) (g : ScopedLock) (mutex : T) : outcome (ScopedLock * T) :=
  if m_locked g then
    let! mutex := unlock t mutex in Ret (mkGuard (g_mode g) false, mutex)
  else Ret (g, mutex).

(** The destructor. *)
Definition ScopedLock_delete (t : nat) (g : ScopedLock) (mutex : T) : outcome T :=
  let! r := ScopedLock_unlock t g mutex in Ret (snd r).

(** The constructors of the other two templates; their [lock], [unlock] and
    destructor are those above, which go by the mode stored here. *)
Definition ReadScopedLock_new (t : nat) (mutex : T) : outcome (option (ScopedLock * T)) :=
  ScopedLock_new Shared t mutex.
Definition WriteScopedLock_new (t : nat) (mutex : T) : outcome (option (ScopedLock * T)) :=
  ScopedLock_new Excl t mutex.
End guards.

(** * Threads that share data under a lock *)

Section threads.
Context {T : Type} `{!Lockable T}.
(** [D] is the shared data, [L] a thread's own. *)
Context {D L : Type}.

(** The statements of a thread: a guard of the given mode begins its scope, is
    locked or unlocked explicitly, ends its scope; the thread changes the data,
    or looks at it. *)
Inductive stmt :=
| Guard (m : mode)
| GLock
| GUnlock
| EndScope
| Access (f : D → L → D * L)
| Look (f : D → L → L).

Record thr := mkThr { rest : list stmt; guard : option ScopedLock; own : L }.

Record conf := mkConf { mutex : T; data : D; threads : list thr }.

(** One atomic action of thread [i], which is at the statement [s]; the new
    guard, lock, data and own state, or [None] when it does not get past the
    statement yet. *)
Definition thread_act (i : nat) (s : stmt) (g : option ScopedLock) (mu : T) (d : D) (l : L) :
    outcome (option (option ScopedLock * T * D * L)) :=
  match s, g with
  | Guard m, None =>
      let! r := ScopedLock_new m i mu in
      Ret (match r with Some (g, mu) => Some (Some g, mu, d, l) | None => None end)
  | GLock, Some g =>
      let! r := ScopedLock_lock i g mu in
      Ret (match r with Some (g, mu) => Some (Some g, mu, d, l) | None => None end)
  | GUnlock, Some g =>
      let! r := ScopedLock_unlock i g mu in
      Ret (let '(g, mu) := r in Some (Some g, mu, d, l))
  | EndScope, Some g => let! mu := ScopedLock_delete i g mu in Ret (Some (None, mu, d, l))
  | Access f, _ => Ret (let '(d, l) := f d l in Some (g, mu, d, l))
  | Look f, _ => Ret (Some (g, mu, d, f d l))
  | _, _ => Fault AssertFailed
  end.

(** Thread [i] acts. *)
Definition exec (i : nat) (c : conf) : outcome conf :=
  match threads c !! i with
  | Some th =>
      match rest th with
      | [] => Ret c
      | s :: k =>
          let! r := thread_act i s (guard th) (mutex c) (data c) (own th) in
          match r with
          | None => Ret c
          | Some (g, mu, d, l) => Ret (mkConf mu d (<[i := mkThr k g l]> (threads c)))
          end
      end
  | None => Ret c
  end.

(** The threads act in the order of a schedule. *)
Fixpoint exec_all (sched : list nat) (c : conf) : outcome conf :=
  match sched with
  | [] => Ret c
  | i :: sched => let! c := exec i c in exec_all sched c
  end.

Definition start (d : D) (ps : list (list stmt * L)) : conf :=
  mkConf fresh d ((λ p, mkThr p.1 None p.2) <$> ps).
End threads.
Arguments stmt : clear implicits.
Arguments thr : clear implicits.
Arguments conf : clear implicits.

(** * Semaphore *)

(** sem_t *)
Record sem_t := mkSem { sem_value : Z }.

Definition SEM_VALUE_MAX : Z := 2 ^ 31 - 1.

(** [sem_init]: -1 when the value is too large. *)
Definition sem_init (value : Z) : Z * sem_t :=
  if SEM_VALUE_MAX <? value then (-1, mkSem 0) else (0, mkSem value).

(** [sem_wait]: [None] while it waits.  A signal that is handled meanwhile
    interrupts it; [signal] says whether one does. *)
Definition sem_wait (signal : bool) (s : sem_t) : option (Z * sem_t) :=
  if 0 <? sem_value s then Some (0, mkSem (sem_value s - 1))
  else if signal then Some (-1, s)
  else None.

(** [sem_post]: -1 when the value would be too large. *)
Definition sem_post (s : sem_t) : Z * sem_t :=
  if sem_value s =? SEM_VALUE_MAX then (-1, s) else (0, mkSem (sem_value s + 1)).

(** Semaphore::Semaphore *)
Definition Semaphore_new (count : Z) : outcome sem_t :=
  let '(rt, s) := sem_init count in
  if negb (rt =? 0) then Throw std_logic_error else Ret s.

(** Semaphore::wait; [None] while it waits. *)
Definition Semaphore_wait (signal : bool) (s : sem_t) : outcome (option sem_t) :=
  match sem_wait signal s with
  | None => Ret None
  | Some (rt, s) => if negb (rt =? 0) then Throw std_logic_error else Ret (Some s)
  end.

(** Semaphore::notify *)
Definition Semaphore_notify (s : sem_t) : outcome sem_t :=
  let '(rt, s) := sem_post s in
  if negb (rt =? 0) then Throw std_logic_error else Ret s.
