(* ===== verification/MutexTheorems.v ===== *)
(** Correctness of the locks and of their guards.

    [ExclusiveLock] states what a lock promises to the guards; Mutex, SpinLock,
    CASLock and RWMutex keep it.  Against this interface, for any number of
    threads and any interleaving of their actions: guards exclude each other as
    their modes say and never unlock a lock that is not theirs; what the
    threads compute is what they would compute if each critical section were
    one atomic step; no schedule leads to a deadlock.  The step relations of
    the other components take a critical section as one step. *)

From S2P Require Import Prelude Mutex.

(** * What a lock promises *)

(** A lock held by [hs] may also be given to one more thread. *)
Definition admits (m : mode) (hs : list (nat * mode)) : Prop :=
  match m with Excl => hs = [] | Shared => Forall (λ h, h.2 = Shared) hs end.

Lemma admits_free m : admits m [].
Proof. by destruct m; simpl. Qed.
#[local] Hint Resolve admits_free : cpp.

(** [held t hs]: the lock [t] is held by the threads of [hs], in their modes. *)
Class ExclusiveLock (T : Type) `{!Lockable T} := {
  held : T → list (nat * mode) → Prop;
  held_fresh : held fresh [];
  held_lock t hs i m :
    held t hs → i ∉ hs.*1 →
    match lock m i t with
    | Ret (Some t') => admits m hs ∧ held t' ((i, m) :: hs)
    | Ret None => hs ≠ []
    | _ => False
    end;
  held_unlock t hs hs' i m :
    held t hs → hs ≡ₚ (i, m) :: hs' → i ∉ hs'.*1 →
    ∃ t', unlock i t = Ret t' ∧ held t' hs';
}.

(** ** Locks with an owner *)

Definition owner_held (o : pthread_owner) (hs : list (nat * mode)) : Prop :=
  match o with None => hs = [] | Some i => ∃ m, hs = [(i, m)] end.

Lemma owner_lock o hs i m :
  owner_held o hs →
  match pthread_mutex_lock i o with
  | Ret (Some (_, o')) => admits m hs ∧ owner_held o' ((i, m) :: hs)
  | Ret None => hs ≠ []
  | _ => False
  end.
Proof.
  destruct o as [j|]; simpl; [by intros (? & ->)|]. intros ->. split; eauto with cpp.
Qed.

Lemma owner_unlock o hs hs' i m :
  owner_held o hs → hs ≡ₚ (i, m) :: hs' →
  pthread_mutex_unlock i o = Ret (0, None) ∧ hs' = [].
Proof.
  unfold pthread_mutex_unlock. destruct o as [j|]; simpl.
  - intros (m' & ->) [= -> -> <-]%Permutation_singleton_l. by rewrite bool_decide_eq_true_2.
  - by intros -> ?%Permutation_nil_l.
Qed.

#[export, program] Instance Mutex_exclusive : ExclusiveLock Mutex :=
  {| held m := owner_held (m_mutex m) |}.
Next Obligation. done. Qed.
Next Obligation.
  intros [o] hs i m Ho _. pose proof (owner_lock o hs i m Ho) as H. simpl.
  unfold Mutex_lock. simpl. by destruct (pthread_mutex_lock i o) as [[[? o']|]| |].
Qed.
Next Obligation.
  intros [o] hs hs' i m Ho Hp _. simpl. unfold Mutex_unlock.
  destruct (owner_unlock o hs hs' i m Ho Hp) as [E ->]. simpl. rewrite E. by eexists.
Qed.

#[export, program] Instance SpinLock_exclusive : ExclusiveLock SpinLock :=
  {| held m := owner_held (sl_lock m) |}.
Next Obligation. done. Qed.
Next Obligation.
  intros [o] hs i m Ho _. pose proof (owner_lock o hs i m Ho) as H. simpl.
  unfold SpinLock_lock, pthread_spin_lock. simpl.
  by destruct (pthread_mutex_lock i o) as [[[? o']|]| |].
Qed.
Next Obligation.
  intros [o] hs hs' i m Ho Hp _. simpl. unfold SpinLock_unlock, pthread_spin_unlock.
  destruct (owner_unlock o hs hs' i m Ho Hp) as [E ->]. simpl. rewrite E. by eexists.
Qed.

(** ** The flag *)

#[export, program] Instance CASLock_exclusive : ExclusiveLock CASLock :=
  {| held m hs := if cl_mutex m then ∃ h, hs = [h] else hs = [] |}.
Next Obligation. done. Qed.
Next Obligation.
  intros [[]] hs i m; simpl; [by intros (? & ->)|]. intros -> _.
  split; eauto with cpp.
Qed.
Next Obligation.
  intros [[]] hs hs' i m; simpl.
  - intros (h & ->) [= -> <-]%Permutation_singleton_l _. by eexists.
  - by intros -> ?%Permutation_nil_l.
Qed.

(** ** Readers and writers *)

Lemma remove_one_perm t l l' : l ≡ₚ t :: l' → remove_one t l ≡ₚ l'.
Proof.
  revert l'. induction l as [|x l IH]; intros l' H; [by apply Permutation_nil_cons in H|].
  simpl. case_bool_decide as E.
  - subst. by apply Permutation_cons_inv in H.
  - assert (x ∈ l') as (l1 & l2 & ->)%list_elem_of_split.
    { assert (x ∈ t :: l') as [?|?]%elem_of_cons by (rewrite <- H; set_solver); done. }
    rewrite <- Permutation_middle. constructor. apply IH.
    apply (Permutation_cons_inv (a := x)). rewrite H, <- Permutation_middle. constructor.
Qed.

Definition rw_held (l : pthread_rwlock_t) (hs : list (nat * mode)) : Prop :=
  match rw_writer l with
  | Some w => hs = [(w, Excl)] ∧ rw_readers l = []
  | None => rw_readers l ≡ₚ hs.*1 ∧ Forall (λ h, h.2 = Shared) hs
  end.

Lemma rw_lock l hs i m :
  rw_held l hs → i ∉ hs.*1 →
  match (match m with Shared => pthread_rwlock_rdlock | Excl => pthread_rwlock_wrlock end) i l with
  | Ret (Some (_, l')) => admits m hs ∧ rw_held l' ((i, m) :: hs)
  | Ret None => hs ≠ []
  | _ => False
  end.
Proof.
  unfold rw_held, pthread_rwlock_rdlock, pthread_rwlock_wrlock.
  destruct l as [[w|] rs]; simpl.
  - intros [-> ->] Hi. simpl in Hi. apply not_elem_of_cons in Hi as [Hi _].
    destruct m; simpl; rewrite bool_decide_eq_false_2 by done; done.
  - intros [Hp Hf] _. destruct m; simpl.
    + destruct rs as [|r rs].
      * apply Permutation_nil_l in Hp. symmetry in Hp. apply fmap_nil_inv in Hp as ->. by simpl.
      * intros ->. by apply Permutation_nil_r in Hp.
    + simpl. repeat split; [done|by rewrite Hp|by constructor].
Qed.

Lemma rw_unlock l hs hs' i m :
  rw_held l hs → hs ≡ₚ (i, m) :: hs' → i ∉ hs'.*1 →
  ∃ l', pthread_rwlock_unlock i l = Ret (0, l') ∧ rw_held l' hs'.
Proof.
  unfold rw_held, pthread_rwlock_unlock. destruct l as [[w|] rs]; simpl.
  - intros [-> ->] [= -> <- <-]%Permutation_singleton_l _.
    rewrite bool_decide_eq_true_2 by done. eexists. split; [done|]. simpl. by split.
  - intros [Hp Hf] Hh Hi.
    rewrite bool_decide_eq_true_2 by (rewrite Hp, Hh; simpl; set_solver).
    eexists. split; [done|]. simpl. split.
    + apply remove_one_perm. by rewrite Hp, Hh.
    + rewrite Hh in Hf. by inversion Hf.
Qed.

#[export, program] Instance RWMutex_exclusive : ExclusiveLock RWMutex :=
  {| held m := rw_held (m_lock m) |}.
Next Obligation. done. Qed.
Next Obligation.
  intros [l] hs i m Hl Hi. pose proof (rw_lock l hs i m Hl Hi) as H. simpl in *.
  destruct m; unfold rdlock, wrlock; simpl;
    match type of H with match ?x with _ => _ end => by destruct x as [[[? l']|]| |] end.
Qed.
Next Obligation.
  intros [l] hs hs' i m Hl Hp Hi. simpl in *. unfold RWMutex_unlock. simpl.
  destruct (rw_unlock l hs hs' i m Hl Hp Hi) as (l' & -> & ?). by eexists.
Qed.

(** * Critical sections *)

Section sections.
Context {D L : Type}.
Abbreviation stmt := (stmt D L).

(** What a statement does to the data and to the thread's own state. *)
Definition effect : Type := D * L → D * L.
Definition section : Type := list effect.

Definition run_section (sec : section) (s : D * L) : D * L := foldl (λ s f, f s) s sec.

(** The uses of the guards in a thread from a statement on: a guard begins and
    ends its scope, changes happen under an exclusive guard, looks under any,
    and no scope is left open. *)
Fixpoint guarded (g : option ScopedLock) (p : list stmt) : bool :=
  match p, g with
  | [], None => true
  | Guard m :: k, None => guarded (Some (mkGuard m true)) k
  | GLock :: k, Some g => guarded (Some (mkGuard (g_mode g) true)) k
  | GUnlock :: k, Some g => guarded (Some (mkGuard (g_mode g) false)) k
  | EndScope :: k, Some _ => guarded None k
  | Access _ :: k, Some (mkGuard Excl true) => guarded g k
  | Look _ :: k, Some g => m_locked g && guarded (Some g) k
  | _, _ => false
  end.

Definition locked (g : option ScopedLock) : bool :=
  match g with Some g => m_locked g | None => false end.

Definition add_effect (f : effect) (ss : list section) : list section :=
  match ss with [] => [] | s :: ss => (f :: s) :: ss end.

(** The critical sections of a thread, in order; when [b], the first one is
    open already. *)
Fixpoint sections (b : bool) (p : list stmt) : list section :=
  match p with
  | [] => if b then [[]] else []
  | s :: k =>
      match s with
      | Guard _ | GLock => sections true k
      | GUnlock | EndScope => if b then [] :: sections false k else sections false k
      | Access f => add_effect (λ s, f s.1 s.2) (sections b k)
      | Look f => add_effect (λ s, (s.1, f s.1 s.2)) (sections b k)
      end
  end.

(** ** The reference: a critical section is one step *)

Definition atomic_step (s : D * list L) (e : nat * section) : D * list L :=
  match s.2 !! e.1 with
  | Some l => let '(d, l) := run_section e.2 (s.1, l) in (d, <[e.1 := l]> s.2)
  | None => s
  end.

Definition atomic_run (log : list (nat * section)) (s : D * list L) : D * list L :=
  foldl atomic_step s log.

(** The sections of a log that are of thread [i]. *)
Definition sections_of (i : nat) (log : list (nat * section)) : list section :=
  (filter (λ e, e.1 = i) log).*2.

Lemma sections_of_snoc i j log sec :
  sections_of i (log ++ [(j, sec)]) = sections_of i log ++ (if decide (j = i) then [sec] else []).
Proof.
  unfold sections_of. rewrite filter_app, fmap_app. f_equal.
  destruct (decide (j = i)) as [E|E]; [by rewrite filter_cons_True|by rewrite filter_cons_False].
Qed.

Lemma atomic_run_snoc log e s : atomic_run (log ++ [e]) s = atomic_step (atomic_run log s) e.
Proof. unfold atomic_run. by rewrite foldl_app. Qed.

Definition looks (sec : section) : Prop := Forall (λ f : effect, ∀ s, (f s).1 = s.1) sec.

Lemma run_section_looks sec s : looks sec → (run_section sec s).1 = s.1.
Proof.
  intros H. revert s. induction H as [|f sec Hf _ IH]; intros s; [done|].
  simpl. unfold run_section in *. simpl. by rewrite IH.
Qed.

Lemma run_section_snoc sec f s : run_section (sec ++ [f]) s = f (run_section sec s).
Proof. unfold run_section. by rewrite foldl_app. Qed.

Lemma sections_open p : ∃ cur r, sections true p = cur :: r.
Proof.
  induction p as [|s p (cur & r & IH)]; [by eexists _, _|].
  destruct s; simpl; rewrite ?IH; simpl; by eexists _, _.
Qed.
End sections.

(** * Any interleaving *)

Section interleaving.
Context {T : Type} {HL : Lockable T} {HE : ExclusiveLock T} {D L : Type}.
Abbreviation stmt := (stmt D L).
Abbreviation thr := (thr D L).
Abbreviation conf := (conf T D L).
Implicit Types (c : conf) (th : thr) (hs : list (nat * mode)).

(** Two holders at once are both readers. *)
Definition compatible hs : Prop :=
  NoDup hs.*1 ∧ ∀ i, (i, Excl) ∈ hs → hs = [(i, Excl)].

Lemma compatible_add hs i m : compatible hs → i ∉ hs.*1 → admits m hs → compatible ((i, m) :: hs).
Proof.
  intros [Hn Hx] Hi Ha. split; [by constructor|]. intros j [E|Hj]%elem_of_cons.
  - injection E as -> <-. by rewrite Ha.
  - destruct m; simpl in Ha; [rewrite Ha in Hj; by apply not_elem_of_nil in Hj|].
    rewrite Forall_forall in Ha. by specialize (Ha _ Hj).
Qed.

Lemma compatible_sub hs h hs' : compatible hs → hs ≡ₚ h :: hs' → compatible hs'.
Proof.
  intros [Hn Hx] Hp. split.
  - rewrite Hp in Hn. by apply NoDup_cons in Hn as [_ ?].
  - intros i Hi. assert ((i, Excl) ∈ hs) as ->%Hx by (rewrite Hp; set_solver).
    apply Permutation_singleton_l in Hp. injection Hp as <- <-. by apply not_elem_of_nil in Hi.
Qed.

(** A thread, whose completed sections are [sec], when the reference has
    reached [dl] and the thread's own state [l] there, and the data is [dc]. *)
Definition thread_ok (dl dc : D) (p : list stmt) (sec : list section) (l : L) th : Prop :=
  guarded (guard th) (rest th) = true ∧
  if locked (guard th) then
    ∃ dn cur r, sections true (rest th) = cur :: r ∧
      sections false p = sec ++ (dn ++ cur) :: r ∧
      run_section dn (dl, l) = (dc, own th) ∧
      (g_mode <$> guard th = Some Shared → looks dn)
  else sections false p = sec ++ sections false (rest th) ∧ own th = l.

Record Inv (ps : list (list stmt * L)) (d : D) c (log : list (nat * section))
    (hs : list (nat * mode)) (dl : D) (ls : list L) : Prop := {
  inv_run : atomic_run log (d, ps.*2) = (dl, ls);
  inv_held : held (mutex c) hs;
  inv_compatible : compatible hs;
  inv_holders i m : (i, m) ∈ hs ↔ ∃ th, threads c !! i = Some th ∧ guard th = Some (mkGuard m true);
  inv_threads : length (threads c) = length ps;
  inv_own : length ls = length ps;
  inv_ok i th p l : threads c !! i = Some th → ps !! i = Some p → ls !! i = Some l →
    thread_ok dl (data c) p.1 (sections_of i log) l th;
  inv_data : (∀ i, (i, Excl) ∉ hs) → data c = dl;
}.

Lemma inv_lookup ps d c log hs dl ls i th :
  Inv ps d c log hs dl ls → threads c !! i = Some th →
  ∃ p l, ps !! i = Some p ∧ ls !! i = Some l ∧ thread_ok dl (data c) p.1 (sections_of i log) l th.
Proof.
  intros HI Hi. apply lookup_lt_Some in Hi as Hlt.
  pose proof (inv_threads _ _ _ _ _ _ _ HI). pose proof (inv_own _ _ _ _ _ _ _ HI).
  destruct (lookup_lt_is_Some_2 ps i) as [p Hp]; [lia|].
  destruct (lookup_lt_is_Some_2 ls i) as [l Hl]; [lia|].
  exists p, l. split; [done|]. split; [done|]. by eapply inv_ok.
Qed.

Lemma inv_start d ps :
  Forall (λ p, guarded None p.1 = true) ps →
  Inv ps d (start d ps) [] [] d ps.*2.
Proof.
  intros Hg. constructor; simpl; try done.
  - apply held_fresh.
  - split; [constructor|]. by intros i ?%not_elem_of_nil.
  - intros i m. split; [by intros ?%not_elem_of_nil|].
    intros (th & Hi & Hth). apply list_lookup_fmap_Some in Hi as (p & -> & _). done.
  - apply length_fmap.
  - apply length_fmap.
  - intros i th p l Hth Hp Hl. rewrite list_lookup_fmap, Hp in Hth.
    rewrite list_lookup_fmap, Hp in Hl. simplify_eq/=.
    split; [by eapply (Forall_lookup_1 _ _ _ _ Hg Hp)|]. done.
Qed.

(** ** Thread [i] passes a statement *)

Section pass.
Context (ps : list (list stmt * L)) (d : D) (c : conf) (log : list (nat * @section D L))
  (hs : list (nat * mode)) (dl : D) (ls : list L).
Context (HI : Inv ps d c log hs dl ls).
Context (i : nat) (s : stmt) (k : list stmt) (g : option ScopedLock) (l : L).
Context (Hth : threads c !! i = Some (mkThr (s :: k) g l)).
(** The thread may be at [s], and what follows uses its guard [g'] right. *)
Context (g' : option ScopedLock) (Hk : guarded g' k = true).

Lemma holder_locked m : (i, m) ∈ hs → g = Some (mkGuard m true).
Proof. intros (th & Hth' & Hg)%(inv_holders _ _ _ _ _ _ _ HI). by simplify_eq/=. Qed.

Lemma unlocked_no_holder : locked g = false → i ∉ hs.*1.
Proof.
  intros Hg ((j & m) & E & Hj)%list_elem_of_fmap. simpl in E. rewrite <- E in Hj.
  apply holder_locked in Hj. rewrite Hj in Hg. done.
Qed.

(** The holders after the step, when they are [hs'], which agrees with [hs] on
    the other threads. *)
Lemma holders_update hs' l' :
  (∀ m, (i, m) ∈ hs' ↔ g' = Some (mkGuard m true)) →
  (∀ j m, j ≠ i → (j, m) ∈ hs' ↔ (j, m) ∈ hs) →
  ∀ j m, (j, m) ∈ hs' ↔
    ∃ th, <[i := mkThr k g' l']> (threads c) !! j = Some th ∧ guard th = Some (mkGuard m true).
Proof.
  intros Hi Hj j m. destruct (decide (j = i)) as [->|Hne].
  - rewrite list_lookup_insert_eq by (by eapply lookup_lt_Some). rewrite Hi. split.
    + intros ->. by eexists.
    + intros (th & [= <-] & Hg). done.
  - rewrite list_lookup_insert_ne by done. rewrite Hj by done. apply (inv_holders _ _ _ _ _ _ _ HI).
Qed.

(** The next state is in the invariant when the passing thread is all right
    there and the other threads' part of it has not changed. *)
Lemma inv_update mu' d' l' log' hs' dl' ls' :
  atomic_run log' (d, ps.*2) = (dl', ls') →
  held mu' hs' → compatible hs' →
  (∀ m, (i, m) ∈ hs' ↔ g' = Some (mkGuard m true)) →
  (∀ j m, j ≠ i → (j, m) ∈ hs' ↔ (j, m) ∈ hs) →
  length ls' = length ps →
  (∀ j, j ≠ i → ls' !! j = ls !! j ∧ sections_of j log' = sections_of j log) →
  (∀ p l0, ps !! i = Some p → ls' !! i = Some l0 →
     thread_ok dl' d' p.1 (sections_of i log') l0 (mkThr k g' l')) →
  (∀ j th p l0, j ≠ i → threads c !! j = Some th →
     thread_ok dl (data c) p (sections_of j log) l0 th →
     thread_ok dl' d' p (sections_of j log) l0 th) →
  ((∀ j, (j, Excl) ∉ hs') → d' = dl') →
  Inv ps d (mkConf mu' d' (<[i := mkThr k g' l']> (threads c))) log' hs' dl' ls'.
Proof.
  intros Hrun Hh Hc Hi Hj Hlen Hoth Hme Hothers Hd. constructor; simpl; try done.
  - by apply holders_update.
  - rewrite length_insert. apply (inv_threads _ _ _ _ _ _ _ HI).
  - intros j th p l0 Hjth Hp Hl. destruct (decide (j = i)) as [->|Hne].
    + rewrite list_lookup_insert_eq in Hjth by (by eapply lookup_lt_Some). simplify_eq. by apply Hme.
    + rewrite list_lookup_insert_ne in Hjth by done. destruct (Hoth j Hne) as [El ->].
      rewrite El in Hl. eapply Hothers; [done..|]. by eapply inv_ok.
Qed.

(** It gets the lock. *)
Lemma pass_acquire m mu' :
  locked g = false → g' = Some (mkGuard m true) →
  sections false (s :: k) = sections true k →
  admits m hs → held mu' ((i, m) :: hs) →
  Inv ps d (mkConf mu' (data c) (<[i := mkThr k g' l]> (threads c))) log ((i, m) :: hs) dl ls.
Proof.
  intros Hg Eg Hs Ha Hh. pose proof (unlocked_no_holder Hg) as Hi.
  pose proof HI as [Hrun _ Hc _ _ Hlen Hok Hd]. apply inv_update; try done.
  - by apply compatible_add.
  - intros m'. rewrite elem_of_cons, Eg. split; [intros [?|?]|intros ?; left]; simplify_eq; try done.
    exfalso. apply Hi. by apply (list_elem_of_fmap_2 fst) in H.
  - intros j m' Hne. rewrite elem_of_cons. split; [intros [?|?]|]; simplify_eq; tauto.
  - intros p l0 Hp Hl. destruct (Hok _ _ _ _ Hth Hp Hl) as [_ Ht].
    cbn [guard rest own] in Ht. rewrite Hg in Ht.
    destruct Ht as [Ht El]. split; [done|]. cbn [guard rest own]. rewrite Eg, El.
    destruct (sections_open k) as (cur & r & E). exists [], cur, r.
    split; [done|]. rewrite Ht, Hs, E. split; [done|]. split; [|by constructor].
    unfold run_section. simpl. f_equal. symmetry. apply Hd. intros j Hj.
    destruct m; simpl in Ha; [by rewrite Ha in Hj; apply not_elem_of_nil in Hj|].
    rewrite Forall_forall in Ha. by specialize (Ha _ Hj).
  - intros Hx. apply Hd. intros j Hj. apply (Hx j). set_solver.
Qed.

(** It passes a statement that changes neither the lock nor the data. *)
Lemma pass_same :
  (∀ m, g = Some (mkGuard m true) ↔ g' = Some (mkGuard m true)) → locked g' = locked g →
  sections (locked g) (s :: k) = sections (locked g) k →
  Inv ps d (mkConf (mutex c) (data c) (<[i := mkThr k g' l]> (threads c))) log hs dl ls.
Proof.
  intros Hm Hg Hs. pose proof HI as [Hrun Hh Hc Hho _ Hlen Hok Hd]. apply inv_update; try done.
  - intros m. rewrite <- Hm, Hho. split; [intros (th & ? & ?); by simplify_eq/=|].
    intros E. eexists. split; [exact Hth|]. done.
  - intros p l0 Hp Hl. destruct (Hok _ _ _ _ Hth Hp Hl) as [_ Ht]. split; [done|].
    cbn [guard rest own] in *. rewrite Hg. destruct (locked g) eqn:El; [|by rewrite <- Hs].
    destruct Ht as (dn & cur & r & E & Hsec & Hrn & Hlk). exists dn, cur, r.
    split; [by rewrite <- Hs|]. split; [done|]. split; [done|]. intros Eg. apply Hlk.
    destruct g as [[m []]|] eqn:E'; simplify_eq/=. rewrite (proj1 (Hm m) eq_refl) in Eg. done.
Qed.

(** It does something to the data, under its guard. *)
Lemma pass_effect m (f : effect) :
  g = Some (mkGuard m true) → g' = g →
  sections true (s :: k) = add_effect f (sections true k) →
  (m = Shared → ∀ x, (f x).1 = x.1) →
  Inv ps d (mkConf (mutex c) (f (data c, l)).1
    (<[i := mkThr k g' (f (data c, l)).2]> (threads c))) log hs dl ls.
Proof.
  intros Eg Eg' Hs Hf. pose proof HI as [Hrun Hh Hc Hho _ Hlen Hok Hd].
  assert ((i, m) ∈ hs) as Him. { apply Hho. eexists. split; [exact Hth|]. done. }
  assert (m = Shared → (f (data c, l)).1 = data c) as Hsh. { intros E. by rewrite (Hf E). }
  apply inv_update; try done.
  - intros m'. rewrite Hho, Eg'. split; [intros (th & ? & ?); by simplify_eq/=|].
    intros E. eexists. split; [exact Hth|]. done.
  - intros p l0 Hp Hl. destruct (Hok _ _ _ _ Hth Hp Hl) as [_ Ht]. split; [done|].
    cbn [guard rest own] in *. rewrite Eg', Eg in *. cbn [locked m_locked] in *.
    destruct Ht as (dn & cur & r & E & Hsec & Hrn & Hlk).
    destruct (sections_open k) as (cur' & r' & E'). rewrite Hs, E' in E. simpl in E.
    injection E as <- <-. exists (dn ++ [f]), cur', r'. split; [done|].
    split; [by rewrite <- (assoc_L (++))|]. split.
    + rewrite run_section_snoc, Hrn. apply surjective_pairing.
    + intros [= ->]. apply Forall_app. split; [by apply Hlk|]. constructor; [by apply Hf|constructor].
  - intros j th p l0 Hne Hj. destruct m; [|by rewrite Hsh].
    intros [Hg Ht]. split; [done|]. destruct (guard th) as [[mj []]|] eqn:Egj; simpl in *; try done.
    exfalso. assert ((j, mj) ∈ hs) as Hjm by (apply Hho; by eexists).
    apply Hc in Him. rewrite Him in Hjm. apply list_elem_of_singleton in Hjm. by simplify_eq.
  - intros Hx. destruct m; [by apply Hx in Him|]. rewrite Hsh by done. by apply Hd.
Qed.

(** It leaves a critical section. *)
Lemma pass_release m mu' hs' :
  g = Some (mkGuard m true) → locked g' = false →
  sections true (s :: k) = [] :: sections false k →
  hs ≡ₚ (i, m) :: hs' → held mu' hs' →
  ∃ log' dl' ls',
    Inv ps d (mkConf mu' (data c) (<[i := mkThr k g' l]> (threads c))) log' hs' dl' ls'.
Proof.
  intros Eg Hg' Hs Hp Hh. pose proof HI as [Hrun _ Hc Hho _ Hlen Hok Hd].
  pose proof (inv_lookup _ _ _ _ _ _ _ _ _ HI Hth) as (p & l0 & Hpi & Hli & _ & Ht).
  cbn [guard rest own] in Ht. rewrite Eg in Ht. cbn [locked m_locked] in Ht.
  destruct Ht as (dn & cur & r & E & Hsec & Hrn & Hlk). rewrite Hs in E. injection E as <- <-.
  rewrite app_nil_r in Hsec.
  assert ((i, m) ∈ hs) as Him by (rewrite Hp; set_solver).
  assert (i ∉ hs'.*1) as Hi.
  { destruct Hc as [Hn _]. rewrite Hp in Hn. by apply NoDup_cons in Hn as [? _]. }
  assert (m = Shared → data c = dl) as Hsh.
  { intros ->. specialize (Hlk eq_refl). apply (run_section_looks _ (dl, l0)) in Hlk.
    by rewrite Hrn in Hlk. }
  change (list effect) with (@section D L) in dn.
  exists (log ++ [(i, dn)]), (data c), (<[i := l]> ls). apply inv_update.
  - rewrite atomic_run_snoc, Hrun. unfold atomic_step. simpl. by rewrite Hli, Hrn.
  - done.
  - by eapply compatible_sub.
  - intros m'. split; [intros Hin; exfalso; apply Hi; by apply (list_elem_of_fmap_2 fst) in Hin|].
    intros E. by rewrite E in Hg'.
  - intros j m' Hne. rewrite Hp, elem_of_cons. split; [tauto|]. intros [?|?]; [by simplify_eq|done].
  - by rewrite length_insert.
  - intros j Hne. rewrite list_lookup_insert_ne, sections_of_snoc, decide_False by done.
    by rewrite app_nil_r.
  - intros p' l' Hp' Hl'. rewrite list_lookup_insert_eq in Hl' by (by eapply lookup_lt_Some).
    simplify_eq. split; [done|]. cbn [guard rest own]. rewrite Hg'. split; [|done].
    rewrite sections_of_snoc, decide_True, Hsec by done. by rewrite <- (assoc_L (++)).
  - intros j th pj lj Hne Hj [Hgj Htj]. destruct m.
    + split; [done|]. destruct (guard th) as [[mj []]|] eqn:Egj; simpl in *; try done.
      exfalso. assert ((j, mj) ∈ hs) as Hjm by (apply Hho; by eexists).
      apply Hc in Him. rewrite Him in Hjm. apply list_elem_of_singleton in Hjm. by simplify_eq.
    + rewrite <- (Hsh eq_refl) in Htj. by split.
  - done.
Qed.
End pass.
(** ** The actions *)

Definition Good (ps : list (list stmt * L)) (d : D) c : Prop :=
  ∃ log hs dl ls, Inv ps d c log hs dl ls.

Lemma held_by ps d c log hs dl ls i th m :
  Inv ps d c log hs dl ls → threads c !! i = Some th → guard th = Some (mkGuard m true) →
  ∃ hs', hs ≡ₚ (i, m) :: hs' ∧ i ∉ hs'.*1.
Proof.
  intros HI Hi Hg. assert ((i, m) ∈ hs) as Him by (eapply inv_holders; [done|by eexists]).
  apply list_elem_of_split in Him as (l1 & l2 & E). exists (l1 ++ l2).
  assert (hs ≡ₚ (i, m) :: l1 ++ l2) as Hp by (rewrite E; by rewrite Permutation_middle).
  split; [done|]. destruct (inv_compatible _ _ _ _ _ _ _ HI) as [Hn _].
  rewrite Hp in Hn. by apply NoDup_cons in Hn as [? _].
Qed.

(** The thread gets past its statement into a good state. *)
Definition passes ps d c (i : nat) (k : list stmt) : Prop :=
  ∃ c' g l, exec i c = Ret c' ∧ threads c' = <[i := mkThr k g l]> (threads c) ∧ Good ps d c'.

Section thread_act.
Context (ps : list (list stmt * L)) (d : D) (c : conf) (log : list (nat * @section D L))
  (hs : list (nat * mode)) (dl : D) (ls : list L).
Context (HI : Inv ps d c log hs dl ls).
Context (i : nat) (s : stmt) (k : list stmt) (g : option ScopedLock) (l : L).
Context (Hth : threads c !! i = Some (mkThr (s :: k) g l)).

Lemma passes_by g' mu' d' l' :
  thread_act i s g (mutex c) (data c) l = Ret (Some (g', mu', d', l')) →
  Good ps d (mkConf mu' d' (<[i := mkThr k g' l']> (threads c))) →
  passes ps d c i k.
Proof.
  intros Ha Hg. eexists _, g', l'. split; [|by split; [|exact Hg]].
  unfold exec. rewrite Hth. simpl. rewrite Ha. done.
Qed.

(** A statement that locks: the thread waits or passes. *)
Lemma act_lock m :
  locked g = false → guarded (Some (mkGuard m true)) k = true →
  sections false (s :: k) = sections true k →
  thread_act i s g (mutex c) (data c) l =
    (let! r := lock m i (mutex c) in
     Ret (match r with Some mu => Some (Some (mkGuard m true), mu, data c, l) | None => None end)) →
  (exec i c = Ret c ∧ hs ≠ []) ∨ passes ps d c i k.
Proof.
  intros Hg Hk Hs Ha. pose proof (unlocked_no_holder _ _ _ _ _ _ _ HI _ _ _ _ _ Hth Hg) as Hi.
  pose proof (held_lock (mutex c) hs i m (inv_held _ _ _ _ _ _ _ HI) Hi) as Hl.
  destruct (lock m i (mutex c)) as [[mu'|]|e|f] eqn:El; try done; simpl in Ha.
  - right. eapply passes_by; [exact Ha|]. destruct Hl. do 4 eexists. by eapply pass_acquire.
  - left. split; [|done]. unfold exec. rewrite Hth. simpl. by rewrite Ha.
Qed.

(** A statement that unlocks. *)
Lemma act_unlock m g' :
  g = Some (mkGuard m true) → locked g' = false → guarded g' k = true →
  sections true (s :: k) = [] :: sections false k →
  thread_act i s g (mutex c) (data c) l =
    (let! mu := unlock i (mutex c) in Ret (Some (g', mu, data c, l))) →
  passes ps d c i k.
Proof.
  intros Eg Hg' Hk Hs Ha. destruct (held_by _ _ _ _ _ _ _ _ _ m HI Hth Eg) as (hs' & Hp & Hi).
  destruct (held_unlock _ _ _ _ _ (inv_held _ _ _ _ _ _ _ HI) Hp Hi) as (mu' & E & Hh).
  rewrite E in Ha. simpl in Ha. eapply passes_by; [exact Ha|].
  destruct (pass_release _ _ _ _ _ _ _ HI _ _ _ _ _ Hth g' Hk m mu' hs' Eg Hg' Hs Hp Hh)
    as (log' & dl' & ls' & ?). by do 4 eexists.
Qed.

Lemma act_same g' :
  (∀ m, g = Some (mkGuard m true) ↔ g' = Some (mkGuard m true)) → locked g' = locked g →
  guarded g' k = true → sections (locked g) (s :: k) = sections (locked g) k →
  thread_act i s g (mutex c) (data c) l = Ret (Some (g', mutex c, data c, l)) →
  passes ps d c i k.
Proof.
  intros Hm Hg Hk Hs Ha. eapply passes_by; [exact Ha|]. do 4 eexists. by eapply pass_same.
Qed.

Lemma act_effect m (f : effect) :
  g = Some (mkGuard m true) → guarded g k = true →
  sections true (s :: k) = add_effect f (sections true k) →
  (m = Shared → ∀ x, (f x).1 = x.1) →
  thread_act i s g (mutex c) (data c) l =
    Ret (Some (g, mutex c, (f (data c, l)).1, (f (data c, l)).2)) →
  passes ps d c i k.
Proof.
  intros Eg Hk Hs Hf Ha. eapply passes_by; [exact Ha|]. do 4 eexists. by eapply pass_effect.
Qed.

End thread_act.

(** A thread that is at a statement passes it, or waits for a lock that is
    held. *)
Lemma exec_good ps d c log hs dl ls i s k g l :
  Inv ps d c log hs dl ls → threads c !! i = Some (mkThr (s :: k) g l) →
  guarded g (s :: k) = true →
  (exec i c = Ret c ∧ hs ≠ [] ∧ locked g = false) ∨ passes ps d c i k.
Proof.
  intros HI Hth Hg.
  destruct s as [m| | | |f|f], g as [[m' b]|]; try done; simpl in Hg.
  - destruct (act_lock _ _ _ _ _ _ _ HI _ _ _ _ _ Hth m) as [[]|]; simpl; auto.
    unfold ScopedLock_new. by destruct (lock m i (mutex c)) as [[]| |].
  - destruct b; [right; by eapply (act_same _ _ _ _ _ _ _ HI _ _ _ _ _ Hth (Some (mkGuard m' true)))|].
    destruct (act_lock _ _ _ _ _ _ _ HI _ _ _ _ _ Hth m') as [[]|]; simpl; auto.
    unfold ScopedLock_lock. simpl. by destruct (lock m' i (mutex c)) as [[]| |].
  - right. destruct b; [|by eapply (act_same _ _ _ _ _ _ _ HI _ _ _ _ _ Hth (Some (mkGuard m' false)))].
    eapply (act_unlock _ _ _ _ _ _ _ HI _ _ _ _ _ Hth m' (Some (mkGuard m' false))); try done.
    simpl. unfold ScopedLock_unlock. simpl. by destruct (unlock i (mutex c)).
  - right. destruct b; [|by eapply (act_same _ _ _ _ _ _ _ HI _ _ _ _ _ Hth None)].
    eapply (act_unlock _ _ _ _ _ _ _ HI _ _ _ _ _ Hth m' None); try done.
    simpl. unfold ScopedLock_delete, ScopedLock_unlock. simpl. by destruct (unlock i (mutex c)).
  - destruct m', b; try done. right.
    eapply (act_effect _ _ _ _ _ _ _ HI _ _ _ _ _ Hth Excl (λ s, f s.1 s.2)); try done.
    simpl. by destruct (f (data c) l).
  - destruct b; [|done]. right.
    by eapply (act_effect _ _ _ _ _ _ _ HI _ _ _ _ _ Hth m' (λ s, (s.1, f s.1 s.2))).
Qed.

(** No action of any thread is undefined, and all keep the invariant. *)
Lemma exec_inv ps d c i : Good ps d c → ∃ c', exec i c = Ret c' ∧ Good ps d c'.
Proof.
  intros HG. pose proof HG as (log & hs & dl & ls & HI).
  destruct (threads c !! i) as [[[|s k] g l]|] eqn:Hth.
  - exists c. split; [unfold exec; by rewrite Hth|done].
  - destruct (inv_lookup _ _ _ _ _ _ _ _ _ HI Hth) as (p & l0 & _ & _ & Hg & _).
    destruct (exec_good _ _ _ _ _ _ _ _ _ _ _ _ HI Hth Hg) as [(? & _)|(c' & _ & _ & ? & _ & ?)]; eauto.
  - exists c. split; [unfold exec; by rewrite Hth|done].
Qed.

Lemma exec_all_inv ps d sched c :
  Good ps d c → ∃ c', exec_all sched c = Ret c' ∧ Good ps d c'.
Proof.
  revert c. induction sched as [|i sched IH]; intros c HG; [by exists c|]. simpl.
  destruct (exec_inv _ _ _ i HG) as (c' & -> & HG'). by apply IH.
Qed.

Lemma exec_all_app (sched sched' : list nat) c :
  exec_all (sched ++ sched') c = (let! c := exec_all sched c in exec_all sched' c).
Proof.
  revert c. induction sched as [|i sched IH]; intros c; [done|]. simpl.
  destruct (exec i c); [apply IH|done..].
Qed.

(** ** The end *)

Definition finished c : Prop := Forall (λ th, rest th = []) (threads c).

(** The statements that are left. *)
Definition work c : nat := sum_list ((λ th, length (rest th)) <$> threads c).

Lemma sum_list_insert (f : thr → nat) (l : list thr) i x y :
  l !! i = Some x → (f y < f x)%nat → (sum_list (f <$> <[i := y]> l) < sum_list (f <$> l))%nat.
Proof.
  revert i. induction l as [|z l IH]; intros [|i] Hi Hlt; simplify_eq/=; [lia|].
  specialize (IH i Hi Hlt). lia.
Qed.

Lemma some_left (l : list thr) :
  Forall (λ th, rest th = []) l ∨ ∃ i s k g x, l !! i = Some (mkThr (s :: k) g x).
Proof.
  induction l as [|[[|s k] g x] l [IH|(i & ? & ? & ? & ? & IH)]]; [by left| | | |].
  - left. by constructor.
  - right. by exists (S i); do 4 eexists.
  - right. by exists 0%nat; do 4 eexists.
  - right. by exists 0%nat; do 4 eexists.
Qed.

(** Unless all have finished, some thread gets on. *)
Lemma some_passes ps d c :
  Good ps d c → ¬ finished c → ∃ i c', exec i c = Ret c' ∧ Good ps d c' ∧ (work c' < work c)%nat.
Proof.
  intros (log & hs & dl & ls & HI) Hnf.
  assert (∃ i s k g l, threads c !! i = Some (mkThr (s :: k) g l) ∧ (hs = [] ∨ locked g = true))
    as (i & s & k & g & l & Hth & Hor).
  { destruct hs as [|[i m] hs'].
    - destruct (some_left (threads c)) as [|(i & s & k & g & l & ?)]; [done|].
      exists i, s, k, g, l. auto.
    - destruct (proj1 (inv_holders _ _ _ _ _ _ _ HI i m)) as ([p g l] & Hth & Hg); [by left|].
      simpl in Hg. subst g. destruct (inv_lookup _ _ _ _ _ _ _ _ _ HI Hth) as (? & ? & _ & _ & Hgd & _).
      destruct p as [|s k]; [done|]. exists i, s, k, (Some (mkGuard m true)), l. auto. }
  destruct (inv_lookup _ _ _ _ _ _ _ _ _ HI Hth) as (p & l0 & _ & _ & Hg & _).
  destruct (exec_good _ _ _ _ _ _ _ _ _ _ _ _ HI Hth Hg) as [(_ & ? & E)|(c' & g' & l' & ? & Ht & ?)].
  - destruct Hor; [done|]. by rewrite E in *.
  - exists i, c'. split; [done|]. split; [done|]. unfold work. rewrite Ht.
    eapply sum_list_insert; [done|]. simpl. lia.
Qed.

Lemma finishes ps d n c :
  Good ps d c → (work c ≤ n)%nat → ∃ sched c', exec_all sched c = Ret c' ∧ finished c'.
Proof.
  revert c. induction n as [n IH] using lt_wf_ind. intros c HG Hn.
  destruct (some_left (threads c)) as [|(j & s & k & g & l & Hj)]; [by exists [], c|].
  destruct (some_passes _ _ _ HG) as (i & c1 & E & HG1 & Hlt).
  { intros Hf. by apply (Forall_lookup_1 _ _ _ _ Hf) in Hj. }
  destruct (IH (work c1)) with c1 as (sched & c2 & E2 & ?); [lia|done..|].
  exists (i :: sched), c2. split; [|done]. simpl. by rewrite E.
Qed.

(** The threads at the end have done their sections, one after the other. *)
Lemma finished_atomic ps d c :
  Good ps d c → finished c →
  ∃ log, (∀ i p, ps !! i = Some p → sections_of i log = sections false p.1) ∧
    atomic_run log (d, ps.*2) = (data c, own <$> threads c).
Proof.
  intros (log & hs & dl & ls & HI) Hf. exists log.
  assert (∀ i th, threads c !! i = Some th → guard th = None ∧ rest th = []) as Hend.
  { intros i th Hi. pose proof (Forall_lookup_1 _ _ _ _ Hf Hi) as Hr. simpl in Hr.
    destruct (inv_lookup _ _ _ _ _ _ _ _ _ HI Hi) as (? & ? & _ & _ & Hg & _).
    rewrite Hr in Hg. by destruct (guard th). }
  assert (∀ i th, threads c !! i = Some th → ∃ p, ps !! i = Some p ∧ ls !! i = Some (own th) ∧
    sections_of i log = sections false p.1) as Hall.
  { intros i th Hi. destruct (Hend i th Hi) as [Eg Er].
    destruct (inv_lookup _ _ _ _ _ _ _ _ _ HI Hi) as (p & l & Hp & Hl & _ & Ht).
    rewrite Eg, Er in Ht. simpl in Ht. destruct Ht as [Hs ->]. rewrite app_nil_r in Hs. by eexists. }
  destruct HI as [Hrun _ _ Hho Hlen Hlen' _ Hd]. split.
  - intros i p Hp. apply lookup_lt_Some in Hp as Hlt. rewrite <- Hlen in Hlt.
    apply lookup_lt_is_Some_2 in Hlt as [th Hi]. destruct (Hall i th Hi) as (p' & ? & _ & ?).
    by simplify_eq.
  - rewrite Hrun. f_equal.
    + symmetry. apply Hd. intros i (th & Hi & Hg)%Hho. destruct (Hend i th Hi). by simplify_eq.
    + apply list_eq_same_length with (n := length ps); [by rewrite length_fmap|done|].
      intros i x y _ Hx Hy. rewrite list_lookup_fmap in Hy.
      destruct (threads c !! i) as [th|] eqn:Hi; [|done]. simplify_eq/=.
      destruct (Hall i th Hi) as (? & _ & ? & _). by simplify_eq.
Qed.
(** * The properties *)

(** C6. Threads that share one lock (any that keeps the promise
    [ExclusiveLock]) and the data it protects, each with at most one guard of
    it at a time, not nested, around its accesses, never
    meet undefined behaviour (they unlock only what they hold), and whatever
    the schedule, what they have computed when they finish is what they compute
    when each critical section is one atomic step: the sections of each thread
    are done in its order, whole and one after the other. *)
Theorem critical_sections_atomic (d : D) (ps : list (list stmt * L)) (sched : list nat) :
  Forall (λ p, guarded None p.1 = true) ps →
  ∃ c : conf, exec_all sched (start d ps) = Ret c ∧
    (finished c → ∃ log,
      (∀ i p, ps !! i = Some p → sections_of i log = sections false p.1) ∧
      atomic_run log (d, ps.*2) = (data c, own <$> threads c)).
Proof.
  intros Hg. destruct (exec_all_inv ps d sched (start d ps)) as (c & E & HG).
  { do 4 eexists. by apply inv_start. }
  exists c. split; [done|]. by apply finished_atomic.
Qed.

(** C29. Of threads that share one lock which keeps the promise
    [ExclusiveLock] (NullMutex does not), each with at most one guard of it at a
    time, not nested, two guards that are locked at the same moment of any
    schedule are both read guards.  (Nested guards are excluded, see
    [read_inside_write].) *)
Theorem guards_exclude (d : D) (ps : list (list stmt * L)) (sched : list nat) (c : conf)
    (i j : nat) (thi thj : thr) (mi mj : mode) :
  Forall (λ p, guarded None p.1 = true) ps →
  exec_all sched (start d ps) = Ret c →
  threads c !! i = Some thi → threads c !! j = Some thj → i ≠ j →
  guard thi = Some (mkGuard mi true) → guard thj = Some (mkGuard mj true) →
  mi = Shared ∧ mj = Shared.
Proof.
  intros Hg E Hi Hj Hne Gi Gj. destruct (exec_all_inv ps d sched (start d ps)) as (c' & E' & HG).
  { do 4 eexists. by apply inv_start. }
  rewrite E in E'. injection E' as <-. destruct HG as (log & hs & dl & ls & HI).
  destruct (inv_compatible _ _ _ _ _ _ _ HI) as [_ Hx].
  assert ((i, mi) ∈ hs) as Hmi by (eapply inv_holders; [done|by eexists]).
  assert ((j, mj) ∈ hs) as Hmj by (eapply inv_holders; [done|by eexists]).
  destruct mi; [|destruct mj; [|done]].
  - apply Hx in Hmi. rewrite Hmi in Hmj. apply list_elem_of_singleton in Hmj. by simplify_eq.
  - apply Hx in Hmj. rewrite Hmj in Hmi. apply list_elem_of_singleton in Hmi. by simplify_eq.
Qed.

(** C28. Threads that share one lock which keeps the promise [ExclusiveLock]
    (Mutex, RWMutex, Spinlock and CASLock do), each with at most one guard of
    it at a time, not nested, and its accesses under the guard, cannot
    deadlock: from where any schedule leads, some continuation brings every
    thread to its end.  (A second guard of the same lock inside the first is
    excluded; it can wait for ever.) *)
Theorem guards_never_deadlock (d : D) (ps : list (list stmt * L)) (sched : list nat) :
  Forall (λ p, guarded None p.1 = true) ps →
  ∃ sched' c, exec_all (sched ++ sched') (start d ps) = Ret (c : conf) ∧ finished c.
Proof.
  intros Hg. destruct (exec_all_inv ps d sched (start d ps)) as (c & E & HG).
  { do 4 eexists. by apply inv_start. }
  destruct (finishes _ _ (work c) _ HG) as (sched' & c' & E' & Hf); [done|].
  exists sched', c'. split; [|done]. by rewrite exec_all_app, E.
Qed.
End interleaving.

(** ** On concrete threads *)

(** [{ Lock lock(m); tmp = counter; counter = tmp + 1; }] *)
Definition increment (m : mode) : list (stmt Z Z) :=
  [Guard m; Access (λ d _, (d, d)); Access (λ _ l, (l + 1, l)); EndScope].

(** A reader that looks twice, having let go of the lock in between. *)
Definition look_twice : list (stmt Z Z) :=
  [Guard Shared; Look (λ d _, d); GUnlock; GLock; Look (λ d l, d - l); EndScope].

Definition two_increments : list (list (stmt Z Z) * Z) :=
  [(increment Excl, 0); (increment Excl, 0)].

Lemma critical_sections_atomic_witness :
  ∃ c : conf CASLock Z Z,
    exec_all [0; 1; 0; 1; 0; 0; 1; 1; 1; 1]%nat (start 5 two_increments) = Ret c ∧
    data c = 7 ∧
    ∃ log, (∀ i p, two_increments !! i = Some p → sections_of i log = sections false p.1) ∧
      atomic_run log (5, two_increments.*2) = (data c, own <$> threads c).
Proof.
  destruct (critical_sections_atomic (T := CASLock) 5 two_increments [0; 1; 0; 1; 0; 0; 1; 1; 1; 1]%nat)
    as (c & E & H); [by repeat constructor|].
  exists c. split; [exact E|]. vm_compute in E. injection E as <-. split; [reflexivity|].
  apply H. repeat constructor.
Defined.

Lemma guards_exclude_witness :
  let c := mkConf (mkRWMutex (mkRW None [1; 0]%nat)) 5
    [mkThr (tail look_twice) (Some (mkGuard Shared true)) 0;
     mkThr (tail look_twice) (Some (mkGuard Shared true)) 0] in
  exec_all [0; 1]%nat (start 5 [(look_twice, 0); (look_twice, 0)]) = Ret c ∧ Shared = Shared ∧ Shared = Shared.
Proof.
  intros c. assert (exec_all [0; 1]%nat (start 5 [(look_twice, 0); (look_twice, 0)]) = Ret c) as E by reflexivity.
  split; [exact E|]. eapply (guards_exclude 5 _ _ c 0 1 _ _ Shared Shared); [|exact E|reflexivity|reflexivity|done|reflexivity|reflexivity].
  by repeat constructor.
Defined.

Lemma guards_never_deadlock_witness :
  ∃ sched' c, exec_all ([0; 1; 1] ++ sched')%nat
    (start 5 [(look_twice, 0); (increment Excl, 0)]) = Ret (c : conf RWMutex Z Z) ∧ finished c.
Proof. apply guards_never_deadlock. by repeat constructor. Defined.

(** With NullMutex the same threads lose an increment. *)
Lemma null_mutex_races :
  ∃ c : conf Unlocked Z Z,
    exec_all [0; 1; 0; 1; 0; 1; 0; 1]%nat (start 5 two_increments) = Ret c ∧ finished c ∧ data c = 6.
Proof. eexists. split; [reflexivity|]. by repeat constructor. Qed.

(** A thread that takes a read guard of an RWMutex inside its own write guard is
    told EDEADLK, which the wrapper drops: the read guard believes it is locked,
    its end unlocks the write lock, another writer gets in, and the end of the
    write guard unlocks a lock that is no longer the thread's. *)
Lemma read_inside_write :
  ∃ w r m1 m2 m3 m4 w',
    ScopedLock_new Excl 0 RWMutex_new = Ret (Some (w, m1)) ∧
    ScopedLock_new Shared 0 m1 = Ret (Some (r, m2)) ∧ m_locked r = true ∧ m2 = m1 ∧
    ScopedLock_delete 0 r m2 = Ret m3 ∧
    ScopedLock_new Excl 1 m3 = Ret (Some (w', m4)) ∧
    m_locked w = true ∧ m_locked w' = true ∧
    ScopedLock_delete 0 w m4 = Fault BadUnlock.
Proof. do 7 eexists. repeat split. Qed.

(** * Semaphore *)

(** A semaphore counts: what [wait] and [notify] do on each of their branches.
    A signal makes [wait] throw while it has nothing to take. *)
Lemma semaphore_counts (v : Z) (signal : bool) :
  0 ≤ v ≤ SEM_VALUE_MAX →
  Semaphore_new v = Ret (mkSem v) ∧
  Semaphore_wait signal (mkSem v) =
    (if 0 <? v then Ret (Some (mkSem (v - 1))) else if signal then Throw std_logic_error else Ret None) ∧
  Semaphore_notify (mkSem v) =
    (if v =? SEM_VALUE_MAX then Throw std_logic_error else Ret (mkSem (v + 1))).
Proof.
  intros Hv. unfold Semaphore_new, sem_init, Semaphore_wait, sem_wait, Semaphore_notify, sem_post.
  simpl. split_and!.
  - by rewrite (proj2 (Z.ltb_ge _ _)) by lia.
  - by destruct (0 <? v), signal.
  - by destruct (v =? SEM_VALUE_MAX).
Qed.
