(* ===== verification/Thread.v ===== *)
(** Threads: include/thread.h and thread.cpp.

    The life of one [Thread] object: its constructor, the thread it starts and
    the members its owner calls, as one machine whose actions are the atomic
    steps of the two threads.  The object is [None] when it does not exist (its
    constructor threw, or it was deleted); a thread that still uses it then
    meets [UseAfterFree].  Thread ids, pthread handles and the results of
    pthread_create are arguments. *)

From S2P Require Import Prelude Http Mutex.

(** * The object *)

Record Thread := mkThread {
  m_id : Z;
  m_thread : Z;
  m_cb : callback;
  m_name : text;
  m_semaphore : sem_t;
}.

(** The thread_local variables, and the name the system shows for the thread. *)
Record tls := mkTls { t_thread : bool; t_thread_name : text; comm : text }.

(** The values a thread begins with; [t_thread] is whether the pointer is to
    the object. *)
Definition tls_init : tls := mkTls false (str "UNKNOWN") [].

(** Thread::GetName *)
Definition GetName (v : tls) : text := t_thread_name v.

Definition with_name (name : text) (T : Thread) : Thread :=
  mkThread (m_id T) (m_thread T) (m_cb T) name (m_semaphore T).

(** Thread::SetName, in a thread whose variables are [v]. *)
Definition SetName (name : text) (v : tls) (object : option Thread) : outcome (tls * option Thread) :=
  let v' := mkTls (t_thread v) name (comm v) in
  if t_thread v then
    match object with
    | Some T => Ret (v', Some (with_name name T))
    | None => Fault UseAfterFree
    end
  else Ret (v', object).

(** * The started thread *)

(** Where [Thread::run] is. *)
Inductive run_pc :=
| R_this
| R_id
| R_setname
| R_swap
| R_notify (cb : callback)
| R_call (cb : callback)
| R_in (cb : callback)
| R_end.

Record runner := mkRunner {
  r_pc : run_pc;
  r_tid : Z;
  r_tls : tls;
  calls : list callback;
}.

(** One statement of [Thread::run], for the object [T]. *)
Definition run_stmt (r : runner) (T : Thread) : outcome (runner * Thread) :=
  let goto p v := mkRunner p (r_tid r) v (calls r) in
  let v := r_tls r in
  match r_pc r with
  | R_this => Ret (goto R_id (mkTls true (m_name T) (comm v)), T)
  | R_id =>
      Ret (goto R_setname v, mkThread (r_tid r) (m_thread T) (m_cb T) (m_name T) (m_semaphore T))
  | R_setname =>
      Ret (goto R_swap (mkTls (t_thread v) (t_thread_name v) (take 15 (m_name T))), T)
  | R_swap =>
      Ret (goto (R_notify (m_cb T)) v,
           mkThread (m_id T) (m_thread T) nullptr (m_name T) (m_semaphore T))
  | R_notify cb =>
      let! s := Semaphore_notify (m_semaphore T) in
      Ret (goto (R_call cb) v, mkThread (m_id T) (m_thread T) (m_cb T) (m_name T) s)
  | _ => Ret (r, T)
  end.

(** The thread goes on: up to the notification it uses the object, from then on
    only the callback it has taken from it. *)
Definition run (r : runner) (object : option Thread) : outcome (runner * option Thread) :=
  match r_pc r with
  | R_call cb =>
      if engaged cb then
        Ret (mkRunner (R_in cb) (r_tid r) (r_tls r) (calls r ++ [cb]), object)
      else Throw std_bad_function_call
  | R_in _ => Ret (mkRunner R_end (r_tid r) (r_tls r) (calls r), object)
  | R_end => Ret (r, object)
  | _ =>
      match object with
      | Some T => let! x := run_stmt r T in Ret (fst x, Some (snd x))
      | None => Fault UseAfterFree
      end
  end.

(** * The owner *)

(** The state of the thread for pthread_join and pthread_detach. *)
Inductive pthread_state := Joinable | Detached | Joined.

Definition EINVAL : Z := 22.

(** [pthread_join]; [None] while it waits for the end of the thread. *)
Definition pthread_join (ended : bool) (p : pthread_state) : option (Z * pthread_state) :=
  match p with
  | Joinable => if ended then Some (0, Joined) else None
  | _ => Some (EINVAL, p)
  end.

Definition pthread_detach (p : pthread_state) : Z * pthread_state :=
  match p with
  | Joinable => (0, Detached)
  | _ => (EINVAL, p)
  end.

(** Where the owner is: in the constructor, waiting for the thread; after it,
    with the object; after the constructor threw; after it deleted the
    object. *)
Inductive owner := Constructing | Owning | Failed | Deleted.

Record life := mkLife {
  object : option Thread;
  own_pc : owner;
  pthread : pthread_state;
  started : runner;
}.

Definition with_object (o : option Thread) (w : owner) (s : life) : life :=
  mkLife o w (pthread s) (started s).

(** The members after [: m_cb(cb), m_name(name)] and the first test. *)
Definition Thread_init (cb : callback) (name : text) : outcome Thread :=
  let! s := Semaphore_new 0 in
  Ret (mkThread (-1) 0 cb (match name with [] => str "UNKNOWN" | _ => name end) s).

(** The constructor up to [m_semaphore.wait()]: [rt] is the result of
    pthread_create, [pt] the handle it stores, [tid] the id of the new thread.
    When it fails the constructor throws. *)
Definition Thread_new (cb : callback) (name : text) (rt pt tid : Z) : outcome life :=
  let! T := Thread_init cb name in
  if negb (rt =? 0) then Throw std_logic_error
  else
    Ret (mkLife (Some (mkThread (m_id T) pt (m_cb T) (m_name T) (m_semaphore T)))
           Constructing Joinable (mkRunner R_this tid tls_init [])).

Definition clear_thread (T : Thread) : Thread :=
  mkThread (m_id T) 0 (m_cb T) (m_name T) (m_semaphore T).

(** The end of the constructor: [m_semaphore.wait()].  When it throws, the
    members of the object are destroyed and its memory is released. *)
Definition Thread_wait (signal : bool) (T : Thread) (s : life) : life :=
  match Semaphore_wait signal (m_semaphore T) with
  | Ret None => s
  | Ret (Some sem) =>
      with_object (Some (mkThread (m_id T) (m_thread T) (m_cb T) (m_name T) sem)) Owning s
  | _ => with_object None Failed s
  end.

Definition ended (s : life) : bool :=
  match r_pc (started s) with R_end => true | _ => false end.

(** Thread::join; a call that waits leaves the state as it is. *)
Definition join (T : Thread) (s : life) : outcome life :=
  if negb (m_thread T =? 0) then
    match pthread_join (ended s) (pthread s) with
    | None => Ret s
    | Some (rt, p) =>
        if negb (rt =? 0) then Throw std_logic_error
        else Ret (mkLife (Some (clear_thread T)) (own_pc s) p (started s))
    end
  else Ret s.

(** Thread::detach *)
Definition detach (T : Thread) (s : life) : outcome life :=
  if negb (m_thread T =? 0) then
    let '(rt, p) := pthread_detach (pthread s) in
    if negb (rt =? 0) then Throw std_logic_error
    else Ret (mkLife (Some (clear_thread T)) (own_pc s) p (started s))
  else Ret s.

(** Thread::~Thread *)
Definition Thread_delete (T : Thread) (s : life) : life :=
  let p := if negb (m_thread T =? 0) then snd (pthread_detach (pthread s)) else pthread s in
  mkLife None Deleted p (started s).

(** * The machine *)

(** An action: the thread goes on, or sets its name while in its callback; the
    owner goes on in the constructor (a signal may come), or calls a member. *)
Inductive action :=
| ARun
| ASetName (name : text)
| AWait (signal : bool)
| AJoin
| ADetach
| ADelete.

Definition step (a : action) (s : life) : outcome life :=
  match a, own_pc s, object s with
  | ARun, _, _ =>
      let! x := run (started s) (object s) in
      Ret (mkLife (snd x) (own_pc s) (pthread s) (fst x))
  | ASetName name, _, _ =>
      let r := started s in
      match r_pc r with
      | R_in cb =>
          let! x := SetName name (r_tls r) (object s) in
          Ret (mkLife (snd x) (own_pc s) (pthread s)
                 (mkRunner (r_pc r) (r_tid r) (fst x) (calls r)))
      | _ => Ret s
      end
  | AWait signal, Constructing, Some T => Ret (Thread_wait signal T s)
  | AJoin, Owning, Some T => join T s
  | ADetach, Owning, Some T => detach T s
  | ADelete, Owning, Some T => Ret (Thread_delete T s)
  | _, _, _ => Ret s
  end.

Fixpoint steps (l : list action) (s : life) : outcome life :=
  match l with
  | [] => Ret s
  | a :: l => let! s := step a s in steps l s
  end.
