(* ===== verification/ThreadTheorems.v ===== *)
(** Correctness of the start, the end and the deletion of a thread.

    For any interleaving of the new thread with its owner: the constructor
    returns only when the thread has filled in the object and taken the
    callback from it, the thread does not use the object after that, so it may
    be deleted at any time, the callback runs once, and [join] returns after
    it.  Two uses break this: a signal during the constructor, and [SetName]
    in a thread whose object is gone. *)

From S2P Require Import Prelude Http Mutex Thread.

Section life.
Context (cb : callback) (name : text) (pt tid : Z).
Context (Hcb : engaged cb = true) (Hpt : pt ≠ 0).

(** The name the object is given. *)
Definition name_of (name : text) : text :=
  match name with [] => str "UNKNOWN" | _ => name end.

(** Whether an action is in the histories considered: no signal interrupts the
    constructor, and the thread changes its name ([naming]) only if its object
    is not deleted. *)
Definition proper (naming : bool) (a : action) : bool :=
  match a with
  | AWait signal => negb signal
  | ASetName _ => naming
  | ADelete => negb naming
  | _ => true
  end.

(** The thread has notified the owner. *)
Definition notified (p : run_pc) : bool :=
  match p with R_call _ | R_in _ | R_end => true | _ => false end.

(** The callback the thread holds or has called, and the object's. *)
Definition calls_ok (p : run_pc) (calls : list callback) (obj : callback) : Prop :=
  match p with
  | R_this | R_id | R_setname | R_swap => calls = [] ∧ obj = cb
  | R_notify c | R_call c => calls = [] ∧ c = cb ∧ obj = nullptr
  | R_in c => calls = [cb] ∧ c = cb ∧ obj = nullptr
  | R_end => calls = [cb] ∧ obj = nullptr
  end.

(** The name and the id, once the thread has got there. *)
Definition names_ok (r : runner) (T : Thread) : Prop :=
  match r_pc r with
  | R_this => m_name T = name_of name
  | R_id => t_thread (r_tls r) = true ∧ m_name T = name_of name ∧ GetName (r_tls r) = m_name T
  | R_setname | R_swap | R_notify _ | R_call _ =>
      t_thread (r_tls r) = true ∧ m_name T = name_of name ∧ GetName (r_tls r) = m_name T ∧ m_id T = tid
  | _ => t_thread (r_tls r) = true ∧ GetName (r_tls r) = m_name T ∧ m_id T = tid
  end.

(** The handle, against the state of the pthread. *)
Definition handle_ok (p : run_pc) (T : Thread) (ps : pthread_state) : Prop :=
  match ps with
  | Joinable => m_thread T = pt
  | Detached => m_thread T = 0
  | Joined => m_thread T = 0 ∧ p = R_end
  end.

Definition Inv (naming : bool) (s : life) : Prop :=
  let r := started s in
  r_tid r = tid ∧
  match own_pc s with
  | Constructing =>
      ∃ T, object s = Some T ∧ pthread s = Joinable ∧ handle_ok (r_pc r) T (pthread s) ∧
        calls_ok (r_pc r) (calls r) (m_cb T) ∧ names_ok r T ∧
        m_semaphore T = mkSem (Z.b2z (notified (r_pc r)))
  | Owning =>
      notified (r_pc r) = true ∧
      ∃ T, object s = Some T ∧ handle_ok (r_pc r) T (pthread s) ∧
        calls_ok (r_pc r) (calls r) (m_cb T) ∧ names_ok r T ∧ m_semaphore T = mkSem 0
  | Failed => False
  | Deleted =>
      naming = false ∧ notified (r_pc r) = true ∧ object s = None ∧
      calls_ok (r_pc r) (calls r) nullptr ∧ (pthread s = Joined → r_pc r = R_end) ∧
      pthread s ≠ Joinable
  end.

(** What the owner of a constructed object sees. *)
Definition sees_started (s : life) : Prop :=
  ∃ T, object s = Some T ∧ m_id T = tid ∧ m_name T = GetName (r_tls (started s)) ∧
    m_cb T = nullptr ∧ notified (r_pc (started s)) = true.

Lemma inv_new naming :
  ∃ s, Thread_new cb name 0 pt tid = Ret s ∧ Inv naming s ∧ own_pc s = Constructing.
Proof. eexists. split; [reflexivity|]. split; [|done]. split; [done|]. by eexists. Qed.
(** The thread goes on. *)
Lemma run_inv naming s : Inv naming s → ∃ s', step ARun s = Ret s' ∧ Inv naming s'.
Proof.
  destruct s as [o w ps [p t v cs]]. unfold Inv. simpl. intros [Ht Hs]. unfold run. simpl.
  destruct w; [| |done|].
  - destruct Hs as ([i h c0 n0 sem] & -> & -> & Hh & Hc & Hn & Hsem). unfold names_ok in Hn. simpl in *.
    destruct p; simpl in *; destruct_and?; subst; rewrite ?Hcb, ?Hsem; simpl;
      eexists; (split; [reflexivity|]); simpl; split; try done; eexists; by split_and!.
  - destruct Hs as (Hnt & [i h c0 n0 sem] & -> & Hh & Hc & Hn & Hsem). unfold names_ok in Hn. simpl in *.
    destruct p; simpl in *; try done; destruct_and?; subst; rewrite ?Hcb; simpl;
      eexists; (split; [reflexivity|]); simpl; split; try done; (split; [done|]); eexists;
      destruct ps; simpl in Hh; destruct_and?; by split_and!.
  - destruct Hs as (Hb & Hnt & -> & Hc & Hj & Hp).
    destruct p; simpl in *; try done; destruct_and?; subst; rewrite ?Hcb; simpl;
      eexists; (split; [reflexivity|]); simpl; split; try done; split_and!; try done;
      intros E; by specialize (Hj E).
Qed.

(** It sets its name. *)
Lemma SetName_inv s n : Inv true s → ∃ s', step (ASetName n) s = Ret s' ∧ Inv true s'.
Proof.
  destruct s as [o w ps [p t v cs]]. unfold Inv, step. simpl. intros [Ht Hs].
  destruct p; try (by eexists; split; [reflexivity|]; split). unfold SetName.
  destruct w; [| |done|by destruct Hs].
  - destruct Hs as ([i h c0 n0 sem] & -> & -> & Hh & Hc & (Hv & Hn) & Hsem). simpl in *. rewrite Hv. simpl.
    eexists. split; [reflexivity|]. split; [done|]. eexists. by split_and!; try done; split_and!; try apply Hn.
  - destruct Hs as (Hnt & [i h c0 n0 sem] & -> & Hh & Hc & (Hv & Hn) & Hsem). simpl in *. rewrite Hv. simpl.
    eexists. split; [reflexivity|]. split; [done|]. split; [done|].
    eexists. by split_and!; try done; split_and!; try apply Hn.
Qed.

(** The owner goes on in the constructor: it gets out when the thread has
    notified it. *)
Lemma wait_inv naming s :
  Inv naming s → ∃ s', step (AWait false) s = Ret s' ∧ Inv naming s' ∧
    (notified (r_pc (started s)) = true → own_pc s' ≠ Constructing).
Proof.
  destruct s as [o w ps r]. unfold Inv, step. simpl. intros [Ht Hs].
  destruct w; [|by (exists (mkLife o Owning ps r); destruct o)|done|by (exists (mkLife o Deleted ps r); destruct o)].
  destruct Hs as ([i h c0 n0 sem] & -> & -> & Hh & Hc & Hn & Hsem). unfold Thread_wait, Semaphore_wait, sem_wait.
  eexists. split; [reflexivity|]. rewrite Hsem. simpl. destruct (notified (r_pc r)) eqn:E; simpl.
  - split; [|done]. split; [done|]. split; [done|]. eexists. split_and!; try done.
  - split; [|done]. split; [done|]. eexists. split_and!; try done. by rewrite E.
Qed.

(** The owner calls [join], [detach] or the destructor. *)
Lemma member_inv naming a s :
  Inv naming s → proper naming a = true → a = AJoin ∨ a = ADetach ∨ a = ADelete →
  ∃ s', step a s = Ret s' ∧ Inv naming s'.
Proof.
  destruct s as [o w ps r]. unfold Inv, step. simpl. intros [Ht Hs] Ha Hor.
  destruct w;
    [by (exists (mkLife o Constructing ps r); destruct Hor as [-> |[-> | ->]], o)| |done
    |by (exists (mkLife o Deleted ps r); destruct Hor as [-> |[-> | ->]], o)].
  destruct Hs as (Hnt & [i h c0 n0 sem] & -> & Hh & Hc & Hn & Hsem). unfold handle_ok in Hh.
  destruct Hor as [-> |[-> | ->]]; unfold join, detach, Thread_delete; simpl.
  - destruct ps; simpl in *; destruct_and?; subst; rewrite ?(proj2 (Z.eqb_neq pt 0)) by done; simpl;
      [destruct (ended _) eqn:E|..]; eexists; (split; [reflexivity|]); simpl; split; try done;
      (split; [done|]); eexists; split_and!; try done.
    unfold ended in E. simpl in E. by destruct (r_pc r).
  - destruct ps; simpl in *; destruct_and?; subst; rewrite ?(proj2 (Z.eqb_neq pt 0)) by done; simpl;
      eexists; (split; [reflexivity|]); simpl; split; try done;
      (split; [done|]); eexists; by split_and!.
  - destruct naming; [done|]. eexists. split; [reflexivity|]. simpl. split; [done|].
    assert (calls_ok (r_pc r) (calls r) nullptr) by (by destruct (r_pc r); simpl in *; destruct_and?).
    destruct ps; simpl in *; destruct_and?; subst; rewrite ?(proj2 (Z.eqb_neq pt 0)) by done; by split_and!.
Qed.
Lemma step_inv naming a s :
  Inv naming s → proper naming a = true → ∃ s', step a s = Ret s' ∧ Inv naming s'.
Proof.
  intros HI Ha. destruct a as [|n|signal| | |].
  - by apply run_inv.
  - destruct naming; [by apply SetName_inv|done].
  - destruct signal; [done|]. destruct (wait_inv _ _ HI) as (s' & ? & ? & _). eauto.
  - apply member_inv; auto.
  - apply member_inv; auto.
  - apply member_inv; auto.
Qed.

Lemma steps_inv naming l s :
  Inv naming s → Forall (λ a, proper naming a = true) l →
  ∃ s', steps l s = Ret s' ∧ Inv naming s'.
Proof.
  intros HI Hl. revert s HI. induction Hl as [|a l Ha _ IH]; intros s HI; [by exists s|].
  simpl. destruct (step_inv _ _ _ HI Ha) as (s1 & -> & HI1). by apply IH.
Qed.

Lemma steps_app l l' s : steps (l ++ l') s = (let! s := steps l s in steps l' s).
Proof.
  revert s. induction l as [|a l IH]; intros s; [done|]. simpl. destruct (step a s); [apply IH|done..].
Qed.

(** How far the thread is from the notification. *)
Definition until_notified (p : run_pc) : nat :=
  match p with R_this => 5 | R_id => 4 | R_setname => 3 | R_swap => 2 | R_notify _ => 1 | _ => 0 end.

Lemma run_advances naming s s' :
  Inv naming s → step ARun s = Ret s' →
  until_notified (r_pc (started s')) = pred (until_notified (r_pc (started s))).
Proof.
  destruct s as [o w ps [p t v cs]]. intros _. unfold step, run, run_stmt. simpl.
  destruct p; simpl; try by intros [= <-].
  1-5: destruct o as [T|]; [|done]; simpl; try by intros [= <-].
  - destruct (Semaphore_notify (m_semaphore T)); simpl; [|done..]. by intros [= <-].
  - destruct (engaged cb0); simpl; intros E; by simplify_eq/=.
Qed.

(** Left alone, the two bring the constructor to its end. *)
Lemma constructor_ends naming n s :
  Inv naming s → until_notified (r_pc (started s)) = n →
  ∃ s', steps (replicate n ARun ++ [AWait false]) s = Ret s' ∧ own_pc s' ≠ Constructing.
Proof.
  revert s. induction n as [|n IH]; intros s HI Hn; cbn [replicate app steps].
  - destruct (wait_inv _ _ HI) as (s' & -> & _ & Hw). exists s'. split; [done|]. apply Hw.
    by destruct (r_pc (started s)).
  - destruct (run_inv _ _ HI) as (s1 & E & HI1). rewrite E. cbn [obind]. apply IH; [done|].
    by rewrite (run_advances _ _ _ HI E), Hn.
Qed.
End life.

(** * The properties *)

(** C16. A thread made with a callback that is not empty, and which
    pthread_create made with a nonzero handle, in any interleaving
    of the new thread with the owner in which no signal interrupts the wait of
    the constructor, and either the thread never calls SetName or its object is
    never deleted: nothing is thrown, nothing faults (no use of the object
    after its deletion); once the constructor has returned the object has the
    thread's id and name and the thread has the callback; the callback is
    called at most once; a [join] that has joined the thread did so after the
    callback was called (after [detach], [join] returns at once and joins
    nothing); and the constructor can always come to its end. *)
Theorem thread_starts_once (cb : callback) (name : text) (pt tid : Z) (naming : bool)
    (l : list action) :
  engaged cb = true → pt ≠ 0 → Forall (λ a, proper naming a = true) l →
  ∃ s0 s, Thread_new cb name 0 pt tid = Ret s0 ∧ steps l s0 = Ret s ∧
    (own_pc s = Owning → sees_started tid s) ∧
    (calls (started s) = [] ∨ calls (started s) = [cb]) ∧
    (own_pc s ≠ Constructing → pthread s = Joined → calls (started s) = [cb]) ∧
    (own_pc s = Constructing → ∃ l' s', steps (l ++ l') s0 = Ret s' ∧ own_pc s' ≠ Constructing).
Proof.
  intros Hcb Hpt Hl. destruct (inv_new cb name pt tid naming) as (s0 & E0 & HI0 & _).
  destruct (steps_inv cb name pt tid Hcb Hpt naming l s0 HI0 Hl) as (s & E & HI).
  exists s0, s. split; [done|]. split; [done|]. pose proof HI as [_ Hs]. split_and!.
  - intros Ho. rewrite Ho in Hs. destruct Hs as (Hnt & T & Ho' & _ & Hc & Hn & _). exists T.
    unfold names_ok in Hn. destruct (r_pc (started s)); try done; simpl in *; destruct_and?; by split_and!.
  - destruct (own_pc s); try done; [destruct Hs as (T & _ & _ & _ & Hc & _)
      |destruct Hs as (_ & T & _ & _ & Hc & _)|destruct Hs as (_ & _ & _ & Hc & _)];
      destruct (r_pc (started s)); simpl in Hc; destruct_and?; auto.
  - intros Hne Hj. destruct (own_pc s); try done.
    + destruct Hs as (_ & T & _ & Hh & Hc & _). rewrite Hj in Hh. destruct Hh as [_ Hp].
      rewrite Hp in Hc. apply Hc.
    + destruct Hs as (_ & _ & _ & Hc & Hp & _). rewrite (Hp Hj) in Hc. apply Hc.
  - intros _. destruct (constructor_ends cb name pt tid Hcb Hpt naming _ s HI eq_refl) as (s' & E' & Hne).
    eexists _, s'. split; [|exact Hne]. by rewrite steps_app, E.
Qed.

Lemma thread_starts_once_witness :
  ∃ s0 s, Thread_new (UserCb 7) (str "worker") 0 1 42 = Ret s0 ∧
    steps [ARun; ARun; ARun; ARun; AWait false; ARun; AWait false; ADelete; ARun; ARun] s0 = Ret s ∧
    calls (started s) = [UserCb 7] ∧ own_pc s = Deleted ∧
    (calls (started s) = [] ∨ calls (started s) = [UserCb 7]).
Proof.
  destruct (thread_starts_once (UserCb 7) (str "worker") 1 42 false
    [ARun; ARun; ARun; ARun; AWait false; ARun; AWait false; ADelete; ARun; ARun])
    as (s0 & s & E0 & E & _ & Hc & _); [reflexivity|lia|by repeat constructor|].
  exists s0, s. split; [exact E0|]. split; [exact E|].
  vm_compute in E0. injection E0 as <-. vm_compute in E. injection E as <-. by split_and!.
Defined.

(** A signal that is handled while the constructor waits makes it throw; the
    object is gone and the thread goes on using it. *)
Lemma interrupted_constructor (cb : callback) (name : text) (pt tid : Z) :
  ∃ s0 s, Thread_new cb name 0 pt tid = Ret s0 ∧
    steps [ARun; AWait true] s0 = Ret s ∧ own_pc s = Failed ∧
    step ARun s = Fault UseAfterFree.
Proof. do 2 eexists. split; [reflexivity|]. split; [reflexivity|]. by split. Qed.

(** A thread that names itself after its object was deleted writes to it. *)
Lemma named_after_delete (cb : callback) (name new : text) (pt tid : Z) :
  engaged cb = true →
  ∃ s0 s, Thread_new cb name 0 pt tid = Ret s0 ∧
    steps [ARun; ARun; ARun; ARun; ARun; AWait false; ADelete; ARun] s0 = Ret s ∧
    step (ASetName new) s = Fault UseAfterFree.
Proof.
  intros H. destruct cb; [done|..]; do 2 eexists; (split; [reflexivity|]);
    (split; [lazy; reflexivity|]); done.
Qed.

(** A thread that is detached cannot be waited for: [join] returns at once. *)
Lemma join_after_detach (T : Thread) (s s' : life) :
  detach T s = Ret s' → m_thread T ≠ 0 → ∃ T', object s' = Some T' ∧ join T' s' = Ret s'.
Proof.
  unfold detach. intros H Hne. rewrite (proj2 (Z.eqb_neq _ _)) in H by done. simpl in H.
  destruct (pthread_detach (pthread s)) as [rt p]. destruct (rt =? 0); [|done]. simpl in H.
  injection H as <-. by eexists.
Qed.
