(* ===== verification/Util.v ===== *)
(** The utilities: util.h, util.cpp, macro.h and singleton.h.

    The clock and the frames of the stack are arguments; the blocks Backtrace
    allocates are kept in a list, so that what it does not free shows. *)

From S2P Require Import Prelude Http Fiber.
From Stdlib Require Import Ascii.

#[local] Open Scope string_scope.
#[local] Open Scope list_scope.
#[local] Open Scope Z_scope.

(** * Clock *)

(** [struct timeval]. *)
Record timeval := mkTimeval { tv_sec : Z; tv_usec : Z }.

Definition GetCurrentMS (tv : timeval) : Z :=
  u64 (u64 (u64 (tv_sec tv) * 1000) + u64 (Z.quot (tv_usec tv) 1000)).
Definition GetCurrentUS (tv : timeval) : Z :=
  u64 (u64 (u64 (u64 (tv_sec tv) * 1000) * 1000) + u64 (tv_usec tv)).

(** * Ids *)

(** [GetThreadId]: the answer of gettid, as a [pid_t]. *)
Definition GetThreadId (tid : Z) : Z := i32 tid.

(** [apexstorm::GetFiberId]: the id of the fiber, as 32 bits. *)
Definition fiber_id32 (t : nat) : M World Z := do! id := GetFiberId t in ret (u32 id).

(** * Backtraces *)

Inductive block := block_array | block_strings.
#[global] Instance block_eq : EqDecision block.
Proof. solve_decision. Defined.

Definition free_block (b : block) (heap : list block) : list block :=
  List.filter (λ c, negb (bool_decide (b = c))) heap.

(** The loop over the symbols from index [i]. *)
Fixpoint push_symbols (fuel : nat) (i s : Z) (symbols bt : list text) : outcome (list text) :=
  if i <? s then
    match fuel with
    | O => Fault OutOfFuel
    | S fuel =>
        match symbols !! Z.to_nat i with
        | None => Fault OutOfBounds
        | Some t => push_symbols fuel (u64 (i + 1)) s symbols (bt ++ [t])
        end
    end
  else Ret bt.

(** [Backtrace(bt, size, skip)]: [stack] are the texts of the frames,
    [symbols_ok] whether [backtrace_symbols] found memory for them.  The result
    is the vector and the blocks still allocated. *)
Definition Backtrace (stack : list text) (symbols_ok : bool) (bt : list text) (size skip : Z)
    : outcome (list text * list block) :=
  let heap := [block_array] in
  let s := Z.min (Z.max 0 size) (Zlen stack) in
  if negb symbols_ok then Ret (bt, heap)
  else
    let strings := take (Z.to_nat s) stack in
    let heap := block_strings :: heap in
    let! bt := push_symbols (S (Z.to_nat s)) (u64 skip) s strings bt in
    Ret (bt, free_block block_array (free_block block_strings heap)).

(** [BacktraceToString(size, skip, prefix)]. *)
Definition BacktraceToString (stack : list text) (symbols_ok : bool) (size skip : Z) (prefix : text)
    : outcome text :=
  let! (bt, _) := Backtrace stack symbols_ok [] size skip in
  Ret (concat ((λ t, prefix ++ t ++ [ascii_of_N 10]) <$> bt)).

(** * Assertions *)

Definition nl : text := [ascii_of_N 10].
Definition rule_line : text := str "-- -- -- -- -- -- -- --".

(** What [APEXSTORM_ASSERT] and [APEXSTORM_ASSERT2] write to the log for the
    condition with the text [x], before [assert] stops the program. *)
Definition assert_message (stack : list text) (symbols_ok : bool) (x : text) (w : option text)
    : outcome text :=
  let! bt := BacktraceToString stack symbols_ok 100 2 (str "*" ++ [ascii_of_N 9]) in
  Ret (nl ++ rule_line ++ nl ++ str "*  Assertion: " ++ x ++
       match w with
       | None => []
       | Some w => nl ++ str "-- message:" ++ nl ++ str "*  " ++ w
       end ++ nl ++ str "-- backtrace:" ++ nl ++ bt ++ rule_line).
Definition APEXSTORM_ASSERT (x : bool) : outcome unit := if x then Ret tt else Fault AssertFailed.

(** * Type names *)

(** A type as [typeid] and the type traits see it: the demangled name without
    qualifiers, those of the type or of what it refers to, the reference. *)
Inductive reference := no_reference | lvalue_reference | rvalue_reference.
Record cpp_type := mkType { ty_name : text; ty_const : bool; ty_volatile : bool; ty_ref : reference }.

(** [demangled] is what [__cxa_demangle] gives, null when it fails. *)
Definition cpp_type_name (demangled : option text) (T : cpp_type) : outcome text :=
  match demangled with
  | None => Throw std_logic_error
  | Some s =>
      Ret (s ++ (if ty_const T then str " const" else []) ++
           (if ty_volatile T then str " volatile" else []) ++
           match ty_ref T with
           | no_reference => []
           | lvalue_reference => str " &"
           | rvalue_reference => str " &&"
           end)
  end.
(** [cpp_value_type_name(value)]: the parameter is taken by value, and [T] is
    deduced without reference and qualifiers. *)
Definition cpp_value_type_name (demangled : option text) (T : cpp_type) : outcome text :=
  cpp_type_name demangled (mkType (ty_name T) false false no_reference).

(** * Singletons *)

(** An instantiation of [Singleton] or [SingletonPtr]: the type, the tag and
    the index.  The static objects made so far are numbered. *)
Definition instantiation : Type := text * text * Z.
Record statics := mkStatics { st_objects : gmap instantiation nat; st_made : nat }.

Definition GetInstance (i : instantiation) (s : statics) : nat * statics :=
  match st_objects s !! i with
  | Some p => (p, s)
  | None => (st_made s, mkStatics (<[i := st_made s]> (st_objects s)) (S (st_made s)))
  end.

(** * Properties *)

(** A clock after 1970 that counts microseconds in 64 bits. *)
Definition clock_ok (tv : timeval) : Prop :=
  0 ≤ tv_sec tv ∧ 0 ≤ tv_usec tv < 1000000 ∧ tv_sec tv * 1000000 + 1000000 ≤ 2 ^ 64.

(** The two clocks agree: the first is the second in whole milliseconds. *)
Lemma clocks_agree tv :
  clock_ok tv → GetCurrentUS tv = tv_sec tv * 1000000 + tv_usec tv ∧
    GetCurrentMS tv = GetCurrentUS tv / 1000.
Proof.
  intros (Hs & Hu & Hm). unfold GetCurrentUS, GetCurrentMS.
  assert (0 ≤ Z.quot (tv_usec tv) 1000 < 1000) as Hq
    by (rewrite Z.quot_div_nonneg by lia; split;
        [apply Z.div_pos|apply Z.div_lt_upper_bound]; lia).
  rewrite (u64_small (tv_sec tv)), (u64_small (tv_usec tv)), (u64_small (Z.quot _ _)) by lia.
  rewrite (u64_small (tv_sec tv * 1000)) by lia.
  rewrite (u64_small (tv_sec tv * 1000 * 1000)) by lia. rewrite !u64_small by lia. split; [lia|].
  rewrite Z.quot_div_nonneg by lia.
  replace (tv_sec tv * 1000 * 1000 + tv_usec tv) with (tv_usec tv + tv_sec tv * 1000 * 1000) by lia.
  rewrite Z.div_add by lia. lia.
Qed.

Lemma push_symbols_all symbols : ∀ fuel i bt,
  Zlen symbols < 2 ^ 62 → (length symbols - i < fuel)%nat →
  push_symbols fuel (Z.of_nat i) (Zlen symbols) symbols bt = Ret (bt ++ drop i symbols).
Proof.
  intros fuel. induction fuel as [|fuel IH]; intros i bt Hb Hf; [lia|]. cbn [push_symbols].
  unfold Zlen in *. destruct (Z.ltb_spec (Z.of_nat i) (Z.of_nat (length symbols))).
  - rewrite Nat2Z.id. destruct (lookup_lt_is_Some_2 symbols i) as [t Ht]; [lia|]. rewrite Ht.
    rewrite u64_small by lia. replace (Z.of_nat i + 1) with (Z.of_nat (S i)) by lia.
    rewrite IH by lia. rewrite (drop_S symbols t i Ht). by rewrite <- (assoc_L (++)).
  - rewrite drop_ge by lia. by rewrite app_nil_r.
Qed.

(** What a backtrace shows, and what it leaves allocated: the array is lost
    when the symbols cannot be had. *)
Lemma backtrace_shows stack ok bt size skip :
  0 ≤ skip → 0 ≤ size < 2 ^ 31 → skip < 2 ^ 31 →
  Backtrace stack ok bt size skip =
    Ret (if ok then (bt ++ drop (Z.to_nat skip) (take (Z.to_nat size) stack), [])
         else (bt, [block_array])).
Proof.
  intros Hk Hz Hk2. unfold Backtrace. destruct ok; [|done]. cbn [negb].
  set (s := Z.min (Z.max 0 size) (Zlen stack)).
  assert (take (Z.to_nat s) stack = take (Z.to_nat size) stack) as E.
  { unfold s, Zlen. destruct (decide (size ≤ Z.of_nat (length stack))).
    - f_equal. lia.
    - rewrite !take_ge by lia. done. }
  assert (Zlen (take (Z.to_nat size) stack) = s) as El
    by (unfold s, Zlen; rewrite length_take; lia).
  rewrite E, u64_small by lia. rewrite <- El at 2. rewrite <- (Z2Nat.id skip) at 1 by lia.
  rewrite push_symbols_all; unfold Zlen in *; [done|lia..].
Qed.

(** Types that differ in their qualifiers or reference have different names. *)
Lemma type_name_tells s T U :
  cpp_type_name (Some s) T = cpp_type_name (Some s) U →
  ty_const T = ty_const U ∧ ty_volatile T = ty_volatile U ∧ ty_ref T = ty_ref U.
Proof.
  unfold cpp_type_name. intros H. injection H as H. apply app_inv_head in H.
  destruct T as [n [] [] []], U as [n' [] [] []]; cbn in H; try discriminate; done.
Qed.

(** Every object made has a number below the next one, and two instantiations
    have two objects. *)
Definition statics_ok (s : statics) : Prop :=
  (∀ i p, st_objects s !! i = Some p → (p < st_made s)%nat) ∧
  (∀ i j p, st_objects s !! i = Some p → st_objects s !! j = Some p → i = j).

Lemma singleton_ok i s : statics_ok s → statics_ok (GetInstance i s).2.
Proof.
  intros [Hb Hi]. unfold GetInstance. destruct (st_objects s !! i) eqn:E; [by split|].
  split; cbn [st_objects st_made snd].
  - intros j p. rewrite lookup_insert_Some. intros [[_ <-]|[_ H]]; [lia|]. apply Hb in H. lia.
  - intros j k p. rewrite !lookup_insert_Some.
    intros [[<- <-]|[Hj H1]] [[<- H]|[Hk H2]]; try done.
    + apply Hb in H2. lia.
    + subst. apply Hb in H1. lia.
    + by eapply Hi.
Qed.

(** One object for each instantiation, whatever was asked for in between, and
    not the same for two. *)
Lemma singleton_one i j s (js : list instantiation) :
  statics_ok s →
  let '(p, s1) := GetInstance i s in
  let s2 := foldl (λ s j, (GetInstance j s).2) s1 js in
  (GetInstance i s2).1 = p ∧ (j ≠ i → (GetInstance j s2).1 ≠ p).
Proof.
  intros Hok. destruct (GetInstance i s) as [p s1] eqn:E.
  assert (statics_ok s1 ∧ st_objects s1 !! i = Some p) as H.
  { pose proof (singleton_ok i s Hok) as H. rewrite E in H. split; [done|].
    unfold GetInstance in E. destruct (st_objects s !! i) eqn:Ei; injection E as <- <-; [done|].
    cbn. by rewrite lookup_insert_eq. }
  clear E. revert s1 H. induction js as [|k js IH]; intros s1 [H1 H2].
  - cbn. unfold GetInstance. rewrite H2. split; [done|]. intros Hj.
    destruct (st_objects s1 !! j) as [q|] eqn:Ej; cbn.
    + intros ->. apply Hj. by eapply (proj2 H1).
    + apply (proj1 H1) in H2. lia.
  - cbn [foldl]. apply IH. split; [by apply singleton_ok|]. unfold GetInstance.
    destruct (st_objects s1 !! k) eqn:Ek; [done|]. cbn. rewrite lookup_insert_ne; [done|]. congruence.
Qed.
