(* ===== verification/Lifetime.v ===== *)
(** The life of schedulers and managers: the thread-local pointers of
    scheduler.cpp, the whole of [stop] with its join, the destructors of
    [Scheduler] and [IOManager] and the constructor of the latter.

    Objects are numbered; [t_scheduler] gives for a thread the scheduler it
    belongs to, no entry stands for the null pointer. *)

From S2P Require Import Prelude OrderedSet Timer Fiber Scheduler SchedulerTheorems IOManager.

#[local] Open Scope Z_scope.

(** * The scheduler of a thread *)

Abbreviation schedulers := (gmap nat nat).

(** Scheduler::GetThis and Scheduler::setThis. *)
Definition Scheduler_GetThis (t : nat) (l : schedulers) : option nat := l !! t.
Definition setThis (t this : nat) (l : schedulers) : schedulers := <[t := this]> l.

(** Scheduler::GetMainFiber: [t_fiber] of scheduler.cpp. *)
Definition GetMainFiber (t : nat) : M World (option nat) := get_local t t_main.

(** IOManager::GetThis; [is_io] says which objects are managers. *)
Definition IOManager_GetThis (is_io : nat → bool) (t : nat) (l : schedulers) : option nat :=
  p ← Scheduler_GetThis t l; if is_io p then Some p else None.

(** The constructor of the object [this] in the thread [caller], with the
    pointer it tests and sets. *)
Definition construct (stack_size : Z) (this caller : nat) (id threads : Z) (use_caller : bool)
    (w : World) (l : schedulers) : outcome (Sys * schedulers) :=
  let! s := Scheduler_new stack_size caller id (bool_decide (is_Some (Scheduler_GetThis caller l)))
              threads use_caller w in
  Ret (s, if use_caller then setThis caller this l else l).

(** * Stopping *)

(** [stop] until it joins: whether it has returned at once. *)
Definition stop_begin (this_is_current : bool) (s : Sys) : outcome (bool * Sys) :=
  let root_state := f ← m_rootFiber (sched s); m_state <$> fibers (world s) !! f in
  let! (at_once, c) := stop_flags this_is_current root_state (sched s) in
  let s := with_sched c s in
  if at_once then Ret (true, s)
  else match m_rootFiber c with
       | None => Ret (false, s)
       | Some root =>
           let! (_, s) := on_world (call (length (workers s)) root) s in
           Ret (false, mkSys (world s) (sched s) (workers s ++ [new_worker (m_rootThread c)]))
       end.
Definition stop_in (this t : nat) (l : schedulers) (s : Sys) : outcome (bool * Sys) :=
  stop_begin (bool_decide (Scheduler_GetThis t l = Some this)) s.

(** The end of [stop]: the threads are swapped out and joined; [None] while
    one of them, or the root fiber, still runs. *)
Definition is_done (th : worker) : bool := bool_decide (th_pc th = P_done).
Definition stop_join (s : Sys) : option Sys :=
  if forallb is_done (workers s) then
    let c := sched s in
    Some (with_sched (mkScheduler [] (m_fibers c) (m_rootFiber c) (m_threadCount c)
            (m_activeThreadCount c) (m_idleThreadCount c) (m_stopping c) (m_autoStop c)
            (m_rootThread c) (tickles c)) s)
  else None.

(** Scheduler::~Scheduler, called in the thread [t]. *)
Definition Scheduler_delete (this t : nat) (c : Scheduler) (l : schedulers) : outcome schedulers :=
  if negb (m_stopping c) then Fault AssertFailed
  else Ret (if bool_decide (Scheduler_GetThis t l = Some this) then delete t l else l).

(** * The manager *)

(** The constructor of IOManager around the calls of the kernel: [epfd] is the
    answer of epoll_create, the others those of pipe, fcntl and epoll_ctl. *)
Definition IOManager_construct (epfd rt_pipe rt_fcntl rt_ctl : Z) (s : Scheduler) (t : TimerManager)
    (w : World) : outcome IOManager :=
  if negb (0 <? epfd) then Fault AssertFailed
  else if negb (rt_pipe =? 0) then Fault AssertFailed
  else if negb (rt_fcntl =? 0) then Fault AssertFailed
  else if negb (rt_ctl =? 0) then Fault AssertFailed
  else Ret (IOManager_new s t w).

(** [stop] of a manager, which calls its own [stopping] and [tickle]. *)
Definition io_stop_flags (now : Z) (this_is_current : bool) (root_state : option State)
    (m : IOManager) : outcome (bool * IOManager) :=
  let m := with_io_sched (with_flags (m_stopping (io_sched m)) true (io_sched m)) m in
  let no_pool := negb (m_rootThread (io_sched m) =? 0) && (m_threadCount (io_sched m) =? 0) in
  let ended := match root_state with Some (TERM | INIT) => true | _ => false end in
  if no_pool && negb (bool_decide (is_Some root_state)) then Fault NullDeref
  else
    let m := if no_pool && ended then with_io_sched (with_flags true true (io_sched m)) m else m in
    let '(b, m) := (if no_pool && ended then let '(b, _, m) := io_stopping now m in (b, m)
                    else (false, m)) in
    if b then Ret (true, m)
    else if negb (Bool.eqb this_is_current (negb (m_rootThread (io_sched m) =? -1)))
    then Fault AssertFailed
    else
      let m := with_io_sched (with_flags true true (io_sched m)) m in
      let m := Nat.iter (Z.to_nat (m_threadCount (io_sched m))) io_tickle m in
      let m := match m_rootFiber (io_sched m) with Some _ => io_tickle m | None => m end in
      let '(b, _, m) := io_stopping now m in Ret (b, m).

(** What IOManager::~IOManager releases once [stop] has returned, before the
    destructor of the base: the descriptors it closes and the contexts it
    deletes, in order. *)
Inductive release := rel_close (fd : Z) | rel_delete (ctx : nat).
Definition IOManager_release (epfd r w : Z) (m : IOManager) : list release :=
  [rel_close epfd; rel_close r; rel_close w] ++
  (rel_delete <$> seq 0 (length (m_fdContexts m))).
Definition IOManager_delete (this t : nat) (epfd r w : Z) (m : IOManager) (l : schedulers)
    : outcome (list release * schedulers) :=
  let! l := Scheduler_delete this t (io_sched m) l in Ret (IOManager_release epfd r w m, l).

(** * Properties *)

(** A thread that has a scheduler cannot construct another one on itself; once
    the first is destroyed there, it has none. *)
Lemma one_scheduler_per_thread stack this other t id threads w l s l' r :
  construct stack this t id threads true w l = Ret (s, l') →
  construct stack other t id threads true (world s) l' ≠ Ret r ∧
  ∀ c l2, Scheduler_delete this t c l' = Ret l2 → Scheduler_GetThis t l2 = None.
Proof.
  intros H. unfold construct in H. apply obind_Ret in H as (s0 & _ & E). injection E as <- <-.
  assert (Scheduler_GetThis t (setThis t this l) = Some this) as Hl
    by (unfold Scheduler_GetThis, setThis; by rewrite lookup_insert_eq).
  split.
  - unfold construct. rewrite Hl, bool_decide_eq_true_2 by eauto. unfold Scheduler_new.
    destruct (negb _); [done|]. by destruct (on_world _ _) as [[? ?]| |].
  - intros c l2. unfold Scheduler_delete. destruct (negb (m_stopping c)); [done|].
    rewrite Hl, bool_decide_eq_true_2 by done. intros [= <-].
    unfold Scheduler_GetThis. by rewrite lookup_delete_eq.
Qed.

Lemma tickles_flags n c :
  m_stopping (Nat.iter n tickle c) = m_stopping c ∧ m_autoStop (Nat.iter n tickle c) = m_autoStop c.
Proof. by induction n. Qed.

Lemma stop_flags_sets cur r c b c' : stop_flags cur r c = Ret (b, c') → m_stopping c' = true.
Proof.
  unfold stop_flags. intros H. apply obind_Ret in H as (c1 & H1 & H).
  case_match eqn:E.
  - injection H as <- <-. apply andb_true_iff in E as [_ E]. unfold stopping in E.
    by destruct (m_stopping c1); [|rewrite andb_false_r in E].
  - case_match; [done|]. injection H as _ <-.
    destruct (m_rootFiber (Nat.iter _ _ _)); exact (proj1 (tickles_flags (Z.to_nat (m_threadCount c1)) (with_flags true true c1))).
Qed.

(** After [stop], whichever way it returns, the assertion of the destructor
    holds. *)
Lemma stopped_can_be_deleted cur s b s' this t l :
  stop_begin cur s = Ret (b, s') → ∃ l', Scheduler_delete this t (sched s') l = Ret l'.
Proof.
  intros H. assert (m_stopping (sched s') = true) as Hs.
  { unfold stop_begin in H. apply obind_Ret in H as ([at_once c] & Hf & H).
    apply stop_flags_sets in Hf. destruct at_once; [by injection H as _ <-|].
    cbn [sched with_sched] in H. destruct (m_rootFiber c); [|by injection H as _ <-].
    apply obind_Ret in H as ([u s2] & Hc & H). injection H as _ <-.
    unfold on_world in Hc. destruct (call _ _ _) as [[| |] w]; try done. by injection Hc as _ <-. }
  unfold Scheduler_delete. rewrite Hs. cbn [negb]. by eexists.
Qed.

(** ** What the machine never changes *)

Definition setup (c : Scheduler) : option nat * Z * Z * list Z :=
  (m_rootFiber c, m_rootThread c, m_threadCount c, m_threads c).

Lemma on_world_setup {A} (c : M World A) s a s' :
  on_world c s = Ret (a, s') → sched s' = sched s.
Proof.
  unfold on_world. destruct (c (world s)) as [[| |] w]; [|done..]. by intros [= _ <-].
Qed.

Lemma schedule_setup fc tid c : setup (schedule fc tid c) = setup c.
Proof. unfold schedule, scheduleNoLock. by destruct (has_task _), (bool_decide _). Qed.

Ltac same_setup :=
  repeat match goal with
  | H : obind _ _ = Ret _ |- _ => apply obind_Ret in H as (? & ? & ?)
  | H : on_world _ _ = Ret (_, _) |- _ => apply on_world_setup in H
  | H : on_world _ _ = Ret ?p |- _ => destruct p
  | H : Ret _ = Ret _ |- _ => injection H as <-
  | H : context [match ?x with _ => _ end] |- _ => destruct x; try discriminate
  end; cbn [sched with_sched set_worker with_world]; rewrite ?schedule_setup;
  try reflexivity; try congruence.

Lemma run_step_setup stack i th s s' :
  run_step stack i th s = Some (Ret s') → setup (sched s') = setup (sched s).
Proof.
  unfold run_step. destruct (th_pc th) as [| | | | |k f|[] f|k f []|[] f|k f|k f|];
    intros H; try discriminate; apply (inj Some) in H.
  all: unfold run_start, run_search, run_branch, run_cb, run_after, idle in H; same_setup.
  by destruct (tickle_me th).
Qed.

Lemma stop_flags_setup cur r c b c' : stop_flags cur r c = Ret (b, c') → setup c' = setup c.
Proof.
  assert (∀ n c, setup (Nat.iter n tickle c) = setup c) as Hit
    by (intros n; induction n as [|n IH]; intros c0; [done|]; simpl; by rewrite <- (IH c0)).
  unfold stop_flags. intros H. apply obind_Ret in H as (c1 & H1 & H2).
  assert (setup c1 = setup c) as <- by (repeat case_match; by simplify_eq). clear H1.
  case_match; [by injection H2 as _ <-|]. case_match; [done|]. injection H2 as _ <-.
  destruct (m_rootFiber (Nat.iter _ _ _)); exact (Hit (Z.to_nat (m_threadCount c1)) (with_flags true true c1)).
Qed.

Lemma exec_setup stack l s s' : exec stack l s = Some (Ret s') → setup (sched s') = setup (sched s).
Proof.
  destruct l as [i|i a|fc tid|c|cur]; cbn [exec].
  - destruct (workers s !! i); [|done]. apply run_step_setup.
  - destruct (workers s !! i) as [th|]; [|done]. cbn. unfold task_step.
    destruct (th_pc th) as [| | | | | |[] f| | | | |]; try done;
      destruct a; intros H; apply (inj Some) in H; same_setup.
  - intros H. apply (inj Some) in H. same_setup.
  - intros H. apply (inj Some) in H. same_setup.
  - destruct (decide _); [|done]. intros H. apply (inj Some) in H. unfold stop in H.
    apply obind_Ret in H as ([b c] & Hf & H). apply stop_flags_setup in Hf. same_setup.
    by rewrite H.
Qed.

(** In a scheduler that does not use its caller there is no root fiber. *)
Lemma pool_setup stack id ids s :
  reachable stack false id ids s → setup (sched s) = (None, -1, Zlen ids, ids) ∧ 0 < Zlen ids.
Proof.
  induction 1 as [s H|s l s' _ [IH Hl] H].
  - unfold boot in H. apply obind_Ret in H as (s0 & H0 & H). unfold Scheduler_new in H0.
    destruct (Z.ltb_spec 0 (Zlen ids)); [|done]. cbn in H0. injection H0 as <-.
    cbn in H. by injection H as <-.
  - split; [|done]. rewrite <- IH. by eapply exec_setup.
Qed.

(** C34. Stopping a scheduler that has nothing to do returns at once: the
    threads of the pool are not joined, each of them is still where it was in
    [run], and the assertion of the destructor holds; so the object can be
    destroyed while its threads use it. *)
Theorem idle_stop_does_not_join (stack id : Z) (ids : list Z) (s : Sys) (this t : nat)
    (l : schedulers) :
  reachable stack false id ids s → Scheduler_GetThis t l ≠ Some this →
  m_fibers (sched s) = [] → m_activeThreadCount (sched s) = 0 →
  ∃ s', stop_in this t l s = Ret (true, s') ∧ workers s' = workers s ∧
    m_threads (sched s') = ids ∧ Scheduler_delete this t (sched s') l = Ret l.
Proof.
  intros Hr Ht Hf Ha. destruct (pool_setup _ _ _ _ Hr) as [Hs Hl].
  unfold setup in Hs. injection Hs as Hroot Hrt Htc Hth.
  assert (∃ c, stop_flags false None (sched s) = Ret (true, c)) as [c Hc].
  { unfold stop_flags. cbn [m_rootThread m_threadCount with_flags].
    rewrite Hrt, Htc. destruct (Z.eqb_spec (Zlen ids) 0) as [|En]; [lia|].
    rewrite andb_false_r. cbn [obind].
    cbn [Z.eqb m_rootThread m_threadCount with_flags]. rewrite Hrt, Htc.
    destruct (Z.eqb_spec (Zlen ids) 0) as [|_]; [lia|]. rewrite andb_false_r.
    cbn [negb andb Z.eqb Pos.eqb Bool.eqb].
    match goal with |- context [Nat.iter ?n tickle ?c] =>
      destruct (tickles_frame n c) as (E1 & _ & _ & E2 & E3), (tickles_flags n c) as [E4 E5] end.
    rewrite E3. cbn [m_rootFiber with_flags]. rewrite Hroot. eexists. unfold stopping.
    rewrite E1, E2, E4, E5. cbn [m_fibers m_activeThreadCount m_autoStop m_stopping with_flags].
    by rewrite Hf, Ha. }
  pose proof (stop_flags_frame _ _ _ _ _ Hc) as (_ & _ & Hth' & _).
  pose proof (stop_flags_sets _ _ _ _ _ Hc) as Hst.
  exists (with_sched c s). unfold stop_in, stop_begin.
  rewrite bool_decide_eq_false_2, Hroot by done. cbn [mbind option_bind]. rewrite Hc. cbn [obind].
  split_and!; [done|done|cbn; congruence|].
  unfold Scheduler_delete. cbn [sched with_sched]. rewrite Hst. cbn [negb].
  by rewrite bool_decide_eq_false_2.
Qed.

(** One thread in the pool, which has not even begun to run. *)
Lemma idle_stop_does_not_join_witness :
  ∃ s s', boot 1024 false 7 [8] = Ret s ∧ stop_in 0 0 ∅ s = Ret (true, s') ∧
    workers s' = [new_worker 8] ∧ Scheduler_delete 0 0 (sched s') ∅ = Ret ∅.
Proof.
  destruct (boot 1024 false 7 [8]) as [s| |] eqn:E; [|discriminate..].
  destruct (idle_stop_does_not_join 1024 7 [8] s 0 0 ∅) as (s' & H1 & H2 & _ & H4).
  - by apply reachable_boot.
  - unfold Scheduler_GetThis. by rewrite lookup_empty.
  - vm_compute in E. by injection E as <-.
  - vm_compute in E. by injection E as <-.
  - exists s, s'. rewrite H2. split_and!; [done|done| |done]. vm_compute in E. by injection E as <-.
Defined.

(** When [stop] gets to its end, no worker is in [run] any more. *)
Lemma joined_workers_done s s' : stop_join s = Some s' →
  Forall (λ th, th_pc th = P_done) (workers s') ∧ m_threads (sched s') = [].
Proof.
  unfold stop_join. destruct (forallb is_done (workers s)) eqn:E; [|done]. intros [= <-].
  split; [|done]. apply Forall_forall. intros th Hth. cbn in Hth.
  rewrite forallb_forall in E. apply list_elem_of_In in Hth.
  by apply E, bool_decide_eq_true in Hth.
Qed.

(** A manager whose [stop] returns at once waits for no event and no task. *)
Lemma manager_stops_at_once now cur r m m' :
  io_stop_flags now cur r m = Ret (true, m') →
  m_pendingEventCount m' = 0 ∧ m_fibers (io_sched m') = [] ∧ m_activeThreadCount (io_sched m') = 0 ∧
  m_stopping (io_sched m') = true.
Proof.
  assert (∀ m b t m2, io_stopping now m = (b, t, m2) → b = true →
    m_pendingEventCount m2 = 0 ∧ m_fibers (io_sched m2) = [] ∧
    m_activeThreadCount (io_sched m2) = 0 ∧ m_stopping (io_sched m2) = true) as Hst.
  { intros m0 b t m2. unfold io_stopping. destruct (getNextTimer now (io_timers m0)) as [tm T].
    intros [= <- <- <-]. unfold stopping. rewrite !andb_true_iff, !Z.eqb_eq, bool_decide_eq_true.
    cbn. naive_solver. }
  unfold io_stop_flags. case_match; [done|].
  match goal with |- context [if ?x then with_io_sched _ _ else _] => destruct x end.
  - destruct (io_stopping now _) as [[b1 t1] m2] eqn:E1.
    destruct b1; [intros [= <-]; by eapply Hst|]. case_match; [done|].
    destruct (io_stopping now _) as [[b3 t3] m3] eqn:E3 in |- *. intros [= -> <-]. by eapply Hst.
  - case_match; [done|]. destruct (io_stopping now _) as [[b3 t3] m3] eqn:E3.
    intros [= -> <-]. by eapply Hst.
Qed.
