(* ===== verification/HookInit.v ===== *)
(** The start of the hooks: hook_init, the static object that runs it and
    follows the configured timeout, and the calls of hook.cpp that only pass
    on: connect and getsockopt.

    What [dlsym] answers is an argument.  [listener] is the number of the
    listener the object adds; its effect is applied to the calls recorded by
    the configuration variable. *)

From S2P Require Import Prelude Http Address Config FdManager Hook.

#[local] Open Scope string_scope.
#[local] Open Scope list_scope.
#[local] Open Scope Z_scope.

(** HOOK_FUN. *)
Definition HOOK_FUN : list string :=
  ["sleep"; "usleep"; "nanosleep"; "socket"; "connect"; "accept"; "read"; "readv"; "recv";
   "recvfrom"; "recvmsg"; "write"; "writev"; "send"; "sendto"; "sendmsg"; "close"; "fcntl";
   "ioctl"; "getsockopt"; "setsockopt"].

(** The static variables; [originals] are the pointers [sleep_f] to
    [setsockopt_f], [looked_up] counts the calls of dlsym. *)
Record HookStatics := mkHookStatics {
  is_inited : bool;
  originals : gmap string Z;
  looked_up : nat;
  s_connect_timeout : Z;
}.

Definition hook_init (dlsym : string → Z) (h : HookStatics) : HookStatics :=
  if is_inited h then h
  else foldl (λ h name, mkHookStatics (is_inited h) (<[name := dlsym name]> (originals h))
                          (S (looked_up h)) (s_connect_timeout h)) h HOOK_FUN.

Definition with_connect_timeout (v : Z) (h : HookStatics) : HookStatics :=
  mkHookStatics (is_inited h) (originals h) (looked_up h) v.

(** Before the constructor of [s_hook_initer] has run. *)
Definition hook_statics0 : HookStatics := mkHookStatics false ∅ 0 u64_max.

Section init.
Context {base B : Type} `{EqDecision base} `{Libs base B}.
(** The [int] a value of tcp.connect.timeout holds. *)
Context (int_of : val B → Z) (listener : nat).

(** _HookIniter::_HookIniter. *)
Definition HookIniter_new (dlsym : string → Z) (s_fun_id : Z) (h : HookStatics)
    (c : ConfigVar (base := base) (B := B)) : HookStatics * Z * ConfigVar (base := base) (B := B) :=
  let h := hook_init dlsym h in
  let h := with_connect_timeout (u64 (int_of (getValue c))) h in
  let '(_, s_fun_id, c) := addListener listener s_fun_id c in
  (h, s_fun_id, c).

(** The listener, for the calls recorded in [log]. *)
Definition timeout_changed (h : HookStatics) (n : notification (B := B)) : HookStatics :=
  let '(cb, _, new_value) := n in
  if (cb =? listener)%nat then with_connect_timeout (u64 (int_of new_value)) h else h.
Definition heard (log : list (notification (B := B))) (h : HookStatics) : HookStatics :=
  foldl timeout_changed h log.
End init.

(** The hooked connect. *)
Definition hook_connect {K} `{!Kernel K} (h : HookStatics) (iom : bool) (fd : Z) (conn : Z * Z)
    (added : Z) (fired : bool) (so_error : Z * Z) (s : HookState K)
    : outcome (Z * Z * list request) :=
  connect_with_timeout iom fd (s_connect_timeout h) conn added fired so_error s.

(** The hooked getsockopt. *)
Definition hook_getsockopt {A} (getsockopt_f : Z → Z → Z → A) (sockfd level optname : Z) : A :=
  getsockopt_f sockfd level optname.

(** * Properties *)

(** Every pointer is set by the first call, and [is_inited] is never: each
    further call asks for all of them again. *)
Lemma hook_init_repeats dlsym h :
  is_inited h = false →
  let h' := hook_init dlsym h in
  is_inited h' = false ∧ looked_up h' = (looked_up h + 21)%nat ∧
  Forall (λ name, originals h' !! name = Some (dlsym name)) HOOK_FUN.
Proof.
  intros Hi. unfold hook_init. rewrite Hi. cbn [foldl HOOK_FUN is_inited looked_up originals].
  split; [done|]. split; [lia|].
  repeat constructor;
    repeat (rewrite lookup_insert_ne by discriminate); apply lookup_insert_eq.
Qed.

Section follows.
Context {base B : Type} `{EqDecision base} `{Libs base B}.
Context (int_of : val B → Z) (listener : nat) (throws : nat → val B → val B → bool).
(** The listeners do not throw. *)
Context (quiet : ∀ cb v w, throws cb v w = false).

Abbreviation var := (ConfigVar (base := base) (B := B)).

Lemma notify_calls_all old new l : ∀ log,
  notify throws old new l log = (true, log ++ ((λ x, (snd x, old, new)) <$> l)).
Proof.
  induction l as [|[key cb] l IH]; intros log; cbn [notify]; [by rewrite app_nil_r|].
  rewrite quiet, IH. by rewrite <- (assoc_L (++)).
Qed.

Lemma heard_app log log' h : heard int_of listener (log ++ log') h =
  heard int_of listener log' (heard int_of listener log h).
Proof. apply foldl_app. Qed.

Lemma heard_round old new l h :
  listener ∈ l.*2 →
  s_connect_timeout (heard int_of listener ((λ x : Z * nat, (snd x, old, new)) <$> l) h) = u64 (int_of new).
Proof.
  assert (∀ l h, s_connect_timeout h = u64 (int_of new) →
    s_connect_timeout (heard int_of listener ((λ x : Z * nat, (snd x, old, new)) <$> l) h)
      = u64 (int_of new)) as Hk.
  { intros l0. induction l0 as [|[key cb] l0 IH]; intros h0 E; [done|]. apply IH. cbn.
    by destruct (cb =? listener)%nat. }
  revert h. induction l as [|[key cb] l IH]; intros h; [by rewrite elem_of_nil|].
  cbn [fmap list_fmap snd]. rewrite elem_of_cons. intros [E|Hin].
  - apply Hk. cbn. subst. by rewrite Nat.eqb_refl.
  - by apply IH.
Qed.

Lemma callbacks_set_has key cb l : cb ∈ (callbacks_set key cb l).*2.
Proof.
  induction l as [|[k c] l IH]; cbn; [by apply list_elem_of_singleton|].
  repeat case_match; cbn; rewrite ?elem_of_cons; auto.
Qed.

(** The timeout of connect follows tcp.connect.timeout: after the static
    object was made and any values were assigned, it is the value of the
    variable, as an unsigned number. *)
Theorem connect_timeout_follows (dlsym : string → Z) (s_fun_id : Z) (h : HookStatics) (c : var)
    (vs : list (val B)) :
  let '(h1, _, c1) := HookIniter_new int_of listener dlsym s_fun_id h c in
  let '(c2, log) := foldl (λ '(c, log) v, let '(_, c, log) := setValue throws v c log in (c, log))
                      (c1, []) vs in
  s_connect_timeout (heard int_of listener log h1) = u64 (int_of (getValue c2)).
Proof.
  unfold HookIniter_new. destruct (addListener listener s_fun_id c) as [[key id] c1] eqn:E.
  assert (listener ∈ (cv_callbacks c1).*2 ∧ getValue c1 = getValue c) as [Hin Hv]
    by (unfold addListener in E; injection E as _ _ <-; split; [apply callbacks_set_has|done]).
  set (h1 := with_connect_timeout _ _).
  assert (s_connect_timeout (heard int_of listener [] h1) = u64 (int_of (getValue c1))) as Hs
    by (by rewrite Hv).
  clear E Hv. revert Hin Hs. generalize (@nil (notification (B := B))).
  revert c1. induction vs as [|v vs IH]; intros c1 log Hin Hs; [done|]. cbn [foldl].
  unfold setValue. destruct (val_eqb (cv_type c1) v (cv_val c1)); [by apply IH|].
  rewrite notify_calls_all. apply IH; [done|]. rewrite heard_app. by apply heard_round.
Qed.
End follows.
